(** * Simpleboot x86 loader: a shallow embedding of [loader_x86.c]

    The development follows the source file function by function.  C
    integers are [Z] with the wrap-around of their width written out, a
    [char*] into a NUL-terminated buffer is the suffix of the buffer it
    points at, physical memory is a function from addresses to values, and
    loops are structural recursions or fuelled iterations whose fuel is
    computed from the loop bound. *)

From Stdlib Require Import ZArith List Bool Lia String Ascii.
Import ListNotations.
Open Scope Z_scope.

(** ** Machine integers and C strings *)

Definition u8  (x : Z) : Z := x mod 2^8.
Definition u16 (x : Z) : Z := x mod 2^16.
Definition u32 (x : Z) : Z := x mod 2^32.
Definition u64 (x : Z) : Z := x mod 2^64.

(** [x & ~4095], [x & ~7] and [x & ~1023] on an unsigned value. *)
Definition page_down (x : Z) : Z := x - x mod 4096.
Definition align8_down (x : Z) : Z := x - x mod 8.

Definition byte_of_ascii (c : ascii) : Z := Z.of_N (N_of_ascii c).

Fixpoint lit (s : string) : list Z :=
  match s with
  | EmptyString => []
  | String c s' => byte_of_ascii c :: lit s'
  end.

Definition ch (s : string) : Z := hd 0 (lit s).

Definition CR : Z := 13.
Definition LF : Z := 10.
Definition SP : Z := 32.
Definition TAB : Z := 9.

(** [*p] for a pointer into a NUL-terminated buffer; reading at the end of
    the list reads the terminator. *)
Definition deref (p : list Z) : Z := hd 0 p.

(** [!memcmp(p, lit, strlen(lit))] for a literal without NUL bytes: the
    comparison stops at the first difference, and the terminator of the
    buffer differs from every byte of the literal. *)
Fixpoint starts_with (l p : list Z) : bool :=
  match l, p with
  | [], _ => true
  | _ :: _, [] => false
  | c :: l', d :: p' => (c =? d) && starts_with l' p'
  end.

(** [p + n] *)
Definition advance (n : nat) (p : list Z) : list Z := skipn n p.

(** Pointers into the same buffer are compared by what is left behind them. *)
Definition ptr_lt (a e : list Z) : bool := (List.length e <? List.length a)%nat.
Definition ptr_ge (a e : list Z) : bool := negb (ptr_lt a e).

(** [getint]: decimal digits accumulated in a [uint32_t]. *)
Fixpoint getint_from (acc : Z) (p : list Z) : list Z * Z :=
  match p with
  | c :: p' =>
      if (ch "0" <=? c) && (c <=? ch "9")
      then getint_from (u32 (u32 (acc * 10) + (c - ch "0"))) p'
      else (p, acc)
  | [] => (p, acc)
  end.

Definition getint (p : list Z) : list Z * Z := getint_from 0 p.

(** [gethex]: at most two hexadecimal digits. *)
Definition hexdigit (c : Z) : option Z :=
  if (ch "0" <=? c) && (c <=? ch "9") then Some (c - ch "0")
  else if (ch "a" <=? c) && (c <=? ch "f") then Some (c - ch "a" + 10)
  else if (ch "A" <=? c) && (c <=? ch "F") then Some (c - ch "A" + 10)
  else None.

Fixpoint gethex_from (len : nat) (acc : Z) (p : list Z) : list Z * Z :=
  match len with
  | O => (p, acc)
  | S len' =>
      match hexdigit (deref p) with
      | Some d => gethex_from len' (u32 (u32 (Z.shiftl acc 4) + d)) (advance 1 p)
      | None => (p, acc)
      end
  end.

Definition gethex (p : list Z) : list Z * Z := gethex_from 2 0 p.

(** ** Video mode, console and the configuration state *)

(** The fields of [multiboot_tag_framebuffer_t vidmode] the loader reads. *)
Record vidmode_t := {
  framebuffer_addr : Z;
  framebuffer_pitch : Z;
  framebuffer_width : Z;
  framebuffer_height : Z;
  framebuffer_bpp : Z;
  framebuffer_red_field_position : Z;
  framebuffer_red_mask_size : Z;
  framebuffer_green_field_position : Z;
  framebuffer_green_mask_size : Z;
  framebuffer_blue_field_position : Z;
  framebuffer_blue_mask_size : Z
}.

Definition fb_channel (mask_size field_position v : Z) : Z :=
  Z.shiftl (if 8 <? mask_size then Z.shiftl v (mask_size - 8)
            else Z.shiftr v (8 - mask_size)) field_position.

(** The [FB_COLOR(r,g,b)] macro of [loader.h], stored in a [uint32_t]. *)
Definition FB_COLOR (vm : vidmode_t) (r g b : Z) : Z :=
  u32 (Z.lor (Z.lor
    (fb_channel (framebuffer_red_mask_size vm) (framebuffer_red_field_position vm) r)
    (fb_channel (framebuffer_green_mask_size vm) (framebuffer_green_field_position vm) g))
    (fb_channel (framebuffer_blue_mask_size vm) (framebuffer_blue_field_position vm) b)).

(** What the loader prints or draws while it parses the configuration. *)
Inductive event :=
| EvBootsplash
| EvAborted
| EvLoadingLogo (path : list Z) (size : Z)
| EvWarnUnableToLoad (path : list Z).

(** The globals [fw_loadconfig] writes. [kernel] and [cmdline] point into
    [conf_buf]; [None] is the NULL pointer. *)
Record config := {
  kernel : option (list Z);
  cmdline : option (list Z);
  verbose : Z;
  smp : Z;
  fb_w : Z;
  fb_h : Z;
  fb_bpp : Z;
  fb_bg : Z;
  tags_buf : Z;
  logo_buf : Z;
  logo_size : Z;
  console : list event
}.

Definition set_kernel (v : option (list Z)) (c : config) : config :=
  {| kernel := v; cmdline := cmdline c; verbose := verbose c; smp := smp c;
     fb_w := fb_w c; fb_h := fb_h c; fb_bpp := fb_bpp c; fb_bg := fb_bg c;
     tags_buf := tags_buf c; logo_buf := logo_buf c; logo_size := logo_size c;
     console := console c |}.
Definition set_cmdline (v : option (list Z)) (c : config) : config :=
  {| kernel := kernel c; cmdline := v; verbose := verbose c; smp := smp c;
     fb_w := fb_w c; fb_h := fb_h c; fb_bpp := fb_bpp c; fb_bg := fb_bg c;
     tags_buf := tags_buf c; logo_buf := logo_buf c; logo_size := logo_size c;
     console := console c |}.
Definition set_verbose (v : Z) (c : config) : config :=
  {| kernel := kernel c; cmdline := cmdline c; verbose := v; smp := smp c;
     fb_w := fb_w c; fb_h := fb_h c; fb_bpp := fb_bpp c; fb_bg := fb_bg c;
     tags_buf := tags_buf c; logo_buf := logo_buf c; logo_size := logo_size c;
     console := console c |}.
Definition set_smp (v : Z) (c : config) : config :=
  {| kernel := kernel c; cmdline := cmdline c; verbose := verbose c; smp := v;
     fb_w := fb_w c; fb_h := fb_h c; fb_bpp := fb_bpp c; fb_bg := fb_bg c;
     tags_buf := tags_buf c; logo_buf := logo_buf c; logo_size := logo_size c;
     console := console c |}.
Definition set_fb (w h bpp : Z) (c : config) : config :=
  {| kernel := kernel c; cmdline := cmdline c; verbose := verbose c; smp := smp c;
     fb_w := w; fb_h := h; fb_bpp := bpp; fb_bg := fb_bg c;
     tags_buf := tags_buf c; logo_buf := logo_buf c; logo_size := logo_size c;
     console := console c |}.
Definition set_fb_bg (v : Z) (c : config) : config :=
  {| kernel := kernel c; cmdline := cmdline c; verbose := verbose c; smp := smp c;
     fb_w := fb_w c; fb_h := fb_h c; fb_bpp := fb_bpp c; fb_bg := v;
     tags_buf := tags_buf c; logo_buf := logo_buf c; logo_size := logo_size c;
     console := console c |}.
Definition set_tags_buf (v : Z) (c : config) : config :=
  {| kernel := kernel c; cmdline := cmdline c; verbose := verbose c; smp := smp c;
     fb_w := fb_w c; fb_h := fb_h c; fb_bpp := fb_bpp c; fb_bg := fb_bg c;
     tags_buf := v; logo_buf := logo_buf c; logo_size := logo_size c;
     console := console c |}.
Definition set_logo (buf size : Z) (c : config) : config :=
  {| kernel := kernel c; cmdline := cmdline c; verbose := verbose c; smp := smp c;
     fb_w := fb_w c; fb_h := fb_h c; fb_bpp := fb_bpp c; fb_bg := fb_bg c;
     tags_buf := tags_buf c; logo_buf := buf; logo_size := size;
     console := console c |}.
Definition print (ev : event) (c : config) : config :=
  {| kernel := kernel c; cmdline := cmdline c; verbose := verbose c; smp := smp c;
     fb_w := fb_w c; fb_h := fb_h c; fb_bpp := fb_bpp c; fb_bg := fb_bg c;
     tags_buf := tags_buf c; logo_buf := logo_buf c; logo_size := logo_size c;
     console := console c ++ [ev] |}.

(** ** Line scanning of [fw_loadconfig] and [fw_loadmodules] *)

Definition is_ws (c : Z) : bool :=
  (c =? CR) || (c =? LF) || (c =? SP) || (c =? TAB).
Definition is_eol (c : Z) : bool := (c =? 0) || (c =? CR) || (c =? LF).
Definition is_word_end (c : Z) : bool := (c =? 0) || (c =? SP) || (c =? CR) || (c =? LF).

(** [while( *s && ( *s == '\r' || *s == '\n' || *s == ' ' || *s == '\t')) s++;] *)
Fixpoint skip_ws (s : list Z) : list Z :=
  match s with
  | c :: s' => if is_ws c then skip_ws s' else s
  | [] => []
  end.

(** [for(a = s; *a && *a != ' ' && *a != '\r' && *a != '\n'; a++);] *)
Fixpoint scan_word (a : list Z) : list Z :=
  match a with
  | c :: a' => if is_word_end c then a else scan_word a'
  | [] => []
  end.

(** [for(e = a; *e && *e != '\r' && *e != '\n'; e++);] *)
Fixpoint scan_eol (e : list Z) : list Z :=
  match e with
  | c :: e' => if is_eol c then e else scan_eol e'
  | [] => []
  end.

(** [for(; a < e && *a == ' '; a++);] *)
Fixpoint skip_sp (a e : list Z) : list Z :=
  match a with
  | c :: a' => if ptr_lt a e && (c =? SP) then skip_sp a' e else a
  | [] => []
  end.

(** The path scan of the [kernel] directive:
    [for(; a < e && *a && *a != ' ' && *a != '\r' && *a != '\n'; a++)
       if( *a == '\\' && a[1] == ' ') a++;] *)
Fixpoint skip_path (a e : list Z) : list Z :=
  match a with
  | c :: a' =>
      if ptr_lt a e && negb (is_word_end c) then
        if (c =? ch "\") && (deref a' =? SP) then
          match a' with
          | _ :: a'' => skip_path a'' e
          | [] => []
          end
        else skip_path a' e
      else a
  | [] => []
  end.


(** ** [fw_loadconfig]: the configuration parser *)

Section Loadconfig.

(** [ST] is non-NULL on UEFI. [fw_open p] is [Some file_size] when the
    path at [p] can be opened. [allocate_pool n] is the buffer the firmware
    hands out for [n] bytes, 0 on failure. [bkp] is the backup-mode flag. *)
Variable ST : bool.
Variable vidmode : vidmode_t.
Variable fw_open : list Z -> option Z.
Variable allocate_pool : Z -> Z.
Variable bkp : bool.

(** The [framebuffer] directive: the three [getint] calls, then the
    range check. *)
Definition fb_args (a e : list Z) : Z * Z * Z :=
  let '(a, w) := getint a in
  let a := skip_sp a e in
  let '(a, h) := getint a in
  let a := skip_sp a e in
  let '(_, bpp) := getint a in
  (w, h, bpp).

Definition fb_out_of_range (whb : Z * Z * Z) : bool :=
  let '(w, h, bpp) := whb in
  (w <? 320) || (65536 <? w) || (h <? 200) || (65536 <? h)
  || (bpp <? 15) || (32 <? bpp).

Definition conf_framebuffer (a e : list Z) (c : config) : config :=
  let '(w, h, bpp) := fb_args a e in
  if fb_out_of_range (w, h, bpp)
  then set_fb (framebuffer_width vidmode) (framebuffer_height vidmode)
              (framebuffer_bpp vidmode) c
  else set_fb w h bpp c.

(** The [bootsplash] directive. *)
Definition conf_bootsplash (a e : list Z) (c : config) : config :=
  let '(a, c) :=
    if deref a =? ch "#" then
      let a := advance 1 a in
      let '(a, r) := gethex a in
      let '(a, g) := gethex a in
      let '(a, b) := gethex a in
      (skip_sp a e, set_fb_bg (FB_COLOR vidmode r g b) c)
    else (a, c) in
  let c :=
    if ptr_lt a e then
      match fw_open a with
      | Some file_size =>
          let c :=
            if ST then set_logo (allocate_pool file_size) file_size c
            else set_tags_buf (tags_buf c + align8_down (file_size + 7))
                   (set_logo (tags_buf c) file_size c) in
          if verbose c =? 0 then c else print (EvLoadingLogo a file_size) c
      | None =>
          if verbose c =? 0 then c else print (EvWarnUnableToLoad a) c
      end
    else c in
  print EvBootsplash c.

(** The [kernel] directive. *)
Definition conf_kernel (a e : list Z) (c : config) : config :=
  let c := set_kernel (Some a) c in
  let a := skip_path a e in
  let a := skip_sp a e in
  if is_eol (deref a) then c else set_cmdline (Some a) c.

Inductive flow := Continue | Break.

(** One iteration of the parser loop once [s], [a] and [e] are placed:
    [s] at the start of the command, [a] at the first argument, [e] at
    the end of the line. [m] counts the [menuentry] lines seen. *)
Definition conf_directive (s a e : list Z) (m : Z) (c : config)
  : config * Z * flow :=
  let l := starts_with (lit "backup") s in
  if xorb bkp l then (c, m, Continue)
  else
    let s := if bkp && l then advance 6 s else s in
    let c := if starts_with (lit "multicore") s then set_smp 1 c else c in
    if ptr_ge a e then (c, m, Continue)
    else if starts_with (lit "menuentry") s then
      if 1 <? m + 1 then (c, m + 1, Break) else (c, m + 1, Continue)
    else if starts_with (lit "verbose") s then
      (set_verbose (snd (getint a)) c, m, Continue)
    else if starts_with (lit "framebuffer") s then
      (conf_framebuffer a e c, m, Continue)
    else if starts_with (lit "bootsplash") s then
      (conf_bootsplash a e c, m, Continue)
    else if ptr_lt a e && starts_with (lit "kernel") s then
      (conf_kernel a e c, m, Continue)
    else (c, m, Continue).

(** Placing [a] and [e] for the line that starts at [s]. *)
Definition line_arg (s : list Z) : list Z :=
  let a := scan_word s in skip_sp a (scan_eol a).
Definition line_end (s : list Z) : list Z := scan_eol (scan_word s).

Definition conf_line (s : list Z) (m : Z) (c : config) : config * Z * flow :=
  conf_directive s (line_arg s) (line_end s) m c.

(** [for(s = conf_buf; *s;) { ...; s = e; }]. Every iteration that does
    not end the loop moves [s] forward, so the length of the buffer
    bounds the number of iterations; [None] is running out of fuel. *)
Fixpoint conf_loop (fuel : nat) (s : list Z) (m : Z) (c : config)
  : option config :=
  match fuel with
  | O => None
  | S fuel' =>
      if deref s =? 0 then Some c
      else
        let s := skip_ws s in
        match conf_line s m c with
        | (c, m, Continue) => conf_loop fuel' (line_end s) m c
        | (c, _, Break) => Some c
        end
  end.

(** [fw_loadconfig]. [conf] is the text of the configuration file as
    [fw_read] left it in [conf_buf], or [None] when neither file could be
    opened (or, on UEFI, the pool allocation failed). [defkernel] and
    [definitrd63] are the patchable constants at the head of the loader. *)
Definition fw_loadconfig (defkernel : list Z) (definitrd63 : Z)
    (conf : option (list Z)) (c : config) : option config :=
  let c := if bkp then print EvAborted (print EvBootsplash c) else c in
  let c := set_tags_buf 131072 (set_kernel None c) in
  let r :=
    match conf with
    | Some buf =>
        let c := if ST then c
                 else set_tags_buf (tags_buf c + align8_down (Z.of_nat (List.length buf) + 7)) c in
        let c := set_smp 0 (set_fb_bg 0
                   (set_fb (framebuffer_width vidmode) (framebuffer_height vidmode)
                           (framebuffer_bpp vidmode) c)) in
        conf_loop (S (List.length buf)) buf 0 c
    | None => Some c
    end in
  match r with
  | Some c =>
      let c := match kernel c with
               | None => set_kernel (Some defkernel) c
               | Some _ => c
               end in
      Some (if negb bkp && (definitrd63 =? 1) then set_smp 1 c else c)
  | None => None
  end.

End Loadconfig.

(** ** [fw_loadmodules]: the second pass over the configuration *)

Section Loadmodules.

(** The loader state the module pass threads through is kept abstract:
    [ldinitrd a e] is the block at the [ldinitrd] label, which opens and
    loads the module whose path starts at [a]; [rq] is the flag a key
    press sets. *)
Variable M : Type.
Variable rq : M -> bool.
Variable ldinitrd : list Z -> list Z -> M -> M.
Variable bkp : bool.

Definition module_directive (s a e : list Z) (st : M) : M :=
  let l := starts_with (lit "backup") s in
  if ptr_ge a e || xorb bkp l then st
  else
    let s := if bkp && l then advance 6 s else s in
    if starts_with (lit "module") s then ldinitrd a e st else st.

Definition module_line (s : list Z) (st : M) : M :=
  module_directive s (line_arg s) (line_end s) st.

(** [for(s = conf_buf; !rq && !f && *s;) { ...; s = e; }], where [f]
    stays 0 until the loop is left. *)
Fixpoint modules_loop (fuel : nat) (s : list Z) (st : M) : option M :=
  match fuel with
  | O => None
  | S fuel' =>
      if rq st || (deref s =? 0) then Some st
      else
        let s := skip_ws s in
        modules_loop fuel' (line_end s) (module_line s st)
  end.

End Loadmodules.


(** ** Fixtures for the examples *)

(** A 1024x768x32 mode with 8-bit channels. *)
Definition vidmode0 : vidmode_t :=
  {| framebuffer_addr := 4244635648; framebuffer_pitch := 4096;
     framebuffer_width := 1024; framebuffer_height := 768; framebuffer_bpp := 32;
     framebuffer_red_field_position := 16; framebuffer_red_mask_size := 8;
     framebuffer_green_field_position := 8; framebuffer_green_mask_size := 8;
     framebuffer_blue_field_position := 0; framebuffer_blue_mask_size := 8 |}.

(** The globals as [fw_init] leaves them. *)
Definition config0 : config :=
  {| kernel := None; cmdline := None; verbose := 0; smp := 0;
     fb_w := 800; fb_h := 600; fb_bpp := 32; fb_bg := 0;
     tags_buf := 0; logo_buf := 0; logo_size := 0; console := [] |}.

(** A volume without a logo file. *)
Definition no_files (p : list Z) : option Z := None.
Definition no_pool (n : Z) : Z := 0.

(** The module pass instantiated to record the paths it is asked to load. *)
Definition record_module (a e : list Z) (st : list (list Z)) : list (list Z) :=
  st ++ [firstn (List.length a - List.length e) a].
Definition no_key (st : list (list Z)) : bool := false.

(** ** Physical memory, the page allocators and the page tables *)

(** Memory holds the 64-bit words of the paging structures, addressed by
    their byte address. *)
Definition mem := Z -> Z.

Definition store (m : mem) (a v : Z) : mem :=
  fun x => if x =? a then v else m x.

(** [memset((void* )page, 0, 4096)] *)
Definition zero_page (m : mem) (page : Z) : mem :=
  fun x => if (page <=? x) && (x <? page + 4096) then 0 else m x.

(** [memset(p, 0, n)] *)
Definition zero_range (m : mem) (p n : Z) : mem :=
  fun x => if (p <=? x) && (x <? p + n) then 0 else m x.

(** [for(i = 0; i < n; i++) table[i] = f(i);] *)
Definition fill_table (m : mem) (table n : Z) (f : Z -> Z) : mem :=
  fun x =>
    let i := (x - table) / 8 in
    if (table <=? x) && (x <? table + 8 * n) && ((x - table) mod 8 =? 0)
    then f i else m x.

(** [bios_pagetables(g)]: [g] gigabytes mapped one to one with 2 MiB pages;
    [pt[0]] points at the 1 GiB table, whose first [g] entries point at the
    2 MiB tables that follow it. *)
Definition bios_pagetables (pt g : Z) (m : mem) : mem :=
  let m := zero_range m (pt + 8 * 1) 4088 in
  let m := zero_range m (pt + 8 * 513) 4088 in
  let m := zero_range m (pt + 8 * 1025) 20472 in
  let m := store m pt (pt + 4096 + 3) in
  let m := fill_table m (pt + 8 * 512) g (fun i => pt + (i + 2) * 4096 + 3) in
  fill_table m (pt + 8 * 1024) (g * 512) (fun i => i * 2 * 1024 * 1024 + 131).

(** The state [fw_map] works on: the memory, the bump cursor [file_buf] of
    the BIOS path, and on UEFI the pages the firmware will hand out to the
    coming [AllocatePages] calls (0 stands for a failed call, as does the
    end of the list). *)
Record map_state := {
  ptmem : mem;
  file_buf : Z;
  efi_pages : list Z
}.

(** [bios_alloc] *)
Definition bios_alloc (st : map_state) : Z * map_state :=
  let page := file_buf st in
  (page, {| ptmem := zero_page (ptmem st) page;
            file_buf := u64 (file_buf st + 4096);
            efi_pages := efi_pages st |}).

(** [efi_alloc] *)
Definition efi_alloc (st : map_state) : Z * map_state :=
  match efi_pages st with
  | page :: rest =>
      (page, {| ptmem := if page =? 0 then ptmem st else zero_page (ptmem st) page;
                file_buf := file_buf st;
                efi_pages := rest |})
  | [] => (0, st)
  end.

Definition poke (a v : Z) (st : map_state) : map_state :=
  {| ptmem := store (ptmem st) a v; file_buf := file_buf st;
     efi_pages := efi_pages st |}.

(** A step of [fw_map] either goes on or leaves through [return 0]. *)
Inductive step (A : Type) :=
| Go (a : A)
| Return0 (st : map_state).
Arguments Go {A} a.
Arguments Return0 {A} st.

Section Map.

Variable ST : bool.
Variable pt : Z.

Definition alloc_page (st : map_state) : Z * map_state :=
  if ST then efi_alloc st else bios_alloc st.

(** [&table[(virt >> shift) & 511]] *)
Definition entry_addr (table virt shift : Z) : Z :=
  table + 8 * Z.land (Z.shiftr virt shift) 511.

(** [if(cond) { if(!( *ptr = alloc())) return 0; else *ptr |= 3; }] *)
Definition fill_entry (ptr : Z) (st : map_state) : step map_state :=
  let '(page, st) := alloc_page st in
  let st := poke ptr page st in
  if page =? 0 then Return0 st else Go (poke ptr (Z.lor page 3) st).

Definition ensure_table (ptr : Z) (st : map_state) : step map_state :=
  if ptmem st ptr =? 0 then fill_entry ptr st else Go st.

(** The 2 MiB level also replaces a large page (bit 7) by a fresh table. *)
Definition ensure_table_2m (ptr : Z) (st : map_state) : step map_state :=
  if (ptmem st ptr =? 0) || negb (Z.land (ptmem st ptr) 128 =? 0)
  then fill_entry ptr st else Go st.

(** The body of the first loop for one page: walk from the 512 GiB level
    down, then chain the 4 KiB entry when it is empty. [next] is the head
    of the chain, which lives in the entries themselves. *)
Definition map_page (virt next : Z) (st : map_state)
  : step (Z * map_state) :=
  let p4 := entry_addr pt virt 39 in
  match ensure_table p4 st with
  | Return0 st => Return0 st
  | Go st =>
    let p3 := entry_addr (page_down (ptmem st p4)) virt 30 in
    match ensure_table p3 st with
    | Return0 st => Return0 st
    | Go st =>
      let p2 := entry_addr (page_down (ptmem st p3)) virt 21 in
      match ensure_table_2m p2 st with
      | Return0 st => Return0 st
      | Go st =>
        let p1 := entry_addr (page_down (ptmem st p2)) virt 12 in
        if ptmem st p1 =? 0 then Go (p1, poke p1 next st)
        else Go (next, st)
      end
    end
  end.

(** [for(...; virt < end; virt += 4096)]; [None] is running out of fuel. *)
Fixpoint map_pages (fuel : nat) (virt end_ next : Z) (st : map_state)
  : option (step (Z * map_state)) :=
  match fuel with
  | O => None
  | S fuel' =>
      if virt <? end_ then
        match map_page virt next st with
        | Return0 st => Some (Return0 st)
        | Go (next, st) => map_pages fuel' (u64 (virt + 4096)) end_ next st
        end
      else Some (Go (next, st))
  end.

(** [for(...; next; end -= 4096, next = ptr) { ptr = *next; *next = end | 3; }] *)
Fixpoint resolve_list (fuel : nat) (end_ next : Z) (st : map_state)
  : option map_state :=
  match fuel with
  | O => None
  | S fuel' =>
      if next =? 0 then Some st
      else
        let ptr := ptmem st next in
        resolve_list fuel' (u64 (end_ - 4096)) ptr
                     (poke next (Z.lor end_ 3) st)
  end.

Definition canonical (virt : Z) : bool :=
  (Z.shiftr virt 48 =? 0) || (Z.shiftr virt 48 =? 65535).

(** The number of iterations either loop can take when [virt + size] does
    not wrap. *)
Definition map_fuel (size : Z) : nat := Z.to_nat (size / 4096 + 3).

(** [fw_map]. The result is [None] when a loop does not come to an end
    within [map_fuel], otherwise the returned [int] and the new state. *)
Definition fw_map (phys virt size : Z) (st : map_state)
  : option (Z * map_state) :=
  let end_ := u64 (virt + size) in
  let orig := file_buf st in
  if (pt =? 0) || negb (canonical virt) then Some (0, st)
  else
    let virt := page_down virt in
    let phys := page_down phys in
    match map_pages (map_fuel size) virt end_ 0 st with
    | None => None
    | Some (Return0 st) => Some (0, st)
    | Some (Go (next, st)) =>
        let top := page_down (u64 ((if phys =? orig then file_buf st else phys)
                                   + size - 1)) in
        match resolve_list (map_fuel size) top next st with
        | None => None
        | Some st => Some (1, st)
        end
    end.

(** The translation a page walk finds for [virt]: the entry of the 4 KiB
    level when every level above it is present and not a large page. *)
Definition lookup_4k (m : mem) (virt : Z) : option Z :=
  let e4 := m (entry_addr pt virt 39) in
  if e4 =? 0 then None else
  let e3 := m (entry_addr (page_down e4) virt 30) in
  if e3 =? 0 then None else
  let e2 := m (entry_addr (page_down e3) virt 21) in
  if (e2 =? 0) || negb (Z.land e2 128 =? 0) then None else
  let e1 := m (entry_addr (page_down e2) virt 12) in
  if e1 =? 0 then None else Some e1.

End Map.

(** The state a call leaves behind ([st] itself when it does not return). *)
Definition state_after (r : option (Z * map_state)) (st : map_state) : map_state :=
  match r with
  | Some (_, st') => st'
  | None => st
  end.

Definition returned (r : option (Z * map_state)) : option Z := option_map fst r.

(** The BIOS loader after [bios_init] and [fw_loadsetup]: tables at 0x1000
    mapping 5 GiB, [file_buf] at 1 MiB. *)
Definition bios_state0 : map_state :=
  {| ptmem := bios_pagetables 4096 5 (fun _ => 0);
     file_buf := 1048576;
     efi_pages := [] |}.

(** A higher-half address, 0xFFFFFFFF80000000. *)
Definition higher_half : Z := 18446744071562067968.

(** Two segments of two pages each that share the page in the middle. *)
Definition first_map : option (Z * map_state) :=
  fw_map false 4096 (file_buf bios_state0) higher_half 8192 bios_state0.
Definition bios_state1 : map_state := state_after first_map bios_state0.
Definition second_map : option (Z * map_state) :=
  fw_map false 4096 (file_buf bios_state1) (higher_half + 4096) 8192 bios_state1.
Definition bios_state2 : map_state := state_after second_map bios_state1.

(** ** The memory map and the top of RAM *)

Definition MULTIBOOT_MEMORY_AVAILABLE : Z := 1.
Definition MULTIBOOT_MEMORY_RESERVED : Z := 2.
Definition MULTIBOOT_MEMORY_ACPI_RECLAIMABLE : Z := 3.
Definition MULTIBOOT_MEMORY_NVS : Z := 4.
Definition MULTIBOOT_MEMORY_BADRAM : Z := 5.

(** [multiboot_mmap_entry_t] *)
Record mmap_entry := {
  base_addr : Z;
  length : Z;
  type : Z;
  reserved : Z
}.

Definition null_entry : mmap_entry :=
  {| base_addr := 0; length := 0; type := 0; reserved := 0 |}.

(** [dst[i].base_addr + dst[i].length] in 64 bits *)
Definition entry_top (e : mmap_entry) : Z := u64 (base_addr e + length e).

Definition is_available (e : mmap_entry) : bool :=
  type e =? MULTIBOOT_MEMORY_AVAILABLE.

(** [dst[i]] and [dst[i] = v] on the array the list stands for. *)
Definition entry_at (dst : list mmap_entry) (i : nat) : mmap_entry :=
  nth i dst null_entry.

Fixpoint set_entry (dst : list mmap_entry) (i : nat) (v : mmap_entry)
  : list mmap_entry :=
  match dst, i with
  | [], _ => []
  | _ :: t, O => v :: t
  | h :: t, S i' => h :: set_entry t i' v
  end.

(** The three [memcpy] calls that exchange [dst[j - 1]] and [dst[j]]. *)
Definition swap_down (dst : list mmap_entry) (j : nat) : list mmap_entry :=
  let tmp := entry_at dst (j - 1) in
  let dst := set_entry dst (j - 1) (entry_at dst j) in
  set_entry dst j tmp.

(** [for(j = i; j > 0 && dst[j].base_addr < dst[j - 1].base_addr; j--)] *)
Fixpoint sift_down (j : nat) (dst : list mmap_entry) : list mmap_entry :=
  match j with
  | O => dst
  | S j' =>
      if base_addr (entry_at dst j) <? base_addr (entry_at dst j')
      then sift_down j' (swap_down dst j)
      else dst
  end.

(** The body of the outer loop of [sort_map] for index [i], and the loop
    [for(i = 1; i < num; i++)] run for [n] more rounds. *)
Definition sort_step (i : nat) (dst : list mmap_entry) (ram : Z)
  : list mmap_entry * Z :=
  let dst := sift_down i dst in
  let top := entry_top (entry_at dst i) in
  (dst, if is_available (entry_at dst i) && (ram <? top) then top else ram).

Fixpoint sort_rounds (n i : nat) (dst : list mmap_entry) (ram : Z)
  : list mmap_entry * Z :=
  match n with
  | O => (dst, ram)
  | S n' =>
      let '(dst, ram) := sort_step i dst ram in
      sort_rounds n' (S i) dst ram
  end.

(** [sort_map(dst, num)] with the global [ram] threaded through; [num] is
    the number of entries in [dst]. *)
Definition sort_map (dst : list mmap_entry) (ram : Z) : list mmap_entry * Z :=
  sort_rounds (List.length dst - 1) 1 dst ram.

(** [efi_memory_descriptor_t] and the memory types of [loader.h]. *)
Record efi_memory_descriptor := {
  Type_ : Z;
  PhysicalStart : Z;
  NumberOfPages : Z
}.

Definition EfiReservedMemoryType : Z := 0.
Definition EfiLoaderCode : Z := 1.
Definition EfiLoaderData : Z := 2.
Definition EfiBootServicesCode : Z := 3.
Definition EfiBootServicesData : Z := 4.
Definition EfiRuntimeServicesCode : Z := 5.
Definition EfiRuntimeServicesData : Z := 6.
Definition EfiConventionalMemory : Z := 7.
Definition EfiUnusableMemory : Z := 8.
Definition EfiACPIReclaimMemory : Z := 9.
Definition EfiACPIMemoryNVS : Z := 10.

(** The conversion of one descriptor in [efi_memmap(dst)]. *)
Definition efi_entry (d : efi_memory_descriptor) : mmap_entry :=
  let t := Type_ d in
  {| base_addr := PhysicalStart d;
     length := u64 (Z.shiftl (NumberOfPages d) 12);
     reserved := t;
     type :=
       if ((EfiReservedMemoryType <? t) && (t <? EfiRuntimeServicesCode))
          || (t =? EfiConventionalMemory) then MULTIBOOT_MEMORY_AVAILABLE
       else if t =? EfiUnusableMemory then MULTIBOOT_MEMORY_BADRAM
       else if t =? EfiACPIReclaimMemory then MULTIBOOT_MEMORY_ACPI_RECLAIMABLE
       else if t =? EfiACPIMemoryNVS then MULTIBOOT_MEMORY_NVS
       else MULTIBOOT_MEMORY_RESERVED |}.

(** [efi_memmap(NULL)]: the walk that only looks for the top of memory.
    [None] stands for a firmware call that fails, which leaves [ram] as
    it is. *)
Fixpoint efi_top_of_memory (map : list efi_memory_descriptor) (ram : Z) : Z :=
  match map with
  | [] => ram
  | d :: map' =>
      let top := u64 (PhysicalStart d + u64 (Z.shiftl (NumberOfPages d) 12)) in
      efi_top_of_memory map'
        (if (Type_ d =? EfiConventionalMemory) && (ram <? top) then top else ram)
  end.

Definition efi_memmap_null (map : option (list efi_memory_descriptor)) (ram : Z) : Z :=
  match map with
  | Some map => efi_top_of_memory map ram
  | None => ram
  end.

(** [ram &= ~(2 * 1024 * 1024 - 1)] *)
Definition round_2m (ram : Z) : Z := ram - ram mod 2097152.

(** The memory-map part of [fw_loadsetup] on BIOS ([bios_e820] hands the
    firmware's entries to [sort_map]) and on UEFI. *)
Definition setup_ram_bios (e820 : list mmap_entry) (ram : Z) : list mmap_entry * Z :=
  let '(dst, ram) := sort_map e820 ram in (dst, round_2m ram).

Definition setup_ram_efi (map : option (list efi_memory_descriptor)) (ram : Z) : Z :=
  round_2m (efi_memmap_null map ram).

(** The value C7 names: the largest [base + length] over the entries of
    type Available, rounded down to 2 MiB. *)
Definition max_top (l : list mmap_entry) : Z :=
  fold_right Z.max 0 (map entry_top (filter is_available l)).

Definition largest_available_top (l : list mmap_entry) : Z := round_2m (max_top l).

(** The tops [efi_memmap(NULL)] looks at: conventional memory only. *)
Definition is_conventional (d : efi_memory_descriptor) : bool :=
  Type_ d =? EfiConventionalMemory.

Definition max_conventional_top (map : list efi_memory_descriptor) : Z :=
  fold_right Z.max 0 (List.map (fun d => entry_top (efi_entry d))
                               (filter is_conventional map)).

(** Entries in ascending order of [base_addr], as the firmware should
    deliver them. *)
Fixpoint sorted_by_base (l : list mmap_entry) : Prop :=
  match l with
  | a :: (b :: _) as t => base_addr a <= base_addr b /\ sorted_by_base t
  | _ => True
  end.

(** A UEFI map: 1 GiB of conventional memory followed by 2 MiB of boot
    services data. *)
Definition efi_map0 : list efi_memory_descriptor :=
  [ {| Type_ := EfiConventionalMemory; PhysicalStart := 0; NumberOfPages := 262144 |};
    {| Type_ := EfiBootServicesData; PhysicalStart := 1073741824; NumberOfPages := 512 |} ].

(** An E820 map: low memory, the hole below 1 MiB, and RAM up to 1 GiB. *)
Definition e820_map0 : list mmap_entry :=
  [ {| base_addr := 0; length := 654336; type := 1; reserved := 0 |};
    {| base_addr := 654336; length := 394240; type := 2; reserved := 0 |};
    {| base_addr := 1048576; length := 1072693248; type := 1; reserved := 0 |} ].

(** An E820 map that reports all of RAM in its first entry. *)
Definition e820_map1 : list mmap_entry :=
  [ {| base_addr := 0; length := 1073741824; type := 1; reserved := 0 |};
    {| base_addr := 4273995776; length := 4096; type := 2; reserved := 0 |} ].

(** ** [fw_loadseg]: loading one kernel segment *)

(** What a segment load does to memory and to the console, in order. *)
Inductive load_op :=
| OpRead (offs size buf : Z)        (* fw_read(offs, size, buf) *)
| OpZero (addr len : Z)             (* memset(addr, 0, len) *)
| OpMemoryInUse (vaddr memsz : Z).  (* the ERROR line of the err label *)

(** The globals [fw_loadseg] reads: [memmap] ([None] is NULL) with its
    [num_memmap] entries, [ram] and [file_size]. *)
Record seg_env := {
  memmap : option (list mmap_entry);
  ram : Z;
  file_size : Z
}.

(** [TAGS_MAX] and the end of the loader's own low memory,
    [0x20000 + (TAGS_MAX + 2) * 4096]. *)
Definition TAGS_MAX : Z := 30.
Definition loader_top : Z := 131072 + (TAGS_MAX + 2) * 4096.

(** [memmap[i].base_addr <= vaddr && memmap[i].base_addr + memmap[i].length > vaddr] *)
Definition slot_holds (e : mmap_entry) (vaddr : Z) : bool :=
  (base_addr e <=? vaddr) && (vaddr <? entry_top e).

(** The search for the slot of [vaddr]; [true] is the [goto err]. *)
Fixpoint slot_in_use (mm : list mmap_entry) (vaddr size : Z) : bool :=
  match mm with
  | [] => false
  | e :: mm' =>
      if slot_holds e vaddr then
        negb (is_available e) || (entry_top e <? u64 (page_down vaddr + size))
      else slot_in_use mm' vaddr size
  end.

(** [size = (memsz + (vaddr & 4095) + 4095) & ~4095], kept in 32 bits. *)
Definition seg_size (vaddr memsz : Z) : Z :=
  u32 (page_down (memsz + vaddr mod 4096 + 4095)).

Definition AllocateAnyPages : Z := 0.
Definition AllocateMaxAddress : Z := 1.
Definition AllocateAddress : Z := 2.

Section Loadseg.

Variable ST : bool.
Variable pt : Z.
(** [efi_allocpages(Type, NoPages, Memory)]: the address the firmware
    hands out, 0 when it refuses. *)
Variable efi_allocpages : Z -> Z -> Z -> Z.
Variable env : seg_env.

(** The tail every successful path runs into. *)
Definition load_content (offs filesz memsz buf : Z) : list load_op :=
  (if filesz =? 0 then [] else [OpRead offs filesz buf])
  ++ (if filesz <? memsz then [OpZero (buf + filesz) (memsz - filesz)] else []).

(** [fw_loadseg]; [None] only when [fw_map] does not return. *)
Definition fw_loadseg (offs filesz vaddr memsz : Z) (st : map_state)
  : option (Z * map_state * list load_op) :=
  let err st := Some (0, st, [OpMemoryInUse vaddr memsz]) in
  if (memsz =? 0) || (file_size env =? 0) then Some (1, st, [])
  else
    let size := seg_size vaddr memsz in
    if ST then
      if ram env <? vaddr then
        let buf := efi_allocpages AllocateAnyPages (Z.shiftr size 12) 0 in
        if buf =? 0 then err st
        else
          match fw_map ST pt buf vaddr size st with
          | None => None
          | Some (r, st) =>
              if r =? 0 then err st
              else Some (1, st, load_content offs filesz memsz buf)
          end
      else if efi_allocpages AllocateAddress (Z.shiftr size 12) (page_down vaddr) =? 0
      then err st
      else Some (1, st, load_content offs filesz memsz vaddr)
    else
      if vaddr <? loader_top then err st
      else if ram env <? vaddr then
        match fw_map ST pt (file_buf st) vaddr size st with
        | None => None
        | Some (r, st) =>
            if r =? 0 then err st
            else
              let buf := file_buf st in
              Some (1, {| ptmem := ptmem st; file_buf := u64 (file_buf st + size);
                          efi_pages := efi_pages st |},
                    load_content offs filesz memsz buf)
        end
      else
        let top := page_down (u64 (vaddr + size + 4095)) in
        let st := if file_buf st <? top
                  then {| ptmem := ptmem st; file_buf := top;
                          efi_pages := efi_pages st |}
                  else st in
        let in_use := match memmap env with
                      | Some mm => slot_in_use mm vaddr size
                      | None => false
                      end in
        if in_use then err st
        else Some (1, st, load_content offs filesz memsz vaddr).

End Loadseg.

(** What C3 asks of a segment that loads: its page-rounded range
    [lo, hi) inside one Available entry. *)
Definition within_one_available (mm : list mmap_entry) (lo hi : Z) : bool :=
  existsb (fun e => is_available e && (base_addr e <=? lo) && (hi <=? entry_top e)) mm.

Definition seg_result (r : option (Z * map_state * list load_op)) : option Z :=
  option_map (fun x => fst (fst x)) r.
Definition seg_ops (r : option (Z * map_state * list load_op)) : list load_op :=
  match r with Some (_, _, ops) => ops | None => [] end.

Definition no_allocpages (t n a : Z) : Z := 0.

(** A map with a hole between 2 MiB and 3 MiB. *)
Definition e820_map2 : list mmap_entry :=
  [ {| base_addr := 0; length := 654336; type := 1; reserved := 0 |};
    {| base_addr := 1048576; length := 1048576; type := 1; reserved := 0 |};
    {| base_addr := 3145728; length := 1070596096; type := 1; reserved := 0 |} ].

Definition seg_env2 : seg_env :=
  {| memmap := Some e820_map2; ram := 1073741824; file_size := 65536 |}.

(** ** The FAT32 reader of the BIOS path *)

(** Byte memory, for the buffers files are read into. *)
Definition bmem := Z -> Z.

(** Bytes [bytes] stored from [addr] on. *)
Fixpoint store_bytes (m : bmem) (addr : Z) (bytes : list Z) : bmem :=
  match bytes with
  | [] => m
  | b :: bytes' => store_bytes (fun x => if x =? addr then b else m x) (addr + 1) bytes'
  end.

(** The [n] bytes of memory from [addr] on. *)
Fixpoint load_bytes (m : bmem) (addr : Z) (n : nat) : list Z :=
  match n with
  | O => []
  | S n' => m addr :: load_bytes m (addr + 1) n'
  end.

(** [memcpy(dst, src, n)] as the loader defines it: a byte-wise forward copy. *)
Fixpoint memcpy (m : bmem) (dst src : Z) (n : nat) : bmem :=
  match n with
  | O => m
  | S n' => memcpy (fun x => if x =? dst then m src else m x) (dst + 1) (src + 1) n'
  end.

(** [a[i]] and [a[i] = v] on an array of integers. *)
Definition at_ (a : list Z) (i : Z) : Z :=
  if i <? 0 then 0 else nth (Z.to_nat i) a 0.

Fixpoint set_nth (a : list Z) (i : nat) (v : Z) : list Z :=
  match a, i with
  | [], _ => []
  | _ :: t, O => v :: t
  | h :: t, S i' => h :: set_nth t i' v
  end.

Definition upd (a : list Z) (i v : Z) : list Z :=
  if i <? 0 then a else set_nth a (Z.to_nat i) v.

(** Little-endian fields. *)
Definition le16 (a : list Z) (i : Z) : Z := at_ a i + 256 * at_ a (i + 1).
Definition le32 (a : list Z) (i : Z) : Z :=
  at_ a i + 256 * at_ a (i + 1) + 65536 * at_ a (i + 2) + 16777216 * at_ a (i + 3).

(** A sector as the drive returns it: exactly 512 bytes. *)
Definition sector_of (raw : list Z) : list Z := firstn 512 (raw ++ repeat 0 512%nat).

(** The state of the reader that outlives a call: the keyboard controller
    ([kbd] holds the values the coming reads of port 0x64 return), the [rq]
    flag and the FAT window [fat] that starts at cluster [fat_cache]. *)
Record fat_state := {
  kbd : list Z;
  rq : bool;
  fat : list Z;
  fat_cache : Z
}.

(** The [n] bytes of [v], lowest first, and the stores of a [uint16_t]
    and of a [uint32_t]. *)
Definition le_bytes (n : nat) (v : Z) : list Z :=
  List.map (fun k => (v / 256 ^ Z.of_nat k) mod 256) (seq 0 n).

Definition wr16 (m : bmem) (a v : Z) : bmem := store_bytes m a (le_bytes 2 (u16 v)).
Definition wr32 (m : bmem) (a v : Z) : bmem := store_bytes m a (le_bytes 4 (u32 v)).

(** *** The progress bar *)

(** The globals [pb_fb], [pb_m], [pb_l] and [pb_b]. *)
Record pbar := {
  pb_fb : Z;
  pb_m : Z;
  pb_l : Z;
  pb_b : Z
}.

Section ProgressBar.

Variable vidmode : vidmode_t.
Variable fb_bg : Z.

(** One pixel in both rows of the bar, the [switch] on the depth: the
    store to [pb_fb + vidmode.framebuffer_pitch + i], then the one to
    [pb_fb + i], of the same value; 16 bits wide at 15 and 16 bits per
    pixel ([c16]), 32 bits wide at 24 and 32 ([c32]), and no store at any
    other depth.  The order of the two stores shows only when the rows
    overlap, with a pitch of under four bytes. *)
Definition pb_pixel (fb i c16 c32 : Z) (m : bmem) : bmem :=
  let bpp := framebuffer_bpp vidmode in
  let below := u64 (u64 (fb + framebuffer_pitch vidmode) + i) in
  if (bpp =? 15) || (bpp =? 16) then wr16 (wr16 m below c16) (u64 (fb + i)) c16
  else if (bpp =? 24) || (bpp =? 32) then wr32 (wr32 m below c32) (u64 (fb + i)) c32
  else m.

(** [for(i = x = 0; x < n; x++, i += pb_b)] with a pixel of colour [c]. *)
Fixpoint pb_row (n : nat) (fb b i c : Z) (m : bmem) : bmem :=
  match n with
  | O => m
  | S n' => pb_row n' fb b (u32 (i + b)) c (pb_pixel fb i c c m)
  end.

(** [for(; i < pb_l; i++)] of [pb_draw], [n] rounds from [i] on. *)
Fixpoint pb_fill (n : nat) (fb i : Z) (m : bmem) : bmem :=
  match n with
  | O => m
  | S n' => pb_fill n' fb (i + 1) (pb_pixel fb i 65535 16777215 m)
  end.

(** [pb_init(size)]: the returned block size, the globals and the memory.
    [None] is the division by [vidmode.framebuffer_width - 4] when that
    is 0, which has no result: a divide fault on x86, which the loader's
    exception handler answers by halting the machine. *)
Definition pb_init (size : Z) (pb : pbar) (m : bmem) : option (Z * pbar * bmem) :=
  let m_ := u32 (Z.shiftr size 9 + 1) in
  let w := u32 (framebuffer_width vidmode - 4) in
  if (framebuffer_addr vidmode =? 0) || (size =? 0) || (m_ <? w)
  then Some (0, {| pb_fb := 0; pb_m := m_; pb_l := 0; pb_b := pb_b pb |}, m)
  else
    let b := Z.shiftr (framebuffer_bpp vidmode + 7) 3 in
    let fb :=
      u64 (u64 (framebuffer_addr vidmode
                + u32 (u32 (framebuffer_height vidmode - 4) * framebuffer_pitch vidmode))
           + u32 (2 * b)) in
    let m := pb_row (Z.to_nat w) fb b 0 (FB_COLOR vidmode 32 32 32) m in
    if w =? 0 then None
    else Some (size / w, {| pb_fb := fb; pb_m := m_; pb_l := 0; pb_b := b |}, m).

(** [pb_draw(curr)]; [None] is the division by [pb_m] when that is 0. *)
Definition pb_draw (curr : Z) (pb : pbar) (m : bmem) : option (pbar * bmem) :=
  if pb_fb pb =? 0 then Some (pb, m)
  else if pb_m pb =? 0 then None
  else
    let l := u32 (u64 (u64 (Z.shiftr curr 9 * u32 (framebuffer_width vidmode - 4))
                       / pb_m pb * pb_b pb)) in
    Some ({| pb_fb := pb_fb pb; pb_m := pb_m pb; pb_l := l; pb_b := pb_b pb |},
          pb_fill (Z.to_nat (l - pb_l pb)) (pb_fb pb) (pb_l pb) m).

(** [pb_fini()] *)
Definition pb_fini (pb : pbar) (m : bmem) : pbar * bmem :=
  ({| pb_fb := 0; pb_m := pb_m pb; pb_l := pb_l pb; pb_b := pb_b pb |},
   if pb_fb pb =? 0 then m
   else pb_row (Z.to_nat (u32 (framebuffer_width vidmode - 2))) (pb_fb pb) (pb_b pb) 0
          fb_bg m).

End ProgressBar.

Section Fat.

(** The video mode and the background colour, for the progress bar. *)
Variable vidmode : vidmode_t.
Variable fb_bg : Z.

(** The drive, and what [bios_init] took from the BPB: [bpb->spc],
    [bpb->rc], [fat_lba] and [data_lba]; [bkp] is the backup-mode flag. *)
Variable disk : Z -> list Z.
Variable bkp : bool.
Variable spc : Z.
Variable rc : Z.
Variable fat_lba : Z.
Variable data_lba : Z.

(** [fw_loadsec] on legacy BIOS: poll the keyboard controller unless a
    request is pending, then read the sector. *)
Definition fw_loadsec (lba : Z) (st : fat_state) : list Z * fat_state :=
  let st :=
    if negb bkp && negb (rq st) then
      let al := hd 0 (kbd st) in
      {| kbd := tl (kbd st);
         rq := negb (al =? 255) && Z.odd al;
         fat := fat st; fat_cache := fat_cache st |}
    else st in
  (sector_of (disk lba), st).

Definition is_chain_end (clu : Z) : bool := (clu <? 2) || (268435448 <=? clu).

(** The 128 entries of one FAT sector. *)
Definition fat_entries (sec : list Z) : list Z :=
  List.map (fun k => le32 sec (4 * Z.of_nat k)) (seq 0 128).

(** [for(i = 0; i < 8; i++) fw_loadsec(fat_lba + (fat_cache >> 7) + i, &fat[i << 7]);] *)
Fixpoint load_fat (n : nat) (lba : Z) (st : fat_state) : list Z * fat_state :=
  match n with
  | O => ([], st)
  | S n' =>
      let '(sec, st) := fw_loadsec lba st in
      let '(rest, st) := load_fat n' (lba + 1) st in
      (fat_entries sec ++ rest, st)
  end.

(** [bios_nextclu] *)
Definition bios_nextclu (clu : Z) (st : fat_state) : Z * fat_state :=
  if is_chain_end clu then (0, st)
  else
    let st :=
      if (clu <? fat_cache st) || (fat_cache st + 1023 <? clu) then
        let base := clu - clu mod 1024 in
        let '(entries, st) := load_fat 8 (fat_lba + Z.shiftr base 7) st in
        {| kbd := kbd st; rq := rq st; fat := entries; fat_cache := base |}
      else st in
    let clu := at_ (fat st) (clu - fat_cache st) in
    (if is_chain_end clu then 0 else clu, st).

(** The first sector of a cluster, [clu * bpb->spc + data_lba], the
    product taken in 32 bits. *)
Definition cluster_lba (clu : Z) : Z := u64 (u32 (clu * spc) + data_lba).

(** *** [bios_open] *)

(** The locals of the directory walk. [dir] is the offset of the current
    entry in [data] (512 when the sector is used up), [u] the index into
    [lfn] the next name slot goes to, [s] what is left of the path. *)
Record walk := {
  w_lba : Z;
  w_clu : Z;
  w_secleft : Z;
  w_dir : Z;
  w_data : list Z;
  w_n : Z;
  w_m : bool;
  w_u : Z;
  w_lfn : list Z;
  w_s : list Z
}.

Inductive open_step :=
| Next (w : walk) (st : fat_state)
| Fail0 (st : fat_state)
| Found (clu size : Z) (st : fat_state).

Definition lower (c : Z) : Z :=
  if (ch "A" <=? c) && (c <=? ch "Z") then c + (ch "a" - ch "A") else c.

(** The 13 UCS-2 characters of a name slot go to [u[0..12]]. *)
Definition lfn_slot (data : list Z) (dir : Z) : list Z :=
  List.map (fun i => le16 data (dir + 2 * i + 1)) [0; 1; 2; 3; 4]
  ++ List.map (fun i => le16 data (dir + 2 * i + 14)) [0; 1; 2; 3; 4; 5]
  ++ [le16 data (dir + 28); le16 data (dir + 30)].

Fixpoint write_at (a : list Z) (i : Z) (vs : list Z) : list Z :=
  match vs with
  | [] => a
  | v :: vs' => write_at (upd a i v) (i + 1) vs'
  end.

(** The name of an 8.3 entry, written to the head of [lfn]. *)
Definition short_name (data : list Z) (dir : Z) (lfn : list Z) : list Z :=
  let lfn := write_at lfn 0 (List.map (fun i => at_ data (dir + i)) [0; 1; 2; 3; 4; 5; 6; 7]) in
  let i := (fix trim (k : nat) : Z :=
              match k with
              | O => 0
              | S k' => if at_ lfn (Z.of_nat k') =? SP then trim k' else Z.of_nat k
              end) 8%nat in
  let ext := 
    if at_ data (dir + 8) =? SP then []
    else ch "." :: at_ data (dir + 8) ::
         (if at_ data (dir + 9) =? SP then []
          else at_ data (dir + 9) ::
               (if at_ data (dir + 10) =? SP then [] else [at_ data (dir + 10)])) in
  write_at lfn i (ext ++ [0]).

(** [for(i = 0; lfn[i] && s[i] && s[i] != '/'; i++) { ... if(a != b) break; }]:
    the index the comparison stops at. *)
Fixpoint name_cmp (fuel : nat) (lfn s : list Z) (i : Z) : Z :=
  match fuel with
  | O => i
  | S fuel' =>
      if (at_ lfn i =? 0) || (at_ s i =? 0) || (at_ s i =? ch "/") then i
      else if lower (at_ lfn i) =? lower (at_ s i) then name_cmp fuel' lfn s (i + 1)
      else i
  end.

Definition skipz (n : Z) (l : list Z) : list Z := skipn (Z.to_nat n) l.

Definition blank_lfn : list Z := repeat 0 261%nat.

(** One round of the [while(1)] of [bios_open]. *)
Definition open_round (w : walk) (st : fat_state) : open_step :=
  (* have we reached the end of the sector? *)
  let reload :=
    if 512 <=? w_dir w then
      if negb (w_secleft w =? 0) then
        let lba := u64 (w_lba w + 1) in
        let '(sec, st) := fw_loadsec lba st in
        Some (lba, w_clu w, u8 (w_secleft w - 1), sec, st)
      else if is_chain_end (w_clu w) then None
      else
        let lba := cluster_lba (w_clu w) in
        let '(clu, st) := bios_nextclu (w_clu w) st in
        let '(sec, st) := fw_loadsec lba st in
        Some (lba, clu, u8 (spc - 1), sec, st)
    else Some (w_lba w, w_clu w, w_secleft w, w_data w, st) in
  match reload with
  | None => Fail0 st
  | Some (lba, clu, secleft, data, st) =>
    let dir := if 512 <=? w_dir w then 0 else w_dir w in
    let d k := at_ data (dir + k) in
    let step n m u lfn :=
      Next {| w_lba := lba; w_clu := clu; w_secleft := secleft; w_dir := dir + 32;
              w_data := data; w_n := n; w_m := m; w_u := u; w_lfn := lfn;
              w_s := w_s w |} st in
    if d 0 =? 0 then Fail0 st
    else if negb (d 0 =? 5) && negb (d 0 =? 229)
            && (negb (d 0 =? ch ".") || (negb (d 1 =? ch ".") && negb (d 1 =? SP)))
    then
      if d 11 =? 15 then
        (* a long-name slot *)
        let first := (w_n w =? 0) || negb (Z.land (d 0) 64 =? 0) in
        let n := if first then Z.land (d 0) 31 else w_n w in
        let lfn := if first then blank_lfn else w_lfn w in
        if first && ((n <? 1) || (20 <? n)) then step 0 false (w_u w) lfn
        else
          let u := if first then (n - 1) * 13 else w_u w in
          let lfn := write_at lfn u (lfn_slot data dir) in
          let u := u - 13 in
          let n := n - 1 in
          step n ((n =? 0) && (u <? 0)) u lfn
      else if Z.land (d 11) 8 =? 0 then
        let lfn := if w_m w then w_lfn w else short_name data dir (w_lfn w) in
        let s := if deref (w_s w) =? ch "/" then advance 1 (w_s w) else w_s w in
        let i := name_cmp 261 lfn s 0 in
        if at_ lfn i =? 0 then
          let clu := u32 (Z.lor (Z.lor (Z.shiftl (d 21) 24) (Z.shiftl (d 20) 16))
                                (Z.lor (Z.shiftl (d 27) 8) (d 26))) in
          if negb (Z.land (d 11) 16 =? 0) then
            (* a directory: go down, or give up *)
            if negb (at_ s i =? ch "/") then Fail0 st
            else
              Next {| w_lba := lba; w_clu := clu; w_secleft := 0; w_dir := 512;
                      w_data := data; w_n := 0; w_m := false; w_u := w_u w;
                      w_lfn := lfn; w_s := skipz (i + 1) s |} st
          else if is_chain_end clu then Fail0 st
          else
            let size := le32 data (dir + 28) in
            Found clu (if size <? 2147483648 then size
                       else size + (2^64 - 2^32)) st
        else
          Next {| w_lba := lba; w_clu := clu; w_secleft := secleft; w_dir := dir + 32;
                  w_data := data; w_n := w_n w; w_m := false; w_u := w_u w;
                  w_lfn := lfn; w_s := s |} st
      else step (w_n w) (w_m w) (w_u w) (w_lfn w)
    else step (w_n w) (w_m w) (w_u w) (w_lfn w)
  end.

(** The [while(1)] itself: [None] when [fuel] rounds do not finish it. *)
Fixpoint open_loop (fuel : nat) (w : walk) (st : fat_state)
  : option (Z * Z * Z * fat_state) :=
  match fuel with
  | O => None
  | S fuel' =>
      match open_round w st with
      | Next w st => open_loop fuel' w st
      | Fail0 st => Some (0, 0, 0, st)
      | Found clu size st => Some (1, clu, size, st)
      end
  end.

(** [bios_open(fn)]: the returned [int] with [file_clu], [file_size] and
    the reader state. [root_dir] is the start of the partition, 0 when no
    file system was found. *)
Definition bios_open (fuel : nat) (root_dir : Z) (fn : list Z) (st : fat_state)
  : option (Z * Z * Z * fat_state) :=
  if (root_dir =? 0) || (deref fn =? 0) then Some (0, 0, 0, st)
  else
    open_loop fuel
      {| w_lba := 0; w_clu := rc; w_secleft := 0; w_dir := 512; w_data := [];
         w_n := 0; w_m := false; w_u := 0; w_lfn := blank_lfn; w_s := fn |} st.

(** *** [bios_read] *)

(** [while(nc-- && clu) { clu = bios_nextclu(clu); }] *)
Fixpoint skip_clusters (nc : nat) (clu : Z) (st : fat_state) : Z * fat_state :=
  match nc with
  | O => (clu, st)
  | S nc' =>
      if clu =? 0 then (clu, st)
      else let '(clu, st) := bios_nextclu clu st in skip_clusters nc' clu st
  end.

(** The locals of the read loop and the memory [buf] points into. *)
Record reading := {
  r_lba : Z;
  r_clu : Z;
  r_secleft : Z;
  r_os : Z;
  r_rs : Z;
  r_rem : Z;
  r_buf : Z;
  r_mem : bmem;
  r_pb : pbar
}.

(** [while(rem && !rq) { ... }] of a read of [size] bytes; every round
    takes at least one byte off [rem], which bounds the fuel.  [None] is
    also a fault in [pb_draw]. *)
Fixpoint read_loop (fuel : nat) (size : Z) (r : reading) (st : fat_state)
  : option (reading * fat_state) :=
  match fuel with
  | O => None
  | S fuel' =>
      if (r_rem r =? 0) || rq st then Some (r, st)
      else
        let place :=
          if negb (r_secleft r =? 0)
          then Some (u64 (r_lba r + 1), r_clu r, u8 (r_secleft r - 1), st)
          else if r_clu r =? 0 then None
          else
            let lba := cluster_lba (r_clu r) in
            let '(clu, st) := bios_nextclu (r_clu r) st in
            Some (lba, clu, u8 (spc - 1), st) in
        match place with
        | None => Some (r, st)
        | Some (lba, clu, secleft, st) =>
            let rs := if r_rem r <? r_rs r then r_rem r else r_rs r in
            let '(sec, st) := fw_loadsec lba st in
            let m :=
              if rs <? 512
              then store_bytes (r_mem r) (r_buf r)
                     (firstn (Z.to_nat rs) (skipn (Z.to_nat (r_os r)) sec))
              else
                let m := store_bytes (r_mem r) (r_buf r) sec in
                if r_os r =? 0 then m
                else memcpy m (r_buf r) (r_buf r + r_os r) (Z.to_nat rs) in
            match pb_draw vidmode (size - (r_rem r - rs)) (r_pb r) m with
            | None => None
            | Some (pb, m) =>
                read_loop fuel' size
                  {| r_lba := lba; r_clu := clu; r_secleft := secleft; r_os := 0;
                     r_rs := 512; r_rem := r_rem r - rs; r_buf := r_buf r + rs;
                     r_mem := m; r_pb := pb |} st
            end
        end
  end.

(** The seek of [bios_read], [if(offs) { ... }]: the locals [lba], [clu],
    [secleft], [os] and [rs] for the loop, or no locals when the chain
    ends before the offset, with the reader state [bios_nextclu] left.
    [None] is the division by [bpb->spc << 9] when that is 0. *)
Definition bios_seek (file_clu offs : Z) (st : fat_state)
  : option (option (Z * Z * Z * Z * Z) * fat_state) :=
  if offs =? 0 then Some (Some (0, file_clu, 0, 0, 512), st)
  else if Z.shiftl spc 9 =? 0 then None
  else
    let nc := u32 (offs / Z.shiftl spc 9) in
    let o := offs mod Z.shiftl spc 9 in
    let ns := u32 (Z.shiftr o 9) in
    let os := Z.land o 511 in
    let '(clu, st) :=
      if nc =? 0 then (file_clu, st)
      else skip_clusters (Z.to_nat nc) file_clu st in
    if negb (nc =? 0) && (clu =? 0) then Some (None, st)
    else Some (Some (u64 (u32 (clu * spc + ns - 1) + data_lba), clu,
                     u8 (spc - ns - 1), os, 512 - os), st).

(** [bios_read(offs, size, buf)] on the file [bios_open] left in
    [file_clu] and [file_size], with the progress bar's globals as the
    last read left them: the returned count, the memory and the reader
    state.  [None] is a read that does not return.  The test of [ST] is
    the caller's, [fw_read].  The sector buffer [data] is used up inside
    a round of the loop and is not part of the memory.  The globals of
    the bar are not part of the result: the next read sets them in
    [pb_init] before it reads them. *)
Definition bios_read (pb : pbar) (file_clu file_size offs size buf : Z) (m : bmem)
    (st : fat_state) : option (Z * bmem * fat_state) :=
  if (file_clu <? 2) || (file_size <=? offs) || (size =? 0) || (buf =? 0)
  then Some (0, m, st)
  else
    let size := if file_size <? u64 (offs + size) then file_size - offs else size in
    match pb_init vidmode size pb m with
    | None => None
    | Some (_, pb, m) =>
        match bios_seek file_clu offs st with
        | None => None
        | Some (None, st) => Some (0, m, st)
        | Some (Some (lba, clu, secleft, os, rs), st) =>
            match read_loop (S (Z.to_nat size)) size
                    {| r_lba := lba; r_clu := clu; r_secleft := secleft; r_os := os;
                       r_rs := rs; r_rem := size; r_buf := buf; r_mem := m;
                       r_pb := pb |} st with
            | None => None
            | Some (r, st) =>
                Some (size - r_rem r, snd (pb_fini vidmode fb_bg (r_pb r) (r_mem r)), st)
            end
        end
    end.

End Fat.

(** [bios_init] leaves the first eight FAT sectors in the window. *)
Definition fat_state0 (disk : Z -> list Z) (bkp : bool) (fat_lba : Z) : fat_state :=
  let st := {| kbd := []; rq := false; fat := []; fat_cache := 0 |} in
  let '(entries, st) := load_fat disk bkp 8 fat_lba st in
  {| kbd := kbd st; rq := rq st; fat := entries; fat_cache := 0 |}.

(** The video mode without a frame buffer, and the progress bar's globals
    as the loader starts with them. *)
Definition text_mode : vidmode_t :=
  {| framebuffer_addr := 0; framebuffer_pitch := 0;
     framebuffer_width := 0; framebuffer_height := 0; framebuffer_bpp := 0;
     framebuffer_red_field_position := 0; framebuffer_red_mask_size := 0;
     framebuffer_green_field_position := 0; framebuffer_green_mask_size := 0;
     framebuffer_blue_field_position := 0; framebuffer_blue_mask_size := 0 |}.

Definition pbar0 : pbar := {| pb_fb := 0; pb_m := 0; pb_l := 0; pb_b := 0 |}.

(** Opening [path] and reading the whole file to [buf], in text mode:
    what C8 calls [read_file(path, 0, size, buf)].  The result is the returned count and
    the bytes found at [buf]; [None] when the file cannot be opened. *)
Definition read_file (disk : Z -> list Z) (spc rc fat_lba data_lba root_dir : Z)
    (fuel : nat) (path : list Z) (buf : Z) : option (Z * list Z) :=
  let st := fat_state0 disk false fat_lba in
  match bios_open disk false spc rc fat_lba data_lba fuel root_dir path st with
  | Some (1, clu, size, st) =>
      match bios_read text_mode 0 disk false spc fat_lba data_lba pbar0
              clu size 0 size buf (fun _ => 0) st with
      | Some (n, m, _) => Some (n, load_bytes m buf (Z.to_nat n))
      | None => None
      end
  | _ => None
  end.

(** A small FAT32 volume: one sector per cluster, FAT at sector 10, the
    root directory in cluster 2 at sector 20.  The root holds the files
    [KERNEL] (cluster 3, 7 bytes) and [KERNEL.BAK] (cluster 4, 6 bytes),
    in that order. *)
Definition dirent (name : string) (attr clu size : Z) : list Z :=
  lit name ++ [attr] ++ repeat 0 8%nat
  ++ le_bytes 2 (clu / 65536) ++ repeat 0 4%nat
  ++ le_bytes 2 (clu mod 65536) ++ le_bytes 4 size.

Definition end_of_chain : Z := 268435455.

Definition volume0 (lba : Z) : list Z :=
  if lba =? 10 then
    le_bytes 4 268435448 ++ le_bytes 4 end_of_chain ++ le_bytes 4 end_of_chain
    ++ le_bytes 4 end_of_chain ++ le_bytes 4 end_of_chain
  else if lba =? 20 then
    dirent "KERNEL     " 32 3 7 ++ dirent "KERNEL  BAK" 32 4 6
  else if lba =? 21 then lit "primary"
  else if lba =? 22 then lit "backup"
  else [].

Definition read_file0 (path : string) : option (Z * list Z) :=
  read_file volume0 1 2 10 18 1 64 (lit path) 1048576.

(** ** Reading files on UEFI, and [fw_read] *)

(** The file the firmware has open: its bytes, and whether the device
    reports an error on access. *)
Record efi_file := {
  content : list Z;
  io_error : bool
}.

(** [f->Read(f, &n, buf)] as the UEFI specification has it: the bytes from
    the current position on, at most [n] of them; [true] is an error
    status. *)
Definition efi_file_read (f : efi_file) (pos n : Z) : bool * list Z :=
  if io_error f then (true, [])
  else (false, firstn (Z.to_nat n) (skipn (Z.to_nat pos) (content f))).

Section EfiRead.

Variable vidmode : vidmode_t.
Variable bkp : bool.

(** The check for user interruption before each firmware read; the head
    of [kbd] is the character [ReadKeyStroke] delivers, 0 for none. *)
Definition efi_poll (st : fat_state) : fat_state :=
  if negb bkp && negb (rq st) then
    {| kbd := tl (kbd st); rq := negb (hd 0 (kbd st) =? 0);
       fat := fat st; fat_cache := fat_cache st |}
  else st.

(** [for(curr = 0; !EFI_ERROR(status) && curr < size; curr += blksize)];
    [None] is also a fault in [pb_draw]. *)
Fixpoint efi_read_loop (fuel : nat) (f : efi_file) (offs size buf : Z)
    (curr blksize : Z) (pb : pbar) (m : bmem) (st : fat_state)
  : option (bool * bmem * fat_state) :=
  match fuel with
  | O => None
  | S fuel' =>
      if curr <? size then
        let st := efi_poll st in
        let blksize := if size - curr <? blksize then size - curr else blksize in
        let '(err, bytes) := efi_file_read f (offs + curr) blksize in
        let blksize := Z.of_nat (List.length bytes) in
        let m := store_bytes m (buf + curr) bytes in
        match pb_draw vidmode curr pb m with
        | None => None
        | Some (pb, m) =>
            if err then Some (true, m, st)
            else efi_read_loop fuel' f offs size buf (curr + blksize) blksize pb m st
        end
      else Some (false, m, st)
  end.

(** [efi_read(offs, size, buf)] on the open file [f] ([None] is NULL),
    with the progress bar's globals as the last read left them.  [None]
    is a read that does not return. *)
Definition efi_read (pb : pbar) (f : option efi_file) (file_size offs size buf : Z)
    (m : bmem) (st : fat_state) : option (Z * bmem * fat_state) :=
  match f with
  | None => Some (0, m, st)
  | Some f =>
      if (file_size <=? offs) || (size =? 0) || (buf =? 0) then Some (0, m, st)
      else
        let size := if file_size <? u64 (offs + size) then file_size - offs else size in
        if io_error f then Some (0, m, st)
        else
          match pb_init vidmode size pb m with
          | None => None
          | Some (blksize, pb, m) =>
              if negb (blksize =? 0) then
                match efi_read_loop (S (Z.to_nat size)) f offs size buf 0 blksize
                        pb m st with
                | None => None
                | Some (err, m, st) => Some (if err then 0 else size, m, st)
                end
              else
                let st := efi_poll st in
                let '(err, bytes) := efi_file_read f offs size in
                let m := store_bytes m buf bytes in
                Some (if err then 0 else Z.of_nat (List.length bytes), m, st)
          end
  end.

End EfiRead.

(** The open file as [fw_open] left it, for either firmware. *)
Record open_file := {
  root_dir : Z;
  fw_file_size : Z;
  file_clu : Z;
  efi_handle : option efi_file
}.

Section FwRead.

Variable ST : bool.
Variable vidmode : vidmode_t.
Variable fb_bg : Z.
Variable disk : Z -> list Z.
Variable bkp : bool.
Variable spc : Z.
Variable fat_lba : Z.
Variable data_lba : Z.

(** [fw_read], with the progress bar's globals as the last read left
    them. *)
Definition fw_read (pb : pbar) (f : open_file) (offs size buf : Z) (m : bmem)
    (st : fat_state) : option (Z * bmem * fat_state) :=
  if (root_dir f =? 0) || (fw_file_size f <=? offs) || (size =? 0) || (buf =? 0)
  then Some (0, m, st)
  else if ST then efi_read vidmode bkp pb (efi_handle f) (fw_file_size f) offs size buf m st
  else bios_read vidmode fb_bg disk bkp spc fat_lba data_lba pb (file_clu f)
                 (fw_file_size f) offs size buf m st.

End FwRead.

(** [m'] agrees with [m] on every address outside [lo, hi). *)
Definition unchanged_outside (m m' : bmem) (lo hi : Z) : Prop :=
  forall a, ~ (lo <= a < hi) -> m' a = m a.

(** [pb_fb] as [pb_init] computes it for the video mode. *)
Definition pb_start (vm : vidmode_t) : Z :=
  u64 (u64 (framebuffer_addr vm
            + u32 (u32 (framebuffer_height vm - 4) * framebuffer_pitch vm))
       + u32 (2 * Z.shiftr (framebuffer_bpp vm + 7) 3)).

(** The bytes within reach of the stores of the bar: the up to four
    bytes of a pixel at a 32-bit offset in the row at [pb_fb] or in the
    row below it. *)
Definition bar_reach (vm : vidmode_t) (a : Z) : Prop :=
  exists i k, 0 <= i < 2^32 /\ 0 <= k < 4 /\
    (a = u64 (pb_start vm + i) + k \/
     a = u64 (u64 (pb_start vm + framebuffer_pitch vm) + i) + k).

(** The bytes in which the progress bar may be drawn: none without a
    frame buffer, else those within reach of its stores. *)
Definition in_progress_bar (vm : vidmode_t) (a : Z) : Prop :=
  framebuffer_addr vm <> 0 /\ bar_reach vm a.

(** [m'] agrees with [m] outside the progress bar. *)
Definition same_outside_bar (vm : vidmode_t) (m m' : bmem) : Prop :=
  forall x, ~ in_progress_bar vm x -> m' x = m x.

(** [m'] agrees with [m] outside [lo, hi) and outside the progress bar. *)
Definition unchanged_outside_bar (vm : vidmode_t) (m m' : bmem) (lo hi : Z) : Prop :=
  forall a, ~ (lo <= a < hi) -> ~ in_progress_bar vm a -> m' a = m a.

(** The globals of the bar between [pb_init] and the end of a read: no
    bar ([pb_fb] is NULL), or the bar of the video mode, in its frame
    buffer, with a non-zero [pb_m]. *)
Definition pb_ok (vm : vidmode_t) (pb : pbar) : Prop :=
  (pb_fb pb = 0 \/
   (pb_fb pb = pb_start vm /\ pb_m pb <> 0 /\ framebuffer_addr vm <> 0)) /\
  0 <= pb_l pb < 2^32.

(** The video modes in which [pb_init] does not divide by 0: no frame
    buffer, or a width other than 4. *)
Definition pb_init_returns (vm : vidmode_t) : Prop :=
  framebuffer_addr vm = 0 \/ u32 (framebuffer_width vm - 4) <> 0.

(** The file [KERNEL] of [volume0] as [fw_open] leaves it on BIOS, and a
    seven-byte file open on UEFI. *)
Definition kernel_file0 : open_file :=
  {| root_dir := 1; fw_file_size := 7; file_clu := 3; efi_handle := None |}.

Definition efi_file0 : open_file :=
  {| root_dir := 1; fw_file_size := 7; file_clu := 0;
     efi_handle := Some {| content := lit "primary"; io_error := false |} |}.

(** The count a read returns and the bytes found at [buf] afterwards. *)
Definition read_result (r : option (Z * bmem * fat_state)) (buf : Z) (n : nat)
  : option (Z * list Z) :=
  match r with
  | Some (k, m, _) => Some (k, load_bytes m buf n)
  | None => None
  end.

(** ** The Multiboot2 information structure *)

Definition MULTIBOOT_TAG_TYPE_END : Z := 0.
Definition MULTIBOOT_TAG_TYPE_CMDLINE : Z := 1.
Definition MULTIBOOT_TAG_TYPE_BOOT_LOADER_NAME : Z := 2.
Definition MULTIBOOT_TAG_TYPE_MODULE : Z := 3.
Definition MULTIBOOT_TAG_TYPE_MMAP : Z := 6.
Definition MULTIBOOT_TAG_TYPE_FRAMEBUFFER : Z := 8.
Definition MULTIBOOT_TAG_TYPE_EFI64 : Z := 12.
Definition MULTIBOOT_TAG_TYPE_SMBIOS : Z := 13.
Definition MULTIBOOT_TAG_TYPE_ACPI_OLD : Z := 14.
Definition MULTIBOOT_TAG_TYPE_ACPI_NEW : Z := 15.
Definition MULTIBOOT_TAG_TYPE_EFI64_IH : Z := 20.
Definition MULTIBOOT_TAG_TYPE_EDID : Z := 256.
Definition MULTIBOOT_TAG_TYPE_SMP : Z := 257.
Definition MULTIBOOT_TAG_TYPE_PARTUUID : Z := 258.

(** The sizes of the structures of [simpleboot.h] and [loader.h]. *)
Definition sizeof_multiboot_info_t : Z := 8.
Definition sizeof_multiboot_tag_module_t : Z := 16.
Definition sizeof_multiboot_tag_mmap_t : Z := 16.
Definition sizeof_multiboot_mmap_entry_t : Z := 24.
Definition sizeof_multiboot_tag_framebuffer_t : Z := 40.
Definition sizeof_multiboot_tag_smbios_t : Z := 16.
Definition sizeof_multiboot_tag_acpi_t : Z := 8.
Definition sizeof_multiboot_tag_smp_t : Z := 20.
Definition sizeof_rsdp_t : Z := 20.

(** The tag buffer: its 32-bit words by address, the start of the buffer
    and the bump cursor.  Of a tag the header is kept; the payload is
    written after the header and before the cursor moves on, so it never
    reaches a header, and is left out. *)
Record tagbuf := {
  tmem : mem;
  tbuf : Z;
  tags_ptr : Z
}.

(** [(size + 7) & ~7] on a [uint32_t] *)
Definition tag_stride (size : Z) : Z := align8_down (u32 (size + 7)).

Definition tag_header (ty size : Z) (t : tagbuf) : tagbuf :=
  {| tmem := store (store (tmem t) (tags_ptr t) ty) (tags_ptr t + 4) size;
     tbuf := tbuf t; tags_ptr := tags_ptr t |}.

Definition tag_advance (size : Z) (t : tagbuf) : tagbuf :=
  {| tmem := tmem t; tbuf := tbuf t; tags_ptr := tags_ptr t + tag_stride size |}.

(** [tag->type = ty; tag->size = size; tags_ptr += (tag->size + 7) & ~7;] *)
Definition emit_tag (ty size : Z) (t : tagbuf) : tagbuf :=
  tag_advance (u32 size) (tag_header ty (u32 size) t).

(** The memory-map tag is written in place and only kept when the firmware
    delivered entries. *)
Definition mmap_tag (num_memmap : Z) (t : tagbuf) : tagbuf :=
  let p := tags_ptr t in
  let t := {| tmem := store (store (store (tmem t) p MULTIBOOT_TAG_TYPE_MMAP)
                                   (p + 8) sizeof_multiboot_mmap_entry_t)
                            (p + 12) 0;
              tbuf := tbuf t; tags_ptr := p |} in
  if 0 <? num_memmap
  then
    let size := u32 (sizeof_multiboot_tag_mmap_t
                     + num_memmap * sizeof_multiboot_mmap_entry_t) in
    tag_advance size
      {| tmem := store (tmem t) (p + 4) size; tbuf := tbuf t; tags_ptr := p |}
  else t.

(** The system tables the firmware exposes, in the order the scan of
    [bios_systables], [fb_systables] or [efi_systables] meets them: an
    SMBIOS anchor with its length byte, an ACPI 1.0 or 2.0 RSDP, or the
    RSDP the loader fabricates on FOSSBIOS. *)
Inductive systable :=
| Smbios (len : Z)
| RsdpOld
| RsdpNew
| RsdpFake.

Definition systable_tag (s : systable) (t : tagbuf) : tagbuf :=
  match s with
  | Smbios len => emit_tag MULTIBOOT_TAG_TYPE_SMBIOS (sizeof_multiboot_tag_smbios_t + len) t
  | RsdpOld => emit_tag MULTIBOOT_TAG_TYPE_ACPI_OLD (sizeof_multiboot_tag_acpi_t + 24) t
  | RsdpNew => emit_tag MULTIBOOT_TAG_TYPE_ACPI_NEW (sizeof_multiboot_tag_acpi_t + 36) t
  | RsdpFake => emit_tag MULTIBOOT_TAG_TYPE_ACPI_OLD (sizeof_multiboot_tag_acpi_t + sizeof_rsdp_t) t
  end.

Definition systables_tags (l : list systable) (t : tagbuf) : tagbuf :=
  fold_left (fun t s => systable_tag s t) l t.

(** What the boot delivers to the tag synthesizer. *)
Record boot_info := {
  bi_ST : bool;                 (* booted through UEFI *)
  bi_bkp : bool;                (* backup mode *)
  bi_cmdline : option Z;        (* length of the command line, if any *)
  bi_systables : list systable;
  bi_num_memmap : Z;            (* entries of the BIOS memory map *)
  bi_modules : list Z;          (* e - a of every module that gets a tag *)
  bi_framebuffer : bool;        (* vidmode.framebuffer_addr != 0 *)
  bi_edid : option Z;           (* size of the EDID block, if one is found *)
  bi_smp : bool;
  bi_efi_num_memmap : Z         (* entries of the UEFI memory map *)
}.

(** The tag part of [fw_loadsetup], for a tag buffer at [tags_buf]. *)
Definition fw_loadsetup_tags (bi : boot_info) (tags_buf : Z) (m : mem) : tagbuf :=
  let t := {| tmem := store (store m tags_buf 0) (tags_buf + 4) 0;
              tbuf := tags_buf;
              tags_ptr := tags_buf + sizeof_multiboot_info_t |} in
  let t := emit_tag MULTIBOOT_TAG_TYPE_BOOT_LOADER_NAME (if bi_bkp bi then 28 else 19) t in
  let t := match bi_cmdline bi with
           | Some len => emit_tag MULTIBOOT_TAG_TYPE_CMDLINE (9 + len) t
           | None => t
           end in
  let t := systables_tags (bi_systables bi) t in
  if bi_ST bi then t else mmap_tag (bi_num_memmap bi) t.

(** The module tags of [fw_loadmodules]. *)
Definition fw_loadmodules_tags (bi : boot_info) (t : tagbuf) : tagbuf :=
  fold_left (fun t len =>
               emit_tag MULTIBOOT_TAG_TYPE_MODULE (sizeof_multiboot_tag_module_t + len + 1) t)
            (bi_modules bi) t.

(** The tag part of [fw_fini] when [tags_ptr] is set. *)
Definition fw_fini_tags (bi : boot_info) (t : tagbuf) : tagbuf :=
  let t := if bi_framebuffer bi
           then emit_tag MULTIBOOT_TAG_TYPE_FRAMEBUFFER sizeof_multiboot_tag_framebuffer_t t
           else t in
  let t := match bi_edid bi with
           | Some i =>
               tag_advance (i + 8) (tag_header MULTIBOOT_TAG_TYPE_EDID (u32 (i + 8)) t)
           | None => t
           end in
  let t := if bi_smp bi
           then emit_tag MULTIBOOT_TAG_TYPE_SMP sizeof_multiboot_tag_smp_t t
           else t in
  let t := emit_tag MULTIBOOT_TAG_TYPE_PARTUUID 24 t in
  let t := if bi_ST bi then
             let t := mmap_tag (bi_efi_num_memmap bi) t in
             let t := emit_tag MULTIBOOT_TAG_TYPE_EFI64 16 t in
             emit_tag MULTIBOOT_TAG_TYPE_EFI64_IH 16 t
           else t in
  let t := emit_tag MULTIBOOT_TAG_TYPE_END 8 t in
  {| tmem := store (tmem t) (tbuf t) (u32 (tags_ptr t - tbuf t));
     tbuf := tbuf t; tags_ptr := tags_ptr t |}.

(** The three passes in the order [_start] runs them. *)
Definition build_mbi (bi : boot_info) (tags_buf : Z) (m : mem) : tagbuf :=
  fw_fini_tags bi (fw_loadmodules_tags bi (fw_loadsetup_tags bi tags_buf m)).

(** How a kernel reads the list: from the first tag on, each tag [size]
    rounded up to 8 further, up to and including the first tag of type 0.
    Each element is the address, the type and the size of a tag. *)
Fixpoint mbi_walk (fuel : nat) (m : mem) (p : Z) : option (list (Z * Z * Z)) :=
  match fuel with
  | O => None
  | S fuel' =>
      let ty := m p in
      let size := m (p + 4) in
      if ty =? MULTIBOOT_TAG_TYPE_END then Some [(p, ty, size)]
      else option_map (cons (p, ty, size)) (mbi_walk fuel' m (p + tag_stride size))
  end.

(** The bounds within which the sizes stay 32-bit quantities. *)
Definition small (n : Z) : Prop := 0 <= n < 2^31.

Definition systable_ok (s : systable) : Prop :=
  match s with
  | Smbios len => 0 <= len < 256
  | _ => True
  end.

Definition boot_info_ok (bi : boot_info) : Prop :=
  (forall len, bi_cmdline bi = Some len -> small len) /\
  Forall systable_ok (bi_systables bi) /\
  bi_num_memmap bi < 2^24 /\
  Forall small (bi_modules bi) /\
  (forall i, bi_edid bi = Some i -> 0 < i < 2^31) /\
  bi_efi_num_memmap bi < 2^24.

(** The number of tags a boot can produce at most. *)
Definition max_tags (bi : boot_info) : nat :=
  (12 + List.length (bi_systables bi) + List.length (bi_modules bi))%nat.

(** A BIOS boot with a command line, both system tables and two modules. *)
Definition boot_info0 : boot_info :=
  {| bi_ST := false; bi_bkp := false; bi_cmdline := Some 14;
     bi_systables := [Smbios 31; RsdpNew]; bi_num_memmap := 7;
     bi_modules := [6; 11]; bi_framebuffer := true; bi_edid := Some 128;
     bi_smp := true; bi_efi_num_memmap := 0 |}.

(** The tags laid out in [m] from [p0] up to [p]: each header holds its
    type and size, and the next one follows [tag_stride] further. *)
Fixpoint chain (m : mem) (p0 : Z) (tags : list (Z * Z * Z)) (p : Z) : Prop :=
  match tags with
  | [] => p0 = p
  | (a, ty, size) :: rest =>
      a = p0 /\ m p0 = ty /\ m (p0 + 4) = size /\
      8 <= size <= 2^32 - 16 /\
      chain m (p0 + tag_stride size) rest p
  end.

(** A tag other than the terminator, on an 8-byte boundary of the buffer. *)
Definition tag_ok (base : Z) (tag : Z * Z * Z) : Prop :=
  snd (fst tag) <> MULTIBOOT_TAG_TYPE_END /\ (fst (fst tag) - base) mod 8 = 0.

(** The buffer holds at most [n] well-formed tags up to its cursor. *)
Definition wf (n : nat) (t : tagbuf) : Prop :=
  exists tags,
    (List.length tags <= n)%nat /\
    chain (tmem t) (tbuf t + 8) tags (tags_ptr t) /\
    Forall (tag_ok (tbuf t)) tags /\
    (tags_ptr t - tbuf t) mod 8 = 0.

(** ** The ACPI patch of [fw_fini] *)

(** Little-endian fields in byte memory. *)
Definition rd8 (m : bmem) (a : Z) : Z := m a.
Definition rd32 (m : bmem) (a : Z) : Z :=
  m a + 256 * m (a + 1) + 65536 * m (a + 2) + 16777216 * m (a + 3).
Definition rd64 (m : bmem) (a : Z) : Z := rd32 m a + 2^32 * rd32 m (a + 4).
Definition wr8 (m : bmem) (a v : Z) : bmem := store m a (u8 v).
Definition wr64 (m : bmem) (a v : Z) : bmem := store_bytes m a (le_bytes 8 (u64 v)).

(** [!memcmp(p, lit, strlen(lit))] in memory *)
Definition mem_is (m : bmem) (a : Z) (s : string) : bool :=
  forallb (fun k => m (a + Z.of_nat k) =? nth k (lit s) 0) (seq 0 (String.length s)).

(** The offsets of [sdt_hdr_t] and [fadt_t], both packed. *)
Definition hdr_size : Z := 4.
Definition hdr_rev : Z := 8.
Definition hdr_chksum : Z := 9.
Definition sizeof_sdt_hdr_t : Z := 36.
Definition fadt_dsdt : Z := 40.
Definition fadt_x_dsdt : Z := 140.
Definition sizeof_fadt_t : Z := 148.

(** [(int)x] of a [uint32_t] *)
Definition int_of_u32 (x : Z) : Z := if x <? 2^31 then x else x - 2^32.

(** [for(s = 0, i = 0; i < n; i++) { s += *(((uint8_t* )table) + i); }]
    with [s] a [uint8_t] *)
Fixpoint checksum_loop (m : bmem) (a : Z) (n : nat) (s : Z) : Z :=
  match n with
  | O => s
  | S n' => checksum_loop m (a + 1) n' (u8 (s + m a))
  end.

(** The patch of one FADT at [fadt]. *)
Definition fadt_patch (m : bmem) (fadt dsdt_ptr : Z) : bmem :=
  let m := wr32 m (fadt + fadt_dsdt) dsdt_ptr in
  let m := if (2 <=? rd8 m (fadt + hdr_rev))
              && (sizeof_fadt_t <? rd32 m (fadt + hdr_size))
           then wr64 m (fadt + fadt_x_dsdt) dsdt_ptr else m in
  let m := wr8 m (fadt + hdr_chksum) 0 in
  let s := checksum_loop m fadt
             (Z.to_nat (int_of_u32 (rd32 m (fadt + hdr_size)))) 0 in
  wr8 m (fadt + hdr_chksum) (256 - s).

(** The walk over the entries of the RSDT or XSDT at [rsdt], from [ptr]
    up to [end_]; the MADT branch only reads and is left out. *)
Fixpoint acpi_tables (fuel : nat) (m : bmem) (rsdt ptr end_ dsdt_ptr : Z) : bmem :=
  match fuel with
  | O => m
  | S fuel' =>
      if ptr <? end_ then
        let x := rd8 m rsdt =? ch "X" in
        let p := if x then rd64 m ptr else rd32 m ptr in
        let m := if negb (dsdt_ptr =? 0) && mem_is m p "FACP"
                 then fadt_patch m p dsdt_ptr else m in
        acpi_tables fuel' m rsdt (ptr + (if rd8 m rsdt =? ch "X" then 8 else 4))
                    end_ dsdt_ptr
      else m
  end.

(** The part of [fw_fini] that starts from the table an RSDP points at. *)
Definition acpi_patch (m : bmem) (rsdt dsdt_ptr : Z) : bmem :=
  if ((rd8 m rsdt =? ch "R") || (rd8 m rsdt =? ch "X")) && mem_is m (rsdt + 1) "SDT"
  then
    let size := rd32 m (rsdt + hdr_size) in
    acpi_tables (Z.to_nat (size / 4 + 1)) m rsdt (rsdt + sizeof_sdt_hdr_t)
                (rsdt + size) dsdt_ptr
  else m.

(** The sum of the [n] bytes from [a] on. *)
Fixpoint sum_bytes (m : bmem) (a : Z) (n : nat) : Z :=
  match n with
  | O => 0
  | S n' => m a + sum_bytes m (a + 1) n'
  end.

(** The tables [fb_systables] fabricates on FOSSBIOS: an RSDT at [rsdt]
    with one entry, the FADT at [fadt], whose DSDT fields point at the
    firmware's configuration [conf]. *)
Definition fb_systables_acpi (m : bmem) (rsdt fadt conf : Z) : bmem :=
  let m := zero_range m rsdt 44 in
  let m := store_bytes m rsdt (lit "RSDT") in
  let m := wr8 m (rsdt + hdr_rev) 1 in
  let m := wr32 m (rsdt + hdr_size) (sizeof_sdt_hdr_t + 1 * 4) in
  let m := wr32 m (rsdt + sizeof_sdt_hdr_t) fadt in
  let m := zero_range m fadt sizeof_fadt_t in
  let m := store_bytes m fadt (lit "FACP") in
  let m := wr8 m (fadt + hdr_rev) 2 in
  let m := wr32 m (fadt + hdr_size) sizeof_fadt_t in
  let m := wr32 m (fadt + fadt_dsdt) conf in
  let m := wr64 m (fadt + fadt_x_dsdt) conf in
  let m := wr8 m (fadt + hdr_chksum)
             (256 - sum_bytes m fadt (Z.to_nat sizeof_fadt_t)) in
  wr8 m (rsdt + hdr_chksum) (256 - sum_bytes m rsdt 44).

(** FOSSBIOS tables at 0x7000 and 0x7100, the firmware's configuration at
    0xF0000, and a GUDT module loaded at 2 MiB. *)
Definition fossbios_mem : bmem :=
  fb_systables_acpi (fun _ => 0) 28672 28928 983040.
Definition gudt_module : Z := 2097152.

(** ** [fw_loadkernel]: the Linux/x86 boot protocol *)

Definition MODE_UNKNOWN : Z := 0.
Definition MODE_VBR : Z := 1.
Definition MODE_PE32 : Z := 2.
Definition MODE_MB32 : Z := 3.
Definition MODE_MB64 : Z := 4.
Definition MODE_LIN : Z := 5.

Definition VIDEO_MODE_ASK : Z := 65533.
Definition VIDEO_MODE_CUR : Z := 3844.

(** The offsets of the fields of [linux_boot_t] in the kernel image and in
    the zero page, where the header sits at 0x1f1. *)
Definition off_hdr : Z := 497.
Definition off_setup_sects : Z := 497.
Definition off_root_flags : Z := 498.
Definition off_vid_mode : Z := 506.
Definition off_root_dev : Z := 508.
Definition off_boot_flag : Z := 510.
Definition off_jump : Z := 512.
Definition off_header : Z := 514.
Definition off_version : Z := 518.
Definition off_type_of_loader : Z := 528.
Definition off_cmd_line_ptr : Z := 552.
Definition off_pref_address : Z := 600.
Definition off_init_size : Z := 608.
Definition sizeof_linux_boot_params_t : Z := 4096.

Definition rd16 (m : bmem) (a : Z) : Z := m a + 256 * m (a + 1).

Definition le64 (a : list Z) (i : Z) : Z := le32 a i + 2^32 * le32 a (i + 4).

(** The command line up to its end, at most 32767 characters. *)
Fixpoint cmdline_chars (n : nat) (p : list Z) : list Z :=
  match n, p with
  | S n', c :: p' => if is_eol c then [] else c :: cmdline_chars n' p'
  | _, _ => []
  end.

(** How [fw_loadkernel] leaves through its Linux branch. *)
Inductive linux_outcome :=
| NotLinux                      (* the other formats are tried *)
| LinuxUnsupported              (* "unsupported Linux boot protocol version" *)
| LinuxNoZeroPage               (* "zero page allocation error" *)
| LinuxSegmentFailed (st : map_state) (ops : list load_op)
| LinuxLoaded (kernel_mode smp zero_page : Z) (zp : bmem) (kernel_entry : Z)
              (st : map_state) (ops : list load_op).

Section Loadkernel.

Variable ST : bool.
Variable pt : Z.
Variable efi_allocpages : Z -> Z -> Z -> Z.
Variable env : seg_env.

(** [hdr->boot_flag == 0xAA55 && !memcmp(&hdr->header, HDRSMAG, 4)] *)
Definition linux_detected (kernel_buf : list Z) : bool :=
  (le16 kernel_buf off_boot_flag =? 43605)
  && starts_with (lit "HdrS") (skipz off_header kernel_buf).

(** [hdr->version < 0x20c || ((hdr->pref_address + file_size) >> 32L)] *)
Definition linux_unsupported (kernel_buf : list Z) : bool :=
  (le16 kernel_buf off_version <? 524)
  || negb (Z.shiftr (u64 (le64 kernel_buf off_pref_address + file_size env)) 32 =? 0).

Definition chars_of (cmdline : option (list Z)) : list Z :=
  match cmdline with
  | Some c => cmdline_chars (List.length c) c
  | None => []
  end.

(** Where the zero page goes: the one already there, else a page of
    [efi_alloc] or 0x90000, else on UEFI pages below 4 GiB; 0 when all
    of that fails. *)
Definition linux_zero_page (cmdline : option (list Z)) (zero_page : Z)
    (st : map_state) : Z * map_state :=
  let '(zero_page, st) :=
    if zero_page =? 0 then (if ST then efi_alloc st else (589824, st))
    else (zero_page, st) in
  let i := Z.of_nat (List.length (chars_of cmdline)) in
  let pages := Z.shiftr (i + sizeof_linux_boot_params_t + 1 + 4095) 12 in
  if ST && (zero_page =? 0) then
    let a := efi_allocpages AllocateMaxAddress pages 0 in
    if a =? 0 then
      let a := efi_allocpages AllocateAnyPages pages 0 in
      (if negb (Z.shiftr a 32 =? 0) then 0 else a, st)
    else (a, st)
  else (zero_page, st).

(** [if(!hdr->setup_sects) hdr->setup_sects = 4;] *)
Definition fix_setup_sects (kernel_buf : list Z) : list Z :=
  if at_ kernel_buf off_setup_sects =? 0
  then upd kernel_buf off_setup_sects 4 else kernel_buf.

(** The zero page as the Linux branch fills it. *)
Definition linux_fill_zero_page (kernel_buf : list Z) (cmdline : option (list Z))
    (zero_page : Z) (m : bmem) : bmem :=
  let m := zero_range m zero_page sizeof_linux_boot_params_t in
  let m := store_bytes m (zero_page + off_hdr)
             (firstn (Z.to_nat (514 - 497 + at_ kernel_buf 513))
                     (skipz off_hdr kernel_buf)) in
  let m := wr16 m (zero_page + off_root_dev) 256 in
  let m := wr16 m (zero_page + off_root_flags) 1 in
  let m := wr16 m (zero_page + off_vid_mode) 65535 in
  let m := wr8 m (zero_page + off_type_of_loader) 255 in
  match cmdline with
  | Some c =>
      let ptr := zero_page + sizeof_linux_boot_params_t in
      let m := wr32 m (zero_page + off_cmd_line_ptr) ptr in
      store_bytes m ptr (cmdline_chars (Z.to_nat 32767) c ++ [0])
  | None => m
  end.

(** The Linux branch of [fw_loadkernel]. [kernel_buf] holds the first
    4096 bytes of the kernel file; [cmdline] and [zero_page] are the
    globals of that name, 0 for a NULL pointer. *)
Definition fw_loadkernel_linux (kernel_buf : list Z) (cmdline : option (list Z))
    (zero_page : Z) (m : bmem) (st : map_state) : option linux_outcome :=
  if linux_detected kernel_buf then
    if linux_unsupported kernel_buf then Some LinuxUnsupported
    else
      let '(zero_page, st) := linux_zero_page cmdline zero_page st in
      if zero_page =? 0 then Some LinuxNoZeroPage
      else
        let kernel_buf := fix_setup_sects kernel_buf in
        let m := linux_fill_zero_page kernel_buf cmdline zero_page m in
        match fw_loadseg ST pt efi_allocpages env
                ((at_ kernel_buf off_setup_sects + 1) * 512)
                (le32 kernel_buf off_init_size)
                (le64 kernel_buf off_pref_address)
                (le32 kernel_buf off_init_size) st with
        | None => None
        | Some (r, st, ops) =>
            if r =? 0 then Some (LinuxSegmentFailed st ops)
            else Some (LinuxLoaded MODE_LIN 0 zero_page m
                         (u64 (le64 kernel_buf off_pref_address + 512)) st ops)
        end
  else Some NotLinux.

End Loadkernel.

(** A kernel image with a boot-protocol header: [setup_sects] 0, protocol
    2.13, jump byte 0x6a, preferred address 1 MiB, [init_size] 4 MiB. *)
Definition bzimage0 : list Z :=
  repeat 0 497%nat
  ++ [0] ++ le_bytes 2 0 ++ le_bytes 4 1000 ++ le_bytes 2 0
  ++ le_bytes 2 65533 ++ le_bytes 2 0 ++ le_bytes 2 43605
  ++ [235; 106] ++ lit "HdrS" ++ le_bytes 2 525
  ++ repeat 0 80%nat
  ++ le_bytes 8 1048576 ++ le_bytes 4 4194304
  ++ repeat 0 3484%nat.

Definition seg_env0 : seg_env :=
  {| memmap := Some e820_map0; ram := 1073741824; file_size := 2000000 |}.

(** What is read back from the zero page, the entry point and the
    operations of an outcome. *)
Definition zero_page_u16 (o : option linux_outcome) (off : Z) : option Z :=
  match o with
  | Some (LinuxLoaded _ _ zero_page zp _ _ _) => Some (rd16 zp (zero_page + off))
  | _ => None
  end.
Definition zero_page_u8 (o : option linux_outcome) (off : Z) : option Z :=
  match o with
  | Some (LinuxLoaded _ _ zero_page zp _ _ _) => Some (rd8 zp (zero_page + off))
  | _ => None
  end.
Definition entry_of (o : option linux_outcome) : option Z :=
  match o with
  | Some (LinuxLoaded _ _ _ _ kernel_entry _ _) => Some kernel_entry
  | _ => None
  end.
Definition ops_of (o : option linux_outcome) : list load_op :=
  match o with
  | Some (LinuxLoaded _ _ _ _ _ _ ops) => ops
  | _ => []
  end.

Definition linux_boot0 : option linux_outcome :=
  fw_loadkernel_linux false 4096 no_allocpages seg_env0 bzimage0
    (Some (lit "root=/dev/sda1")) 0 (fun _ => 0) bios_state0.

(** A configuration file with primary and backup lines. *)
Definition newline : list Z := [LF].
Definition config_text0 : list Z :=
  lit "verbose 2" ++ newline
  ++ lit "kernel vmlinuz quiet" ++ newline
  ++ lit "backupkernel vmlinuz.bak" ++ newline
  ++ lit "multicore" ++ newline
  ++ lit "backupframebuffer 640 480 32" ++ newline.

(** The kernel path and the command line as [fw_open] and [fw_loadsetup]
    read them: up to the next blank, and up to the end of the line. *)
Definition word_of (p : option (list Z)) : list Z :=
  match p with
  | Some p => firstn (List.length p - List.length (scan_word p)) p
  | None => []
  end.
Definition line_of (p : option (list Z)) : list Z :=
  match p with
  | Some p => firstn (List.length p - List.length (scan_eol p)) p
  | None => []
  end.

Definition config_summary (c : option config) :=
  match c with
  | Some c => Some (word_of (kernel c), line_of (cmdline c), verbose c, smp c,
                    (fb_w c, fb_h c, fb_bpp c))
  | None => None
  end.

(** * The rest of the loader *)

From Stdlib Require Import Permutation Sorted.

(** ** Numbers in the configuration file *)

Definition is_digit (c : Z) : bool := (ch "0" <=? c) && (c <=? ch "9").

(** The number a string of decimal digits denotes. *)
Definition decimal_value (ds : list Z) : Z :=
  fold_left (fun acc c => acc * 10 + (c - ch "0")) ds 0.

(** ** [printf]: the boot console's formatter *)

Definition int_of_u64 (x : Z) : Z := if x <? 2^63 then x else x - 2^64.
Definition i32 (x : Z) : Z := int_of_u32 (u32 x).
Definition i64 (x : Z) : Z := int_of_u64 (u64 x).

(** One variadic argument: the 64-bit slot of an integer or pointer-sized
    value, a [char*] or a [uint16_t*] ([None] is the NULL pointer). *)
Inductive varg :=
| VInt (v : Z)
| VStr (p : option (list Z))
| VWstr (p : option (list Z)).

(** The characters [while( *p) console_putc( *p++);] passes on. *)
Fixpoint c_string (p : list Z) : list Z :=
  match p with
  | c :: p' => if c =? 0 then [] else c :: c_string p'
  | [] => []
  end.

(** [len=0; while( *fmt >= '0' && *fmt <= '9') { len *= 10; len += *fmt - '0'; fmt++; }] *)
Fixpoint printf_width (len : Z) (fmt : list Z) : Z * list Z :=
  match fmt with
  | c :: fmt' =>
      if (ch "0" <=? c) && (c <=? ch "9")
      then printf_width (i32 (i32 (len * 10) + (c - ch "0"))) fmt'
      else (len, fmt)
  | [] => (len, fmt)
  end.

(** [do { tmpstr[--i] = '0' + (arg % 10); arg /= 10; } while(arg != 0 && i > 0);]
    The list is [tmpstr] from index [i] up to its terminator. *)
Fixpoint dec_loop (i : nat) (arg : Z) (tmpstr : list Z) : nat * list Z :=
  match i with
  | O => (O, tmpstr)
  | S i' =>
      let tmpstr' := u8 (ch "0" + Z.rem arg 10) :: tmpstr in
      let arg' := Z.quot arg 10 in
      if negb (arg' =? 0) && (0 <? i')%nat then dec_loop i' arg' tmpstr'
      else (i', tmpstr')
  end.

(** [do { n = arg & 0xf; tmpstr[--i] = n + (n > 9 ? 0x37 : 0x30); arg >>= 4; }
     while(arg != 0 && i > 0);] *)
Definition hexchar (n : Z) : Z := u8 (n + (if 9 <? n then 55 else 48)).

Fixpoint hex_loop (i : nat) (arg : Z) (tmpstr : list Z) : nat * list Z :=
  match i with
  | O => (O, tmpstr)
  | S i' =>
      let tmpstr' := hexchar (Z.land arg 15) :: tmpstr in
      let arg' := Z.shiftr arg 4 in
      if negb (arg' =? 0) && (0 <? i')%nat then hex_loop i' arg' tmpstr'
      else (i', tmpstr')
  end.

(** [while(i > top - len) tmpstr[--i] = c;] *)
Definition pad_to (top len : Z) (c : Z) (i : nat) (tmpstr : list Z) : list Z :=
  repeat c (Z.to_nat (Z.of_nat i - (top - len))) ++ tmpstr.

(** The [%d] conversion. A sign that would be stored below [tmpstr[0]] is
    outside the model. *)
Definition printf_d (l : bool) (len v : Z) : option (list Z) :=
  let arg := if l then i64 v else i32 v in
  let sign := i32 arg <? 0 in
  let arg := if sign then i64 (- arg) else arg in
  let '(i, tmpstr) := dec_loop 18 arg [] in
  let signed :=
    if sign then
      match i with
      | O => None
      | S i' => Some (i', ch "-" :: tmpstr)
      end
    else Some (i, tmpstr) in
  match signed with
  | None => None
  | Some (i, tmpstr) =>
      Some (if (0 <? len) && (len <? 18) then pad_to 18 len SP i tmpstr else tmpstr)
  end.

(** The [%x] and [%p] conversions. *)
Definition printf_x (p l : bool) (len v : Z) : list Z :=
  let arg := if negb p && negb l then i32 v else i64 v in
  let len := if p then 16 else len in
  let '(i, tmpstr) := hex_loop 16 arg [] in
  if (0 <? len) && (len <=? 16) then pad_to 16 len (ch "0") i tmpstr else tmpstr.

Section Printf.

(** Memory, which [%D] dumps. *)
Variable m : bmem.

Definition dump_row (arg : Z) : list Z :=
  map (fun i => hexchar (Z.land (Z.shiftr arg i) 15)) [28; 24; 20; 16; 12; 8; 4; 0]
  ++ [ch ":"; SP]
  ++ flat_map (fun i => let b := m (u64 arg + Z.of_nat i) in
                 [hexchar (Z.land (Z.shiftr b 4) 15); hexchar (Z.land b 15); SP])
              (seq 0 16)
  ++ [SP]
  ++ map (fun i => let b := m (u64 arg + Z.of_nat i) in
                   if (b <? 32) || (127 <=? b) then ch "." else b) (seq 0 16)
  ++ [CR; LF].

(** [do { ...; arg += 16; } while(--len);] *)
Fixpoint dump_rows (len : nat) (arg : Z) : list Z :=
  match len with
  | O => []
  | S len' => dump_row arg ++ dump_rows len' (i64 (arg + 16))
  end.

(** One conversion: what it prints and the arguments it leaves. A missing
    argument or one of another kind is outside the model. *)
Definition printf_conv (c : Z) (l : bool) (len : Z) (args : list varg)
  : option (list Z * list varg) :=
  if c =? ch "d" then
    match args with
    | VInt v :: args' =>
        match printf_d l len v with
        | Some s => Some (c_string s, args')
        | None => None
        end
    | _ => None
    end
  else if (c =? ch "x") || (c =? ch "p") then
    match args with
    | VInt v :: args' => Some (c_string (printf_x (c =? ch "p") l len v), args')
    | _ => None
    end
  else if c =? ch "s" then
    match args with
    | VStr p :: args' =>
        Some (map u8 (c_string (match p with Some s => s | None => lit "(null)" end)), args')
    | _ => None
    end
  else if c =? ch "S" then
    match args with
    | VWstr u :: args' =>
        Some (map u8 (c_string (match u with Some s => s | None => lit "(null)" end)), args')
    | _ => None
    end
  else if c =? ch "D" then
    match args with
    | VInt v :: args' =>
        Some (dump_rows (Z.to_nat (if len <? 1 then 1 else len)) (i64 v), args')
    | _ => None
    end
  else Some ([], args).

(** The main loop; [fuel] bounds the characters of the format. A format
    that ends inside a conversion makes the C loop step over the
    terminator, which is outside the model. *)
Fixpoint printf_loop (fuel : nat) (fmt : list Z) (args : list varg)
  : option (list Z) :=
  match fuel with
  | O => None
  | S fuel' =>
      match fmt with
      | [] => Some []
      | c :: fmt1 =>
          if c =? 0 then Some []
          else if c =? ch "%" then
            if deref fmt1 =? ch "%" then
              option_map (cons (ch "%")) (printf_loop fuel' (advance 1 fmt1) args)
            else
              let '(len, fmt2) := printf_width 0 fmt1 in
              let l := deref fmt2 =? ch "l" in
              let fmt3 := if l then advance 1 fmt2 else fmt2 in
              match fmt3 with
              | [] => None
              | c3 :: fmt4 =>
                  if c3 =? 0 then None
                  else if c3 =? ch "c" then
                    match args with
                    | VInt v :: args' =>
                        option_map (cons (u8 v)) (printf_loop fuel' fmt4 args')
                    | _ => None
                    end
                  else
                    match printf_conv c3 l len args with
                    | Some (out, args') =>
                        option_map (app out) (printf_loop fuel' fmt4 args')
                    | None => None
                    end
              end
          else option_map (cons (u8 c)) (printf_loop fuel' fmt1 args)
      end
  end.

Definition printf (fmt : list Z) (args : list varg) : option (list Z) :=
  printf_loop (S (List.length fmt)) fmt args.

End Printf.

Definition no_mem : bmem := fun _ => 0.

(** ** Order of the memory map *)

(** The order [sort_map] compares by. *)
Definition base_le (a b : mmap_entry) : Prop := base_addr a <= base_addr b.

(** ** The FAT on the drive *)

(** The 32-bit FAT entry of cluster [c], as the drive holds it. *)
Definition fat_on_disk (disk : Z -> list Z) (fat_lba c : Z) : Z :=
  le32 (sector_of (disk (fat_lba + c / 128))) (4 * (c mod 128)).

(** The window [fat] mirrors the 1024 entries from [fat_cache] on. *)
Definition fat_window_ok (disk : Z -> list Z) (fat_lba : Z) (st : fat_state) : Prop :=
  forall k, 0 <= k < 1024 ->
    at_ (fat st) k = fat_on_disk disk fat_lba (fat_cache st + k).

(** The cluster that follows [c] in its chain; 0 when the chain ends. *)
Definition next_cluster (disk : Z -> list Z) (fat_lba c : Z) : Z :=
  if is_chain_end c then 0
  else
    let e := fat_on_disk disk fat_lba c in
    if is_chain_end e then 0 else e.

Fixpoint nth_cluster (disk : Z -> list Z) (fat_lba : Z) (k : nat) (c : Z) : Z :=
  match k with
  | O => c
  | S k' => next_cluster disk fat_lba (nth_cluster disk fat_lba k' c)
  end.

(** No request to fall back is pending and none will come: the loader is
    in backup mode already, or the keyboard controller has nothing to
    report on any of the coming polls. *)
Definition undisturbed (bkp : bool) (st : fat_state) : Prop :=
  rq st = false /\
  (bkp = true \/ Forall (fun al => negb (al =? 255) && Z.odd al = false) (kbd st)).

(** Byte [i] of the file whose chain starts at cluster [clu]. *)
Definition file_byte (disk : Z -> list Z) (spc fat_lba data_lba clu i : Z) : Z :=
  let c := nth_cluster disk fat_lba (Z.to_nat (i / (512 * spc))) clu in
  nth (Z.to_nat (i mod 512))
      (sector_of (disk (cluster_lba spc data_lba c + (i / 512) mod spc))) 0.


(** A volume with two sectors per cluster: the FAT in sector 10, cluster 2
    in sector 20, and a file of 1500 bytes in clusters 3 and 5.  Every
    data sector is filled with the low byte of its own number. *)
Definition volume1 (lba : Z) : list Z :=
  if lba =? 10 then
    le_bytes 4 268435448 ++ le_bytes 4 end_of_chain ++ le_bytes 4 end_of_chain
    ++ le_bytes 4 5 ++ le_bytes 4 end_of_chain ++ le_bytes 4 end_of_chain
  else repeat (lba mod 256) 512%nat.

(** A frame buffer six pixels wide and eight high at 32 bits per pixel:
    the progress bar is two pixels long and is drawn for a read of 512
    bytes or more. *)
Definition vidmode1 : vidmode_t :=
  {| framebuffer_addr := 4244635648; framebuffer_pitch := 24;
     framebuffer_width := 6; framebuffer_height := 8; framebuffer_bpp := 32;
     framebuffer_red_field_position := 16; framebuffer_red_mask_size := 8;
     framebuffer_green_field_position := 8; framebuffer_green_mask_size := 8;
     framebuffer_blue_field_position := 0; framebuffer_blue_mask_size := 8 |}.

(** The same frame buffer, four pixels wide. *)
Definition vidmode4 : vidmode_t :=
  {| framebuffer_addr := 4244635648; framebuffer_pitch := 16;
     framebuffer_width := 4; framebuffer_height := 8; framebuffer_bpp := 32;
     framebuffer_red_field_position := 16; framebuffer_red_mask_size := 8;
     framebuffer_green_field_position := 8; framebuffer_green_mask_size := 8;
     framebuffer_blue_field_position := 0; framebuffer_blue_mask_size := 8 |}.

(** The file of [volume1] as [fw_open] leaves it on BIOS, and a file of
    1500 bytes open on UEFI, byte [k] of which is [k mod 256]. *)
Definition file1 : open_file :=
  {| root_dir := 1; fw_file_size := 1500; file_clu := 3; efi_handle := None |}.

Definition efi_content1 : efi_file :=
  {| content := List.map (fun k => Z.of_nat k mod 256) (seq 0 1500);
     io_error := false |}.

Definition efi_file1 : open_file :=
  {| root_dir := 1; fw_file_size := 1500; file_clu := 0;
     efi_handle := Some efi_content1 |}.

(** ** The request to fall back *)

(** Two reader states agree on what the keyboard check reads and writes. *)
Definition same_keys (st st' : fat_state) : Prop :=
  rq st' = rq st /\ kbd st' = kbd st.

(** ** Large pages *)

(** The translation a page walk finds for [virt] when it ends at the
    2 MiB level: the entry there, when the levels above are present and
    the entry has the page-size bit (bit 7). *)
Definition lookup_2m (pt : Z) (m : mem) (virt : Z) : option Z :=
  let e4 := m (entry_addr pt virt 39) in
  if e4 =? 0 then None else
  let e3 := m (entry_addr (page_down e4) virt 30) in
  if e3 =? 0 then None else
  let e2 := m (entry_addr (page_down e3) virt 21) in
  if Z.land e2 128 =? 0 then None else Some e2.

(** ** Choosing a video mode *)

(** [fb_vidmode_t] of FOSSBIOS. *)
Record fb_vidmode := {
  vm_width : Z;
  vm_height : Z;
  vm_pitch : Z;
  vm_bpp : Z;
  vm_red : Z;
  vm_green : Z;
  vm_blue : Z
}.

(** [-1U] *)
Definition no_mode : Z := 4294967295.

(** [for(i = 0; i < nummodes; i++, mode++)
      if(bpp == mode->bpp && mode->width <= width && mode->height <= height &&
         mode->width > bw && mode->height > bh) { bm = i; bw = mode->width; bh = mode->height; }]
    on the modes from index [i] on. *)
Fixpoint best_mode (modes : list fb_vidmode) (i width height bpp : Z)
    (bm bw bh : Z) : Z * Z * Z :=
  match modes with
  | [] => (bm, bw, bh)
  | mode :: rest =>
      if (bpp =? vm_bpp mode) && (vm_width mode <=? width)
         && (vm_height mode <=? height) && (bw <? vm_width mode)
         && (bh <? vm_height mode)
      then best_mode rest (u32 (i + 1)) width height bpp i (vm_width mode) (vm_height mode)
      else best_mode rest (u32 (i + 1)) width height bpp bm bw bh
  end.

(** [fb_lfb(width, height, bpp)] with FOSSBIOS video services present:
    [modes] is [FB->video->vidmodes], [lfb] the frame buffer and [setmode]
    what the firmware's [setmode] call answers.  The result is the new
    [vidmode] and whether " LFB: no framebuffer" is printed. *)
Definition fb_lfb (modes : list fb_vidmode) (lfb : Z) (setmode : Z -> bool)
    (width height bpp : Z) (vidmode : vidmode_t) : vidmode_t * bool :=
  if (width <? 320) || (height <? 200) || (bpp <? 15) then (vidmode, false)
  else
    let '(bm, _, _) := best_mode modes 0 width height bpp no_mode 0 0 in
    let vidmode :=
      if negb (bm =? no_mode) && setmode (u16 bm) then
        let mode := nth (Z.to_nat bm) modes
                      {| vm_width := 0; vm_height := 0; vm_pitch := 0; vm_bpp := 0;
                         vm_red := 0; vm_green := 0; vm_blue := 0 |} in
        let '(r, g, b) :=
          if vm_bpp mode =? 15 then (5, 5, 5)
          else if vm_bpp mode =? 16 then (5, 6, 5)
          else (8, 8, 8) in
        {| framebuffer_addr := lfb;
           framebuffer_pitch := vm_pitch mode;
           framebuffer_width := vm_width mode;
           framebuffer_height := vm_height mode;
           framebuffer_bpp := vm_bpp mode;
           framebuffer_red_field_position := vm_red mode;
           framebuffer_red_mask_size := r;
           framebuffer_green_field_position := vm_green mode;
           framebuffer_green_mask_size := g;
           framebuffer_blue_field_position := vm_blue mode;
           framebuffer_blue_mask_size := b |}
      else vidmode in
    (vidmode, framebuffer_addr vidmode =? 0).

(** A mode the request admits. *)
Definition mode_fits (width height bpp : Z) (mode : fb_vidmode) : Prop :=
  vm_bpp mode = bpp /\ vm_width mode <= width /\ vm_height mode <= height.

(** The modes of a small adapter. *)
Definition modes0 : list fb_vidmode :=
  [ {| vm_width := 640; vm_height := 480; vm_pitch := 2560; vm_bpp := 32;
       vm_red := 16; vm_green := 8; vm_blue := 0 |};
    {| vm_width := 1024; vm_height := 768; vm_pitch := 2048; vm_bpp := 16;
       vm_red := 11; vm_green := 5; vm_blue := 0 |};
    {| vm_width := 800; vm_height := 600; vm_pitch := 3200; vm_bpp := 32;
       vm_red := 16; vm_green := 8; vm_blue := 0 |};
    {| vm_width := 1280; vm_height := 1024; vm_pitch := 5120; vm_bpp := 32;
       vm_red := 16; vm_green := 8; vm_blue := 0 |} ].

(** ** Pixel masks of the UEFI graphics output protocol *)

(** [Mask & (1 << k)] for a [uint32_t] mask; the shift is defined for
    [0 <= k <= 31] only, other counts are outside the model. *)
Definition mask_bit (mask k : Z) : option bool :=
  if (0 <=? k) && (k <=? 31) then Some (negb (Z.land mask (2 ^ k) =? 0)) else None.

(** [for(b = 32; b > 0 && !(m & (1 << (b - 1))); b--);] in [efi_gop]: the
    colour depth a bit mask format has. *)
Fixpoint gop_depth (fuel : nat) (m b : Z) : Z :=
  match fuel with
  | O => b
  | S fuel' =>
      if (0 <? b) && (Z.land m (2 ^ (b - 1)) =? 0) then gop_depth fuel' m (b - 1)
      else b
  end.

(** [for(position = 0; !(Mask & (1 << position)); position++);] with the
    [uint8_t] field of [vidmode] as the counter. *)
Fixpoint gop_field_position (fuel : nat) (mask position : Z) : option Z :=
  match fuel with
  | O => None
  | S fuel' =>
      match mask_bit mask position with
      | None => None
      | Some true => Some position
      | Some false => gop_field_position fuel' mask (u8 (position + 1))
      end
  end.

(** [for(size = 0; Mask & (1 << (position + size)); size++);] *)
Fixpoint gop_mask_size (fuel : nat) (mask position size : Z) : option Z :=
  match fuel with
  | O => None
  | S fuel' =>
      match mask_bit mask (position + size) with
      | None => None
      | Some false => Some size
      | Some true => gop_mask_size fuel' mask position (u8 (size + 1))
      end
  end.

(** The mask of a colour field: [size] bits from bit [position] on. *)
Definition field_mask (position size : Z) : Z := Z.shiftl (Z.ones size) position.

(** ** [fw_open]: the path as 16-bit characters *)

(** [s + k], defined as long as it does not pass the terminator. *)
Definition advance_in (k : nat) (s : list Z) : option (list Z) :=
  if (k <=? List.length s)%nat then Some (skipn k s) else None.

(** One round of the conversion loop of [fw_open]: the character stored
    to [*d], the bytes of the path it took as they are in the buffer
    afterwards, and the pointer after them.  [None] when the pointer would
    pass the terminator of the buffer. *)
Definition fw_open_char (s : list Z) : option (Z * list Z * list Z) :=
  let c0 := at_ s 0 in
  let decoded :=
    if negb (Z.land c0 128 =? 0) then
      if Z.land c0 32 =? 0 then
        Some (u16 (Z.lor (Z.shiftl (Z.land c0 31) 6) (Z.land (at_ s 1) 63)), 2%nat, c0)
      else if Z.land c0 16 =? 0 then
        Some (u16 (Z.lor (Z.lor (Z.shiftl (Z.land c0 15) 12)
                                (Z.shiftl (Z.land (at_ s 1) 63) 6))
                         (Z.land (at_ s 2) 63)), 3%nat, c0)
      else if Z.land c0 8 =? 0 then
        if (3 <=? List.length s)%nat then
          Some (u16 (Z.lor (Z.lor (Z.lor (Z.shiftl (Z.land c0 7) 18)
                                         (Z.shiftl (Z.land (at_ s 1) 63) 12))
                                  (Z.shiftl (Z.land (at_ s 2) 63) 6))
                           (Z.land (at_ s 3) 63)), 1%nat, u8 (c0 + 3))
        else None
      else Some (0, 1%nat, c0)
    else Some (c0, 1%nat, c0) in
  match decoded with
  | None => None
  | Some (c, k, c0') =>
      match advance_in k s with
      | None => None
      | Some s1 =>
          let taken := c0' :: firstn (k - 1) (skipn 1 s) in
          if (c =? ch "\") && (deref s1 =? SP) then
            match advance_in 1 s1 with
            | None => None
            | Some s2 => Some (SP, taken ++ [SP], s2)
            end
          else Some (c, taken, s1)
      end
  end.

(** [for(s = fn, d = wcname; *s && *s != ' ' && *s != '\r' && *s != '\n' &&
        d < &wcname[PATH_MAX - 2]; d++) { ... } *d = 0;]
    with [n] the characters [wcname] still has room for.  The result is
    the name written to [wcname], up to its terminator, and the path
    buffer as the loop leaves it. *)
Fixpoint fw_open_wcname (n : nat) (s : list Z) : option (list Z * list Z) :=
  match n with
  | O => Some ([], s)
  | S n' =>
      if is_word_end (deref s) then Some ([], s)
      else
        match fw_open_char s with
        | None => None
        | Some (c, taken, s') =>
            match fw_open_wcname n' s' with
            | None => None
            | Some (name, rest) => Some (c :: name, taken ++ rest)
            end
        end
  end.

Definition PATH_MAX : nat := 1024.

(** What the image builder writes for one 16-bit character of a long file
    name when it turns the name into UTF-8 ([simpleboot.c], in the
    directory scan): ASCII letters in upper case, two bytes below 0x800,
    three bytes otherwise. *)
Definition utf8_of_wchar (u : Z) : list Z :=
  if u <? 128 then
    [if (ch "a" <=? u) && (u <=? ch "z") then u - ch "a" + ch "A" else u]
  else if u <? 2048 then
    [u8 (Z.lor (Z.land (Z.shiftr u 6) 31) 192); u8 (Z.lor (Z.land u 63) 128)]
  else
    [u8 (Z.lor (Z.land (Z.shiftr u 12) 15) 224);
     u8 (Z.lor (Z.land (Z.shiftr u 6) 63) 128);
     u8 (Z.lor (Z.land u 63) 128)].

Definition upper (u : Z) : Z :=
  if (ch "a" <=? u) && (u <=? ch "z") then u - ch "a" + ch "A" else u.

(** A character that can stand in a path of the configuration file as it
    is: not a terminator, a blank, a line end or a backslash. *)
Definition plain_wchar (u : Z) : bool :=
  (0 <? u) && (u <? 65536) && negb (u =? SP) && negb (u =? CR) && negb (u =? LF)
  && negb (u =? ch "\").

(** The facts about the bytes of one character that the decoder's tests
    look at, as a check that can be run over a range of characters. *)
Definition decodes_back (u : Z) : bool :=
  let b := utf8_of_wchar u in
  let c0 := at_ b 0 in
  negb (is_word_end c0) &&
  (if u <? 128 then
     (Z.land c0 128 =? 0) && negb (c0 =? ch "\") && (c0 =? upper u)
   else if u <? 2048 then
     negb (Z.land c0 128 =? 0) && (Z.land c0 32 =? 0)
     && (u16 (Z.lor (Z.shiftl (Z.land c0 31) 6) (Z.land (at_ b 1) 63)) =? u)
   else
     negb (Z.land c0 128 =? 0) && negb (Z.land c0 32 =? 0) && (Z.land c0 16 =? 0)
     && (u16 (Z.lor (Z.lor (Z.shiftl (Z.land c0 15) 12)
                           (Z.shiftl (Z.land (at_ b 1) 63) 6))
                    (Z.land (at_ b 2) 63)) =? u)).

(** [P] holds for the [2^k] numbers from [base * 2^k] on. *)
Fixpoint all_below (k : nat) (base : Z) (P : Z -> bool) : bool :=
  match k with
  | O => P base
  | S k' => all_below k' (2 * base) P && all_below k' (2 * base + 1) P
  end.

(** ** [bios_init]: the boot partition *)

(** The fields of [esp_bpb_t] the loader reads, by their offsets in the
    packed structure. *)
Definition bpb_bps (vbr : list Z) : Z := le16 vbr 11.
Definition bpb_spc (vbr : list Z) : Z := at_ vbr 13.
Definition bpb_rsc (vbr : list Z) : Z := le16 vbr 14.
Definition bpb_nf (vbr : list Z) : Z := at_ vbr 16.
Definition bpb_spf16 (vbr : list Z) : Z := le16 vbr 22.
Definition bpb_spf32 (vbr : list Z) : Z := le32 vbr 36.
Definition bpb_rc (vbr : list Z) : Z := le32 vbr 44.

(** The geometry [bios_init] keeps of a volume. *)
Record fat_geometry := {
  g_spc : Z;
  g_rc : Z;
  g_fat_lba : Z;
  g_data_lba : Z
}.

(** The last part of [bios_init]: [vbr] is the first sector of the
    partition that starts at sector [root_dir].  [None] is
    [root_dir = NULL], no file system. *)
Definition bios_init_volume (vbr : list Z) (root_dir : Z) : option fat_geometry :=
  if negb (at_ vbr 510 =? 85) || negb (at_ vbr 511 =? 170)
     || negb (bpb_bps vbr =? 512) || (bpb_spc vbr =? 0)
     || negb (bpb_spf16 vbr =? 0) || (bpb_spf32 vbr =? 0)
  then None
  else
    Some {| g_spc := bpb_spc vbr;
            g_rc := bpb_rc vbr;
            g_fat_lba := u64 (bpb_rsc vbr + root_dir);
            g_data_lba :=
              u64 (u32 (u32 (u32 (bpb_spf32 vbr * bpb_nf vbr) + bpb_rsc vbr)
                        - 2 * bpb_spc vbr)
                   + root_dir) |}.

(** The partition table of the MBR scheme:
    [for(i = 0x1c0; i < 510; i += 16)
       if(vbr[i - 2] == 0x80 && (vbr[i + 2] == 0xC || vbr[i + 2] == 0xEF)) { ...; break; }]
    run over the entries left, the first of them at [i].  The result is
    [root_dir], 0 when no entry is taken. *)
Fixpoint bios_init_mbr (entries : nat) (vbr : list Z) (i : Z) : Z :=
  match entries with
  | O => 0
  | S entries' =>
      if (at_ vbr (i - 2) =? 128)
         && ((at_ vbr (i + 2) =? 12) || (at_ vbr (i + 2) =? 239))
      then le32 vbr (i + 6)
      else bios_init_mbr entries' vbr (i + 16)
  end.

(** The fallback of [bios_init] to the MBR partitioning scheme. *)
Definition bios_init_partition (vbr : list Z) : Z :=
  if (at_ vbr 510 =? 85) && (at_ vbr 511 =? 170) then bios_init_mbr 4 vbr 448
  else 0.

(** The first sector of a FAT32 volume of [spf32] sectors per FAT with
    eight sectors per cluster, 32 reserved sectors and two FATs. *)
Definition vbr0 : list Z :=
  repeat 0 11%nat ++ le_bytes 2 512 ++ [8] ++ le_bytes 2 32 ++ [2]
  ++ repeat 0 19%nat ++ le_bytes 4 1024 ++ le_bytes 4 0 ++ le_bytes 4 2
  ++ repeat 0 462%nat ++ [85; 170].

(** Entry [k] of the MBR partition table is marked active and has the
    type of a FAT32 (LBA) or an EFI system partition. *)
Definition mbr_bootable (vbr : list Z) (k : Z) : bool :=
  (at_ vbr (446 + 16 * k) =? 128)
  && ((at_ vbr (450 + 16 * k) =? 12) || (at_ vbr (450 + 16 * k) =? 239)).

(** ** The page tables as a tree *)

(** [(virt >> shift) & 511], the index a walk uses at the level of [shift]. *)
Definition idx (virt shift : Z) : Z := Z.land (Z.shiftr virt shift) 511.

(** Bits [shift] to 47 of [virt]: the part of the address a walk has used
    when it is through with the level of [shift]. *)
Definition key (virt shift : Z) : Z := (virt / 2 ^ shift) mod 2 ^ (48 - shift).

(** Which table a page of the paging structures is: the shift of its level
    and the [key] of the addresses it translates. *)
Definition owner := Z -> option (Z * Z).

(** The paging structures form a tree below the allocation cursor [fb]:
    [pt] is the root, every table is a page of its own, and a present entry
    of a table above the last level (at the 2 MiB level: one that is not a
    large page) points at the table of the next level for its position. *)
Record tables_ok (pt : Z) (own : owner) (m : mem) (fb : Z) : Prop := {
  ok_root : own pt = Some (39, 0);
  ok_page : forall t s k, own t = Some (s, k) ->
    t mod 4096 = 0 /\ 0 < t /\ t + 4096 <= fb /\
    (s = 39 \/ s = 30 \/ s = 21 \/ s = 12);
  ok_entry : forall t s k i, own t = Some (s, k) -> s <> 12 -> 0 <= i < 512 ->
    m (t + 8 * i) <> 0 -> (s = 21 -> Z.land (m (t + 8 * i)) 128 = 0) ->
    own (page_down (m (t + 8 * i))) = Some (s - 9, k * 512 + i)
}.

(** The entry of the 4 KiB level a walk for [virt] ends at, when the levels
    above are present and the 2 MiB entry is not a large page. *)
Definition cell (pt : Z) (m : mem) (virt : Z) : option Z :=
  let e4 := m (entry_addr pt virt 39) in
  if e4 =? 0 then None else
  let e3 := m (entry_addr (page_down e4) virt 30) in
  if e3 =? 0 then None else
  let e2 := m (entry_addr (page_down e3) virt 21) in
  if (e2 =? 0) || negb (Z.land e2 128 =? 0) then None else
  Some (entry_addr (page_down e2) virt 12).

(** The tables a walk for [virt] goes through below the root. *)
Definition tbl3 (pt : Z) (m : mem) (virt : Z) : Z :=
  page_down (m (entry_addr pt virt 39)).
Definition tbl2 (pt : Z) (m : mem) (virt : Z) : Z :=
  page_down (m (entry_addr (tbl3 pt m virt) virt 30)).
Definition tbl1 (pt : Z) (m : mem) (virt : Z) : Z :=
  page_down (m (entry_addr (tbl2 pt m virt) virt 21)).

(** The chain [fw_map] threads through the entries it will fill: [head] is
    the first cell, each cell holds the address of the next, the last 0. *)
Fixpoint linked (m : mem) (cs : list Z) (head : Z) : Prop :=
  match cs with
  | [] => head = 0
  | c :: cs' => head = c /\ c <> 0 /\ linked m cs' (m c)
  end.

(** The pages [virt + 4096 * (j - 1)], ..., [virt], last first. *)
Fixpoint pages_down (virt : Z) (j : nat) : list Z :=
  match j with
  | O => []
  | S j' => (virt + 4096 * Z.of_nat j') :: pages_down virt j'
  end.

(** What the first loop of [fw_map] keeps, from the memory [m0] and cursor
    [fb0] it starts with: the tree; tables made since lie from [fb0] on and
    hold nothing but tables made since and chained cells; an older cell is
    as it was, or chained, or an empty (at the 2 MiB level: or large) entry
    that got a table; the chain [cs] runs through the cells of the pages
    [vs]. *)
Record map_inv (pt : Z) (m0 : mem) (fb0 : Z) (own0 own : owner)
       (st : map_state) (vs cs : list Z) (next : Z) : Prop := {
  mi_ok : tables_ok pt own (ptmem st) (file_buf st);
  mi_fb : fb0 mod 4096 = 0 /\ fb0 <= file_buf st /\ file_buf st mod 4096 = 0;
  mi_ext : forall t x, own0 t = Some x -> own t = Some x;
  mi_child : forall t s k i, own t = Some (s, k) -> s <> 12 -> fb0 <= t ->
    0 <= i < 512 -> ptmem st (t + 8 * i) <> 0 ->
    fb0 <= page_down (ptmem st (t + 8 * i));
  mi_fresh : forall t k i, own t = Some (12, k) -> fb0 <= t ->
    0 <= i < 512 -> ptmem st (t + 8 * i) <> 0 -> In (t + 8 * i) cs;
  mi_old : forall a, a < fb0 ->
    ptmem st a = m0 a \/ In a cs \/
    (exists t s k i, own t = Some (s, k) /\ s <> 12 /\ 0 <= i < 512 /\
       a = t + 8 * i /\ fb0 <= page_down (ptmem st a) /\
       ptmem st a <> 0 /\ Z.land (ptmem st a) 128 = 0 /\
       (m0 a = 0 \/ (s = 21 /\ Z.land (m0 a) 128 <> 0)));
  mi_cells : Forall2 (fun v c => cell pt (ptmem st) v = Some c) vs cs;
  mi_linked : linked (ptmem st) cs next;
  mi_nodup : NoDup cs
}.

(** Whether [virt] has no 4 KiB translation. *)
Definition unmapped (pt : Z) (m : mem) (virt : Z) : bool :=
  match lookup_4k pt m virt with
  | None => true
  | Some _ => false
  end.

(** The number of pages the first loop of [fw_map] goes through, and those
    of them that have no translation yet, last first. *)
Definition npages (virt size : Z) : nat :=
  Z.to_nat ((virt mod 4096 + size + 4095) / 4096).

Definition fresh_pages (pt : Z) (m : mem) (virt size : Z) : list Z :=
  filter (unmapped pt m) (pages_down (page_down virt) (npages virt size)).

(** The tables [bios_pagetables(g)] builds: the root, the 1 GiB table after
    it and the [g] 2 MiB tables after that. *)
Definition bios_owner (pt g : Z) : owner :=
  fun t =>
    if t =? pt then Some (39, 0)
    else if t =? pt + 4096 then Some (30, 0)
    else if (pt + 8192 <=? t) && (t <? pt + 8192 + 4096 * g)
            && ((t - pt) mod 4096 =? 0)
    then Some (21, (t - pt) / 4096 - 2)
    else None.

(** ** The ELF branch of [fw_loadkernel] *)

Definition EM_386 : Z := 3.
Definition EM_X86_64 : Z := 62.
Definition ELFCLASS64 : Z := 2.
Definition PT_LOAD : Z := 1.

(** How the loop over the program headers ends: at [goto err], or at its
    end with the key request flag [rq] as the reads left it. *)
Inductive seg_loop :=
| SegFailed (st : map_state) (ops : list load_op)
| SegDone (rq : bool) (st : map_state) (ops : list load_op).

Inductive kernel_outcome :=
| NotElf                        (* the PE format is tried next *)
| KernelFailed (st : map_state) (ops : list load_op)
| KernelLoaded (kernel_mode smp kernel_entry : Z) (rq : bool)
               (st : map_state) (ops : list load_op).

Section LoadkernelElf.

Variable ST : bool.
Variable pt : Z.
Variable efi_allocpages : Z -> Z -> Z -> Z.
Variable env : seg_env.
(** The address of [kernel_buf]. *)
Variable kb : Z.
(** Whether a key was pressed while the reads of a segment went on (in
    backup mode: never), which sets [rq]. *)
Variable pressed : list load_op -> bool.

(** [!memcmp(e_ident, ELFMAG, 4) && (e_machine == EM_386 || e_machine == EM_X86_64)] *)
Definition elf_detected (kernel_buf : list Z) : bool :=
  starts_with [127; 69; 76; 70] kernel_buf
  && ((le16 kernel_buf 18 =? EM_386) || (le16 kernel_buf 18 =? EM_X86_64)).

(** Whether the [n] bytes at address [ptr] lie in [kernel_buf]. *)
Definition in_kernel_buf (ptr n : Z) : bool :=
  (kb <=? ptr) && (ptr + n <=? kb + 4096).

(** [p_type] and the arguments [fw_loadseg] gets (its [offs], [filesz]
    and [memsz] are [uint32_t]) from the [Elf64_Phdr] and from the
    [Elf32_Phdr] at [ptr]. *)
Definition phdr64 (kernel_buf : list Z) (ptr : Z) : Z * (Z * Z * Z * Z) :=
  let o := ptr - kb in
  (le32 kernel_buf o,
   (u32 (le64 kernel_buf (o + 8)), u32 (le64 kernel_buf (o + 32)),
    le64 kernel_buf (o + 16), u32 (le64 kernel_buf (o + 40)))).

Definition phdr32 (kernel_buf : list Z) (ptr : Z) : Z * (Z * Z * Z * Z) :=
  let o := ptr - kb in
  (le32 kernel_buf o,
   (le32 kernel_buf (o + 4), le32 kernel_buf (o + 16),
    le32 kernel_buf (o + 8), le32 kernel_buf (o + 20))).

Definition phdr (is64 : bool) := if is64 then phdr64 else phdr32.
(** The bytes of a header up to the end of [p_memsz]. *)
Definition phdr_read (is64 : bool) : Z := if is64 then 48 else 24.

(** [for(i = 0; !rq && i < e_phnum && ptr + e_phentsize < kernel_buf +
    sizeof(kernel_buf); i++, ptr += e_phentsize)]; [remaining] is
    [e_phnum - i].  The result is [None] when a header is read outside
    [kernel_buf], which the model does not follow, or [fw_loadseg] does
    not return. *)
Fixpoint elf_segments (is64 : bool) (kernel_buf : list Z) (phentsize : Z)
    (remaining : nat) (ptr : Z) (rq : bool) (st : map_state)
    (ops : list load_op) : option seg_loop :=
  match remaining with
  | O => Some (SegDone rq st ops)
  | S remaining' =>
      if negb rq && (u64 (ptr + phentsize) <? kb + 4096) then
        if in_kernel_buf ptr 4 then
          let '(p_type, (offs, filesz, vaddr, memsz)) := phdr is64 kernel_buf ptr in
          if p_type =? PT_LOAD then
            if in_kernel_buf ptr (phdr_read is64) then
              match fw_loadseg ST pt efi_allocpages env offs filesz vaddr memsz st with
              | None => None
              | Some (r, st', ops') =>
                  if r =? 0 then Some (SegFailed st' (ops ++ ops'))
                  else elf_segments is64 kernel_buf phentsize remaining'
                         (u64 (ptr + phentsize)) (rq || pressed ops') st'
                         (ops ++ ops')
              end
            else None
          else elf_segments is64 kernel_buf phentsize remaining'
                 (u64 (ptr + phentsize)) rq st ops
        else None
      else Some (SegDone rq st ops)
  end.

(** The ELF branch of [fw_loadkernel] and the end of the function;
    [definitrd63] is [definitrd[63]], [smp] and [rq] the globals. *)
Definition fw_loadkernel_elf (kernel_buf : list Z) (definitrd63 smp : Z)
    (rq : bool) (st : map_state) : option kernel_outcome :=
  if elf_detected kernel_buf then
    let is64 := at_ kernel_buf 4 =? ELFCLASS64 in
    let kernel_mode := if is64 then MODE_MB64 else MODE_MB32 in
    let kernel_entry := if is64 then le64 kernel_buf 24 else le32 kernel_buf 24 in
    let ptr := u64 (kb + (if is64 then le64 kernel_buf 32 else le32 kernel_buf 28)) in
    let phentsize := le16 kernel_buf (if is64 then 54 else 42) in
    let phnum := le16 kernel_buf (if is64 then 56 else 44) in
    match elf_segments is64 kernel_buf phentsize (Z.to_nat phnum) ptr rq st [] with
    | None => None
    | Some (SegFailed st ops) => Some (KernelFailed st ops)
    | Some (SegDone rq st ops) =>
        let kernel_mode :=
          if (kernel_mode =? MODE_MB64) && (definitrd63 =? 2) then MODE_MB32
          else kernel_mode in
        Some (KernelLoaded kernel_mode
                (if kernel_mode =? MODE_MB64 then smp else 0)
                kernel_entry rq st ops)
    end
  else Some NotElf.

(** Loading the segments of a list of headers one after the other: the
    headers that are not [PT_LOAD] are passed over, a key request ends the
    list early, the first segment that fails ends it with a failure. *)
Fixpoint load_all (hs : list (Z * (Z * Z * Z * Z))) (rq : bool) (st : map_state)
    (ops : list load_op) : option seg_loop :=
  match hs with
  | [] => Some (SegDone rq st ops)
  | (p_type, (offs, filesz, vaddr, memsz)) :: hs' =>
      if rq then Some (SegDone rq st ops)
      else if p_type =? PT_LOAD then
        match fw_loadseg ST pt efi_allocpages env offs filesz vaddr memsz st with
        | None => None
        | Some (r, st', ops') =>
            if r =? 0 then Some (SegFailed st' (ops ++ ops'))
            else load_all hs' (rq || pressed ops') st' (ops ++ ops')
        end
      else load_all hs' rq st ops
  end.

(** The headers of a table at offset [phoff] of the file whose end lies
    before the end of [kernel_buf]. *)
Definition headers_in_buf (is64 : bool) (kernel_buf : list Z)
    (phoff phentsize phnum : Z) : list (Z * (Z * Z * Z * Z)) :=
  List.map (fun i => phdr is64 kernel_buf (kb + phoff + phentsize * Z.of_nat i))
           (seq 0 (Z.to_nat (Z.min phnum ((4095 - phoff) / phentsize)))).

End LoadkernelElf.

(** An ELF64 file with three program headers of 56 bytes from offset 4000
    on: only the first ends before byte 4096. *)
Definition elf_header0 : list Z :=
  [127; 69; 76; 70; 2; 1; 1; 0; 0; 0; 0; 0; 0; 0; 0; 0;
   2; 0; 62; 0; 1; 0; 0; 0]
  ++ le_bytes 8 1048576 ++ le_bytes 8 4000 ++ le_bytes 8 0
  ++ le_bytes 4 0 ++ le_bytes 2 64 ++ le_bytes 2 56 ++ le_bytes 2 3
  ++ le_bytes 2 0 ++ le_bytes 2 0 ++ le_bytes 2 0.

Definition elf_phdr0 (vaddr : Z) : list Z :=
  le_bytes 4 1 ++ le_bytes 4 5 ++ le_bytes 8 4096 ++ le_bytes 8 vaddr
  ++ le_bytes 8 vaddr ++ le_bytes 8 4096 ++ le_bytes 8 4096 ++ le_bytes 8 4096.

Definition elf_file0 : list Z :=
  elf_header0 ++ repeat 0 (4000 - 64)%nat
  ++ elf_phdr0 1048576 ++ firstn 40 (elf_phdr0 2097152).

(** * Properties *)

(** ** The configuration parser *)

Lemma skip_ws_length s : (List.length (skip_ws s) <= List.length s)%nat.
Proof.
  induction s as [|c s IH]; simpl; [lia|].
  destruct (is_ws c); simpl; lia.
Qed.

Lemma scan_word_length s : (List.length (scan_word s) <= List.length s)%nat.
Proof.
  induction s as [|c s IH]; simpl; [lia|].
  destruct (is_word_end c); simpl; lia.
Qed.

Lemma scan_eol_length s : (List.length (scan_eol s) <= List.length s)%nat.
Proof.
  induction s as [|c s IH]; simpl; [lia|].
  destruct (is_eol c); simpl; lia.
Qed.

Lemma line_end_length s : (List.length (line_end s) <= List.length s)%nat.
Proof.
  unfold line_end.
  pose proof (scan_eol_length (scan_word s)).
  pose proof (scan_word_length s). lia.
Qed.

(** A line that starts on a character other than NUL makes the parser
    move on by at least that character. *)
Lemma next_line_shorter s :
  deref s <> 0 ->
  (List.length (line_end (skip_ws s)) < List.length s)%nat.
Proof.
  destruct s as [|c s]; simpl; [congruence|]. intros Hc.
  destruct (is_ws c) eqn:Hws.
  - pose proof (line_end_length (skip_ws s)).
    pose proof (skip_ws_length s). lia.
  - unfold line_end. simpl.
    assert (Hwe : is_word_end c = false).
    { unfold is_ws in Hws. unfold is_word_end.
      apply Z.eqb_neq in Hc. rewrite Hc.
      destruct (c =? CR), (c =? LF), (c =? SP); simpl in *;
        try discriminate; reflexivity. }
    rewrite Hwe.
    pose proof (scan_eol_length (scan_word s)).
    pose proof (scan_word_length s). lia.
Qed.

(** The parser loop always comes to an end within its fuel. *)
Lemma conf_loop_total ST vm fo ap bkp :
  forall fuel s m c,
    (List.length s < fuel)%nat ->
    conf_loop ST vm fo ap bkp fuel s m c <> None.
Proof.
  induction fuel as [|fuel IH]; intros s m c Hlen; [lia|].
  simpl. destruct (deref s =? 0) eqn:Hd; [discriminate|].
  apply Z.eqb_neq in Hd. apply next_line_shorter in Hd.
  destruct (conf_line ST vm fo ap bkp (skip_ws s) m c) as [[c' m'] [|]];
    [|discriminate].
  apply IH. lia.
Qed.

Lemma fw_loadconfig_total ST vm fo ap bkp dk di conf c :
  fw_loadconfig ST vm fo ap bkp dk di conf c <> None.
Proof.
  unfold fw_loadconfig. destruct conf as [buf|].
  - match goal with
    | |- context [conf_loop ?a ?b ?c ?d ?e ?f ?g ?h ?i] =>
        pose proof (conf_loop_total a b c d e f g h i) as Ht;
        destruct (conf_loop a b c d e f g h i)
    end.
    + discriminate.
    + exfalso. apply Ht; [simpl; lia | reflexivity].
  - discriminate.
Qed.

Lemma line_arg_backup p : line_arg (lit "backup" ++ p) = line_arg p.
Proof. reflexivity. Qed.

Lemma line_end_backup p : line_end (lit "backup" ++ p) = line_end p.
Proof. reflexivity. Qed.

Lemma starts_with_split l : forall s,
  starts_with l s = true -> exists t, s = l ++ t.
Proof.
  induction l as [|c l IH]; intros s H; simpl in *.
  - now exists s.
  - destruct s as [|d s]; [discriminate|].
    apply andb_true_iff in H. destruct H as [Hc Hl].
    apply Z.eqb_eq in Hc. subst d.
    destruct (IH _ Hl) as [t ->]. now exists t.
Qed.

(** C2, as the code has it: the six characters [backup] select the lines
    of backup mode and the directive is matched right after them.  For a
    line [p] that does not begin with [backup]: [p] has no effect in backup
    mode, [backup]+[p] has no effect in primary mode, and in backup mode
    [backup]+[p] does what [p] does in primary mode; the same holds for the
    module pass. *)
Theorem backup_prefix_selects_lines
    ST vm fo ap (M : Type) (ld : list Z -> list Z -> M -> M)
    (p : list Z) (m : Z) (c : config) (st : M) :
  starts_with (lit "backup") p = false ->
  conf_line ST vm fo ap true p m c = (c, m, Continue) /\
  conf_line ST vm fo ap false (lit "backup" ++ p) m c = (c, m, Continue) /\
  conf_line ST vm fo ap true (lit "backup" ++ p) m c
    = conf_line ST vm fo ap false p m c /\
  module_line M ld true p st = st /\
  module_line M ld false (lit "backup" ++ p) st = st /\
  module_line M ld true (lit "backup" ++ p) st = module_line M ld false p st.
Proof.
  intros Hp.
  assert (Hb : starts_with (lit "backup") (lit "backup" ++ p) = true)
    by reflexivity.
  unfold conf_line, module_line, conf_directive, module_directive.
  rewrite line_arg_backup, line_end_backup, Hp, Hb.
  repeat split; try reflexivity.
  - simpl xorb. now rewrite orb_true_r.
  - simpl xorb. now rewrite orb_true_r.
Qed.

Lemma backup_prefix_selects_lines_witness :
  starts_with (lit "backup") (lit "kernel vmlinuz quiet") = false /\
  conf_line false vidmode0 no_files no_pool true
      (lit "backupkernel vmlinuz quiet") 0 config0
    = conf_line false vidmode0 no_files no_pool false
      (lit "kernel vmlinuz quiet") 0 config0.
Proof.
  split; [reflexivity|].
  apply (backup_prefix_selects_lines false vidmode0 no_files no_pool
           (list (list Z)) record_module (lit "kernel vmlinuz quiet") 0
           config0 []).
  reflexivity.
Defined.

(** C2, as stated, fails: in backup mode [backup kernel vmlinuz], written
    with a space, does not set the kernel (the built-in default stays), and
    [backup module initrd] loads nothing. *)
Lemma backup_space_directive_ignored :
  option_map kernel
    (fw_loadconfig false vidmode0 no_files no_pool true (lit "kernel") 0
       (Some (lit "backup kernel vmlinuz")) config0)
    = Some (Some (lit "kernel")) /\
  option_map kernel
    (fw_loadconfig false vidmode0 no_files no_pool true (lit "kernel") 0
       (Some (lit "backupkernel vmlinuz")) config0)
    = Some (Some (lit "vmlinuz")) /\
  modules_loop (list (list Z)) no_key record_module true 21
    (lit "backup module initrd") [] = Some [] /\
  modules_loop (list (list Z)) no_key record_module true 21
    (lit "backupmodule initrd") [] = Some [lit "initrd"].
Proof. repeat split; vm_compute; reflexivity. Qed.

(** The same file read in primary and in backup mode. *)
Example fw_loadconfig_both_modes :
  config_summary
    (fw_loadconfig false vidmode0 no_files no_pool false (lit "kernel") 0
       (Some config_text0) config0)
  = Some (lit "vmlinuz", lit "quiet", 2, 1, (1024, 768, 32)) /\
  config_summary
    (fw_loadconfig false vidmode0 no_files no_pool true (lit "kernel") 0
       (Some config_text0) config0)
  = Some (lit "vmlinuz.bak", [], 0, 0, (640, 480, 32)).
Proof. split; vm_compute; reflexivity. Qed.

(** The range check of the [framebuffer] directive, as the bounds it
    compares with. *)
Lemma fb_out_of_range_spec w h bpp :
  fb_out_of_range (w, h, bpp) = true <->
  w < 320 \/ 65536 < w \/ h < 200 \/ 65536 < h \/ bpp < 15 \/ 32 < bpp.
Proof.
  unfold fb_out_of_range. rewrite !orb_true_iff, !Z.ltb_lt. tauto.
Qed.

(** C10: a [framebuffer] line with the parsed values [w], [h] and [bpp].
    When [w] is not in 320..65536, or [h] is not in 200..65536, or [bpp]
    is not in 15..32, the requested mode is set to the current video
    mode's width, height and depth; when all three are in range, the
    requested mode is the parsed one.  Either way the line is passed
    over like any other: no other global changes and nothing is printed.
    The line is taken in primary mode, or with the [backup] prefix in
    backup mode. *)
Theorem framebuffer_out_of_range_falls_back
    ST vm fo ap (bkp : bool) (s : list Z) (m : Z) (c : config) (w h bpp : Z) :
  starts_with (lit "framebuffer") s = true ->
  ptr_lt (line_arg s) (line_end s) = true ->
  fb_args (line_arg s) (line_end s) = (w, h, bpp) ->
  exists c',
    conf_line ST vm fo ap bkp (if bkp then lit "backup" ++ s else s) m c
      = (c', m, Continue) /\
    (w < 320 \/ 65536 < w \/ h < 200 \/ 65536 < h \/ bpp < 15 \/ 32 < bpp ->
     fb_w c' = framebuffer_width vm /\
     fb_h c' = framebuffer_height vm /\
     fb_bpp c' = framebuffer_bpp vm) /\
    (320 <= w <= 65536 /\ 200 <= h <= 65536 /\ 15 <= bpp <= 32 ->
     fb_w c' = w /\ fb_h c' = h /\ fb_bpp c' = bpp) /\
    console c' = console c /\
    kernel c' = kernel c /\ cmdline c' = cmdline c /\
    verbose c' = verbose c /\ smp c' = smp c /\ fb_bg c' = fb_bg c /\
    tags_buf c' = tags_buf c /\ logo_buf c' = logo_buf c /\
    logo_size c' = logo_size c.
Proof.
  intros Hs Ha Hargs.
  destruct (starts_with_split _ _ Hs) as [t ->].
  assert (Hl : line_arg (if bkp then lit "backup" ++ lit "framebuffer" ++ t
                         else lit "framebuffer" ++ t)
               = line_arg (lit "framebuffer" ++ t))
    by (destruct bkp; reflexivity).
  assert (He : line_end (if bkp then lit "backup" ++ lit "framebuffer" ++ t
                         else lit "framebuffer" ++ t)
               = line_end (lit "framebuffer" ++ t))
    by (destruct bkp; reflexivity).
  assert (Hrun : conf_line ST vm fo ap bkp
                   (if bkp then lit "backup" ++ lit "framebuffer" ++ t
                    else lit "framebuffer" ++ t) m c
                 = (if fb_out_of_range (w, h, bpp)
                    then set_fb (framebuffer_width vm) (framebuffer_height vm)
                           (framebuffer_bpp vm) c
                    else set_fb w h bpp c, m, Continue)).
  { unfold conf_line. rewrite Hl, He.
    set (a := line_arg (lit "framebuffer" ++ t)) in *.
    set (e := line_end (lit "framebuffer" ++ t)) in *.
    unfold conf_directive, ptr_ge. rewrite Ha.
    unfold conf_framebuffer. rewrite Hargs.
    destruct bkp; reflexivity. }
  eexists. split; [exact Hrun|].
  pose proof (fb_out_of_range_spec w h bpp) as Hspec.
  destruct (fb_out_of_range (w, h, bpp)).
  - split; [intros _; repeat split|]. split; [|repeat split].
    intros Hin. assert (Hout : true = true) by reflexivity.
    apply Hspec in Hout. lia.
  - split; [|split; [intros _|]; repeat split].
    intros Hout. apply Hspec in Hout. discriminate Hout.
Qed.

Lemma framebuffer_out_of_range_falls_back_witness :
  exists c',
    conf_line false vidmode0 no_files no_pool false
      (lit "framebuffer 100 5000 32") 0 config0 = (c', 0, Continue) /\
    fb_w c' = 1024 /\ fb_h c' = 768 /\ fb_bpp c' = 32 /\ console c' = [].
Proof.
  destruct (framebuffer_out_of_range_falls_back false vidmode0 no_files
              no_pool false (lit "framebuffer 100 5000 32") 0 config0
              100 5000 32 eq_refl eq_refl eq_refl)
    as (c' & H1 & H2 & _ & H5 & _).
  destruct H2 as (H2 & H3 & H4); [lia|].
  exists c'. repeat split; assumption.
Defined.

(** The bounds are taken exactly: 320, 200, 15, 65536 and 32 are in
    range, 319, 199, 14, 65537 and 33 are not. *)
Example framebuffer_range_bounds :
  let requested (l : string) :=
    let c := fst (fst (conf_line false vidmode0 no_files no_pool false
                         (lit l) 0 config0)) in
    (fb_w c, fb_h c, fb_bpp c) in
  requested "framebuffer 320 200 15"%string = (320, 200, 15) /\
  requested "framebuffer 65536 65536 32"%string = (65536, 65536, 32) /\
  requested "framebuffer 319 200 15"%string = (1024, 768, 32) /\
  requested "framebuffer 320 199 15"%string = (1024, 768, 32) /\
  requested "framebuffer 320 200 14"%string = (1024, 768, 32) /\
  requested "framebuffer 65537 200 15"%string = (1024, 768, 32) /\
  requested "framebuffer 320 65537 15"%string = (1024, 768, 32) /\
  requested "framebuffer 320 200 33"%string = (1024, 768, 32).
Proof. repeat split; reflexivity. Qed.

(** An in-range request is taken as parsed. *)
Example framebuffer_in_range_example :
  fst (fst (conf_line false vidmode0 no_files no_pool false
              (lit "framebuffer 640 480 16") 0 config0))
  = set_fb 640 480 16 config0.
Proof. reflexivity. Qed.

(** ** The page-map builder *)

Example first_map_example :
  returned first_map = Some 1 /\
  lookup_4k 4096 (ptmem bios_state0) higher_half = None /\
  lookup_4k 4096 (ptmem bios_state1) higher_half = Some (1060864 + 3) /\
  lookup_4k 4096 (ptmem bios_state1) (higher_half + 4096) = Some (1064960 + 3) /\
  file_buf bios_state1 = 1060864.
Proof. repeat split; vm_compute; reflexivity. Qed.

Section MapFacts.

Variable ST : bool.
Variable pt : Z.

(** A page that is already present is stepped over: nothing is allocated,
    nothing is written and nothing is chained. *)
Lemma map_page_present virt next st e :
  lookup_4k pt (ptmem st) virt = Some e ->
  map_page ST pt virt next st = Go (next, st).
Proof.
  unfold lookup_4k, map_page, ensure_table, ensure_table_2m.
  destruct (ptmem st (entry_addr pt virt 39) =? 0); [discriminate|].
  destruct (ptmem st (entry_addr (page_down (ptmem st (entry_addr pt virt 39)))
                                 virt 30) =? 0); [discriminate|].
  match goal with
  | |- context [if ?b || ?c then None else _] => destruct (b || c)
  end; [discriminate|].
  match goal with
  | |- context [if ?b then None else Some _] => destruct b
  end; [discriminate|reflexivity].
Qed.

Lemma map_pages_present end_ next st :
  end_ <= 2^64 - 4096 ->
  forall fuel virt,
    0 <= virt ->
    (1 <= fuel)%nat ->
    end_ - virt <= 4096 * (Z.of_nat fuel - 1) ->
    (forall k, 0 <= k -> virt + 4096 * k < end_ ->
               lookup_4k pt (ptmem st) (virt + 4096 * k) <> None) ->
    map_pages ST pt fuel virt end_ next st = Some (Go (next, st)).
Proof.
  intros Hend. induction fuel as [|fuel IH]; intros virt Hv H1 Hf Hp.
  - lia.
  - simpl. destruct (virt <? end_) eqn:Hlt; [|reflexivity].
    apply Z.ltb_lt in Hlt.
    assert (Hp0 := Hp 0 (Z.le_refl 0)).
    rewrite Z.mul_0_r, Z.add_0_r in Hp0. specialize (Hp0 Hlt).
    destruct (lookup_4k pt (ptmem st) virt) as [e|] eqn:He; [|congruence].
    rewrite (map_page_present _ _ _ _ He).
    assert (Hu : u64 (virt + 4096) = virt + 4096).
    { unfold u64. apply Z.mod_small. lia. }
    rewrite Hu. apply IH; [lia|lia|lia|].
    intros k Hk Hlt'.
    replace (virt + 4096 + 4096 * k) with (virt + 4096 * (k + 1)) in * by lia.
    apply Hp; lia.
Qed.

(** On BIOS a table allocation takes the page at [file_buf], which is
    never 0 while the cursor stays below the end of the address space. *)
Lemma fill_entry_bios ptr st :
  0 < file_buf st -> file_buf st + 4096 < 2^64 ->
  exists st', fill_entry false ptr st = Go st' /\
              file_buf st' = file_buf st + 4096.
Proof.
  intros Hpos Hlt. unfold fill_entry, alloc_page, bios_alloc.
  cbn [poke ptmem file_buf efi_pages].
  destruct (file_buf st =? 0) eqn:E; [apply Z.eqb_eq in E; lia|].
  eexists. split; [reflexivity|]. cbn [poke file_buf].
  unfold u64. apply Z.mod_small. lia.
Qed.

Lemma ensure_table_bios (ensure : Z -> map_state -> step map_state) ptr st :
  (ensure = ensure_table false \/ ensure = ensure_table_2m false) ->
  0 < file_buf st -> file_buf st + 4096 < 2^64 ->
  exists st', ensure ptr st = Go st' /\
              file_buf st <= file_buf st' <= file_buf st + 4096.
Proof.
  intros He Hpos Hlt.
  destruct (fill_entry_bios ptr st Hpos Hlt) as (st' & Hfill & Hfb).
  destruct He as [-> | ->]; unfold ensure_table, ensure_table_2m;
    match goal with
    | |- context [if ?b then _ else _] => destruct b
    end;
    try (exists st'; split; [exact Hfill | lia]);
    exists st; (split; [reflexivity | lia]).
Qed.

Lemma map_page_bios virt next st :
  0 < file_buf st -> file_buf st + 12288 < 2^64 ->
  exists next' st', map_page false pt virt next st = Go (next', st') /\
                    file_buf st <= file_buf st' <= file_buf st + 12288.
Proof.
  intros Hpos Hlt. unfold map_page.
  destruct (ensure_table_bios (ensure_table false) (entry_addr pt virt 39) st)
    as (st1 & -> & H1); [now left | lia | lia |].
  destruct (ensure_table_bios (ensure_table false)
              (entry_addr (page_down (ptmem st1 (entry_addr pt virt 39))) virt 30) st1)
    as (st2 & -> & H2); [now left | lia | lia |].
  match goal with
  | |- context [ensure_table_2m false ?p st2] =>
      destruct (ensure_table_bios (ensure_table_2m false) p st2)
        as (st3 & -> & H3); [now right | lia | lia |]
  end.
  match goal with
  | |- context [if ?b then _ else _] => destruct b
  end; do 2 eexists; (split; [reflexivity|]); cbn [poke file_buf]; lia.
Qed.

Lemma map_pages_bios end_ : forall fuel virt next st r,
  0 < file_buf st -> file_buf st + 12288 * Z.of_nat fuel < 2^64 ->
  map_pages false pt fuel virt end_ next st = Some r ->
  exists next' st', r = Go (next', st').
Proof.
  induction fuel as [|fuel IH]; intros virt next st r Hpos Hlt Hrun;
    cbn [map_pages] in Hrun; [discriminate|].
  destruct (virt <? end_).
  - destruct (map_page_bios virt next st) as (next1 & st1 & Hpage & Hfb);
      [lia | lia |].
    rewrite Hpage in Hrun. eapply IH; [| | exact Hrun]; lia.
  - injection Hrun as <-. now exists next, st.
Qed.

End MapFacts.

(** C1, as the code has it.  A range whose 4 KiB pages are all present
    already is not refused: the call returns 1 and leaves the page tables
    and the allocator exactly as they were, so the present entries are
    kept, not overwritten, and the overlap is not reported.  On BIOS,
    whatever is mapped already, a call that returns never returns 0 while
    the allocation cursor stays inside the address space. *)
Theorem fw_map_present_range_kept (ST : bool) pt phys virt size st :
  pt <> 0 ->
  canonical virt = true ->
  0 <= virt -> 0 <= size -> virt + size <= 2^64 - 4096 ->
  ((forall k, 0 <= k -> page_down virt + 4096 * k < virt + size ->
              lookup_4k pt (ptmem st) (page_down virt + 4096 * k) <> None) ->
   fw_map ST pt phys virt size st = Some (1, st)) /\
  (ST = false -> 0 < file_buf st ->
   file_buf st + 12288 * Z.of_nat (map_fuel size) < 2^64 ->
   forall r st', fw_map ST pt phys virt size st = Some (r, st') -> r = 1).
Proof.
  intros Hpt Hc Hv Hs Hw.
  assert (Hpt' := Hpt). apply Z.eqb_neq in Hpt'.
  split.
  - intros Hp. unfold fw_map. rewrite Hpt', Hc. simpl.
    assert (He : u64 (virt + size) = virt + size).
    { unfold u64. apply Z.mod_small. lia. }
    rewrite He.
    assert (Hm := Z.mod_pos_bound virt 4096 ltac:(lia)).
    assert (Hm' := Z.mod_le virt 4096 Hv ltac:(lia)).
    rewrite (map_pages_present ST pt (virt + size) 0 st Hw (map_fuel size)
               (page_down virt)).
    + destruct (map_fuel size) eqn:Hfuel; [|reflexivity].
      unfold map_fuel in Hfuel. pose proof (Z.div_pos size 4096). lia.
    + unfold page_down. lia.
    + unfold map_fuel. pose proof (Z.div_pos size 4096). lia.
    + unfold map_fuel, page_down.
      rewrite Z2Nat.id by (pose proof (Z.div_pos size 4096); lia).
      pose proof (Z.mul_div_le size 4096 ltac:(lia)).
      pose proof (Z.mod_pos_bound size 4096 ltac:(lia)).
      pose proof (Z.div_mod size 4096 ltac:(lia)). lia.
    + exact Hp.
  - intros -> Hpos Hlt r st' Hrun. unfold fw_map in Hrun.
    rewrite Hpt', Hc in Hrun. simpl in Hrun.
    destruct (map_pages false pt (map_fuel size) (page_down virt)
                (u64 (virt + size)) 0 st) as [res|] eqn:Hpages; [|discriminate].
    destruct (map_pages_bios pt _ _ _ _ _ _ Hpos Hlt Hpages)
      as (next' & st1 & ->).
    destruct (resolve_list _ _ _ _); [|discriminate].
    now injection Hrun as <- _.
Qed.

Lemma fw_map_present_range_kept_witness :
  fw_map false 4096 1048576 higher_half 8192 bios_state1 = Some (1, bios_state1).
Proof.
  apply (proj1 (fw_map_present_range_kept false 4096 1048576 higher_half 8192
                  bios_state1 ltac:(discriminate) eq_refl
                  ltac:(unfold higher_half; lia) ltac:(lia)
                  ltac:(unfold higher_half; lia))).
  - intros k Hk Hlt.
    change (page_down higher_half) with higher_half in *.
    assert (Hk' : k = 0 \/ k = 1) by (unfold higher_half in Hlt; lia).
    destruct Hk' as [-> | ->]; vm_compute; discriminate.
Defined.

(** C1, as stated, fails: the second of two overlapping calls returns 1,
    not 0.  The page both ranges share keeps the translation the first call
    gave it. *)
Lemma overlapping_fw_map_not_refused :
  returned first_map = Some 1 /\
  lookup_4k 4096 (ptmem bios_state1) (higher_half + 4096) = Some (1064960 + 3) /\
  returned second_map = Some 1 /\
  returned second_map <> Some 0 /\
  lookup_4k 4096 (ptmem bios_state2) (higher_half + 4096) = Some (1064960 + 3).
Proof.
  repeat split; try (vm_compute; reflexivity).
  vm_compute. discriminate.
Qed.

(** ** The memory map and the top of RAM *)

Lemma entry_top_nonneg e : 0 <= entry_top e.
Proof. unfold entry_top, u64. apply Z.mod_pos_bound. lia. Qed.

Lemma max_conventional_top_cons d map :
  max_conventional_top (d :: map)
  = if is_conventional d
    then Z.max (entry_top (efi_entry d)) (max_conventional_top map)
    else max_conventional_top map.
Proof.
  unfold max_conventional_top. cbn [filter].
  destruct (is_conventional d); reflexivity.
Qed.

Lemma efi_top_of_memory_max map : forall ram,
  0 <= ram ->
  efi_top_of_memory map ram = Z.max ram (max_conventional_top map).
Proof.
  induction map as [|d map IH]; intros ram Hr.
  - cbn. lia.
  - cbn [efi_top_of_memory]. rewrite max_conventional_top_cons.
    change (u64 (PhysicalStart d + u64 (Z.shiftl (NumberOfPages d) 12)))
      with (entry_top (efi_entry d)).
    change (Type_ d =? EfiConventionalMemory) with (is_conventional d).
    pose proof (entry_top_nonneg (efi_entry d)) as Ht.
    destruct (is_conventional d); cbn [andb].
    + destruct (ram <? entry_top (efi_entry d)) eqn:Hlt;
        [apply Z.ltb_lt in Hlt | apply Z.ltb_ge in Hlt];
        rewrite IH by lia; lia.
    + rewrite IH by lia. reflexivity.
Qed.

Lemma sorted_by_base_tail a l : sorted_by_base (a :: l) -> sorted_by_base l.
Proof. destruct l; simpl; tauto. Qed.

Lemma sorted_by_base_nth : forall l i,
  sorted_by_base l -> (S i < List.length l)%nat ->
  base_addr (entry_at l i) <= base_addr (entry_at l (S i)).
Proof.
  induction l as [|a l IH]; intros i Hs Hi; simpl in Hi; [lia|].
  destruct i as [|i].
  - destruct l as [|b l]; simpl in *; [lia|tauto].
  - unfold entry_at in *. simpl nth at 1.
    change (nth (S (S i)) (a :: l) null_entry) with (nth (S i) l null_entry).
    apply IH; [eapply sorted_by_base_tail; eassumption | lia].
Qed.

Lemma sift_down_sorted l i :
  sorted_by_base l -> (i < List.length l)%nat -> sift_down i l = l.
Proof.
  intros Hs Hi. destruct i as [|i]; [reflexivity|]. simpl.
  pose proof (sorted_by_base_nth l i Hs Hi) as Hle.
  apply Z.ltb_ge in Hle. now rewrite Hle.
Qed.

Lemma sort_rounds_sorted : forall suf pre ram,
  sorted_by_base (pre ++ suf) -> 0 <= ram ->
  sort_rounds (List.length suf) (List.length pre) (pre ++ suf) ram
  = (pre ++ suf, Z.max ram (max_top suf)).
Proof.
  induction suf as [|e suf IH]; intros pre ram Hs Hr.
  - simpl. unfold max_top. simpl. f_equal. lia.
  - simpl. unfold sort_step.
    rewrite sift_down_sorted; [|assumption|rewrite length_app; simpl; lia].
    assert (He : entry_at (pre ++ e :: suf) (List.length pre) = e).
    { unfold entry_at. rewrite app_nth2 by lia.
      now rewrite Nat.sub_diag. }
    rewrite He.
    replace (pre ++ e :: suf) with ((pre ++ [e]) ++ suf) in *
      by (now rewrite <- app_assoc).
    replace (S (List.length pre)) with (List.length (pre ++ [e]))
      by (rewrite length_app; simpl; lia).
    pose proof (entry_top_nonneg e) as Ht.
    rewrite IH; [|assumption|destruct (is_available e && (ram <? entry_top e)); lia].
    f_equal. unfold max_top. simpl.
    destruct (is_available e) eqn:Ha; simpl.
    + destruct (ram <? entry_top e) eqn:Hlt;
        [apply Z.ltb_lt in Hlt | apply Z.ltb_ge in Hlt]; lia.
    + reflexivity.
Qed.

Lemma sort_map_sorted l ram :
  sorted_by_base l -> 0 <= ram ->
  sort_map l ram = (l, Z.max ram (max_top (tl l))).
Proof.
  intros Hs Hr. unfold sort_map. destruct l as [|a l].
  - simpl. unfold max_top. simpl. f_equal. lia.
  - replace (List.length (a :: l) - 1)%nat with (List.length l)
      by (simpl; lia).
    apply (sort_rounds_sorted l [a] ram Hs Hr).
Qed.

(** C7, as the code has it.  On UEFI the top of RAM is the largest end of
    a conventional-memory descriptor, rounded down to 2 MiB; the other
    descriptors the memory-map tag calls Available are not looked at.  On
    BIOS, for a map sorted by base address in which the first entry does
    not alone hold the largest Available end, it is the largest
    [base + length] over the Available entries, rounded down to 2 MiB, and
    the map is left in its order. *)
Theorem top_of_ram_after_setup :
  (forall map, setup_ram_efi (Some map) 0 = round_2m (max_conventional_top map)) /\
  (forall e820,
     sorted_by_base e820 ->
     max_top (tl e820) = max_top e820 ->
     setup_ram_bios e820 0 = (e820, largest_available_top e820)).
Proof.
  split.
  - intros map. unfold setup_ram_efi, efi_memmap_null.
    rewrite efi_top_of_memory_max by lia.
    f_equal. apply Z.max_r.
    unfold max_conventional_top.
    generalize (List.map (fun d => entry_top (efi_entry d))
                         (filter is_conventional map)).
    intros l. induction l; simpl; lia.
  - intros e820 Hs Hm. unfold setup_ram_bios.
    rewrite sort_map_sorted by (assumption || lia).
    unfold largest_available_top. rewrite <- Hm. f_equal. f_equal.
    apply Z.max_r. unfold max_top.
    generalize (map entry_top (filter is_available (tl e820))).
    intros l. induction l; simpl; lia.
Qed.

Lemma top_of_ram_after_setup_witness :
  sorted_by_base e820_map0 /\
  max_top (tl e820_map0) = max_top e820_map0 /\
  setup_ram_bios e820_map0 0 = (e820_map0, 1073741824).
Proof.
  split; [simpl; lia|]. split; [reflexivity|].
  apply (proj2 top_of_ram_after_setup e820_map0); [simpl; lia | reflexivity].
Defined.

(** C7, as stated, fails: on UEFI the boot-services descriptor above the
    conventional memory is Available in the memory-map tag and ends higher,
    yet [ram] stops at the end of the conventional memory. *)
Lemma top_of_ram_not_largest_available :
  map type (map efi_entry efi_map0) = [MULTIBOOT_MEMORY_AVAILABLE; MULTIBOOT_MEMORY_AVAILABLE] /\
  setup_ram_efi (Some efi_map0) 0 = 1073741824 /\
  largest_available_top (map efi_entry efi_map0) = 1075838976 /\
  setup_ram_efi (Some efi_map0) 0 <> largest_available_top (map efi_entry efi_map0).
Proof. repeat split; try reflexivity. vm_compute. discriminate. Qed.

(** On BIOS the entry that ends up first in the sorted map is never looked
    at, so a map that reports all of RAM in its first entry leaves [ram]
    at 0. *)
Example sort_map_skips_first_entry :
  snd (setup_ram_bios e820_map1 0) = 0 /\
  largest_available_top e820_map1 = 1073741824.
Proof. split; reflexivity. Qed.

(** ** Loading a segment *)

Lemma slot_in_use_none mm vaddr size :
  (forall e, In e mm -> slot_holds e vaddr = false) ->
  slot_in_use mm vaddr size = false.
Proof.
  induction mm as [|e mm IH]; intros H; simpl; [reflexivity|].
  rewrite (H e) by (now left). apply IH. intros x Hx. apply H. now right.
Qed.

Lemma slot_in_use_first pre e post vaddr size :
  (forall x, In x pre -> slot_holds x vaddr = false) ->
  slot_holds e vaddr = true ->
  slot_in_use (pre ++ e :: post) vaddr size
  = negb (is_available e) || (entry_top e <? u64 (page_down vaddr + size)).
Proof.
  induction pre as [|x pre IH]; intros H He; simpl.
  - now rewrite He.
  - rewrite (H x) by (now left). apply IH; [|assumption].
    intros y Hy. apply H. now right.
Qed.

(** C3, as the code has it.  On BIOS, for a segment with content at or
    below the top of RAM and above the loader's own memory, only the first
    memory-map entry that holds [vaddr] decides: the load fails with the
    memory-in-use error exactly when that entry is not Available or ends
    before the page-rounded end of the segment.  When no entry holds
    [vaddr], or there is no memory map, the segment is loaded all the
    same. *)
Theorem fw_loadseg_bios_slot_check
    pt ea (env : seg_env) (offs filesz vaddr memsz : Z) (st : map_state) :
  memsz <> 0 -> file_size env <> 0 ->
  loader_top <= vaddr <= ram env ->
  let r := fw_loadseg false pt ea env offs filesz vaddr memsz st in
  let size := seg_size vaddr memsz in
  (memmap env = None -> seg_result r = Some 1) /\
  (forall mm, memmap env = Some mm ->
     (forall e, In e mm -> slot_holds e vaddr = false) ->
     seg_result r = Some 1) /\
  (forall pre e post, memmap env = Some (pre ++ e :: post) ->
     (forall x, In x pre -> slot_holds x vaddr = false) ->
     slot_holds e vaddr = true ->
     if is_available e && (u64 (page_down vaddr + size) <=? entry_top e)
     then seg_result r = Some 1
     else seg_result r = Some 0 /\ seg_ops r = [OpMemoryInUse vaddr memsz]).
Proof.
  intros Hm Hf [Hlo Hhi] r size. subst r size.
  unfold fw_loadseg.
  apply Z.eqb_neq in Hm, Hf. rewrite Hm, Hf. cbn [orb].
  assert (H1 : (vaddr <? loader_top) = false) by (apply Z.ltb_ge; lia).
  assert (H2 : (ram env <? vaddr) = false) by (apply Z.ltb_ge; lia).
  rewrite H1, H2.
  repeat split.
  - intros ->. reflexivity.
  - intros mm -> Hnone. now rewrite slot_in_use_none.
  - intros pre e post -> Hpre He.
    rewrite (slot_in_use_first pre e post vaddr _ Hpre He).
    destruct (is_available e); cbn [negb andb orb]; [|split; reflexivity].
    rewrite Z.leb_antisym.
    destruct (entry_top e <? u64 (page_down vaddr + seg_size vaddr memsz));
      cbn [negb]; [split; reflexivity | reflexivity].
Qed.

Lemma fw_loadseg_bios_slot_check_witness :
  seg_result (fw_loadseg false 4096 no_allocpages seg_env2 4096 8192 2097152 8192
                bios_state0) = Some 1.
Proof.
  refine (proj1 (proj2 (fw_loadseg_bios_slot_check 4096 no_allocpages seg_env2
            4096 8192 2097152 8192 bios_state0 _ _ _)) e820_map2 eq_refl _).
  - discriminate.
  - discriminate.
  - vm_compute. split; discriminate.
  - intros e He. simpl in He.
    destruct He as [<- | [<- | [<- | []]]]; reflexivity.
Defined.

(** C3, as stated, fails: a segment at 2 MiB, in the hole of the map,
    lies in no Available entry and is loaded nevertheless. *)
Lemma fw_loadseg_outside_map_succeeds :
  let vaddr := 2097152 in
  let memsz := 8192 in
  loader_top <= vaddr <= ram seg_env2 /\
  within_one_available e820_map2 (page_down vaddr)
    (page_down vaddr + seg_size vaddr memsz) = false /\
  seg_result (fw_loadseg false 4096 no_allocpages seg_env2 4096 8192 vaddr memsz
                bios_state0) = Some 1 /\
  seg_ops (fw_loadseg false 4096 no_allocpages seg_env2 4096 8192 vaddr memsz
             bios_state0) = [OpRead 4096 8192 vaddr].
Proof.
  cbv zeta. split; [vm_compute; split; discriminate|].
  repeat split; vm_compute; reflexivity.
Qed.

(** ** The FAT32 reader *)

Example read_file_kernel : read_file0 "kernel" = Some (7, lit "primary").
Proof. vm_compute. reflexivity. Qed.

(** C8 at the failing volume: the directory entry [KERNEL] comes first and
    its name ends where the path [kernel.bak] goes on, which the comparison
    in [bios_open] takes for a match.  Opening [kernel.bak] yields the
    cluster and the size of [KERNEL], and the read returns the bytes of
    [KERNEL], not the six bytes stored for [KERNEL.BAK]. *)
Lemma bios_open_takes_prefix_for_match :
  option_map (fun r => (fst (fst (fst r)), snd (fst (fst r)), snd (fst r)))
    (bios_open volume0 false 1 2 10 18 64 1 (lit "kernel.bak")
       (fat_state0 volume0 false 10))
    = Some (1, 3, 7) /\
  read_file0 "kernel.bak" = Some (7, lit "primary") /\
  sector_of (volume0 22) = lit "backup" ++ repeat 0 506%nat /\
  read_file0 "kernel.bak" <> Some (6, lit "backup").
Proof.
  repeat split; try (vm_compute; reflexivity).
  vm_compute. discriminate.
Qed.

(** ** [fw_read] stays inside the file and inside the buffer *)

Lemma unchanged_outside_refl m lo hi : unchanged_outside m m lo hi.
Proof. intros a _. reflexivity. Qed.

Lemma unchanged_outside_trans m1 m2 m3 lo mid hi lo' hi' :
  unchanged_outside m1 m2 lo mid ->
  unchanged_outside m2 m3 mid hi ->
  lo' <= lo -> hi <= hi' -> lo <= mid <= hi ->
  unchanged_outside m1 m3 lo' hi'.
Proof.
  intros H12 H23 Hlo Hhi Hmid a Ha.
  rewrite H23 by lia. apply H12. lia.
Qed.

Lemma unchanged_outside_weaken m m' lo hi lo' hi' :
  unchanged_outside m m' lo hi -> lo' <= lo -> hi <= hi' ->
  unchanged_outside m m' lo' hi'.
Proof. intros H Hlo Hhi a Ha. apply H. lia. Qed.

Lemma store_bytes_frame bytes : forall m addr,
  unchanged_outside m (store_bytes m addr bytes) addr
    (addr + Z.of_nat (List.length bytes)).
Proof.
  induction bytes as [|b bytes IH]; intros m addr a Ha; simpl in *.
  - reflexivity.
  - rewrite IH by lia.
    destruct (a =? addr) eqn:E; [apply Z.eqb_eq in E; lia | reflexivity].
Qed.

Lemma memcpy_frame n : forall m dst src,
  unchanged_outside m (memcpy m dst src n) dst (dst + Z.of_nat n).
Proof.
  induction n as [|n IH]; intros m dst src a Ha; simpl.
  - reflexivity.
  - rewrite IH by lia.
    destruct (a =? dst) eqn:E; [apply Z.eqb_eq in E; lia | reflexivity].
Qed.

Lemma store_bytes_get bytes : forall m a x,
  a <= x < a + Z.of_nat (List.length bytes) ->
  store_bytes m a bytes x = nth (Z.to_nat (x - a)) bytes 0.
Proof.
  induction bytes as [|b bytes IH]; intros m a x Hx; simpl in Hx; [lia|].
  cbn [store_bytes]. destruct (Z.eq_dec x a) as [->|Hne].
  - rewrite store_bytes_frame by lia.
    rewrite Z.eqb_refl, Z.sub_diag. reflexivity.
  - rewrite IH by lia.
    replace (Z.to_nat (x - a)) with (S (Z.to_nat (x - (a + 1)))) by lia.
    reflexivity.
Qed.

Lemma le_bytes_length n v : List.length (le_bytes n v) = n.
Proof. unfold le_bytes. now rewrite length_map, length_seq. Qed.

Lemma sector_of_length raw : List.length (sector_of raw) = 512%nat.
Proof.
  unfold sector_of. rewrite length_firstn, length_app, repeat_length. lia.
Qed.

(** *** The progress bar writes in its two rows only *)

Lemma unchanged_outside_bar_refl vm m lo hi : unchanged_outside_bar vm m m lo hi.
Proof. intros a _ _. reflexivity. Qed.

Lemma unchanged_outside_bar_trans vm m1 m2 m3 lo mid hi lo' hi' :
  unchanged_outside_bar vm m1 m2 lo mid ->
  unchanged_outside_bar vm m2 m3 mid hi ->
  lo' <= lo -> hi <= hi' -> lo <= mid <= hi ->
  unchanged_outside_bar vm m1 m3 lo' hi'.
Proof.
  intros H12 H23 Hlo Hhi Hmid a Ha Hb.
  rewrite H23 by (assumption || lia). apply H12; [lia|assumption].
Qed.

Lemma unchanged_outside_bar_weaken vm m m' lo hi lo' hi' :
  unchanged_outside_bar vm m m' lo hi -> lo' <= lo -> hi <= hi' ->
  unchanged_outside_bar vm m m' lo' hi'.
Proof. intros H Hlo Hhi a Ha Hb. apply H; [lia|assumption]. Qed.

Lemma unchanged_outside_in_bar vm m m' lo hi :
  unchanged_outside m m' lo hi -> unchanged_outside_bar vm m m' lo hi.
Proof. intros H a Ha _. now apply H. Qed.

Section BarFacts.

Variable vidmode : vidmode_t.

Lemma wr16_frame m a v x : ~ (a <= x < a + 2) -> wr16 m a v x = m x.
Proof. intros H. unfold wr16. apply store_bytes_frame. rewrite le_bytes_length. lia. Qed.

Lemma wr32_frame m a v x : ~ (a <= x < a + 4) -> wr32 m a v x = m x.
Proof. intros H. unfold wr32. apply store_bytes_frame. rewrite le_bytes_length. lia. Qed.

Lemma pb_pixel_frame i c16 c32 m x :
  0 <= i < 2^32 -> ~ bar_reach vidmode x ->
  pb_pixel vidmode (pb_start vidmode) i c16 c32 m x = m x.
Proof.
  intros Hi Hx. unfold pb_pixel. cbv zeta.
  assert (H1 : forall k, 0 <= k < 4 -> x <> u64 (pb_start vidmode + i) + k).
  { intros k Hk ->. apply Hx. exists i, k. auto. }
  assert (H2 : forall k, 0 <= k < 4 ->
            x <> u64 (u64 (pb_start vidmode + framebuffer_pitch vidmode) + i) + k).
  { intros k Hk ->. apply Hx. exists i, k. auto. }
  assert (H1' : ~ (u64 (pb_start vidmode + i) <= x < u64 (pb_start vidmode + i) + 4)).
  { intros H. apply (H1 (x - u64 (pb_start vidmode + i))); lia. }
  assert (H2' : ~ (u64 (u64 (pb_start vidmode + framebuffer_pitch vidmode) + i) <= x
                   < u64 (u64 (pb_start vidmode + framebuffer_pitch vidmode) + i) + 4)).
  { intros H.
    apply (H2 (x - u64 (u64 (pb_start vidmode + framebuffer_pitch vidmode) + i))); lia. }
  destruct ((framebuffer_bpp vidmode =? 15) || (framebuffer_bpp vidmode =? 16)).
  - rewrite !wr16_frame by lia. reflexivity.
  - destruct ((framebuffer_bpp vidmode =? 24) || (framebuffer_bpp vidmode =? 32));
      [|reflexivity].
    rewrite !wr32_frame by lia. reflexivity.
Qed.

Lemma u32_range x : 0 <= u32 x < 2^32.
Proof. unfold u32. apply Z.mod_pos_bound. lia. Qed.

Lemma pb_row_frame b c x : forall n i m,
  0 <= i < 2^32 -> ~ bar_reach vidmode x ->
  pb_row vidmode n (pb_start vidmode) b i c m x = m x.
Proof.
  induction n as [|n IH]; intros i m Hi Hx; cbn [pb_row]; [reflexivity|].
  rewrite IH by (apply u32_range || assumption).
  now apply pb_pixel_frame.
Qed.

Lemma pb_fill_frame x : forall n i m,
  0 <= i -> i + Z.of_nat n <= 2^32 -> ~ bar_reach vidmode x ->
  pb_fill vidmode n (pb_start vidmode) i m x = m x.
Proof.
  induction n as [|n IH]; intros i m Hi Hn Hx; cbn [pb_fill]; [reflexivity|].
  rewrite IH by (assumption || lia).
  apply pb_pixel_frame; [lia|assumption].
Qed.

(** [pb_init] returns unless the width is 4 with a frame buffer present. *)
Lemma pb_init_spec size pb m :
  0 <= size -> pb_init_returns vidmode ->
  exists blk pb' m',
    pb_init vidmode size pb m = Some (blk, pb', m') /\
    0 <= blk /\ pb_ok vidmode pb' /\ same_outside_bar vidmode m m'.
Proof.
  intros Hsize Hret. unfold pb_init. cbv zeta.
  pose proof (u32_range (framebuffer_width vidmode - 4)) as Hw.
  destruct ((framebuffer_addr vidmode =? 0) || (size =? 0)
            || (u32 (Z.shiftr size 9 + 1) <? u32 (framebuffer_width vidmode - 4)))
    eqn:Hguard.
  { do 3 eexists. split; [reflexivity|]. split; [lia|]. split.
    - split; [left; reflexivity|cbn; lia].
    - intros x _. reflexivity. }
  apply orb_false_elim in Hguard. destruct Hguard as [Hguard Hm].
  apply orb_false_elim in Hguard. destruct Hguard as [Ha _].
  apply Z.eqb_neq in Ha. apply Z.ltb_ge in Hm.
  destruct Hret as [Hret|Hret]; [contradiction|].
  destruct (u32 (framebuffer_width vidmode - 4) =? 0) eqn:Hz;
    [apply Z.eqb_eq in Hz; contradiction|].
  do 3 eexists. split; [reflexivity|]. split; [apply Z.div_pos; lia|]. split.
  - split; [|cbn; lia]. right. cbn [pb_fb pb_m].
    split; [reflexivity|split; [lia|assumption]].
  - intros x Hx. apply pb_row_frame; [lia|]. intros Hr. apply Hx. split; assumption.
Qed.

(** With a frame buffer four pixels wide, [pb_init] divides by 0. *)
Lemma pb_init_faults size pb m :
  framebuffer_addr vidmode <> 0 -> u32 (framebuffer_width vidmode - 4) = 0 ->
  size <> 0 ->
  pb_init vidmode size pb m = None.
Proof.
  intros Ha Hw Hs. unfold pb_init. cbv zeta. rewrite Hw.
  apply Z.eqb_neq in Ha, Hs. rewrite Ha, Hs. cbn [orb].
  pose proof (u32_range (Z.shiftr size 9 + 1)).
  destruct (u32 (Z.shiftr size 9 + 1) <? 0) eqn:E; [apply Z.ltb_lt in E; lia|].
  reflexivity.
Qed.

Lemma pb_draw_spec curr pb m :
  pb_ok vidmode pb ->
  exists pb' m',
    pb_draw vidmode curr pb m = Some (pb', m') /\
    pb_ok vidmode pb' /\ same_outside_bar vidmode m m'.
Proof.
  intros [Hfb Hl]. unfold pb_draw.
  destruct (pb_fb pb =? 0) eqn:E.
  { exists pb, m. split; [reflexivity|]. split; [split; assumption|].
    intros x _. reflexivity. }
  apply Z.eqb_neq in E. destruct Hfb as [Hfb|(Hfb & Hm & Ha)]; [contradiction|].
  destruct (pb_m pb =? 0) eqn:Em; [apply Z.eqb_eq in Em; contradiction|].
  do 2 eexists. split; [reflexivity|]. split.
  - split; cbn [pb_fb pb_m pb_l]; [right; repeat split; assumption|apply u32_range].
  - rewrite Hfb. intros x Hx.
    match goal with
    | |- context [Z.to_nat (u32 ?e - pb_l pb)] =>
        pose proof (u32_range e); apply pb_fill_frame; try lia
    end.
    intros Hr. apply Hx. split; assumption.
Qed.

Lemma pb_fini_frame fb_bg pb m :
  pb_ok vidmode pb -> same_outside_bar vidmode m (snd (pb_fini vidmode fb_bg pb m)).
Proof.
  intros [Hfb _]. unfold pb_fini. cbn [snd].
  destruct (pb_fb pb =? 0) eqn:E; [intros x _; reflexivity|].
  apply Z.eqb_neq in E. destruct Hfb as [Hfb|(Hfb & _ & Ha)]; [contradiction|].
  rewrite Hfb. intros x Hx. apply pb_row_frame; [lia|].
  intros Hr. apply Hx. split; assumption.
Qed.

End BarFacts.

(** The goal of a read that returns 0 and leaves memory as it is. *)
Ltac nothing_read :=
  split; [reflexivity|]; split; [lia|]; split; [left; reflexivity|];
  try apply unchanged_outside_bar_refl.

Section ReadFacts.

Variable vidmode : vidmode_t.
Variable fb_bg : Z.
Variable disk : Z -> list Z.
Variable bkp : bool.
Variable spc fat_lba data_lba : Z.

Lemma fw_loadsec_length lba st :
  List.length (fst (fw_loadsec disk bkp lba st)) = 512%nat.
Proof. unfold fw_loadsec. simpl. apply sector_of_length. Qed.

(** The read loop ends within its fuel, takes [rem] down, and writes only
    the bytes it counts and the progress bar. *)
Lemma read_loop_spec size : forall fuel r st,
  0 <= r_rem r -> 1 <= r_rs r <= 512 -> 0 <= r_os r ->
  pb_ok vidmode (r_pb r) ->
  (Z.to_nat (r_rem r) < fuel)%nat ->
  exists r' st',
    read_loop vidmode disk bkp spc fat_lba data_lba fuel size r st = Some (r', st') /\
    0 <= r_rem r' <= r_rem r /\
    unchanged_outside_bar vidmode (r_mem r) (r_mem r') (r_buf r)
      (r_buf r + (r_rem r - r_rem r')) /\
    pb_ok vidmode (r_pb r').
Proof.
  induction fuel as [|fuel IH]; intros r st Hrem Hrs Hos Hpb Hfuel; [lia|].
  cbn [read_loop].
  destruct ((r_rem r =? 0) || rq st) eqn:Hstop.
  { exists r, st. split; [reflexivity|]. split; [lia|].
    split; [apply unchanged_outside_bar_refl|assumption]. }
  apply orb_false_elim in Hstop. destruct Hstop as [Hz _].
  apply Z.eqb_neq in Hz.
  match goal with
  | |- context [match ?p with Some _ => _ | None => _ end] =>
      destruct p as [[[[lba clu] secleft] st1]|] eqn:Hplace
  end.
  2:{ exists r, st. split; [reflexivity|]. split; [lia|].
      split; [apply unchanged_outside_bar_refl|assumption]. }
  set (rs := if r_rem r <? r_rs r then r_rem r else r_rs r).
  assert (Hrs' : 1 <= rs <= 512 /\ rs <= r_rem r).
  { subst rs. destruct (r_rem r <? r_rs r) eqn:E;
      [apply Z.ltb_lt in E | apply Z.ltb_ge in E]; lia. }
  clearbody rs.
  destruct (fw_loadsec disk bkp lba st1) as [sec st2] eqn:Hsec.
  assert (Hlen : List.length sec = 512%nat).
  { pose proof (fw_loadsec_length lba st1) as H. now rewrite Hsec in H. }
  match goal with
  | |- context [pb_draw vidmode ?c (r_pb r) ?m1] =>
      set (m1' := m1);
      assert (Hm1 : unchanged_outside (r_mem r) m1' (r_buf r) (r_buf r + rs));
      [|destruct (pb_draw_spec vidmode c (r_pb r) m1' Hpb)
          as (pb2 & m2 & Hdraw & Hpb2 & Hsame); rewrite Hdraw]
  end.
  { subst m1'. destruct (rs <? 512) eqn:Hsmall.
    - intros a Ha. apply store_bytes_frame.
      rewrite length_firstn. lia.
    - apply Z.ltb_ge in Hsmall. assert (rs = 512) by lia.
      destruct (r_os r =? 0).
      + intros a Ha. apply store_bytes_frame. rewrite Hlen. lia.
      + intros a Ha. rewrite memcpy_frame by lia.
        apply store_bytes_frame. rewrite Hlen. lia. }
  clearbody m1'.
  match goal with
  | |- context [read_loop _ _ _ _ _ _ fuel size ?r1 st2] => set (r1' := r1)
  end.
  destruct (IH r1' st2) as (r' & st' & Hrun & Hr' & Hframe & Hpb');
    try (subst r1'; simpl; lia); [subst r1'; exact Hpb2|].
  exists r', st'. split; [exact Hrun|].
  subst r1'. simpl in *. split; [lia|]. split; [|exact Hpb'].
  eapply unchanged_outside_bar_trans with (lo := r_buf r) (mid := r_buf r + rs);
    [| exact Hframe | lia | lia | lia].
  intros a Ha Hb. rewrite Hsame by assumption. now apply Hm1.
Qed.

Lemma bios_seek_spec file_clu offs st :
  0 <= offs -> offs = 0 \/ spc <> 0 ->
  exists res st',
    bios_seek disk bkp spc fat_lba data_lba file_clu offs st = Some (res, st') /\
    forall lba clu secleft os rs,
      res = Some (lba, clu, secleft, os, rs) -> 1 <= rs <= 512 /\ 0 <= os.
Proof.
  intros Hoffs Hspc. unfold bios_seek.
  destruct (offs =? 0) eqn:E.
  { do 2 eexists. split; [reflexivity|].
    intros lba clu secleft os rs H. injection H as _ _ _ <- <-. lia. }
  apply Z.eqb_neq in E. destruct Hspc as [Hspc|Hspc]; [contradiction|].
  destruct (Z.shiftl spc 9 =? 0) eqn:Es.
  { apply Z.eqb_eq in Es. rewrite Z.shiftl_mul_pow2 in Es by lia. lia. }
  cbv zeta.
  destruct (if u32 (offs / Z.shiftl spc 9) =? 0 then (file_clu, st)
            else skip_clusters disk bkp fat_lba
                   (Z.to_nat (u32 (offs / Z.shiftl spc 9))) file_clu st)
    as [clu0 st0].
  destruct (negb (u32 (offs / Z.shiftl spc 9) =? 0) && (clu0 =? 0)).
  { do 2 eexists. split; [reflexivity|]. discriminate. }
  do 2 eexists. split; [reflexivity|].
  intros lba clu secleft os rs H.
  assert (Hos : Z.land (offs mod Z.shiftl spc 9) 511 = os) by congruence.
  assert (Hrs : 512 - Z.land (offs mod Z.shiftl spc 9) 511 = rs) by congruence.
  clear H. subst os rs.
  change 511 with (Z.ones 9). rewrite Z.land_ones by lia.
  pose proof (Z.mod_pos_bound (offs mod Z.shiftl spc 9) (2 ^ 9) ltac:(lia)).
  lia.
Qed.

(** [bios_read] returns, counts no more than was asked for and than the
    file holds from [offs] on, and writes only the bytes it counts and the
    progress bar. *)
Lemma bios_read_spec pb file_clu file_size offs size buf m st :
  0 <= offs -> 0 <= size -> offs + size < 2^64 ->
  pb_init_returns vidmode -> offs = 0 \/ spc <> 0 ->
  exists n m' st',
    bios_read vidmode fb_bg disk bkp spc fat_lba data_lba pb file_clu file_size
      offs size buf m st = Some (n, m', st') /\
    0 <= n <= size /\ (n = 0 \/ offs + n <= file_size) /\
    unchanged_outside_bar vidmode m m' buf (buf + n).
Proof.
  intros Hoffs Hsize Hwrap Hret Hspc. unfold bios_read.
  destruct ((file_clu <? 2) || (file_size <=? offs) || (size =? 0) || (buf =? 0))
    eqn:Hguard.
  { exists 0, m, st. nothing_read. }
  repeat (apply orb_false_elim in Hguard; destruct Hguard as [Hguard ?]).
  apply Z.leb_gt in H1. apply Z.eqb_neq in H0.
  assert (Hu : u64 (offs + size) = offs + size)
    by (unfold u64; apply Z.mod_small; lia).
  rewrite Hu.
  set (size' := if file_size <? offs + size then file_size - offs else size).
  assert (Hs' : 1 <= size' <= size /\ offs + size' <= file_size).
  { subst size'. destruct (file_size <? offs + size) eqn:E;
      [apply Z.ltb_lt in E | apply Z.ltb_ge in E]; lia. }
  clearbody size'.
  destruct (pb_init_spec vidmode size' pb m ltac:(lia) Hret)
    as (blk & pb1 & m1 & Hinit & _ & Hpb1 & Hsame1).
  rewrite Hinit.
  destruct (bios_seek_spec file_clu offs st Hoffs Hspc) as (res & st1 & Hseek & Hres).
  rewrite Hseek.
  destruct res as [[[[[lba clu] secleft] os] rs]|].
  2:{ exists 0, m1, st1. split; [reflexivity|]. split; [lia|].
      split; [left; reflexivity|]. intros a _ Hb. now apply Hsame1. }
  destruct (Hres lba clu secleft os rs eq_refl) as [Hrs Hos].
  match goal with
  | |- context [read_loop _ _ _ _ _ _ ?fuel size' ?r0 st1] =>
      destruct (read_loop_spec size' fuel r0 st1)
        as (r' & st' & Hrun & Hr' & Hframe & Hpb');
        try (simpl; lia); [exact Hpb1|]
  end.
  rewrite Hrun. simpl in Hr', Hframe.
  do 3 eexists. split; [reflexivity|]. repeat split; try lia.
  intros a Ha Hb. rewrite (pb_fini_frame vidmode fb_bg (r_pb r') (r_mem r') Hpb' a Hb).
  rewrite Hframe by assumption. now apply Hsame1.
Qed.

End ReadFacts.

Section EfiReadFacts.

Variable vidmode : vidmode_t.
Variable bkp : bool.

Lemma efi_file_read_full f pos n :
  io_error f = false -> 0 <= pos -> 0 <= n ->
  pos + n <= Z.of_nat (List.length (content f)) ->
  fst (efi_file_read f pos n) = false /\
  Z.of_nat (List.length (snd (efi_file_read f pos n))) = n.
Proof.
  intros He Hp Hn Hlen. unfold efi_file_read. rewrite He. simpl.
  split; [reflexivity|]. rewrite length_firstn, length_skipn. lia.
Qed.

Lemma efi_read_loop_spec f offs size buf :
  io_error f = false -> 0 <= offs ->
  offs + size <= Z.of_nat (List.length (content f)) ->
  forall fuel curr blksize pb m st,
    0 <= curr -> 1 <= blksize -> curr <= size \/ size <= curr ->
    pb_ok vidmode pb ->
    (Z.to_nat (size - curr) < fuel)%nat ->
    exists m' st',
      efi_read_loop vidmode bkp fuel f offs size buf curr blksize pb m st
        = Some (false, m', st') /\
      unchanged_outside_bar vidmode m m' (buf + curr) (buf + Z.max curr size).
Proof.
  intros He Hoffs Hlen.
  induction fuel as [|fuel IH]; intros curr blksize pb m st Hc Hb _ Hpb Hfuel; [lia|].
  cbn [efi_read_loop].
  destruct (curr <? size) eqn:Hlt.
  2:{ exists m, st. split; [reflexivity | apply unchanged_outside_bar_refl]. }
  apply Z.ltb_lt in Hlt.
  set (blk := if size - curr <? blksize then size - curr else blksize).
  assert (Hblk : 1 <= blk <= size - curr).
  { subst blk. destruct (size - curr <? blksize) eqn:E;
      [apply Z.ltb_lt in E | apply Z.ltb_ge in E]; lia. }
  clearbody blk.
  destruct (efi_file_read_full f (offs + curr) blk He) as [Herr Hn]; try lia.
  destruct (efi_file_read f (offs + curr) blk) as [err bytes].
  simpl in Herr, Hn. subst err. rewrite Hn.
  destruct (pb_draw_spec vidmode curr pb (store_bytes m (buf + curr) bytes) Hpb)
    as (pb2 & m2 & Hdraw & Hpb2 & Hsame).
  rewrite Hdraw.
  destruct (IH (curr + blk) blk pb2 m2 (efi_poll bkp st))
    as (m' & st' & Hrun & Hframe); try lia; [exact Hpb2|].
  exists m', st'. split; [exact Hrun|].
  eapply unchanged_outside_bar_trans
    with (m2 := m2) (lo := buf + curr) (mid := buf + (curr + blk)).
  - intros a Ha Hbar. rewrite Hsame by assumption.
    apply store_bytes_frame. lia.
  - exact Hframe.
  - lia.
  - lia.
  - lia.
Qed.

(** [efi_read] returns, counts no more than was asked for and than the
    file holds from [offs] on, and writes only inside the request and in
    the progress bar. *)
Lemma efi_read_spec pb h file_size offs size buf m st :
  0 <= offs -> 0 <= size -> offs + size < 2^64 ->
  (forall f, h = Some f -> file_size = Z.of_nat (List.length (content f))) ->
  pb_init_returns vidmode ->
  exists n m' st',
    efi_read vidmode bkp pb h file_size offs size buf m st = Some (n, m', st') /\
    0 <= n <= size /\ (n = 0 \/ offs + n <= file_size) /\
    unchanged_outside_bar vidmode m m' buf (buf + Z.min size (file_size - offs)).
Proof.
  intros Hoffs Hsize Hwrap Hfs Hret. unfold efi_read.
  destruct h as [f|].
  2:{ exists 0, m, st. nothing_read. }
  specialize (Hfs f eq_refl).
  destruct ((file_size <=? offs) || (size =? 0) || (buf =? 0)) eqn:Hguard.
  { exists 0, m, st. nothing_read. }
  repeat (apply orb_false_elim in Hguard; destruct Hguard as [Hguard ?]).
  apply Z.leb_gt in Hguard. apply Z.eqb_neq in H.
  assert (Hu : u64 (offs + size) = offs + size)
    by (unfold u64; apply Z.mod_small; lia).
  rewrite Hu.
  set (size' := if file_size <? offs + size then file_size - offs else size).
  assert (Hs' : 1 <= size' <= size /\ offs + size' <= file_size
                /\ size' = Z.min size (file_size - offs)).
  { subst size'. destruct (file_size <? offs + size) eqn:E;
      [apply Z.ltb_lt in E | apply Z.ltb_ge in E]; lia. }
  clearbody size'. destruct Hs' as (Hs1 & Hs2 & Hs3). rewrite <- Hs3.
  destruct (io_error f) eqn:He.
  { exists 0, m, st. nothing_read. }
  destruct (pb_init_spec vidmode size' pb m ltac:(lia) Hret)
    as (blk & pb1 & m1 & Hinit & Hblk0 & Hpb1 & Hsame1).
  rewrite Hinit.
  destruct (negb (blk =? 0)) eqn:Hpb.
  - assert (Hblk : 1 <= blk) by (apply negb_true_iff, Z.eqb_neq in Hpb; lia).
    destruct (efi_read_loop_spec f offs size' buf He Hoffs ltac:(lia)
                (S (Z.to_nat size')) 0 blk pb1 m1 st)
      as (m' & st' & Hrun & Hframe); try lia; [exact Hpb1|].
    rewrite Hrun. exists size', m', st'.
    split; [reflexivity|]. repeat split; try lia.
    intros a Ha Hb. rewrite Hframe by (assumption || lia). now apply Hsame1.
  - destruct (efi_file_read_full f offs size' He) as [Herr Hn]; try lia.
    destruct (efi_file_read f offs size') as [err bytes].
    simpl in Herr, Hn. subst err. rewrite Hn.
    exists size', (store_bytes m1 buf bytes), (efi_poll bkp st).
    split; [reflexivity|]. repeat split; try lia.
    intros a Ha Hb. rewrite store_bytes_frame by lia. now apply Hsame1.
Qed.

End EfiReadFacts.
(** ** The Multiboot2 tag list *)

Lemma tag_stride_bounds size :
  8 <= size <= 2^32 - 16 ->
  8 <= tag_stride size <= size + 7 /\ tag_stride size mod 8 = 0.
Proof.
  intros H. unfold tag_stride, align8_down, u32.
  rewrite (Z.mod_small (size + 7)) by lia.
  pose proof (Z.mod_pos_bound (size + 7) 8 ltac:(lia)).
  pose proof (Z.div_mod (size + 7) 8 ltac:(lia)).
  split; [lia|].
  replace (size + 7 - (size + 7) mod 8) with ((size + 7) / 8 * 8) by lia.
  apply Z.mod_mul. lia.
Qed.

Lemma chain_le m tags : forall p0 p, chain m p0 tags p -> p0 <= p.
Proof.
  induction tags as [|[[a ty] size] tags IH]; intros p0 p H; simpl in H.
  - lia.
  - destruct H as (_ & _ & _ & Hs & H). apply IH in H.
    pose proof (tag_stride_bounds size Hs). lia.
Qed.

Lemma chain_frame m m' tags : forall p0 p,
  chain m p0 tags p ->
  (forall a, p0 <= a < p -> m' a = m a) ->
  chain m' p0 tags p.
Proof.
  induction tags as [|[[a ty] size] tags IH]; intros p0 p H Hm; simpl in *.
  - exact H.
  - destruct H as (Ha & Hty & Hsz & Hs & H).
    pose proof (chain_le _ _ _ _ H) as Hle.
    pose proof (tag_stride_bounds size Hs) as [Hst _].
    repeat split; try assumption; try lia.
    + rewrite Hm by lia. exact Hty.
    + rewrite Hm by lia. exact Hsz.
    + apply IH; [exact H|]. intros x Hx. apply Hm. lia.
Qed.

Lemma chain_snoc m tags ty size : forall p0 p,
  chain m p0 tags p ->
  m p = ty -> m (p + 4) = size -> 8 <= size <= 2^32 - 16 ->
  chain m p0 (tags ++ [(p, ty, size)]) (p + tag_stride size).
Proof.
  induction tags as [|[[a ty'] size'] tags IH]; intros p0 p H Hty Hsz Hs; simpl in *.
  - subst p0. repeat split; try assumption; lia.
  - destruct H as (Ha & Hty' & Hsz' & Hs' & H).
    repeat split; try assumption; try lia. now apply IH.
Qed.

Lemma store_same m a v : store m a v a = v.
Proof. unfold store. now rewrite Z.eqb_refl. Qed.

Lemma store_other m a v x : x <> a -> store m a v x = m x.
Proof. unfold store. intros H. apply Z.eqb_neq in H. now rewrite H. Qed.

Lemma wf_mono n n' t : (n <= n')%nat -> wf n t -> wf n' t.
Proof.
  intros Hn (tags & Hlen & H). exists tags. split; [lia | exact H].
Qed.

(** Writing a header at the cursor and moving on adds one tag. *)
Lemma header_wf n t ty size m' :
  wf n t ->
  ty <> MULTIBOOT_TAG_TYPE_END -> 8 <= size <= 2^32 - 16 ->
  (forall a, a < tags_ptr t -> m' a = tmem t a) ->
  m' (tags_ptr t) = ty -> m' (tags_ptr t + 4) = size ->
  wf (S n) {| tmem := m'; tbuf := tbuf t; tags_ptr := tags_ptr t + tag_stride size |}.
Proof.
  intros (tags & Hlen & Hch & Hok & Hal) Hty Hs Hframe Hmty Hmsz.
  exists (tags ++ [(tags_ptr t, ty, size)]). simpl.
  pose proof (tag_stride_bounds size Hs) as [Hst Hst8].
  repeat split.
  - rewrite length_app. simpl. lia.
  - apply chain_snoc; try assumption.
    eapply chain_frame; [exact Hch|]. intros a Ha. apply Hframe. lia.
  - apply Forall_app. split; [exact Hok|].
    constructor; [|constructor]. split; simpl; assumption.
  - replace (tags_ptr t + tag_stride size - tbuf t)
      with ((tags_ptr t - tbuf t) + tag_stride size) by lia.
    rewrite Z.add_mod, Hal, Hst8 by lia. reflexivity.
Qed.

Lemma emit_tag_wf n t ty size :
  wf n t -> ty <> MULTIBOOT_TAG_TYPE_END -> 8 <= size <= 2^32 - 16 ->
  wf (S n) (emit_tag ty size t) /\ tbuf (emit_tag ty size t) = tbuf t.
Proof.
  intros Hwf Hty Hs. split; [|reflexivity].
  unfold emit_tag, tag_advance, tag_header. simpl.
  assert (Hu : u32 size = size) by (unfold u32; apply Z.mod_small; lia).
  rewrite Hu.
  apply header_wf with (ty := ty); try assumption.
  - intros a Ha. rewrite !store_other by lia. reflexivity.
  - rewrite store_other by lia. apply store_same.
  - apply store_same.
Qed.

(** Words written at or above the cursor leave the list as it is. *)
Lemma scribble_wf n t m' :
  wf n t -> (forall a, a < tags_ptr t -> m' a = tmem t a) ->
  wf n {| tmem := m'; tbuf := tbuf t; tags_ptr := tags_ptr t |}.
Proof.
  intros (tags & Hlen & Hch & Hok & Hal) Hframe.
  exists tags. simpl. repeat split; try assumption.
  eapply chain_frame; [exact Hch|]. intros a Ha. apply Hframe. lia.
Qed.

Lemma mmap_tag_wf n t num :
  wf n t -> num < 2^24 ->
  wf (S n) (mmap_tag num t) /\ tbuf (mmap_tag num t) = tbuf t.
Proof.
  intros Hwf Hnum. unfold mmap_tag.
  destruct (0 <? num) eqn:Hpos.
  - apply Z.ltb_lt in Hpos. split; [|reflexivity].
    unfold tag_advance. simpl.
    set (size := u32 (sizeof_multiboot_tag_mmap_t + num * sizeof_multiboot_mmap_entry_t)).
    assert (Hs : 8 <= size <= 2^32 - 16).
    { subst size. unfold u32, sizeof_multiboot_tag_mmap_t, sizeof_multiboot_mmap_entry_t.
      rewrite Z.mod_small; lia. }
    apply header_wf with (ty := MULTIBOOT_TAG_TYPE_MMAP); try assumption.
    + discriminate.
    + intros a Ha. rewrite !store_other by lia. reflexivity.
    + rewrite !store_other by lia. apply store_same.
    + apply store_same.
  - split; [|reflexivity]. apply wf_mono with n; [lia|].
    apply scribble_wf; [assumption|].
    intros a Ha. simpl. rewrite !store_other by lia. reflexivity.
Qed.

Lemma systables_tags_wf l : forall n t,
  Forall systable_ok l -> wf n t ->
  wf (n + List.length l) (systables_tags l t) /\
  tbuf (systables_tags l t) = tbuf t.
Proof.
  induction l as [|s l IH]; intros n t Hok Hwf; simpl.
  - split; [|reflexivity]. now rewrite Nat.add_0_r.
  - inversion Hok as [|? ? Hs Hl]; subst.
    assert (Hstep : wf (S n) (systable_tag s t) /\ tbuf (systable_tag s t) = tbuf t).
    { destruct s; cbn [systable_tag systable_ok] in *; apply emit_tag_wf;
        try assumption; try discriminate;
        unfold sizeof_multiboot_tag_smbios_t, sizeof_multiboot_tag_acpi_t,
               sizeof_rsdp_t; lia. }
    destruct Hstep as [Hwf' Hb].
    destruct (IH (S n) (systable_tag s t) Hl Hwf') as [Hwf'' Hb'].
    unfold systables_tags in *. split; [|congruence].
    replace (n + S (List.length l))%nat with (S n + List.length l)%nat by lia.
    exact Hwf''.
Qed.

Lemma fw_loadmodules_tags_wf bi : forall n t,
  Forall small (bi_modules bi) -> wf n t ->
  wf (n + List.length (bi_modules bi)) (fw_loadmodules_tags bi t) /\
  tbuf (fw_loadmodules_tags bi t) = tbuf t.
Proof.
  unfold fw_loadmodules_tags.
  induction (bi_modules bi) as [|len l IH]; intros n t Hok Hwf; cbn [fold_left].
  - split; [|reflexivity]. now rewrite Nat.add_0_r.
  - inversion Hok as [|? ? Hs Hl]; subst. unfold small in Hs.
    destruct (emit_tag_wf n t MULTIBOOT_TAG_TYPE_MODULE
                (sizeof_multiboot_tag_module_t + len + 1) Hwf)
      as [Hwf' Hb]; [discriminate | unfold sizeof_multiboot_tag_module_t; lia |].
    destruct (IH (S n) _ Hl Hwf') as [Hwf'' Hb'].
    split; [|now rewrite Hb', Hb].
    replace (n + List.length (len :: l))%nat with (S n + List.length l)%nat
      by (simpl; lia).
    exact Hwf''.
Qed.

Lemma fw_loadsetup_tags_wf bi tags_buf m :
  boot_info_ok bi ->
  let t := fw_loadsetup_tags bi tags_buf m in
  wf (3 + List.length (bi_systables bi)) t /\ tbuf t = tags_buf.
Proof.
  intros (Hcmd & Hsys & Hnum & _). unfold fw_loadsetup_tags.
  set (t0 := {| tmem := store (store m tags_buf 0) (tags_buf + 4) 0;
                tbuf := tags_buf;
                tags_ptr := tags_buf + sizeof_multiboot_info_t |}).
  assert (H0 : wf 0 t0).
  { exists []. simpl. repeat split; try lia; try constructor.
    unfold sizeof_multiboot_info_t.
    replace (tags_buf + 8 - tags_buf) with 8 by lia. reflexivity. }
  destruct (emit_tag_wf 0 t0 MULTIBOOT_TAG_TYPE_BOOT_LOADER_NAME
              (if bi_bkp bi then 28 else 19) H0) as [H1 B1];
    [discriminate | destruct (bi_bkp bi); lia |].
  set (t1 := emit_tag MULTIBOOT_TAG_TYPE_BOOT_LOADER_NAME
               (if bi_bkp bi then 28 else 19) t0) in *.
  assert (H2 : exists t2,
             t2 = match bi_cmdline bi with
                  | Some len => emit_tag MULTIBOOT_TAG_TYPE_CMDLINE (9 + len) t1
                  | None => t1
                  end /\ wf 2 t2 /\ tbuf t2 = tags_buf).
  { eexists. split; [reflexivity|].
    destruct (bi_cmdline bi) as [len|] eqn:Hc.
    - specialize (Hcmd len eq_refl). unfold small in Hcmd.
      destruct (emit_tag_wf 1 t1 MULTIBOOT_TAG_TYPE_CMDLINE (9 + len) H1)
        as [H B]; [discriminate | lia |].
      split; [exact H | now rewrite B, B1].
    - split; [apply wf_mono with 1%nat; [lia | exact H1] | exact B1]. }
  destruct H2 as (t2 & -> & H2 & B2).
  match goal with
  | |- context [systables_tags _ ?t] =>
      destruct (systables_tags_wf (bi_systables bi) 2 t Hsys H2) as [H3 B3]
  end.
  destruct (bi_ST bi).
  - split; [apply wf_mono with (2 + List.length (bi_systables bi))%nat;
            [lia | exact H3] | now rewrite B3].
  - match goal with
    | |- context [mmap_tag _ ?t] =>
        destruct (mmap_tag_wf _ t (bi_num_memmap bi) H3 Hnum) as [H4 B4]
    end.
    split; [exact H4 | now rewrite B4, B3].
Qed.

(** A kernel that walks a well-formed list closed by a terminator meets
    exactly its tags, then the terminator. *)
Lemma mbi_walk_chain m tags : forall fuel p0 p base,
  chain m p0 tags p -> Forall (tag_ok base) tags ->
  m p = MULTIBOOT_TAG_TYPE_END ->
  (List.length tags < fuel)%nat ->
  mbi_walk fuel m p0 = Some (tags ++ [(p, MULTIBOOT_TAG_TYPE_END, m (p + 4))]).
Proof.
  induction tags as [|[[a ty] size] tags IH]; intros fuel p0 p base Hch Hok Hend Hf;
    (destruct fuel as [|fuel]; [simpl in Hf; lia|]); cbn [mbi_walk chain] in *.
  - subst p0. rewrite Hend. reflexivity.
  - destruct Hch as (-> & Hty & Hsz & Hs & Hch).
    inversion Hok as [|? ? [Hne _] Hok']; subst. simpl in Hne.
    apply Z.eqb_neq in Hne. rewrite Hne.
    rewrite (IH fuel _ p base Hch Hok' Hend) by (simpl in Hf; lia).
    reflexivity.
Qed.

(** The tags [fw_fini] adds before the terminator. *)
Lemma fw_fini_tags_wf bi t n :
  boot_info_ok bi -> wf n t ->
  exists t',
    fw_fini_tags bi t
    = (let t := emit_tag MULTIBOOT_TAG_TYPE_END 8 t' in
       {| tmem := store (tmem t) (tbuf t) (u32 (tags_ptr t - tbuf t));
          tbuf := tbuf t; tags_ptr := tags_ptr t |}) /\
    wf (n + 7) t' /\ tbuf t' = tbuf t.
Proof.
  intros (_ & _ & _ & _ & Hedid & Hefi) Hwf. unfold fw_fini_tags.
  (* framebuffer *)
  assert (H1 : exists t1,
             t1 = (if bi_framebuffer bi
                   then emit_tag MULTIBOOT_TAG_TYPE_FRAMEBUFFER
                          sizeof_multiboot_tag_framebuffer_t t
                   else t) /\ wf (n + 1) t1 /\ tbuf t1 = tbuf t).
  { eexists. split; [reflexivity|]. destruct (bi_framebuffer bi).
    - destruct (emit_tag_wf n t MULTIBOOT_TAG_TYPE_FRAMEBUFFER
                  sizeof_multiboot_tag_framebuffer_t Hwf) as [H B];
        [discriminate | unfold sizeof_multiboot_tag_framebuffer_t; lia |].
      split; [apply wf_mono with (S n); [lia | exact H] | exact B].
    - split; [apply wf_mono with n; [lia | exact Hwf] | reflexivity]. }
  destruct H1 as (t1 & <- & H1 & B1).
  (* EDID *)
  assert (H2 : exists t2,
             t2 = match bi_edid bi with
                  | Some i => tag_advance (i + 8)
                                (tag_header MULTIBOOT_TAG_TYPE_EDID (u32 (i + 8)) t1)
                  | None => t1
                  end /\ wf (n + 2) t2 /\ tbuf t2 = tbuf t).
  { eexists. split; [reflexivity|]. destruct (bi_edid bi) as [i|] eqn:He.
    - specialize (Hedid i eq_refl).
      assert (Hu : u32 (i + 8) = i + 8) by (unfold u32; apply Z.mod_small; lia).
      rewrite Hu. unfold tag_advance, tag_header. simpl. split; [|exact B1].
      replace (n + 2)%nat with (S (n + 1)) by lia.
      apply header_wf with (ty := MULTIBOOT_TAG_TYPE_EDID); try assumption.
      + discriminate.
      + lia.
      + intros a Ha. rewrite !store_other by lia. reflexivity.
      + rewrite store_other by lia. apply store_same.
      + apply store_same.
    - split; [apply wf_mono with (n + 1)%nat; [lia | exact H1] | exact B1]. }
  destruct H2 as (t2 & <- & H2 & B2).
  (* SMP *)
  assert (H3 : exists t3,
             t3 = (if bi_smp bi
                   then emit_tag MULTIBOOT_TAG_TYPE_SMP sizeof_multiboot_tag_smp_t t2
                   else t2) /\ wf (n + 3) t3 /\ tbuf t3 = tbuf t).
  { eexists. split; [reflexivity|]. destruct (bi_smp bi).
    - destruct (emit_tag_wf _ t2 MULTIBOOT_TAG_TYPE_SMP sizeof_multiboot_tag_smp_t H2)
        as [H B]; [discriminate | unfold sizeof_multiboot_tag_smp_t; lia |].
      split; [apply wf_mono with (S (n + 2)); [lia | exact H] | now rewrite B]. 
    - split; [apply wf_mono with (n + 2)%nat; [lia | exact H2] | exact B2]. }
  destruct H3 as (t3 & <- & H3 & B3).
  (* partition UUIDs *)
  destruct (emit_tag_wf _ t3 MULTIBOOT_TAG_TYPE_PARTUUID 24 H3) as [H4 B4];
    [discriminate | lia |].
  set (t4 := emit_tag MULTIBOOT_TAG_TYPE_PARTUUID 24 t3) in *.
  (* UEFI *)
  destruct (bi_ST bi).
  - destruct (mmap_tag_wf _ t4 (bi_efi_num_memmap bi) H4 Hefi) as [H5 B5].
    destruct (emit_tag_wf _ _ MULTIBOOT_TAG_TYPE_EFI64 16 H5) as [H6 B6];
      [discriminate | lia |].
    destruct (emit_tag_wf _ _ MULTIBOOT_TAG_TYPE_EFI64_IH 16 H6) as [H7 B7];
      [discriminate | lia |].
    eexists. split; [reflexivity|]. split.
    + apply wf_mono with (S (S (S (S (n + 3))))); [lia | exact H7].
    + now rewrite B7, B6, B5, B4.
  - exists t4. split; [reflexivity|]. split.
    + apply wf_mono with (S (n + 3)); [lia | exact H4].
    + now rewrite B4.
Qed.

(** C5: a kernel that walks the list [fw_fini] leaves in the tag buffer
    meets tags that all start on an 8-byte boundary of the buffer and have
    a type other than 0, then the terminator of type 0 and size 8, and the
    header's [total_size] is the offset of the terminator plus 8.  The
    sizes are taken to be 32-bit quantities and the list to fit the
    [TAGS_MAX] pages of the buffer. *)
Theorem mbi_tag_list_well_formed (bi : boot_info) (tags_buf : Z) (m : mem) :
  boot_info_ok bi ->
  tags_ptr (build_mbi bi tags_buf m) - tags_buf <= TAGS_MAX * 4096 ->
  let t := build_mbi bi tags_buf m in
  exists tags endp,
    mbi_walk (max_tags bi) (tmem t) (tags_buf + 8)
      = Some (tags ++ [(endp, MULTIBOOT_TAG_TYPE_END, 8)]) /\
    tmem t tags_buf = endp - tags_buf + 8 /\
    Forall (tag_ok tags_buf) tags /\
    (endp - tags_buf) mod 8 = 0 /\
    (tags_buf mod 8 = 0 ->
     endp mod 8 = 0 /\ Forall (fun tag => fst (fst tag) mod 8 = 0) tags).
Proof.
  intros Hok Hfit t. subst t. unfold build_mbi in *.
  destruct (fw_loadsetup_tags_wf bi tags_buf m Hok) as [H1 B1].
  destruct (fw_loadmodules_tags_wf bi _ _ (proj1 (proj2 (proj2 (proj2 Hok)))) H1)
    as [H2 B2].
  destruct (fw_fini_tags_wf bi _ _ Hok H2) as (t' & Heq & H3 & B3).
  rewrite Heq in *. clear Heq.
  assert (Hb : tbuf t' = tags_buf) by congruence.
  destruct H3 as (tags & Hlen & Hch & Htok & Hal).
  rewrite Hb in *.
  cbn [emit_tag tag_advance tag_header tmem tbuf tags_ptr] in *.
  rewrite Hb in *.
  change (u32 8) with 8 in *.
  change (tag_stride 8) with 8 in *.
  pose proof (chain_le _ _ _ _ Hch) as Hle.
  exists tags, (tags_ptr t').
  assert (Htot : u32 (tags_ptr t' + 8 - tags_buf) = tags_ptr t' - tags_buf + 8).
  { unfold u32. rewrite Z.mod_small; [lia|]. unfold TAGS_MAX in Hfit. lia. }
  split; [|split; [|split; [|split]]].
  - erewrite mbi_walk_chain with (p := tags_ptr t') (base := tags_buf).
    + rewrite store_other by lia. rewrite store_same. reflexivity.
    + eapply chain_frame; [exact Hch|]. intros a Ha.
      rewrite !store_other by lia. reflexivity.
    + exact Htok.
    + rewrite !store_other by lia. apply store_same.
    + unfold max_tags. lia.
  - rewrite store_same. exact Htot.
  - exact Htok.
  - exact Hal.
  - intros Hbase. split.
    + replace (tags_ptr t') with ((tags_ptr t' - tags_buf) + tags_buf) by lia.
      rewrite Z.add_mod, Hal, Hbase by lia. reflexivity.
    + eapply Forall_impl; [|exact Htok]. intros [[a ty] size] [_ Ha]. simpl in *.
      replace a with ((a - tags_buf) + tags_buf) by lia.
      rewrite Z.add_mod, Ha, Hbase by lia. reflexivity.
Qed.

Lemma boot_info0_ok : boot_info_ok boot_info0.
Proof.
  unfold boot_info_ok, boot_info0, small. cbn.
  repeat split; intros;
    try match goal with
        | H : Some _ = Some _ |- _ => injection H as <-
        end;
    try lia;
    repeat constructor; cbn; lia.
Qed.

Lemma mbi_tag_list_well_formed_witness :
  exists tags endp,
    mbi_walk (max_tags boot_info0)
      (tmem (build_mbi boot_info0 131072 (fun _ => 0))) (131072 + 8)
      = Some (tags ++ [(endp, MULTIBOOT_TAG_TYPE_END, 8)]) /\
    tmem (build_mbi boot_info0 131072 (fun _ => 0)) 131072 = endp - 131072 + 8 /\
    Forall (tag_ok 131072) tags.
Proof.
  destruct (mbi_tag_list_well_formed boot_info0 131072 (fun _ => 0))
    as (tags & endp & H1 & H2 & H3 & _).
  - exact boot_info0_ok.
  - vm_compute. discriminate.
  - exists tags, endp. repeat split; assumption.
Defined.

(** The list of that boot, as a kernel reads it. *)
Example mbi_walk_example :
  mbi_walk (max_tags boot_info0)
    (tmem (build_mbi boot_info0 131072 (fun _ => 0))) (131072 + 8)
  = Some [ (131080, 2, 19); (131104, 1, 23); (131128, 13, 47); (131176, 15, 44);
           (131224, 6, 184); (131408, 3, 23); (131432, 3, 28); (131464, 8, 40);
           (131504, 256, 136); (131640, 257, 20); (131664, 258, 24);
           (131688, 0, 8) ] /\
  tmem (build_mbi boot_info0 131072 (fun _ => 0)) 131072 = 624.
Proof. split; vm_compute; reflexivity. Qed.

(** ** The ACPI patch *)

Lemma checksum_loop_sum m n : forall a s,
  checksum_loop m a n s mod 256 = (s + sum_bytes m a n) mod 256.
Proof.
  induction n as [|n IH]; intros a s; simpl.
  - now rewrite Z.add_0_r.
  - rewrite IH. unfold u8. change (2 ^ 8) with 256.
    rewrite Z.add_mod, Z.mod_mod, <- Z.add_mod by lia.
    f_equal. lia.
Qed.

Lemma checksum_loop_range m n : forall a s,
  0 <= s < 256 -> 0 <= checksum_loop m a n s < 256.
Proof.
  induction n as [|n IH]; intros a s Hs; simpl.
  - exact Hs.
  - apply IH. unfold u8. apply Z.mod_pos_bound. lia.
Qed.

Lemma sum_bytes_store m x v n : forall a,
  a <= x < a + Z.of_nat n ->
  sum_bytes (store m x v) a n = sum_bytes m a n - m x + v.
Proof.
  induction n as [|n IH]; intros a Hx; [lia|].
  cbn [sum_bytes].
  destruct (Z.eq_dec a x) as [->|Hne].
  - rewrite store_same.
    assert (Hrest : forall k b, x < b -> sum_bytes (store m x v) b k = sum_bytes m b k).
    { induction k as [|k IHk]; intros b Hb; cbn [sum_bytes]; [reflexivity|].
      rewrite store_other by lia. rewrite IHk by lia. reflexivity. }
    rewrite Hrest by lia. lia.
  - rewrite store_other by lia. rewrite IH by lia. lia.
Qed.

(** After the patch the bytes of the table, over the length its header
    declares, add up to 0 modulo 256, for every table long enough to hold
    its own checksum byte. *)
Lemma fadt_patch_checksum m fadt dsdt_ptr :
  let m' := fadt_patch m fadt dsdt_ptr in
  let size := rd32 m' (fadt + hdr_size) in
  hdr_chksum < size < 2^31 ->
  sum_bytes m' fadt (Z.to_nat size) mod 256 = 0.
Proof.
  unfold fadt_patch.
  set (m1 := wr32 m (fadt + fadt_dsdt) dsdt_ptr).
  set (m2 := if (2 <=? rd8 m1 (fadt + hdr_rev))
                && (sizeof_fadt_t <? rd32 m1 (fadt + hdr_size))
             then wr64 m1 (fadt + fadt_x_dsdt) dsdt_ptr else m1).
  set (m3 := wr8 m2 (fadt + hdr_chksum) 0).
  cbv zeta.
  assert (Hsz : forall v, rd32 (wr8 m3 (fadt + hdr_chksum) v) (fadt + hdr_size)
                          = rd32 m3 (fadt + hdr_size)).
  { intros v. unfold rd32, wr8, hdr_chksum, hdr_size.
    rewrite !store_other by lia. reflexivity. }
  rewrite Hsz. set (size := rd32 m3 (fadt + hdr_size)). intros Hs.
  unfold int_of_u32. destruct (size <? 2 ^ 31) eqn:E; [|apply Z.ltb_ge in E; lia].
  set (s := checksum_loop m3 fadt (Z.to_nat size) 0).
  unfold wr8 at 1. rewrite sum_bytes_store by (unfold hdr_chksum in *; lia).
  assert (H0 : m3 (fadt + hdr_chksum) = 0).
  { subst m3. unfold wr8. rewrite store_same. reflexivity. }
  rewrite H0.
  pose proof (checksum_loop_sum m3 (Z.to_nat size) fadt 0) as Hsum.
  pose proof (checksum_loop_range m3 (Z.to_nat size) fadt 0 ltac:(lia)) as Hr.
  fold s in Hsum, Hr. rewrite Z.add_0_l in Hsum.
  rewrite Z.mod_small in Hsum by lia.
  unfold u8. change (2 ^ 8) with 256.
  rewrite Z.sub_0_r, Z.add_mod_idemp_r by lia.
  rewrite Hsum.
  pose proof (Z.div_mod (sum_bytes m3 fadt (Z.to_nat size)) 256 ltac:(lia)).
  replace (sum_bytes m3 fadt (Z.to_nat size)
           + (256 - sum_bytes m3 fadt (Z.to_nat size) mod 256))
    with ((sum_bytes m3 fadt (Z.to_nat size) / 256 + 1) * 256) by lia.
  apply Z.mod_mul. lia.
Qed.

(** C6 at the failing table: the FADT the loader itself fabricates on
    FOSSBIOS has revision 2 and is exactly [sizeof(fadt_t)] = 148 bytes
    long, so its [x_dsdt] field, at bytes 140 to 147, is present.  After
    the patch [dsdt] points at the replacement and the checksum is right,
    but [x_dsdt] still points at the firmware's table. *)
Lemma fadt_patch_skips_x_dsdt_at_148 :
  let m := fossbios_mem in
  let m' := acpi_patch m 28672 gudt_module in
  rd8 m (28928 + hdr_rev) = 2 /\
  rd32 m (28928 + hdr_size) = sizeof_fadt_t /\
  rd64 m (28928 + fadt_x_dsdt) = 983040 /\
  rd32 m' (28928 + fadt_dsdt) = gudt_module /\
  sum_bytes m' 28928 148 mod 256 = 0 /\
  rd64 m' (28928 + fadt_x_dsdt) = 983040 /\
  rd64 m' (28928 + fadt_x_dsdt) <> gudt_module.
Proof.
  cbv zeta. repeat split; try (vm_compute; reflexivity).
  vm_compute. discriminate.
Qed.

(** A table one byte longer has the field rewritten. *)
Example fadt_patch_x_dsdt_at_149 :
  let m := wr32 fossbios_mem (28928 + hdr_size) 149 in
  rd64 (acpi_patch m 28672 gudt_module) (28928 + fadt_x_dsdt) = gudt_module.
Proof. vm_compute. reflexivity. Qed.

(** ** The Linux boot protocol *)

Lemma rd16_wr16 m a v : 0 <= v < 65536 -> rd16 (wr16 m a v) a = v.
Proof.
  intros Hv. unfold rd16, wr16, u16. rewrite Z.mod_small by lia.
  rewrite !store_bytes_get by (rewrite le_bytes_length; lia).
  rewrite Z.sub_diag. replace (a + 1 - a) with 1 by lia.
  change (nth (Z.to_nat 0) (le_bytes 2 v) 0) with ((v / 256 ^ 0) mod 256).
  change (nth (Z.to_nat 1) (le_bytes 2 v) 0) with ((v / 256 ^ 1) mod 256).
  change (256 ^ 0) with 1. change (256 ^ 1) with 256.
  rewrite Z.div_1_r.
  rewrite (Z.mod_small (v / 256))
    by (split; [apply Z.div_pos | apply Z.div_lt_upper_bound]; lia).
  pose proof (Z.div_mod v 256 ltac:(lia)). lia.
Qed.

Lemma rd16_frame m m' a lo hi :
  unchanged_outside m m' lo hi -> (a + 1 < lo \/ hi <= a) ->
  rd16 m' a = rd16 m a.
Proof.
  intros H Ha. unfold rd16. rewrite !H by lia. reflexivity.
Qed.

(** The four fields of the zero page the Linux branch sets itself. *)
Lemma linux_fill_zero_page_fields kernel_buf cmdline zero_page m :
  let zp := linux_fill_zero_page kernel_buf cmdline zero_page m in
  rd8 zp (zero_page + off_type_of_loader) = 255 /\
  rd16 zp (zero_page + off_root_dev) = 256 /\
  rd16 zp (zero_page + off_root_flags) = 1 /\
  rd16 zp (zero_page + off_vid_mode) = 65535.
Proof.
  unfold linux_fill_zero_page.
  set (m1 := store_bytes (zero_range m zero_page sizeof_linux_boot_params_t) _ _).
  set (m2 := wr16 m1 (zero_page + off_root_dev) 256).
  set (m3 := wr16 m2 (zero_page + off_root_flags) 1).
  set (m4 := wr16 m3 (zero_page + off_vid_mode) 65535).
  set (m5 := wr8 m4 (zero_page + off_type_of_loader) 255).
  assert (H5 : rd8 m5 (zero_page + off_type_of_loader) = 255
               /\ rd16 m5 (zero_page + off_root_dev) = 256
               /\ rd16 m5 (zero_page + off_root_flags) = 1
               /\ rd16 m5 (zero_page + off_vid_mode) = 65535).
  { unfold off_type_of_loader, off_root_dev, off_root_flags, off_vid_mode in *.
    assert (F5 : forall a, a <> zero_page + 528 -> m5 a = m4 a)
      by (intros a Ha; subst m5; unfold wr8; now rewrite store_other).
    assert (F4 : unchanged_outside m3 m4 (zero_page + 506) (zero_page + 506 + 2))
      by (subst m4; unfold wr16; apply store_bytes_frame).
    assert (F3 : unchanged_outside m2 m3 (zero_page + 498) (zero_page + 498 + 2))
      by (subst m3; unfold wr16; apply store_bytes_frame).
    repeat split.
    - subst m5. unfold rd8, wr8. rewrite store_same. reflexivity.
    - unfold rd16. rewrite !F5 by lia.
      rewrite !F4 by lia. rewrite !F3 by lia.
      apply (rd16_wr16 m1 (zero_page + 508) 256). lia.
    - unfold rd16. rewrite !F5 by lia.
      rewrite !F4 by lia.
      apply (rd16_wr16 m2 (zero_page + 498) 1). lia.
    - unfold rd16. rewrite !F5 by lia.
      apply (rd16_wr16 m3 (zero_page + 506) 65535). lia. }
  cbv zeta. destruct cmdline as [c|]; [|exact H5].
  unfold off_type_of_loader, off_root_dev, off_root_flags, off_vid_mode,
    off_cmd_line_ptr, sizeof_linux_boot_params_t in *.
  set (m6 := wr32 m5 (zero_page + 552) (zero_page + 4096)).
  assert (F6 : unchanged_outside m5 m6 (zero_page + 552) (zero_page + 552 + 4))
    by (subst m6; unfold wr32; apply store_bytes_frame).
  set (bytes := cmdline_chars (Z.to_nat 32767) c ++ [0]).
  pose proof (store_bytes_frame bytes m6 (zero_page + 4096)) as F7.
  destruct H5 as (Ha & Hb & Hc & Hd).
  unfold rd8, rd16 in *.
  repeat split; rewrite !F7 by lia; rewrite !F6 by lia; assumption.
Qed.

Lemma nth_set_nth l : forall i j v,
  nth j (set_nth l i v) 0 = if (j =? i)%nat && (i <? List.length l)%nat
                            then v else nth j l 0.
Proof.
  induction l as [|h l IH]; intros i j v.
  - simpl. rewrite andb_false_r. reflexivity.
  - destruct i as [|i], j as [|j]; simpl; try reflexivity.
    rewrite IH. reflexivity.
Qed.

Lemma at_upd l i j v :
  0 <= i -> 0 <= j ->
  at_ (upd l i v) j
  = if (j =? i) && (i <? Z.of_nat (List.length l)) then v else at_ l j.
Proof.
  intros Hi Hj. unfold at_, upd.
  destruct (i <? 0) eqn:Ei; [apply Z.ltb_lt in Ei; lia|].
  destruct (j <? 0) eqn:Ej; [apply Z.ltb_lt in Ej; lia|].
  rewrite nth_set_nth.
  destruct (j =? i) eqn:E.
  - apply Z.eqb_eq in E. subst j. rewrite Nat.eqb_refl. simpl.
    destruct (i <? Z.of_nat (List.length l)) eqn:El.
    + apply Z.ltb_lt in El.
      assert (H : (Z.to_nat i <? List.length l)%nat = true)
        by (apply Nat.ltb_lt; lia).
      now rewrite H.
    + apply Z.ltb_ge in El.
      assert (H : (Z.to_nat i <? List.length l)%nat = false)
        by (apply Nat.ltb_ge; lia).
      now rewrite H.
  - apply Z.eqb_neq in E.
    assert (H : (Z.to_nat j =? Z.to_nat i)%nat = false)
      by (apply Nat.eqb_neq; lia).
    now rewrite H.
Qed.

Lemma starts_with_length l : forall p,
  starts_with l p = true -> (List.length l <= List.length p)%nat.
Proof.
  induction l as [|c l IH]; intros p H; simpl in *; [lia|].
  destruct p as [|d p]; [discriminate|].
  apply andb_true_iff in H. destruct H as [_ H]. apply IH in H. simpl. lia.
Qed.

Lemma fix_setup_sects_fields kernel_buf :
  linux_detected kernel_buf = true ->
  le32 (fix_setup_sects kernel_buf) off_init_size = le32 kernel_buf off_init_size /\
  le64 (fix_setup_sects kernel_buf) off_pref_address
    = le64 kernel_buf off_pref_address /\
  at_ (fix_setup_sects kernel_buf) off_setup_sects
    = (if at_ kernel_buf off_setup_sects =? 0 then 4
       else at_ kernel_buf off_setup_sects).
Proof.
  intros Hdet. unfold linux_detected in Hdet.
  apply andb_true_iff in Hdet. destruct Hdet as [_ Hmagic].
  apply starts_with_length in Hmagic.
  unfold skipz in Hmagic. rewrite length_skipn in Hmagic.
  unfold off_header in Hmagic. simpl List.length in Hmagic.
  assert (Hlen : 518 <= Z.of_nat (List.length kernel_buf)) by lia.
  unfold fix_setup_sects, le64, le32, off_init_size, off_pref_address,
    off_setup_sects.
  destruct (at_ kernel_buf 497 =? 0) eqn:E; [|repeat split].
  rewrite !at_upd by lia. simpl.
  assert (H497 : (497 <? Z.of_nat (List.length kernel_buf)) = true)
    by (apply Z.ltb_lt; lia).
  rewrite H497. repeat split.
Qed.

(** C4, as the code has it.  For an image with the boot-protocol header
    of a supported version that fits below 4 GiB, once the zero page is
    there and the segment loads, the Linux branch ends with
    [type_of_loader] 0xFF, [root_dev] 0x100, [root_flags] 1 and [vid_mode]
    0xFFFF in the zero page; the image was asked of [fw_loadseg] from file
    offset [(setup_sects + 1) * 512], [setup_sects] taken as 4 when the
    header has 0, for [pref_address] with [init_size] as both file and
    memory size; and the entry point is [pref_address + 512]. *)
Theorem linux_boot_protocol_setup
    ST pt ea env kernel_buf cmdline zero_page m st zp st1 st2 ops :
  linux_detected kernel_buf = true ->
  linux_unsupported env kernel_buf = false ->
  linux_zero_page ST ea cmdline zero_page st = (zp, st1) ->
  zp <> 0 ->
  fw_loadseg ST pt ea env
    ((at_ (fix_setup_sects kernel_buf) off_setup_sects + 1) * 512)
    (le32 kernel_buf off_init_size) (le64 kernel_buf off_pref_address)
    (le32 kernel_buf off_init_size) st1 = Some (1, st2, ops) ->
  let mem := linux_fill_zero_page (fix_setup_sects kernel_buf) cmdline zp m in
  fw_loadkernel_linux ST pt ea env kernel_buf cmdline zero_page m st
    = Some (LinuxLoaded MODE_LIN 0 zp mem
              (u64 (le64 kernel_buf off_pref_address + 512)) st2 ops) /\
  rd8 mem (zp + off_type_of_loader) = 255 /\
  rd16 mem (zp + off_root_dev) = 256 /\
  rd16 mem (zp + off_root_flags) = 1 /\
  rd16 mem (zp + off_vid_mode) = 65535 /\
  at_ (fix_setup_sects kernel_buf) off_setup_sects
    = (if at_ kernel_buf off_setup_sects =? 0 then 4
       else at_ kernel_buf off_setup_sects).
Proof.
  intros Hdet Hsup Hzp Hnz Hseg mem.
  destruct (fix_setup_sects_fields kernel_buf Hdet) as (H32 & H64 & Hss).
  split; [|split; [|split; [|split; [|split]]]];
    try apply linux_fill_zero_page_fields; [|exact Hss].
  unfold fw_loadkernel_linux. rewrite Hdet, Hsup, Hzp.
  apply Z.eqb_neq in Hnz. rewrite Hnz.
  rewrite H32, H64, Hseg. reflexivity.
Qed.

Lemma linux_boot_protocol_setup_witness :
  zero_page_u8 linux_boot0 off_type_of_loader = Some 255 /\
  zero_page_u16 linux_boot0 off_root_dev = Some 256 /\
  zero_page_u16 linux_boot0 off_vid_mode = Some 65535 /\
  entry_of linux_boot0 = Some (1048576 + 512).
Proof.
  destruct (fw_loadseg false 4096 no_allocpages seg_env0
              ((at_ (fix_setup_sects bzimage0) off_setup_sects + 1) * 512)
              (le32 bzimage0 off_init_size) (le64 bzimage0 off_pref_address)
              (le32 bzimage0 off_init_size) bios_state0)
    as [[[r st2] ops]|] eqn:Hseg; [|vm_compute in Hseg; discriminate].
  assert (Hr : r = 1).
  { assert (H : seg_result (fw_loadseg false 4096 no_allocpages seg_env0
              ((at_ (fix_setup_sects bzimage0) off_setup_sects + 1) * 512)
              (le32 bzimage0 off_init_size) (le64 bzimage0 off_pref_address)
              (le32 bzimage0 off_init_size) bios_state0) = Some 1)
      by (vm_compute; reflexivity).
    rewrite Hseg in H. simpl in H. congruence. }
  subst r.
  destruct (linux_boot_protocol_setup false 4096 no_allocpages seg_env0 bzimage0
              (Some (lit "root=/dev/sda1")) 0 (fun _ => 0) bios_state0
              589824 bios_state0 st2 ops)
    as (Hrun & H1 & H2 & _ & H4 & _).
  - vm_compute. reflexivity.
  - vm_compute. reflexivity.
  - reflexivity.
  - discriminate.
  - exact Hseg.
  - unfold linux_boot0. rewrite Hrun.
    unfold zero_page_u8, zero_page_u16, entry_of.
    rewrite H1, H2, H4. repeat split.
Defined.

(** C4, as stated, fails at [vid_mode]: the image asks for 0xFFFD in its
    header, the Linux branch leaves 0xFFFF in the zero page.  The other
    fields and the entry point are as the claim has them, and the image is
    read from file offset (4 + 1) * 512 for 4 MiB to the preferred
    address. *)
Lemma linux_vid_mode_is_ffff :
  le16 bzimage0 off_vid_mode = VIDEO_MODE_ASK /\
  zero_page_u16 linux_boot0 off_vid_mode = Some 65535 /\
  zero_page_u16 linux_boot0 off_vid_mode <> Some VIDEO_MODE_ASK /\
  zero_page_u8 linux_boot0 off_type_of_loader = Some 255 /\
  zero_page_u16 linux_boot0 off_root_dev = Some 256 /\
  zero_page_u16 linux_boot0 off_root_flags = Some 1 /\
  entry_of linux_boot0 = Some (1048576 + 512) /\
  ops_of linux_boot0 = [OpRead 2560 4194304 1048576].
Proof.
  repeat split; try (vm_compute; reflexivity).
  vm_compute. discriminate.
Qed.

(** * Properties of the rest of the loader *)

(** ** Numbers: [getint], [gethex] and [printf] *)

Lemma getint_from_digits rest :
  is_digit (deref rest) = false ->
  forall ds acc acc',
  Forall (fun c => is_digit c = true) ds ->
  acc = u32 acc' ->
  getint_from acc (ds ++ rest)
  = (rest, u32 (fold_left (fun a c => a * 10 + (c - ch "0")) ds acc')).
Proof.
  intros Hrest. induction ds as [|c ds IH]; intros acc acc' Hds Hacc.
  - cbn [app fold_left]. subst acc.
    destruct rest as [|r rest']; [reflexivity|].
    cbn [getint_from]. unfold is_digit, deref in Hrest. cbn [hd] in Hrest.
    rewrite Hrest. reflexivity.
  - inversion Hds as [|? ? Hc Hds']; subst.
    cbn [app getint_from fold_left]. unfold is_digit in Hc. rewrite Hc.
    apply IH; [assumption|].
    unfold u32. rewrite Z.add_mod_idemp_l by lia.
    rewrite <- Z.add_mod_idemp_l by lia.
    rewrite Z.mul_mod_idemp_l by lia.
    rewrite Z.add_mod_idemp_l by lia. reflexivity.
Qed.

(** X1.  [getint] reads the whole run of decimal digits and stops at the first
    other character; the value is the decimal number modulo 2^32, so a
    number that does not fit 32 bits wraps around and is not refused. *)
Theorem getint_reads_decimal ds rest :
  Forall (fun c => is_digit c = true) ds ->
  is_digit (deref rest) = false ->
  getint (ds ++ rest) = (rest, decimal_value ds mod 2^32).
Proof.
  intros Hds Hrest. unfold getint, decimal_value.
  now rewrite (getint_from_digits rest Hrest ds 0 0 Hds eq_refl).
Qed.

Lemma getint_reads_decimal_witness :
  getint (lit "4294967301 32") = (lit " 32", 5).
Proof.
  apply (getint_reads_decimal (lit "4294967301") (lit " 32")).
  - repeat constructor.
  - reflexivity.
Defined.

(** *** The digits [%d] prints *)

Lemma fold_digits_app (ds1 ds2 : list Z) acc :
  fold_left (fun a c => a * 10 + (c - ch "0")) (ds1 ++ ds2) acc
  = fold_left (fun a c => a * 10 + (c - ch "0")) ds2
      (fold_left (fun a c => a * 10 + (c - ch "0")) ds1 acc).
Proof. apply fold_left_app. Qed.

Lemma dec_loop_digits : forall i arg tmpstr,
  0 <= arg < 10 ^ Z.of_nat i -> (1 <= i)%nat ->
  exists ds,
    snd (dec_loop i arg tmpstr) = ds ++ tmpstr /\
    Forall (fun c => is_digit c = true) ds /\
    (forall acc, fold_left (fun a c => a * 10 + (c - ch "0")) ds acc
                 = acc * 10 ^ Z.of_nat (List.length ds) + arg) /\
    (1 <= List.length ds <= i)%nat.
Proof.
  induction i as [|i IH]; intros arg tmpstr Harg Hi; [lia|].
  cbn [dec_loop].
  assert (Hq : Z.quot arg 10 = arg / 10) by (apply Z.quot_div_nonneg; lia).
  assert (Hr : Z.rem arg 10 = arg mod 10) by (apply Z.rem_mod_nonneg; lia).
  rewrite Hq, Hr.
  pose proof (Z.mod_pos_bound arg 10 ltac:(lia)) as Hm.
  pose proof (Z.div_mod arg 10 ltac:(lia)) as Hdm.
  assert (Hd : is_digit (u8 (ch "0" + arg mod 10)) = true).
  { unfold is_digit, u8. change (ch "0") with 48. change (ch "9") with 57.
    rewrite Z.mod_small by lia. lia. }
  assert (Hv : u8 (ch "0" + arg mod 10) - ch "0" = arg mod 10).
  { unfold u8. change (ch "0") with 48. rewrite Z.mod_small by lia. lia. }
  destruct (negb (arg / 10 =? 0) && (0 <? i)%nat) eqn:E.
  - apply andb_true_iff in E. destruct E as [E1 E2].
    apply negb_true_iff, Z.eqb_neq in E1. apply Nat.ltb_lt in E2.
    assert (Hlt : 0 <= arg / 10 < 10 ^ Z.of_nat i).
    { split; [apply Z.div_pos; lia|].
      apply Z.div_lt_upper_bound; [lia|].
      replace (Z.of_nat (S i)) with (Z.of_nat i + 1) in Harg by lia.
      rewrite Z.pow_add_r, Z.pow_1_r in Harg by lia. lia. }
    destruct (IH (arg / 10) (u8 (ch "0" + arg mod 10) :: tmpstr) Hlt ltac:(lia))
      as (ds & Hs & Hall & Hval & Hlen).
    exists (ds ++ [u8 (ch "0" + arg mod 10)]).
    refine (conj _ (conj _ (conj _ _))).
    + rewrite Hs, <- app_assoc. reflexivity.
    + apply Forall_app. split; [assumption|]. constructor; [assumption|constructor].
    + intros acc. rewrite fold_digits_app, Hval. cbn [fold_left].
      rewrite Hv, length_app. cbn [List.length].
      replace (Z.of_nat (List.length ds + 1)) with (Z.of_nat (List.length ds) + 1) by lia.
      rewrite Z.pow_add_r, Z.pow_1_r by lia. lia.
    + rewrite length_app. cbn [List.length]. lia.
  - exists [u8 (ch "0" + arg mod 10)]. cbn [snd app List.length fold_left].
    refine (conj _ (conj _ (conj _ _))); [reflexivity| | |].
    + constructor; [assumption|constructor].
    + intros acc. rewrite Hv.
      assert (H0 : arg / 10 = 0).
      { apply andb_false_iff in E. destruct E as [E|E].
        - apply negb_false_iff, Z.eqb_eq in E. exact E.
        - apply Nat.ltb_ge in E. assert (i = 0)%nat by lia. subst i.
          cbn in Harg. apply Z.div_small. lia. }
      change (Z.of_nat 1) with 1. rewrite Z.pow_1_r. lia.
    + lia.
Qed.

Lemma c_string_digits ds :
  Forall (fun c => is_digit c = true) ds -> c_string ds = ds.
Proof.
  induction 1 as [|c ds Hc _ IH]; [reflexivity|].
  cbn [c_string]. rewrite IH.
  unfold is_digit in Hc. change (ch "0") with 48 in Hc.
  destruct (c =? 0) eqn:E; [apply Z.eqb_eq in E; lia|reflexivity].
Qed.

Lemma printf_percent_d m v :
  printf m (lit "%d") [VInt v]
  = match printf_d false 0 v with
    | Some s => Some (c_string s ++ [])
    | None => None
    end.
Proof.
  cbv -[printf_d c_string app]. destruct (printf_d false 0 v); reflexivity.
Qed.

(** X2.  [printf("%d", v)] and [getint] are inverse to each other on the
    non-negative [int] values: what the formatter prints for [v], followed
    by anything that is not a digit, is read back as [v] by [getint], with
    the rest left unread. *)
Theorem printf_d_getint_round_trip (m : bmem) (v : Z) (rest : list Z) :
  0 <= v < 2^31 ->
  is_digit (deref rest) = false ->
  exists s,
    printf m (lit "%d") [VInt v] = Some s /\
    s <> [] /\
    getint (s ++ rest) = (rest, v).
Proof.
  intros Hv Hrest.
  assert (Hi : i32 v = v).
  { unfold i32, int_of_u32, u32. rewrite Z.mod_small by lia.
    destruct (v <? 2 ^ 31) eqn:E; [reflexivity|apply Z.ltb_ge in E; lia]. }
  destruct (dec_loop_digits 18 v [] ltac:(change (10 ^ Z.of_nat 18) with (10^18); lia)
              ltac:(lia)) as (ds & Hs & Hall & Hval & Hlen).
  rewrite app_nil_r in Hs.
  exists ds. split; [|split].
  - rewrite printf_percent_d. unfold printf_d. cbv zeta. rewrite !Hi.
    destruct (v <? 0) eqn:E; [apply Z.ltb_lt in E; lia|].
    destruct (dec_loop 18 v []) as [i tmpstr] eqn:Ed. cbn [snd] in Hs. subst tmpstr.
    change ((0 <? 0) && (0 <? 18)) with false. cbv iota.
    rewrite c_string_digits by assumption. now rewrite app_nil_r.
  - intros ->. cbn [List.length] in Hlen. lia.
  - unfold getint.
    rewrite (getint_from_digits rest Hrest ds 0 0 Hall eq_refl).
    rewrite Hval. unfold u32. rewrite Z.mod_small by lia. reflexivity.
Qed.

Lemma printf_d_getint_round_trip_witness :
  exists s, printf no_mem (lit "%d") [VInt 2147483647] = Some s /\
            s <> [] /\ getint (s ++ lit " MB") = (lit " MB", 2147483647).
Proof.
  apply (printf_d_getint_round_trip no_mem 2147483647 (lit " MB")).
  - lia.
  - reflexivity.
Defined.

(** *** The digits [%x] prints *)

Lemma hexdigit_hexchar n : 0 <= n < 16 -> hexdigit (hexchar n) = Some n.
Proof.
  intros Hn. unfold hexchar, hexdigit, u8.
  change (ch "0") with 48. change (ch "9") with 57.
  change (ch "a") with 97. change (ch "f") with 102.
  change (ch "A") with 65. change (ch "F") with 70.
  destruct (9 <? n) eqn:E; [apply Z.ltb_lt in E|apply Z.ltb_ge in E];
    rewrite Z.mod_small by lia.
  - replace ((48 <=? n + 55) && (n + 55 <=? 57)) with false
      by (symmetry; apply andb_false_iff; right; apply Z.leb_gt; lia).
    replace ((97 <=? n + 55) && (n + 55 <=? 102)) with false
      by (symmetry; apply andb_false_iff; left; apply Z.leb_gt; lia).
    replace ((65 <=? n + 55) && (n + 55 <=? 70)) with true
      by (symmetry; apply andb_true_iff; split; apply Z.leb_le; lia).
    f_equal. lia.
  - replace ((48 <=? n + 48) && (n + 48 <=? 57)) with true
      by (symmetry; apply andb_true_iff; split; apply Z.leb_le; lia).
    f_equal. lia.
Qed.

Lemma hexchar_nonzero n : 0 <= n < 16 -> (hexchar n =? 0) = false.
Proof.
  intros Hn. unfold hexchar, u8. apply Z.eqb_neq.
  destruct (9 <? n); rewrite Z.mod_small by lia; lia.
Qed.

Lemma printf_x_byte v :
  0 <= v < 256 -> printf_x false false 2 v = [hexchar (v / 16); hexchar (v mod 16)].
Proof.
  intros Hv. unfold printf_x. cbn [negb andb].
  assert (Hi : i32 v = v).
  { unfold i32, int_of_u32, u32. rewrite Z.mod_small by lia.
    destruct (v <? 2 ^ 31) eqn:E; [reflexivity|apply Z.ltb_ge in E; lia]. }
  rewrite Hi.
  assert (Hlo : Z.land v 15 = v mod 16).
  { change 15 with (Z.ones 4). rewrite Z.land_ones by lia. reflexivity. }
  assert (Hhi : Z.shiftr v 4 = v / 16).
  { rewrite Z.shiftr_div_pow2 by lia. reflexivity. }
  pose proof (Z.div_mod v 16 ltac:(lia)) as Hdm.
  pose proof (Z.mod_pos_bound v 16 ltac:(lia)) as Hm.
  assert (Hd : 0 <= v / 16 < 16).
  { split; [apply Z.div_pos; lia|apply Z.div_lt_upper_bound; lia]. }
  change (hex_loop 16 v [])
    with (let tmpstr' := hexchar (Z.land v 15) :: [] in
          let arg' := Z.shiftr v 4 in
          if negb (arg' =? 0) && (0 <? 15)%nat then hex_loop 15 arg' tmpstr'
          else (15%nat, tmpstr')).
  cbv zeta. rewrite Hlo, Hhi.
  destruct (v / 16 =? 0) eqn:E.
  - apply Z.eqb_eq in E. cbn [negb andb]. rewrite E.
    change ((0 <? 2) && (2 <=? 16)) with true. cbv iota. reflexivity.
  - cbn [negb andb Nat.ltb Nat.leb].
    change (hex_loop 15 (v / 16) [hexchar (v mod 16)])
      with (let tmpstr' := hexchar (Z.land (v / 16) 15) :: [hexchar (v mod 16)] in
            let arg' := Z.shiftr (v / 16) 4 in
            if negb (arg' =? 0) && (0 <? 14)%nat then hex_loop 14 arg' tmpstr'
            else (14%nat, tmpstr')).
    cbv zeta.
    assert (H0 : Z.shiftr (v / 16) 4 = 0).
    { rewrite Z.shiftr_div_pow2 by lia. apply Z.div_small. change (2 ^ 4) with 16. lia. }
    rewrite H0. cbn [Z.eqb negb andb].
    assert (Hl : Z.land (v / 16) 15 = v / 16).
    { change 15 with (Z.ones 4). rewrite Z.land_ones by lia.
      apply Z.mod_small. change (2 ^ 4) with 16. lia. }
    rewrite Hl. reflexivity.
Qed.

Lemma printf_percent_02x m v :
  printf m (lit "%02x") [VInt v] = Some (c_string (printf_x false false 2 v) ++ []).
Proof. cbv -[printf_x c_string app]. reflexivity. Qed.

(** X3.  A byte printed with [printf("%02x")] is two hexadecimal digits, and
    [gethex] reads them back as the same byte, leaving what follows. *)
Theorem printf_02x_gethex_round_trip (m : bmem) (v : Z) (rest : list Z) :
  0 <= v < 256 ->
  exists h l,
    printf m (lit "%02x") [VInt v] = Some [h; l] /\
    gethex (h :: l :: rest) = (rest, v).
Proof.
  intros Hv.
  pose proof (Z.div_mod v 16 ltac:(lia)) as Hdm.
  pose proof (Z.mod_pos_bound v 16 ltac:(lia)) as Hm.
  assert (Hd : 0 <= v / 16 < 16).
  { split; [apply Z.div_pos; lia|apply Z.div_lt_upper_bound; lia]. }
  exists (hexchar (v / 16)), (hexchar (v mod 16)). split.
  - rewrite printf_percent_02x, printf_x_byte by assumption.
    cbn [c_string]. rewrite !hexchar_nonzero by assumption. reflexivity.
  - unfold gethex. cbn [gethex_from deref hd advance skipn].
    rewrite !hexdigit_hexchar by assumption.
    f_equal. unfold u32. rewrite Z.shiftl_0_l. cbn [Z.add].
    rewrite (Z.mod_small 0), Z.add_0_l by lia.
    rewrite (Z.mod_small (v / 16)) by lia.
    rewrite Z.shiftl_mul_pow2 by lia. change (2 ^ 4) with 16.
    rewrite (Z.mod_small (v / 16 * 16)) by lia.
    rewrite Z.mod_small by lia. lia.
Qed.

Lemma printf_02x_gethex_round_trip_witness :
  exists h l, printf no_mem (lit "%02x") [VInt 175] = Some [h; l] /\
              gethex (h :: l :: lit "00") = (lit "00", 175).
Proof. apply (printf_02x_gethex_round_trip no_mem 175 (lit "00")). lia. Defined.

(** ** [sort_map] sorts *)

Lemma entry_at_app_right pre x post :
  entry_at (pre ++ x :: post) (List.length pre) = x.
Proof. unfold entry_at. rewrite app_nth2 by lia. now rewrite Nat.sub_diag. Qed.

Lemma set_entry_app_right pre x post v :
  set_entry (pre ++ x :: post) (List.length pre) v = pre ++ v :: post.
Proof. induction pre as [|a pre IH]; [reflexivity|]. cbn. now rewrite IH. Qed.

Lemma swap_down_app pre y x post :
  swap_down (pre ++ y :: x :: post) (S (List.length pre)) = pre ++ x :: y :: post.
Proof.
  unfold swap_down. cbn [Nat.sub]. rewrite Nat.sub_0_r.
  rewrite entry_at_app_right.
  replace (entry_at (pre ++ y :: x :: post) (S (List.length pre))) with x.
  2:{ replace (pre ++ y :: x :: post) with ((pre ++ [y]) ++ x :: post)
        by (now rewrite <- app_assoc).
      replace (S (List.length pre)) with (List.length (pre ++ [y]))
        by (rewrite length_app; cbn; lia).
      now rewrite entry_at_app_right. }
  rewrite set_entry_app_right.
  replace (pre ++ x :: x :: post) with ((pre ++ [x]) ++ x :: post)
    by (now rewrite <- app_assoc).
  replace (S (List.length pre)) with (List.length (pre ++ [x]))
    by (rewrite length_app; cbn; lia).
  rewrite set_entry_app_right. now rewrite <- app_assoc.
Qed.

(** The inner loop moves the entry at index [j] down into its place in the
    sorted entries before it. *)
Lemma sift_down_inserts : forall pre x post,
  StronglySorted base_le pre ->
  exists p1 p2,
    pre = p1 ++ p2 /\
    sift_down (List.length pre) (pre ++ x :: post) = p1 ++ x :: p2 ++ post /\
    Forall (fun y => base_addr y <= base_addr x) p1 /\
    Forall (fun y => base_addr x < base_addr y) p2.
Proof.
  induction pre as [|y pre IH] using rev_ind; intros x post Hs.
  - exists [], []. cbn. repeat split; constructor.
  - rewrite length_app. cbn [List.length]. rewrite Nat.add_1_r.
    cbn [sift_down]. rewrite <- app_assoc. cbn [app].
    replace (entry_at (pre ++ y :: x :: post) (S (List.length pre))) with x.
    2:{ replace (pre ++ y :: x :: post) with ((pre ++ [y]) ++ x :: post)
          by (now rewrite <- app_assoc).
        replace (S (List.length pre)) with (List.length (pre ++ [y]))
          by (rewrite length_app; cbn; lia).
        now rewrite entry_at_app_right. }
    rewrite entry_at_app_right.
    assert (Hpre : StronglySorted base_le pre /\ Forall (fun z => base_le z y) pre).
    { clear IH. induction pre as [|a pre IHp]; [split; constructor|].
      cbn [app] in Hs. apply StronglySorted_inv in Hs. destruct Hs as [Hs Ha].
      destruct (IHp Hs) as [H1 H2]. split.
      - constructor; [assumption|].
        apply Forall_app in Ha. tauto.
      - constructor; [|assumption].
        apply Forall_app in Ha. destruct Ha as [_ Ha].
        now inversion Ha. }
    destruct Hpre as [Hsp Hle].
    destruct (base_addr x <? base_addr y) eqn:E.
    + apply Z.ltb_lt in E. rewrite swap_down_app.
      destruct (IH x (y :: post) Hsp) as (p1 & p2 & Hp & Hsift & H1 & H2).
      exists p1, (p2 ++ [y]). repeat split.
      * rewrite Hp. now rewrite app_assoc.
      * rewrite Hsift. rewrite <- app_assoc. reflexivity.
      * assumption.
      * apply Forall_app. split; [assumption|]. constructor; [assumption|constructor].
    + apply Z.ltb_ge in E. exists (pre ++ [y]), []. repeat split.
      * now rewrite app_nil_r.
      * cbn [app]. now rewrite <- app_assoc.
      * apply Forall_app. split.
        -- eapply Forall_impl; [|exact Hle]. unfold base_le. intros z Hz. lia.
        -- constructor; [assumption|constructor].
      * constructor.
Qed.

Lemma strongly_sorted_insert p1 p2 x :
  StronglySorted base_le (p1 ++ p2) ->
  Forall (fun y => base_addr y <= base_addr x) p1 ->
  Forall (fun y => base_addr x < base_addr y) p2 ->
  StronglySorted base_le (p1 ++ x :: p2).
Proof.
  induction p1 as [|a p1 IH]; intros Hs H1 H2; cbn [app] in *.
  - constructor; [assumption|].
    eapply Forall_impl; [|exact H2]. unfold base_le. intros z Hz. lia.
  - apply StronglySorted_inv in Hs. destruct Hs as [Hs Ha].
    inversion H1 as [|? ? Hax H1']; subst.
    constructor; [now apply IH|].
    apply Forall_app in Ha. destruct Ha as [Ha1 Ha2].
    apply Forall_app. split; [assumption|]. constructor; assumption.
Qed.

Lemma sort_rounds_sorts : forall suf pre ram,
  StronglySorted base_le pre ->
  StronglySorted base_le (fst (sort_rounds (List.length suf) (List.length pre) (pre ++ suf) ram)) /\
  Permutation (pre ++ suf) (fst (sort_rounds (List.length suf) (List.length pre) (pre ++ suf) ram)).
Proof.
  induction suf as [|x suf IH]; intros pre ram Hs.
  - cbn. rewrite app_nil_r. split; [assumption|apply Permutation_refl].
  - cbn [List.length sort_rounds]. unfold sort_step.
    destruct (sift_down_inserts pre x suf Hs) as (p1 & p2 & Hp & Hsift & H1 & H2).
    rewrite Hsift.
    match goal with |- context [sort_rounds _ _ _ ?r] => set (ram' := r) end.
    clearbody ram'.
    replace (p1 ++ x :: p2 ++ suf) with ((p1 ++ x :: p2) ++ suf)
      by (rewrite <- app_assoc; reflexivity).
    replace (S (List.length pre)) with (List.length (p1 ++ x :: p2))
      by (rewrite Hp, !length_app; cbn; lia).
    assert (Hs' : StronglySorted base_le (p1 ++ x :: p2)).
    { apply strongly_sorted_insert; [rewrite <- Hp|..]; assumption. }
    destruct (IH (p1 ++ x :: p2) ram' Hs') as [Hsorted Hperm].
    split; [assumption|].
    eapply Permutation_trans; [|exact Hperm].
    rewrite Hp, <- !app_assoc. apply Permutation_app_head.
    cbn [app]. apply Permutation_sym, Permutation_middle.
Qed.

Lemma strongly_sorted_by_base l : StronglySorted base_le l -> sorted_by_base l.
Proof.
  induction 1 as [|a l Hs IH Ha]; [exact I|].
  destruct l as [|b l]; [exact I|]. cbn. split; [|assumption].
  now inversion Ha.
Qed.

(** X4.  Whatever order the firmware reports the memory map in,
    [sort_map] leaves the same entries, none lost or doubled, in ascending
    order of base address. *)
Theorem sort_map_sorts l ram :
  sorted_by_base (fst (sort_map l ram)) /\ Permutation l (fst (sort_map l ram)).
Proof.
  unfold sort_map. destruct l as [|a l]; [cbn; split; [exact I|constructor]|].
  replace (List.length (a :: l) - 1)%nat with (List.length l) by (cbn; lia).
  destruct (sort_rounds_sorts l [a] ram) as [Hs Hp].
  { constructor; constructor. }
  split; [apply strongly_sorted_by_base; exact Hs|exact Hp].
Qed.

(** ** The FAT window and the cluster chain *)

Section FatFacts.

Variable vidmode : vidmode_t.
Variable fb_bg : Z.
Variable disk : Z -> list Z.
Variable bkp : bool.
Variable spc fat_lba data_lba : Z.

Lemma fw_loadsec_sector lba st :
  fst (fw_loadsec disk bkp lba st) = sector_of (disk lba).
Proof. reflexivity. Qed.

Lemma fw_loadsec_undisturbed lba st :
  undisturbed bkp st ->
  undisturbed bkp (snd (fw_loadsec disk bkp lba st)) /\
  fat (snd (fw_loadsec disk bkp lba st)) = fat st /\
  fat_cache (snd (fw_loadsec disk bkp lba st)) = fat_cache st.
Proof.
  intros [Hrq Hk]. unfold fw_loadsec. cbn [snd].
  destruct (negb bkp && negb (rq st)) eqn:E; [|repeat split; assumption].
  cbn [fat fat_cache]. split; [|split; reflexivity].
  apply andb_true_iff in E. destruct E as [Eb _]. apply negb_true_iff in Eb.
  destruct Hk as [Hk|Hk]; [congruence|].
  split; cbn [rq kbd].
  - destruct (kbd st) as [|al k]; [reflexivity|]. cbn [hd]. now inversion Hk.
  - right. destruct (kbd st) as [|al k]; [constructor|]. cbn [tl]. now inversion Hk.
Qed.

Lemma fat_entries_at sec k :
  0 <= k < 128 -> at_ (fat_entries sec) k = le32 sec (4 * k).
Proof.
  intros Hk. unfold at_, fat_entries.
  destruct (k <? 0) eqn:E; [apply Z.ltb_lt in E; lia|].
  set (f := fun j => le32 sec (4 * Z.of_nat j)).
  rewrite (nth_indep (List.map f (seq 0 128)) 0 (f 0%nat))
    by (rewrite length_map, length_seq; lia).
  rewrite (map_nth f), seq_nth by lia. subst f. cbv beta. f_equal. lia.
Qed.

Lemma fat_entries_length sec : List.length (fat_entries sec) = 128%nat.
Proof. unfold fat_entries. now rewrite length_map, length_seq. Qed.

Lemma load_fat_spec : forall n lba st,
  undisturbed bkp st ->
  let r := load_fat disk bkp n lba st in
  List.length (fst r) = (128 * n)%nat /\
  (forall k, 0 <= k < 128 * Z.of_nat n ->
     at_ (fst r) k = le32 (sector_of (disk (lba + k / 128))) (4 * (k mod 128))) /\
  undisturbed bkp (snd r).
Proof.
  induction n as [|n IH]; intros lba st Hu; cbv zeta.
  - cbn [load_fat fst snd]. split; [reflexivity|]. split; [|assumption].
    intros k Hk. lia.
  - cbn [load_fat].
    pose proof (fw_loadsec_undisturbed lba st Hu) as (Hu1 & _ & _).
    pose proof (fw_loadsec_sector lba st) as Hsec.
    destruct (fw_loadsec disk bkp lba st) as [sec st1]. cbn [fst snd] in *.
    specialize (IH (lba + 1) st1 Hu1). cbv zeta in IH.
    destruct (load_fat disk bkp n (lba + 1) st1) as [rest st2]. cbn [fst snd] in *.
    destruct IH as (Hlen & Hat & Hu2).
    split; [|split; [|assumption]].
    + rewrite length_app, fat_entries_length, Hlen. lia.
    + intros k Hk. subst sec. destruct (Z.lt_ge_cases k 128) as [Hlt|Hge].
      * rewrite Z.div_small, Z.mod_small, Z.add_0_r by lia.
        rewrite <- fat_entries_at by lia. unfold at_.
        destruct (k <? 0) eqn:E; [apply Z.ltb_lt in E; lia|].
        apply app_nth1. rewrite fat_entries_length. lia.
      * specialize (Hat (k - 128) ltac:(lia)).
        replace ((k - 128) / 128) with (k / 128 - 1) in Hat
          by (replace (k - 128) with (k + (-1) * 128) by lia;
              rewrite Z.div_add by lia; lia).
        replace ((k - 128) mod 128) with (k mod 128) in Hat
          by (replace (k - 128) with (k + (-1) * 128) by lia;
              now rewrite Z.mod_add by lia).
        replace (lba + 1 + (k / 128 - 1)) with (lba + k / 128) in Hat by lia.
        rewrite <- Hat. unfold at_.
        destruct (k <? 0) eqn:E; [apply Z.ltb_lt in E; lia|].
        destruct (k - 128 <? 0) eqn:E'; [apply Z.ltb_lt in E'; lia|].
        rewrite app_nth2 by (rewrite fat_entries_length; lia).
        rewrite fat_entries_length. f_equal. lia.
Qed.

Lemma bios_nextclu_spec clu st :
  fat_window_ok disk fat_lba st -> undisturbed bkp st ->
  fst (bios_nextclu disk bkp fat_lba clu st) = next_cluster disk fat_lba clu /\
  fat_window_ok disk fat_lba (snd (bios_nextclu disk bkp fat_lba clu st)) /\
  undisturbed bkp (snd (bios_nextclu disk bkp fat_lba clu st)).
Proof.
  intros Hw Hu. unfold bios_nextclu, next_cluster.
  destruct (is_chain_end clu) eqn:Hend; [split; [reflexivity|split; assumption]|].
  unfold is_chain_end in Hend. apply orb_false_elim in Hend.
  destruct Hend as [H2 Hmax]. apply Z.ltb_ge in H2. apply Z.leb_gt in Hmax.
  destruct ((clu <? fat_cache st) || (fat_cache st + 1023 <? clu)) eqn:Hmiss.
  - pose proof (load_fat_spec 8 (fat_lba + Z.shiftr (clu - clu mod 1024) 7) st Hu)
      as Hl. cbv zeta in Hl.
    destruct (load_fat disk bkp 8 (fat_lba + Z.shiftr (clu - clu mod 1024) 7) st)
      as [entries st1]. cbn [fst snd] in *.
    destruct Hl as (_ & Hat & Hu1).
    pose proof (Z.mod_pos_bound clu 1024 ltac:(lia)) as Hm.
    pose proof (Z.div_mod clu 1024 ltac:(lia)) as Hdm.
    assert (Hbase : forall k, 0 <= k < 1024 ->
              at_ entries k = fat_on_disk disk fat_lba (clu - clu mod 1024 + k)).
    { intros k Hk. rewrite Hat by lia. unfold fat_on_disk.
      rewrite Z.shiftr_div_pow2 by lia. change (2 ^ 7) with 128.
      replace (clu - clu mod 1024) with (clu / 1024 * 8 * 128) by lia.
      rewrite Z.div_mul by lia.
      replace (clu / 1024 * 8 * 128 + k) with (k + clu / 1024 * 8 * 128) by lia.
      rewrite Z.div_add, Z.mod_add by lia.
      replace (fat_lba + clu / 1024 * 8 + k / 128)
        with (fat_lba + (k / 128 + clu / 1024 * 8)) by lia.
      reflexivity. }
    cbn [fat fat_cache]. split; [|split].
    + rewrite Hbase by lia.
      replace (clu - clu mod 1024 + (clu - (clu - clu mod 1024))) with clu by lia.
      reflexivity.
    + intros k Hk. cbn [fat fat_cache]. now apply Hbase.
    + destruct Hu1 as [Hrq Hk]. split; assumption.
  - apply orb_false_elim in Hmiss. destruct Hmiss as [Hlo Hhi].
    apply Z.ltb_ge in Hlo. apply Z.ltb_ge in Hhi.
    split; [|split; assumption].
    cbn [fst]. rewrite !Hw by lia.
    replace (fat_cache st + (clu - fat_cache st)) with clu by lia. reflexivity.
Qed.

(** X5.  While the FAT window mirrors the drive, [bios_nextclu] returns
    the successor the on-disk FAT gives for a cluster, 0 at the end of the
    chain and for a cluster number out of range, whether or not the entry
    was in the window; and the window mirrors the drive afterwards. *)
Theorem bios_nextclu_follows_fat clu st :
  fat_window_ok disk fat_lba st -> undisturbed bkp st ->
  fst (bios_nextclu disk bkp fat_lba clu st)
  = (if is_chain_end clu then 0
     else if is_chain_end (fat_on_disk disk fat_lba clu) then 0
     else fat_on_disk disk fat_lba clu) /\
  fat_window_ok disk fat_lba (snd (bios_nextclu disk bkp fat_lba clu st)).
Proof.
  intros Hw Hu. destruct (bios_nextclu_spec clu st Hw Hu) as (H1 & H2 & _).
  split; [exact H1|exact H2].
Qed.

(** [bios_init] leaves a window that mirrors the drive; see [fat_state0]. *)
Lemma fat_state0_ok :
  undisturbed bkp {| kbd := []; rq := false; fat := []; fat_cache := 0 |} /\
  fat_window_ok disk fat_lba (fat_state0 disk bkp fat_lba) /\
  undisturbed bkp (fat_state0 disk bkp fat_lba).
Proof.
  assert (H0 : undisturbed bkp {| kbd := []; rq := false; fat := []; fat_cache := 0 |}).
  { split; [reflexivity|right; constructor]. }
  split; [exact H0|].
  unfold fat_state0.
  pose proof (load_fat_spec 8 fat_lba _ H0) as Hl. cbv zeta in Hl.
  destruct (load_fat disk bkp 8 fat_lba
              {| kbd := []; rq := false; fat := []; fat_cache := 0 |}) as [entries st1].
  cbn [fst snd] in Hl. destruct Hl as (_ & Hat & Hu1). split.
  - intros k Hk. cbn [fat fat_cache]. rewrite Hat by lia.
    unfold fat_on_disk. now rewrite Z.add_0_l.
  - destruct Hu1. split; assumption.
Qed.


Lemma file_byte_at clu0 k t :
  1 <= spc -> 0 <= k -> 0 <= t < 512 ->
  file_byte disk spc fat_lba data_lba clu0 (512 * k + t)
  = nth (Z.to_nat t)
      (sector_of (disk (cluster_lba spc data_lba
                          (nth_cluster disk fat_lba (Z.to_nat (k / spc)) clu0)
                        + k mod spc))) 0.
Proof.
  intros Hspc Hk Ht. unfold file_byte. cbv zeta.
  assert (Hdiv : (512 * k + t) / 512 = k).
  { replace (512 * k + t) with (t + k * 512) by lia.
    rewrite Z.div_add, Z.div_small by lia. lia. }
  assert (Hmod : (512 * k + t) mod 512 = t).
  { replace (512 * k + t) with (t + k * 512) by lia.
    rewrite Z.mod_add, Z.mod_small by lia. lia. }
  rewrite <- Z.div_div, Hdiv, Hmod by lia. reflexivity.
Qed.








End FatFacts.

Lemma bios_nextclu_follows_fat_witness :
  fst (bios_nextclu volume1 false 10 3 (fat_state0 volume1 false 10))
  = (if is_chain_end 3 then 0
     else if is_chain_end (fat_on_disk volume1 10 3) then 0
     else fat_on_disk volume1 10 3) /\
  fat_window_ok volume1 10
    (snd (bios_nextclu volume1 false 10 3 (fat_state0 volume1 false 10))).
Proof.
  apply (bios_nextclu_follows_fat volume1 false 10 3 (fat_state0 volume1 false 10));
    apply fat_state0_ok.
Defined.

(** ** Reading on UEFI *)

Section EfiContent.

Variable vidmode : vidmode_t.
Variable bkp : bool.

Lemma efi_file_read_bytes f pos n :
  io_error f = false -> 0 <= pos -> 0 <= n ->
  pos + n <= Z.of_nat (List.length (content f)) ->
  forall t, 0 <= t < n ->
    nth (Z.to_nat t) (snd (efi_file_read f pos n)) 0
    = nth (Z.to_nat (pos + t)) (content f) 0.
Proof.
  intros He Hp Hn Hlen t Ht. unfold efi_file_read. rewrite He. cbn [snd].
  rewrite nth_firstn.
  destruct (Z.to_nat t <? Z.to_nat n)%nat eqn:E; [|apply Nat.ltb_ge in E; lia].
  rewrite nth_skipn. f_equal. lia.
Qed.

Lemma efi_read_loop_content f offs size buf :
  io_error f = false -> 0 <= offs ->
  offs + size <= Z.of_nat (List.length (content f)) ->
  (forall i, 0 <= i < size -> ~ in_progress_bar vidmode (buf + i)) ->
  forall fuel curr blksize pb m st,
    0 <= curr <= size -> 1 <= blksize -> pb_ok vidmode pb ->
    (forall i, 0 <= i < curr ->
       m (buf + i) = nth (Z.to_nat (offs + i)) (content f) 0) ->
    (Z.to_nat (size - curr) < fuel)%nat ->
    exists m' st',
      efi_read_loop vidmode bkp fuel f offs size buf curr blksize pb m st
        = Some (false, m', st') /\
      (forall i, 0 <= i < size ->
         m' (buf + i) = nth (Z.to_nat (offs + i)) (content f) 0).
Proof.
  intros He Hoffs Hlen Hbar.
  induction fuel as [|fuel IH]; intros curr blksize pb m st Hc Hb Hpb Hm Hfuel; [lia|].
  cbn [efi_read_loop].
  destruct (curr <? size) eqn:Hlt.
  2:{ apply Z.ltb_ge in Hlt. exists m, st. split; [reflexivity|].
      intros i Hi. apply Hm. lia. }
  apply Z.ltb_lt in Hlt.
  set (blk := if size - curr <? blksize then size - curr else blksize).
  assert (Hblk : 1 <= blk <= size - curr).
  { subst blk. destruct (size - curr <? blksize) eqn:E;
      [apply Z.ltb_lt in E | apply Z.ltb_ge in E]; lia. }
  clearbody blk.
  destruct (efi_file_read_full f (offs + curr) blk He) as [Herr Hn]; try lia.
  pose proof (efi_file_read_bytes f (offs + curr) blk He ltac:(lia) ltac:(lia) ltac:(lia))
    as Hbytes.
  destruct (efi_file_read f (offs + curr) blk) as [err bytes].
  cbn [fst snd] in Herr, Hn, Hbytes. subst err. rewrite Hn.
  destruct (pb_draw_spec vidmode curr pb (store_bytes m (buf + curr) bytes) Hpb)
    as (pb2 & m2 & Hdraw & Hpb2 & Hsame).
  rewrite Hdraw.
  destruct (IH (curr + blk) blk pb2 m2 (efi_poll bkp st))
    as (m' & st' & Hrun & Hcont); try lia; try assumption.
  - intros i Hi. rewrite Hsame by (apply Hbar; lia).
    destruct (Z.lt_ge_cases i curr) as [Hold|Hnew].
    + rewrite <- Hm by lia. apply store_bytes_frame. lia.
    + rewrite store_bytes_get by lia.
      replace (buf + i - (buf + curr)) with (i - curr) by lia.
      rewrite Hbytes by lia. f_equal. lia.
  - exists m', st'. split; assumption.
Qed.


(** A read inside a file the device reads without error returns [size]
    and leaves the bytes of the file in the buffer. *)
Lemma efi_read_content pb f offs size buf m st :
  io_error f = false ->
  0 <= offs -> 0 < size -> buf <> 0 ->
  offs + size <= Z.of_nat (List.length (content f)) ->
  offs + size < 2^64 ->
  (forall i, 0 <= i < size -> ~ in_progress_bar vidmode (buf + i)) ->
  pb_init_returns vidmode ->
  exists m' st',
    efi_read vidmode bkp pb (Some f) (Z.of_nat (List.length (content f)))
      offs size buf m st = Some (size, m', st') /\
    (forall i, 0 <= i < size ->
       m' (buf + i) = nth (Z.to_nat (offs + i)) (content f) 0) /\
    unchanged_outside_bar vidmode m m' buf (buf + size).
Proof.
  intros He Hoffs Hsize Hbuf Hlen Hmax Hbar Hret.
  destruct (efi_read_spec vidmode bkp pb (Some f) (Z.of_nat (List.length (content f)))
              offs size buf m st)
    as (n & m1 & st1 & Hrun & _ & _ & Hframe); try lia; try assumption.
  { intros f' Hf'. injection Hf' as <-. reflexivity. }
  rewrite Z.min_l in Hframe by lia.
  revert Hrun. unfold efi_read.
  replace ((Z.of_nat (List.length (content f)) <=? offs) || (size =? 0) || (buf =? 0))
    with false.
  2:{ symmetry. repeat apply orb_false_intro;
        [apply Z.leb_gt|apply Z.eqb_neq|apply Z.eqb_neq]; lia. }
  replace (Z.of_nat (List.length (content f)) <? u64 (offs + size)) with false
    by (symmetry; apply Z.ltb_ge; unfold u64; rewrite Z.mod_small; lia).
  rewrite He.
  destruct (pb_init_spec vidmode size pb m ltac:(lia) Hret)
    as (blk & pb1 & m0 & Hinit & Hblk0 & Hpb1 & Hsame1).
  rewrite Hinit.
  destruct (negb (blk =? 0)) eqn:Hpb.
  - assert (Hblk : 1 <= blk) by (apply negb_true_iff, Z.eqb_neq in Hpb; lia).
    destruct (efi_read_loop_content f offs size buf He Hoffs Hlen Hbar
                (S (Z.to_nat size)) 0 blk pb1 m0 st)
      as (m' & st' & Hloop & Hcont); try lia; try assumption.
    rewrite Hloop. intros Hrun. injection Hrun as _ <- _.
    exists m', st'. split; [reflexivity|]. split; assumption.
  - destruct (efi_file_read_full f offs size He) as [Herr Hn]; try lia.
    pose proof (efi_file_read_bytes f offs size He ltac:(lia) ltac:(lia) ltac:(lia))
      as Hbytes.
    destruct (efi_file_read f offs size) as [err bytes].
    cbn [fst snd] in Herr, Hn, Hbytes. subst err. rewrite Hn.
    intros Hrun. injection Hrun as _ <- _.
    do 2 eexists. split; [reflexivity|]. split; [|exact Hframe].
    intros i Hi. rewrite store_bytes_get by lia.
    replace (buf + i - buf) with i by lia. now apply Hbytes.
Qed.

End EfiContent.

(** ** [fw_read] on either firmware *)

(** An address below the frame buffer rows of the bar is outside the bar. *)
Lemma below_progress_bar vm a :
  0 <= framebuffer_pitch vm ->
  pb_start vm + framebuffer_pitch vm + 2^32 <= 2^64 ->
  a < pb_start vm ->
  ~ in_progress_bar vm a.
Proof.
  intros Hp Hmax Ha (_ & i & k & Hi & Hk & H).
  assert (H0 : 0 <= pb_start vm).
  { unfold pb_start, u64.
    match goal with |- 0 <= ?x mod ?y => pose proof (Z.mod_pos_bound x y ltac:(lia)) end.
    lia. }
  unfold u64 in H.
  rewrite (Z.mod_small (pb_start vm + framebuffer_pitch vm) (2 ^ 64)) in H by lia.
  rewrite !(Z.mod_small _ (2 ^ 64)) in H by lia.
  lia.
Qed.

(** Without a frame buffer no address is in the bar. *)
Lemma no_frame_buffer_no_bar vm a :
  framebuffer_addr vm = 0 -> ~ in_progress_bar vm a.
Proof. intros H [Ha _]. contradiction. Qed.

(** [fw_read] returns in every video mode in which [pb_init] does, with
    a count inside the request and inside the file. *)
Lemma fw_read_spec (ST : bool) vm fb_bg disk bkp spc fat_lba data_lba pb
    (f : open_file) (offs size buf : Z) (m : bmem) (st : fat_state) :
  0 <= offs -> 0 <= size -> offs + size < 2^64 ->
  (forall h, efi_handle f = Some h ->
             fw_file_size f = Z.of_nat (List.length (content h))) ->
  pb_init_returns vm -> (ST = false -> offs = 0 \/ spc <> 0) ->
  exists n m' st',
    fw_read ST vm fb_bg disk bkp spc fat_lba data_lba pb f offs size buf m st
      = Some (n, m', st') /\
    0 <= n <= size /\ (n = 0 \/ offs + n <= fw_file_size f) /\
    unchanged_outside_bar vm m m' buf (buf + Z.min size (fw_file_size f - offs)).
Proof.
  intros Hoffs Hsize Hwrap Hfs Hret Hspc. unfold fw_read.
  destruct ((root_dir f =? 0) || (fw_file_size f <=? offs) || (size =? 0)
            || (buf =? 0)) eqn:Hguard.
  { exists 0, m, st. nothing_read. }
  assert (Hno : offs < fw_file_size f /\ size <> 0).
  { repeat (apply orb_false_elim in Hguard; destruct Hguard as [Hguard ?]).
    apply Z.eqb_neq in Hguard, H, H0. apply Z.leb_gt in H1. lia. }
  destruct ST.
  - destruct (efi_read_spec vm bkp pb (efi_handle f) (fw_file_size f) offs size buf
                m st Hoffs Hsize Hwrap Hfs Hret)
      as (n & m' & st' & Hrun & Hn & Hin & Hframe).
    exists n, m', st'. repeat split; try assumption; lia.
  - destruct (bios_read_spec vm fb_bg disk bkp spc fat_lba data_lba pb (file_clu f)
                (fw_file_size f) offs size buf m st Hoffs Hsize Hwrap Hret
                (Hspc eq_refl))
      as (n & m' & st' & Hrun & Hn & Hin & Hframe).
    exists n, m', st'. repeat split; try assumption; try lia.
    eapply unchanged_outside_bar_weaken; [exact Hframe | lia | lia].
Qed.



(** [fw_read] of a request inside the file, once the guard is passed. *)
Lemma fw_read_inside (ST : bool) vm fb_bg disk bkp spc fat_lba data_lba pb
    (f : open_file) (offs size buf : Z) (m : bmem) (st : fat_state) :
  root_dir f <> 0 -> offs < fw_file_size f -> size <> 0 -> buf <> 0 ->
  fw_read ST vm fb_bg disk bkp spc fat_lba data_lba pb f offs size buf m st
  = if ST then efi_read vm bkp pb (efi_handle f) (fw_file_size f) offs size buf m st
    else bios_read vm fb_bg disk bkp spc fat_lba data_lba pb (file_clu f)
           (fw_file_size f) offs size buf m st.
Proof.
  intros H1 H2 H3 H4. unfold fw_read.
  replace ((root_dir f =? 0) || (fw_file_size f <=? offs) || (size =? 0) || (buf =? 0))
    with false; [reflexivity|].
  symmetry. repeat apply orb_false_intro;
    [apply Z.eqb_neq|apply Z.leb_gt|apply Z.eqb_neq|apply Z.eqb_neq]; assumption.
Qed.



(** A request that runs past the end of the file is cut, not refused. *)
Example fw_read_truncates :
  read_result
    (fw_read false vidmode0 0 volume0 false 1 10 18 pbar0 kernel_file0 2 100 1048576
       (fun _ => 0) (fat_state0 volume0 false 10)) 1048576 8
  = Some (5, lit "imary" ++ [0; 0; 0]) /\
  read_result
    (fw_read true vidmode0 0 volume0 false 1 10 18 pbar0 efi_file0 2 100 1048576
       (fun _ => 0) (fat_state0 volume0 false 10)) 1048576 8
  = Some (5, lit "imary" ++ [0; 0; 0]) /\
  read_result
    (fw_read false vidmode0 0 volume0 false 1 10 18 pbar0 kernel_file0 7 100 1048576
       (fun _ => 0) (fat_state0 volume0 false 10)) 1048576 2
  = Some (0, [0; 0]).
Proof. repeat split; vm_compute; reflexivity. Qed.



(** The file of [volume1] is read from sectors 22, 23 and 26, and the bar
    is drawn and wiped in the frame buffer: after the read its first pixel
    holds the background colour. *)
Example bios_read_volume1 :
  option_map (fun r => (fst (fst r),
                        List.map (fun i => snd (fst r) (1048576 + i))
                          [0; 511; 512; 1023; 1024; 1499; 1500],
                        load_bytes (snd (fst r)) (pb_start vidmode1) 4))
    (bios_read vidmode1 4539 volume1 false 2 10 16 pbar0 3 1500 0 1500 1048576
       (fun _ => 0) (fat_state0 volume1 false 10))
  = Some (1500, [22; 22; 23; 23; 26; 26; 0], [187; 17; 0; 0]).
Proof. vm_compute. reflexivity. Qed.

(** X7.  On UEFI a read that lies inside the file, in a video mode in
    which [pb_init] returns, returns [size] and leaves the bytes of the
    file from [offs] on in the buffer, provided the bar is not drawn in
    the buffer, whether the firmware is asked once or, with the progress
    bar drawn, block by block; it does so even when a key is pressed
    meanwhile, and memory outside the buffer and the two rows of the bar
    is as before. *)
Theorem efi_read_returns_file_bytes vm bkp pb f offs size buf m st :
  io_error f = false ->
  0 <= offs -> 0 < size -> buf <> 0 ->
  offs + size <= Z.of_nat (List.length (content f)) ->
  offs + size < 2^64 ->
  (forall i, 0 <= i < size -> ~ in_progress_bar vm (buf + i)) ->
  pb_init_returns vm ->
  exists m' st',
    efi_read vm bkp pb (Some f) (Z.of_nat (List.length (content f)))
      offs size buf m st = Some (size, m', st') /\
    (forall i, 0 <= i < size ->
       m' (buf + i) = nth (Z.to_nat (offs + i)) (content f) 0) /\
    unchanged_outside_bar vm m m' buf (buf + size).
Proof. apply efi_read_content. Qed.

Lemma efi_read_returns_file_bytes_witness :
  exists m' st',
    efi_read vidmode1 false pbar0 (Some efi_content1)
      (Z.of_nat (List.length (content efi_content1))) 100 1400 1048576 (fun _ => 0)
      {| kbd := [65; 66; 67]; rq := false; fat := []; fat_cache := 0 |}
    = Some (1400, m', st') /\
    (forall i, 0 <= i < 1400 ->
       m' (1048576 + i) = nth (Z.to_nat (100 + i)) (content efi_content1) 0) /\
    unchanged_outside_bar vidmode1 (fun _ => 0) m' 1048576 (1048576 + 1400).
Proof.
  apply (efi_read_returns_file_bytes vidmode1 false pbar0 efi_content1 100 1400 1048576).
  - reflexivity.
  - lia.
  - lia.
  - lia.
  - vm_compute. discriminate.
  - lia.
  - intros i Hi. apply below_progress_bar.
    + vm_compute. discriminate.
    + vm_compute. discriminate.
    + replace (pb_start vidmode1) with 4244635752 by (vm_compute; reflexivity). lia.
  - right. vm_compute. discriminate.
Defined.

(** With the bar drawn the firmware is asked twice, for 700 bytes each;
    the first key pressed sets [rq] and the read goes on. *)
Example efi_read_in_blocks :
  option_map (fun r => (fst (fst r),
                        List.map (fun i => snd (fst r) (1048576 + i)) [0; 699; 700; 1399; 1400],
                        rq (snd r), kbd (snd r)))
    (efi_read vidmode1 false pbar0 (Some efi_content1) 1500 100 1400 1048576
       (fun _ => 0) {| kbd := [65; 66; 67]; rq := false; fat := []; fat_cache := 0 |})
  = Some (1400, [100; 31; 32; 219; 0], true, [66; 67]).
Proof. vm_compute. reflexivity. Qed.

(** ** Backup mode does not look at the keyboard *)

Section BackupFacts.

Variable vidmode : vidmode_t.
Variable fb_bg : Z.
Variable disk : Z -> list Z.
Variable spc rc fat_lba data_lba : Z.

Lemma same_keys_refl st : same_keys st st.
Proof. split; reflexivity. Qed.

Lemma same_keys_trans st1 st2 st3 :
  same_keys st1 st2 -> same_keys st2 st3 -> same_keys st1 st3.
Proof. intros [H1 H2] [H3 H4]. split; congruence. Qed.

Lemma fw_loadsec_backup lba st : snd (fw_loadsec disk true lba st) = st.
Proof. reflexivity. Qed.

Lemma load_fat_backup : forall n lba st, snd (load_fat disk true n lba st) = st.
Proof.
  induction n as [|n IH]; intros lba st; [reflexivity|].
  cbn [load_fat fw_loadsec negb andb]. specialize (IH (lba + 1) st).
  destruct (load_fat disk true n (lba + 1) st) as [rest st']. exact IH.
Qed.

Lemma bios_nextclu_backup clu st :
  same_keys st (snd (bios_nextclu disk true fat_lba clu st)).
Proof.
  unfold bios_nextclu. destruct (is_chain_end clu); [apply same_keys_refl|].
  destruct ((clu <? fat_cache st) || (fat_cache st + 1023 <? clu));
    [|apply same_keys_refl].
  pose proof (load_fat_backup 8 (fat_lba + Z.shiftr (clu - clu mod 1024) 7) st) as H.
  destruct (load_fat disk true 8 (fat_lba + Z.shiftr (clu - clu mod 1024) 7) st)
    as [entries st']. cbn [snd] in *. subst st'. split; reflexivity.
Qed.

Lemma skip_clusters_backup : forall nc clu st,
  same_keys st (snd (skip_clusters disk true fat_lba nc clu st)).
Proof.
  induction nc as [|nc IH]; intros clu st; [apply same_keys_refl|].
  cbn [skip_clusters]. destruct (clu =? 0); [apply same_keys_refl|].
  pose proof (bios_nextclu_backup clu st) as H.
  destruct (bios_nextclu disk true fat_lba clu st) as [clu' st']. cbn [snd] in H.
  eapply same_keys_trans; [exact H|apply IH].
Qed.

Lemma read_loop_backup size : forall fuel r st r' st',
  read_loop vidmode disk true spc fat_lba data_lba fuel size r st = Some (r', st') ->
  same_keys st st'.
Proof.
  induction fuel as [|fuel IH]; intros r st r' st' Hrun; [discriminate|].
  cbn [read_loop] in Hrun.
  destruct ((r_rem r =? 0) || rq st).
  { injection Hrun as _ <-. apply same_keys_refl. }
  destruct (negb (r_secleft r =? 0)).
  - cbn [fw_loadsec negb andb] in Hrun.
    destruct (pb_draw vidmode _ _ _) as [[pb2 m2]|]; [|discriminate].
    apply IH in Hrun. exact Hrun.
  - destruct (r_clu r =? 0).
    { injection Hrun as _ <-. apply same_keys_refl. }
    pose proof (bios_nextclu_backup (r_clu r) st) as H.
    destruct (bios_nextclu disk true fat_lba (r_clu r) st) as [clu' st1].
    cbn [snd] in H. cbn [fw_loadsec negb andb] in Hrun.
    destruct (pb_draw vidmode _ _ _) as [[pb2 m2]|]; [|discriminate].
    apply IH in Hrun.
    eapply same_keys_trans; eassumption.
Qed.

Lemma bios_seek_backup file_clu offs st res st' :
  bios_seek disk true spc fat_lba data_lba file_clu offs st = Some (res, st') ->
  same_keys st st'.
Proof.
  unfold bios_seek. destruct (offs =? 0).
  { intros H. injection H as _ <-. apply same_keys_refl. }
  destruct (Z.shiftl spc 9 =? 0); [discriminate|]. cbv zeta.
  pose proof (skip_clusters_backup (Z.to_nat (u32 (offs / Z.shiftl spc 9))) file_clu st)
    as Hskip.
  destruct (u32 (offs / Z.shiftl spc 9) =? 0).
  - cbn [negb andb]. intros H. injection H as _ <-. apply same_keys_refl.
  - destruct (skip_clusters disk true fat_lba _ file_clu st) as [clu st0].
    cbn [snd] in Hskip. cbn [negb andb].
    destruct (clu =? 0); intros H; injection H as _ <-; exact Hskip.
Qed.

Lemma bios_read_backup pb file_clu file_size offs size buf m st n m' st' :
  bios_read vidmode fb_bg disk true spc fat_lba data_lba pb file_clu file_size
    offs size buf m st = Some (n, m', st') ->
  same_keys st st'.
Proof.
  unfold bios_read.
  destruct ((file_clu <? 2) || (file_size <=? offs) || (size =? 0) || (buf =? 0)).
  { intros H. injection H as _ _ <-. apply same_keys_refl. }
  destruct (pb_init vidmode _ pb m) as [[[blk pb1] m1]|]; [|discriminate].
  destruct (bios_seek disk true spc fat_lba data_lba file_clu offs st)
    as [[res st0]|] eqn:Hseek; [|discriminate].
  apply bios_seek_backup in Hseek.
  destruct res as [[[[[lba clu] secleft] os] rs]|].
  2:{ intros H. injection H as _ _ <-. exact Hseek. }
  destruct (read_loop _ _ _ _ _ _ _ _ _ st0) as [[r1 st1]|] eqn:Hloop; [|discriminate].
  intros H. injection H as _ _ <-.
  eapply same_keys_trans; [exact Hseek|]. eapply read_loop_backup. exact Hloop.
Qed.

Lemma efi_read_loop_backup f offs size buf :
  forall fuel curr blksize pb m st e m' st',
  efi_read_loop vidmode true fuel f offs size buf curr blksize pb m st
    = Some (e, m', st') ->
  st' = st.
Proof.
  induction fuel as [|fuel IH]; intros curr blksize pb m st e m' st' Hrun;
    [discriminate|].
  cbn [efi_read_loop efi_poll negb andb] in Hrun.
  destruct (curr <? size); [|congruence].
  destruct (efi_file_read f (offs + curr) _) as [err bytes].
  destruct (pb_draw vidmode _ _ _) as [[pb2 m2]|]; [|discriminate].
  destruct err; [congruence|]. eapply IH. exact Hrun.
Qed.

Lemma efi_read_backup pb h file_size offs size buf m st n m' st' :
  efi_read vidmode true pb h file_size offs size buf m st = Some (n, m', st') ->
  st' = st.
Proof.
  unfold efi_read. destruct h as [f|]; [|congruence].
  destruct ((file_size <=? offs) || (size =? 0) || (buf =? 0)); [congruence|].
  destruct (io_error f); [congruence|].
  destruct (pb_init vidmode _ pb m) as [[[blk pb1] m1]|]; [|discriminate].
  destruct (negb (blk =? 0)).
  - destruct (efi_read_loop _ _ _ _ _ _ _ _ _ _ _ _) as [[[e m2] st1]|] eqn:Hloop;
      [|discriminate].
    intros H. injection H as _ _ <-. eapply efi_read_loop_backup. exact Hloop.
  - cbn [efi_poll negb andb]. destruct (efi_file_read f offs _) as [err bytes].
    congruence.
Qed.

End BackupFacts.

(** X8.  In backup mode reading a file never looks at the keyboard: in
    every video mode in which [pb_init] returns, on BIOS (with a non-zero
    cluster size) and on UEFI alike, [fw_read] returns with the request
    flag [rq] and the pending keyboard input exactly as they were, so a
    key press cannot interrupt the backup configuration. *)
Theorem backup_read_ignores_keyboard
    (ST : bool) vm fb_bg disk spc fat_lba data_lba pb
    (f : open_file) (offs size buf : Z) (m : bmem) (st : fat_state) :
  0 <= offs -> 0 <= size -> offs + size < 2^64 ->
  (forall h, efi_handle f = Some h ->
             fw_file_size f = Z.of_nat (List.length (content h))) ->
  pb_init_returns vm -> (ST = false -> offs = 0 \/ spc <> 0) ->
  exists n m' st',
    fw_read ST vm fb_bg disk true spc fat_lba data_lba pb f offs size buf m st
      = Some (n, m', st') /\
    rq st' = rq st /\ kbd st' = kbd st.
Proof.
  intros Hoffs Hsize Hwrap Hfs Hret Hspc.
  destruct (fw_read_spec ST vm fb_bg disk true spc fat_lba data_lba pb f offs size
              buf m st Hoffs Hsize Hwrap Hfs Hret Hspc)
    as (n & m' & st' & Hrun & _).
  exists n, m', st'. split; [exact Hrun|].
  unfold fw_read in Hrun. destruct (_ || _).
  { injection Hrun as _ _ <-. split; reflexivity. }
  destruct ST.
  - apply efi_read_backup in Hrun. subst st'. split; reflexivity.
  - apply bios_read_backup in Hrun. exact Hrun.
Qed.

Lemma backup_read_ignores_keyboard_witness :
  exists n m' st',
    fw_read false vidmode1 0 volume1 true 2 10 16 pbar0 file1
      0 1500 1048576 (fun _ => 0)
      {| kbd := [1; 1]; rq := false; fat := []; fat_cache := 1024 |}
      = Some (n, m', st') /\
    rq st' = false /\ kbd st' = [1; 1].
Proof.
  apply (backup_read_ignores_keyboard false vidmode1 0 volume1 2 10 16 pbar0 file1
           0 1500 1048576 (fun _ => 0)
           {| kbd := [1; 1]; rq := false; fat := []; fat_cache := 1024 |}).
  - lia.
  - lia.
  - lia.
  - intros h Hh. discriminate Hh.
  - right. vm_compute. discriminate.
  - intros _. left. reflexivity.
Defined.

(** ** A frame buffer four pixels wide *)

(** X22.  With a frame buffer whose width is 4 (modulo 2^32), every read
    that passes the guards of [fw_read] and of [efi_read] or [bios_read]
    reaches the division [size / (vidmode.framebuffer_width - 4)] of
    [pb_init] with the divisor 0, on BIOS and on UEFI alike: the read has
    no result. *)
Theorem fw_read_divides_by_zero_at_width_4
    (ST : bool) vm fb_bg disk bkp spc fat_lba data_lba pb
    (f : open_file) (offs size buf : Z) (m : bmem) (st : fat_state) :
  framebuffer_addr vm <> 0 -> u32 (framebuffer_width vm - 4) = 0 ->
  root_dir f <> 0 -> offs < fw_file_size f -> size <> 0 -> buf <> 0 ->
  (ST = true -> exists h, efi_handle f = Some h /\ io_error h = false) ->
  (ST = false -> 2 <= file_clu f) ->
  fw_read ST vm fb_bg disk bkp spc fat_lba data_lba pb f offs size buf m st = None.
Proof.
  intros Ha Hw Hroot Hin Hsize Hbuf Hefi Hbios.
  rewrite fw_read_inside by assumption.
  assert (Hsz : (if fw_file_size f <? u64 (offs + size)
                 then fw_file_size f - offs else size) <> 0).
  { destruct (fw_file_size f <? u64 (offs + size)); lia. }
  destruct ST.
  - destruct (Hefi eq_refl) as (h & Hh & He). unfold efi_read. rewrite Hh, He.
    replace ((fw_file_size f <=? offs) || (size =? 0) || (buf =? 0)) with false.
    2:{ symmetry. repeat apply orb_false_intro;
          [apply Z.leb_gt|apply Z.eqb_neq|apply Z.eqb_neq]; assumption. }
    rewrite pb_init_faults by assumption. reflexivity.
  - specialize (Hbios eq_refl). unfold bios_read.
    replace ((file_clu f <? 2) || (fw_file_size f <=? offs) || (size =? 0) || (buf =? 0))
      with false.
    2:{ symmetry. repeat apply orb_false_intro;
          [apply Z.ltb_ge|apply Z.leb_gt|apply Z.eqb_neq|apply Z.eqb_neq]; assumption. }
    rewrite pb_init_faults by assumption. reflexivity.
Qed.

Lemma fw_read_divides_by_zero_at_width_4_witness :
  fw_read false vidmode4 0 volume1 false 2 10 16 pbar0 file1 0 1500 1048576
    (fun _ => 0) (fat_state0 volume1 false 10) = None /\
  fw_read true vidmode4 0 volume1 false 2 10 16 pbar0 efi_file1 0 1500 1048576
    (fun _ => 0) (fat_state0 volume1 false 10) = None.
Proof.
  split.
  - apply (fw_read_divides_by_zero_at_width_4 false vidmode4 0 volume1 false 2 10 16
             pbar0 file1 0 1500 1048576); cbn; try lia; try reflexivity;
      try (intros H; discriminate H).
  - apply (fw_read_divides_by_zero_at_width_4 true vidmode4 0 volume1 false 2 10 16
             pbar0 efi_file1 0 1500 1048576); cbn; try lia; try reflexivity;
      try (intros H; discriminate H).
    intros _. exists efi_content1. split; reflexivity.
Defined.

(** ** The seek of [bios_read] with more than one sector per cluster *)

Section SeekFacts.

Variable vidmode : vidmode_t.
Variable fb_bg : Z.
Variable disk : Z -> list Z.
Variable bkp : bool.
Variable spc fat_lba data_lba : Z.

(** The seek to an offset in the last sector of the first cluster. *)
Lemma bios_seek_last_sector file_clu offs st :
  2 <= spc <= 255 -> 512 * (spc - 1) <= offs < 512 * spc ->
  bios_seek disk bkp spc fat_lba data_lba file_clu offs st
  = Some (Some (u64 (u32 (file_clu * spc + (spc - 1) - 1) + data_lba), file_clu, 0,
                offs mod 512, 512 - offs mod 512), st).
Proof.
  intros Hspc Hoffs. unfold bios_seek.
  destruct (offs =? 0) eqn:E; [apply Z.eqb_eq in E; lia|].
  rewrite Z.shiftl_mul_pow2 by lia. change (2 ^ 9) with 512.
  destruct (spc * 512 =? 0) eqn:Es; [apply Z.eqb_eq in Es; lia|].
  cbv zeta.
  rewrite (Z.div_small offs) by lia. rewrite (Z.mod_small offs (spc * 512)) by lia.
  change (u32 0) with 0. cbn [Z.eqb negb andb].
  assert (Hns : Z.shiftr offs 9 = spc - 1).
  { rewrite Z.shiftr_div_pow2 by lia. change (2 ^ 9) with 512.
    symmetry. apply (Z.div_unique offs 512 (spc - 1) (offs - 512 * (spc - 1))); lia. }
  rewrite Hns.
  assert (Hos : Z.land offs 511 = offs mod 512).
  { change 511 with (Z.ones 9). rewrite Z.land_ones by lia. reflexivity. }
  rewrite Hos.
  replace (u32 (spc - 1)) with (spc - 1) by (unfold u32; rewrite Z.mod_small; lia).
  replace (spc - (spc - 1) - 1) with 0 by lia. reflexivity.
Qed.

(** A read that starts in the last sector of the first cluster and ends
    in it: what is read is the first sector of the cluster. *)
Lemma bios_read_last_sector pb file_clu file_size offs size buf m st :
  2 <= spc <= 255 -> 0 <= data_lba < 2^63 ->
  512 * (spc - 1) <= offs < 512 * spc ->
  2 <= file_clu -> 0 < size <= 512 - offs mod 512 -> offs + size <= file_size ->
  buf <> 0 -> rq st = false ->
  (forall i, 0 <= i < size -> ~ in_progress_bar vidmode (buf + i)) ->
  pb_init_returns vidmode ->
  exists m' st',
    bios_read vidmode fb_bg disk bkp spc fat_lba data_lba pb file_clu file_size
      offs size buf m st = Some (size, m', st') /\
    forall i, 0 <= i < size ->
      m' (buf + i)
      = nth (Z.to_nat (offs mod 512 + i))
          (sector_of (disk (cluster_lba spc data_lba file_clu))) 0.
Proof.
  intros Hspc Hdlba Hoffs Hclu Hsize Hin Hbuf Hrq Hbar Hret.
  pose proof (Z.mod_pos_bound offs 512 ltac:(lia)) as Hos.
  unfold bios_read.
  replace ((file_clu <? 2) || (file_size <=? offs) || (size =? 0) || (buf =? 0))
    with false.
  2:{ symmetry. repeat (apply orb_false_intro);
        [apply Z.ltb_ge|apply Z.leb_gt|apply Z.eqb_neq|apply Z.eqb_neq]; lia. }
  replace (file_size <? u64 (offs + size)) with false
    by (symmetry; apply Z.ltb_ge; unfold u64; rewrite Z.mod_small; lia).
  destruct (pb_init_spec vidmode size pb m ltac:(lia) Hret)
    as (blk & pb1 & m0 & Hinit & _ & Hpb1 & _).
  rewrite Hinit, bios_seek_last_sector by assumption.
  destruct (Z.to_nat size) as [|fuel] eqn:Hfuel; [lia|].
  cbn [read_loop r_rem r_secleft r_clu r_os r_rs r_buf r_mem r_pb r_lba].
  rewrite Hrq, orb_false_r.
  replace (size =? 0) with false by (symmetry; apply Z.eqb_neq; lia).
  cbn [Z.eqb negb].
  replace (file_clu =? 0) with false by (symmetry; apply Z.eqb_neq; lia).
  destruct (bios_nextclu disk bkp fat_lba file_clu st) as [clu1 st1].
  replace (if size <? 512 - offs mod 512 then size else 512 - offs mod 512) with size
    by (destruct (size <? 512 - offs mod 512) eqn:E;
        [reflexivity|apply Z.ltb_ge in E; lia]).
  pose proof (sector_of_length (disk (cluster_lba spc data_lba file_clu))) as Hlen.
  unfold fw_loadsec at 1. cbv zeta.
  set (sec := sector_of (disk (cluster_lba spc data_lba file_clu))) in *.
  match goal with
  | |- context [pb_draw vidmode ?cu pb1 ?m1] =>
      set (m1' := m1);
      assert (Hm1 : forall i, 0 <= i < size ->
                m1' (buf + i) = nth (Z.to_nat (offs mod 512 + i)) sec 0);
      [|destruct (pb_draw_spec vidmode cu pb1 m1' Hpb1)
          as (pb2 & m2 & Hdraw & Hpb2 & Hsame); rewrite Hdraw]
  end.
  { intros i Hi. subst m1'. destruct (size <? 512) eqn:E.
    - rewrite store_bytes_get by (rewrite length_firstn, length_skipn, Hlen; lia).
      rewrite nth_firstn.
      replace (Z.to_nat (buf + i - buf)) with (Z.to_nat i) by lia.
      destruct (Z.to_nat i <? Z.to_nat size)%nat eqn:E2;
        [|apply Nat.ltb_ge in E2; lia].
      rewrite nth_skipn. f_equal. lia.
    - apply Z.ltb_ge in E. assert (Hos0 : offs mod 512 = 0) by lia.
      rewrite Hos0. cbn [Z.eqb].
      rewrite store_bytes_get by (rewrite Hlen; lia). f_equal. lia. }
  clearbody m1'.
  destruct fuel; cbn [read_loop r_rem r_mem r_pb]; rewrite Z.sub_diag; cbn [Z.eqb orb];
    (do 2 eexists; split; [rewrite Z.sub_0_r; reflexivity|];
     intros i Hi;
     rewrite (pb_fini_frame vidmode fb_bg pb2 m2 Hpb2) by (apply Hbar; lia);
     rewrite Hsame by (apply Hbar; lia); now apply Hm1).
Qed.

End SeekFacts.

(** X23.  The seek of [bios_read] on a volume with two or more sectors
    per cluster.  A read that starts in the last sector of the file's
    first cluster and ends in that sector returns [size], but the bytes it
    leaves in the buffer are those of the first sector of the cluster; the
    bytes of the file at that offset are in the cluster's last sector. *)
Theorem bios_read_seek_takes_first_sector
    vm fb_bg disk bkp spc fat_lba data_lba pb file_clu file_size offs size buf m st :
  2 <= spc <= 255 -> 0 <= data_lba < 2^63 ->
  512 * (spc - 1) <= offs < 512 * spc ->
  2 <= file_clu -> 0 < size <= 512 - offs mod 512 -> offs + size <= file_size ->
  buf <> 0 -> rq st = false ->
  (forall i, 0 <= i < size -> ~ in_progress_bar vm (buf + i)) ->
  pb_init_returns vm ->
  exists m' st',
    bios_read vm fb_bg disk bkp spc fat_lba data_lba pb file_clu file_size
      offs size buf m st = Some (size, m', st') /\
    forall i, 0 <= i < size ->
      m' (buf + i)
      = nth (Z.to_nat (offs mod 512 + i))
          (sector_of (disk (cluster_lba spc data_lba file_clu))) 0 /\
      file_byte disk spc fat_lba data_lba file_clu (offs + i)
      = nth (Z.to_nat (offs mod 512 + i))
          (sector_of (disk (cluster_lba spc data_lba file_clu + (spc - 1)))) 0.
Proof.
  intros Hspc Hdlba Hoffs Hclu Hsize Hin Hbuf Hrq Hbar Hret.
  destruct (bios_read_last_sector vm fb_bg disk bkp spc fat_lba data_lba pb file_clu
              file_size offs size buf m st)
    as (m' & st' & Hrun & Hcont); try assumption.
  exists m', st'. split; [exact Hrun|].
  intros i Hi. split; [now apply Hcont|].
  pose proof (Z.mod_pos_bound offs 512 ltac:(lia)) as Hos.
  pose proof (Z.div_mod offs 512 ltac:(lia)) as Hdm.
  assert (Hk : offs / 512 = spc - 1).
  { symmetry. apply (Z.div_unique offs 512 (spc - 1) (offs - 512 * (spc - 1))); lia. }
  replace (offs + i) with (512 * (spc - 1) + (offs mod 512 + i)) by lia.
  rewrite (file_byte_at disk spc fat_lba data_lba) by lia.
  rewrite (Z.div_small (spc - 1) spc), (Z.mod_small (spc - 1) spc) by lia.
  reflexivity.
Qed.

Lemma bios_read_seek_takes_first_sector_witness :
  exists m' st',
    bios_read vidmode1 0 volume1 false 2 10 16 pbar0 3 1500 512 512 1048576
      (fun _ => 0) (fat_state0 volume1 false 10) = Some (512, m', st') /\
    forall i, 0 <= i < 512 ->
      m' (1048576 + i)
      = nth (Z.to_nat (512 mod 512 + i)) (sector_of (volume1 (cluster_lba 2 16 3))) 0 /\
      file_byte volume1 2 10 16 3 (512 + i)
      = nth (Z.to_nat (512 mod 512 + i))
          (sector_of (volume1 (cluster_lba 2 16 3 + (2 - 1)))) 0.
Proof.
  apply (bios_read_seek_takes_first_sector vidmode1 0 volume1 false 2 10 16 pbar0 3
           1500 512 512 1048576 (fun _ => 0) (fat_state0 volume1 false 10)).
  - lia.
  - lia.
  - lia.
  - lia.
  - change (512 mod 512) with 0. lia.
  - lia.
  - lia.
  - reflexivity.
  - intros i Hi. apply below_progress_bar.
    + vm_compute. discriminate.
    + vm_compute. discriminate.
    + replace (pb_start vidmode1) with 4244635752 by (vm_compute; reflexivity). lia.
  - right. vm_compute. discriminate.
Defined.

(** On [volume1] the second sector of the file is sector 23; the read
    from offset 512 returns the bytes of sector 22. *)
Example bios_read_volume1_from_512 :
  option_map (fun r => (fst (fst r),
                        List.map (fun i => snd (fst r) (1048576 + i)) [0; 511; 512]))
    (bios_read vidmode1 0 volume1 false 2 10 16 pbar0 3 1500 512 512 1048576
       (fun _ => 0) (fat_state0 volume1 false 10))
  = Some (512, [22; 22; 0]) /\
  List.map (file_byte volume1 2 10 16 3) [512; 1023] = [23; 23].
Proof. split; vm_compute; reflexivity. Qed.
(** ** The tables [bios_pagetables] builds *)

Lemma index_of_shift virt shift :
  0 <= shift -> Z.land (Z.shiftr virt shift) 511 = (virt / 2 ^ shift) mod 512.
Proof.
  intros Hs. rewrite Z.shiftr_div_pow2 by lia.
  change 511 with (Z.ones 9). now rewrite Z.land_ones by lia.
Qed.

Lemma page_down_flags page flags :
  page mod 4096 = 0 -> 0 <= flags < 4096 -> page_down (page + flags) = page.
Proof.
  intros Hp Hf. unfold page_down.
  rewrite Z.add_mod, Hp, Z.add_0_l, Z.mod_mod, Z.mod_small by lia. lia.
Qed.

Lemma land_bit7 x : 0 <= x -> (x / 128) mod 2 = 1 -> Z.land x 128 = 128.
Proof.
  intros Hx Hb. apply Z.bits_inj'. intros n Hn. rewrite Z.land_spec.
  change 128 with (2 ^ 7). destruct (Z.eq_dec n 7) as [->|Hne].
  - rewrite Z.pow2_bits_true, andb_true_r by lia.
    apply Z.testbit_true; [lia|exact Hb].
  - rewrite Z.pow2_bits_false, andb_false_r by lia. reflexivity.
Qed.

(** X9.  [bios_pagetables(g)] maps the first [g] gigabytes one to one with
    2 MiB pages: the walk for an address below [g] GiB goes through
    [pt[0]] and the 1 GiB table to a 2 MiB entry that holds the address of
    its own 2 MiB frame, present, writable and large (0x83). *)
Theorem bios_pagetables_identity pt g m virt :
  pt mod 4096 = 0 -> 0 <= pt ->
  1 <= g <= 512 -> 0 <= virt < g * 2^30 ->
  lookup_2m pt (bios_pagetables pt g m) virt = Some (virt - virt mod 2^21 + 131).
Proof.
  intros Hpt Hpt0 Hg Hv.
  assert (H39 : virt / 2 ^ 39 = 0) by (apply Z.div_small; lia).
  pose proof (Z.div_mod virt (2^30) ltac:(lia)) as Hd30.
  pose proof (Z.mod_pos_bound virt (2^30) ltac:(lia)) as Hm30.
  assert (Hi3 : 0 <= virt / 2 ^ 30 < g).
  { split; [apply Z.div_pos; lia|apply Z.div_lt_upper_bound; lia]. }
  pose proof (Z.div_mod virt (2^21) ltac:(lia)) as Hd21.
  pose proof (Z.mod_pos_bound virt (2^21) ltac:(lia)) as Hm21.
  assert (Hi2 : 0 <= virt / 2 ^ 21 < g * 512).
  { split; [apply Z.div_pos; lia|apply Z.div_lt_upper_bound; lia]. }
  assert (Hsplit : virt / 2 ^ 21 = virt / 2 ^ 30 * 512 + (virt / 2 ^ 21) mod 512).
  { pose proof (Z.div_mod (virt / 2 ^ 21) 512 ltac:(lia)) as H.
    rewrite Z.div_div in H by lia. change (2 ^ 21 * 512) with (2 ^ 30) in H. lia. }
  pose proof (Z.mod_pos_bound (virt / 2 ^ 21) 512 ltac:(lia)) as Hm2.
  unfold lookup_2m, entry_addr.
  rewrite !index_of_shift by lia. rewrite H39. change (0 mod 512) with 0.
  rewrite Z.mul_0_r, Z.add_0_r.
  rewrite (Z.mod_small (virt / 2 ^ 30) 512) by lia.
  (* the 512 GiB entry *)
  assert (E4 : bios_pagetables pt g m pt = pt + 4096 + 3).
  { unfold bios_pagetables, fill_table, store.
    replace ((pt + 8 * 1024 <=? pt) && _ && _) with false
      by (symmetry; apply andb_false_iff; left; apply andb_false_iff; left;
          apply Z.leb_gt; lia).
    replace ((pt + 8 * 512 <=? pt) && _ && _) with false
      by (symmetry; apply andb_false_iff; left; apply andb_false_iff; left;
          apply Z.leb_gt; lia).
    now rewrite Z.eqb_refl. }
  rewrite E4.
  destruct (pt + 4096 + 3 =? 0) eqn:E; [apply Z.eqb_eq in E; lia|].
  replace (pt + 4096 + 3) with ((pt + 4096) + 3) by lia.
  rewrite page_down_flags
    by (try lia; rewrite Z.add_mod, Hpt by lia; reflexivity).
  (* the 1 GiB entry *)
  set (i3 := virt / 2 ^ 30) in *.
  assert (E3 : bios_pagetables pt g m (pt + 4096 + 8 * i3) = pt + (i3 + 2) * 4096 + 3).
  { unfold bios_pagetables, fill_table.
    replace ((pt + 8 * 1024 <=? pt + 4096 + 8 * i3) && _ && _) with false
      by (symmetry; apply andb_false_iff; left; apply andb_false_iff; left;
          apply Z.leb_gt; lia).
    replace (pt + 4096 + 8 * i3 - (pt + 8 * 512)) with (i3 * 8) by lia.
    rewrite Z.mod_mul, Z.div_mul by lia.
    replace ((pt + 8 * 512 <=? pt + 4096 + 8 * i3)
             && (pt + 4096 + 8 * i3 <? pt + 8 * 512 + 8 * g) && (0 =? 0)) with true
      by (symmetry; repeat (apply andb_true_iff; split);
          [apply Z.leb_le; lia|apply Z.ltb_lt; lia|reflexivity]).
    reflexivity. }
  rewrite E3.
  destruct (pt + (i3 + 2) * 4096 + 3 =? 0) eqn:E'; [apply Z.eqb_eq in E'; lia|].
  rewrite page_down_flags
    by (try lia; rewrite Z.add_mod, Hpt, Z.mod_mul by lia; reflexivity).
  (* the 2 MiB entry *)
  set (i2 := (virt / 2 ^ 21) mod 512) in *.
  assert (E2 : bios_pagetables pt g m (pt + (i3 + 2) * 4096 + 8 * i2)
               = virt / 2 ^ 21 * 2 * 1024 * 1024 + 131).
  { unfold bios_pagetables, fill_table.
    replace (pt + (i3 + 2) * 4096 + 8 * i2 - (pt + 8 * 1024))
      with ((i3 * 512 + i2) * 8) by lia.
    rewrite Z.mod_mul, Z.div_mul by lia.
    replace ((pt + 8 * 1024 <=? pt + (i3 + 2) * 4096 + 8 * i2)
             && (pt + (i3 + 2) * 4096 + 8 * i2 <? pt + 8 * 1024 + 8 * (g * 512))
             && (0 =? 0)) with true
      by (symmetry; repeat (apply andb_true_iff; split);
          [apply Z.leb_le; lia|apply Z.ltb_lt; lia|reflexivity]).
    rewrite <- Hsplit. reflexivity. }
  rewrite E2.
  replace (virt / 2 ^ 21 * 2 * 1024 * 1024 + 131)
    with (virt - virt mod 2 ^ 21 + 131) by lia.
  assert (Hbit : Z.land (virt - virt mod 2 ^ 21 + 131) 128 = 128).
  { apply land_bit7; [lia|].
    replace (virt - virt mod 2 ^ 21 + 131)
      with (3 + (1 + virt / 2 ^ 21 * 2 ^ 13 * 2) * 128) by lia.
    rewrite Z.div_add by lia. change (3 / 128) with 0. rewrite Z.add_0_l.
    replace (1 + virt / 2 ^ 21 * 2 ^ 13 * 2) with (1 + (virt / 2 ^ 21 * 2 ^ 13) * 2) by lia.
    rewrite Z.mod_add by lia. reflexivity. }
  rewrite Hbit. reflexivity.
Qed.

Lemma bios_pagetables_identity_witness :
  lookup_2m 4096 (bios_pagetables 4096 5 (fun _ => 0)) 3221225985
  = Some (3221225985 - 3221225985 mod 2^21 + 131).
Proof.
  apply (bios_pagetables_identity 4096 5 (fun _ => 0) 3221225985); try reflexivity; lia.
Defined.

(** ** The video mode [fb_lfb] picks *)

Lemma best_mode_spec width height bpp : forall modes i bm bw bh pre,
  i = Z.of_nat (List.length pre) ->
  Z.of_nat (List.length (pre ++ modes)) < no_mode ->
  (bm = no_mode /\ bw = 0 /\ bh = 0 \/
   (exists mode, nth_error pre (Z.to_nat bm) = Some mode /\ 0 <= bm /\
                 mode_fits width height bpp mode /\
                 bw = vm_width mode /\ bh = vm_height mode)) ->
  Forall (fun mode => mode_fits width height bpp mode ->
                      ~ (bw < vm_width mode /\ bh < vm_height mode)) pre ->
  let '(bm', bw', bh') := best_mode modes i width height bpp bm bw bh in
  (bm' = no_mode /\ bw' = 0 /\ bh' = 0 \/
   (exists mode, nth_error (pre ++ modes) (Z.to_nat bm') = Some mode /\ 0 <= bm' /\
                 mode_fits width height bpp mode /\
                 bw' = vm_width mode /\ bh' = vm_height mode)) /\
  Forall (fun mode => mode_fits width height bpp mode ->
                      ~ (bw' < vm_width mode /\ bh' < vm_height mode)) (pre ++ modes) /\
  bw <= bw' /\ bh <= bh'.
Proof.
  induction modes as [|mode rest IH]; intros i bm bw bh pre Hi Hlen Hbest Hpre.
  - cbn [best_mode]. cbv iota beta. rewrite app_nil_r.
    split; [exact Hbest|]. split; [exact Hpre|]. lia.
  - cbn [best_mode].
    assert (Hi' : u32 (i + 1) = Z.of_nat (List.length (pre ++ [mode]))).
    { rewrite length_app. cbn [List.length]. unfold u32.
      rewrite length_app in Hlen. cbn [List.length] in Hlen. unfold no_mode in Hlen.
      rewrite Z.mod_small by lia. lia. }
    assert (Hlen' : Z.of_nat (List.length ((pre ++ [mode]) ++ rest)) < no_mode)
      by (rewrite <- app_assoc; exact Hlen).
    replace (pre ++ mode :: rest) with ((pre ++ [mode]) ++ rest)
      by (now rewrite <- app_assoc).
    destruct ((bpp =? vm_bpp mode) && (vm_width mode <=? width)
              && (vm_height mode <=? height) && (bw <? vm_width mode)
              && (bh <? vm_height mode)) eqn:E.
    + repeat (apply andb_true_iff in E; destruct E as [E ?]).
      apply Z.eqb_eq in E. apply Z.leb_le in H2, H1. apply Z.ltb_lt in H0, H.
      specialize (IH (u32 (i + 1)) i (vm_width mode) (vm_height mode) (pre ++ [mode])
                     Hi' Hlen').
      destruct (best_mode rest (u32 (i + 1)) width height bpp i (vm_width mode)
                  (vm_height mode)) as [[bm' bw'] bh'].
      destruct IH as (Hb & Hall & Hw & Hh).
      * right. exists mode. subst i. rewrite Nat2Z.id.
        rewrite nth_error_app2, Nat.sub_diag by lia.
        repeat split; try reflexivity; try lia; now symmetry.
      * apply Forall_app. split.
        -- eapply Forall_impl; [|exact Hpre]. cbv beta. intros m Hm Hfit.
           specialize (Hm Hfit). lia.
        -- constructor; [|constructor]. intros _. lia.
      * repeat split; try assumption; lia.
    + specialize (IH (u32 (i + 1)) bm bw bh (pre ++ [mode]) Hi' Hlen').
      destruct (best_mode rest (u32 (i + 1)) width height bpp bm bw bh)
        as [[bm' bw'] bh'].
      destruct IH as (Hb & Hall & Hw & Hh).
      * destruct Hbest as [Hno|(m & Hnth & Hbm0 & Hfit & Hbw & Hbh)]; [left; exact Hno|].
        right. exists m. split; [|split; [assumption|split; [assumption|split; assumption]]].
        rewrite nth_error_app1; [exact Hnth|].
        apply nth_error_Some. congruence.
      * apply Forall_app. split; [exact Hpre|].
        constructor; [|constructor]. intros (Hb1 & Hb2 & Hb3) [Hlt1 Hlt2].
        apply andb_false_iff in E. destruct E as [E|E]; [|apply Z.ltb_ge in E; lia].
        apply andb_false_iff in E. destruct E as [E|E]; [|apply Z.ltb_ge in E; lia].
        apply andb_false_iff in E. destruct E as [E|E]; [|apply Z.leb_gt in E; lia].
        apply andb_false_iff in E. destruct E as [E|E]; [|apply Z.leb_gt in E; lia].
        apply Z.eqb_neq in E. congruence.
      * repeat split; assumption.
Qed.

(** X10.  What [fb_lfb] sets.  When the firmware lists a mode of the
    requested depth that is no larger than the request, and accepts the
    mode it is asked for, the new video mode is one of the listed modes:
    it has the requested depth, is no wider and no higher than requested,
    and no listed mode that fits the request is both wider and higher.
    When no listed mode fits, the video mode is left as it was. *)
Theorem fb_lfb_picks_fitting_mode modes lfb setmode width height bpp vidmode :
  Z.of_nat (List.length modes) < 65536 ->
  320 <= width -> 200 <= height -> 15 <= bpp ->
  (forall i, setmode i = true) ->
  let vm' := fst (fb_lfb modes lfb setmode width height bpp vidmode) in
  ((exists mode, In mode modes /\ mode_fits width height bpp mode /\
                 0 < vm_width mode /\ 0 < vm_height mode) ->
   (exists mode, In mode modes /\ mode_fits width height bpp mode /\
                 framebuffer_addr vm' = lfb /\
                 framebuffer_width vm' = vm_width mode /\
                 framebuffer_height vm' = vm_height mode /\
                 framebuffer_pitch vm' = vm_pitch mode /\
                 framebuffer_bpp vm' = bpp) /\
   Forall (fun mode => mode_fits width height bpp mode ->
             ~ (framebuffer_width vm' < vm_width mode /\
                framebuffer_height vm' < vm_height mode)) modes) /\
  (Forall (fun mode => ~ mode_fits width height bpp mode) modes -> vm' = vidmode).
Proof.
  intros Hlen Hw Hh Hb Hset. cbv zeta. unfold fb_lfb.
  replace ((width <? 320) || (height <? 200) || (bpp <? 15)) with false
    by (symmetry; repeat apply orb_false_intro; apply Z.ltb_ge; lia).
  pose proof (best_mode_spec width height bpp modes 0 no_mode 0 0 [] eq_refl) as Hspec.
  cbn [app] in Hspec.
  specialize (Hspec ltac:(unfold no_mode; lia) ltac:(left; repeat split) ltac:(constructor)).
  destruct (best_mode modes 0 width height bpp no_mode 0 0) as [[bm bw] bh].
  destruct Hspec as (Hbest & Hall & _ & _). rewrite Hset, andb_true_r.
  split.
  - intros (mode & Hin & Hfit & Hpw & Hph).
    destruct Hbest as [(Hno & Hbw & Hbh)|(m & Hnth & Hbm & Hfitm & Hbw & Hbh)].
    { rewrite Forall_forall in Hall. specialize (Hall mode Hin Hfit). subst bw bh. lia. }
    assert (Hne : (bm =? no_mode) = false).
    { apply Z.eqb_neq. intros ->.
      assert (Hl : (Z.to_nat no_mode < List.length modes)%nat)
        by (apply nth_error_Some; congruence).
      unfold no_mode in Hl. lia. }
    rewrite Hne. cbn [negb].
    rewrite (nth_error_nth _ _ _ Hnth).
    destruct Hfitm as (Hf1 & Hf2 & Hf3).
    split.
    + exists m. split; [eapply nth_error_In; exact Hnth|].
      split; [repeat split; assumption|].
      destruct (vm_bpp m =? 15); [cbn; repeat split; assumption|].
      destruct (vm_bpp m =? 16); cbn; repeat split; assumption.
    + replace (framebuffer_width (fst _)) with bw.
      2:{ destruct (vm_bpp m =? 15); [cbn; assumption|].
          destruct (vm_bpp m =? 16); cbn; assumption. }
      replace (framebuffer_height (fst _)) with bh.
      2:{ destruct (vm_bpp m =? 15); [cbn; assumption|].
          destruct (vm_bpp m =? 16); cbn; assumption. }
      exact Hall.
  - intros Hnone.
    destruct Hbest as [(Hno & _ & _)|(m & Hnth & _ & Hfitm & _)].
    + subst bm. rewrite Z.eqb_refl. reflexivity.
    + rewrite Forall_forall in Hnone.
      exfalso. apply (Hnone m); [eapply nth_error_In; exact Hnth|exact Hfitm].
Qed.

Lemma fb_lfb_picks_fitting_mode_witness :
  let vm' := fst (fb_lfb modes0 4244635648 (fun _ => true) 1024 768 32 vidmode0) in
  (exists mode, In mode modes0 /\ mode_fits 1024 768 32 mode /\
                framebuffer_addr vm' = 4244635648 /\
                framebuffer_width vm' = vm_width mode /\
                framebuffer_height vm' = vm_height mode /\
                framebuffer_pitch vm' = vm_pitch mode /\
                framebuffer_bpp vm' = 32) /\
  Forall (fun mode => mode_fits 1024 768 32 mode ->
            ~ (framebuffer_width vm' < vm_width mode /\
               framebuffer_height vm' < vm_height mode)) modes0.
Proof.
  apply (fb_lfb_picks_fitting_mode modes0 4244635648 (fun _ => true) 1024 768 32 vidmode0);
    try (cbn; lia); try reflexivity.
  exists {| vm_width := 800; vm_height := 600; vm_pitch := 3200; vm_bpp := 32;
            vm_red := 16; vm_green := 8; vm_blue := 0 |}.
  split; [cbn; tauto|]. unfold mode_fits. cbn. lia.
Defined.

(** ** Colour fields from pixel masks *)

Lemma land_pow2 a k :
  0 <= k -> (Z.land a (2 ^ k) =? 0) = negb (Z.testbit a k).
Proof.
  intros Hk. destruct (Z.testbit a k) eqn:E; cbn [negb].
  - apply Z.eqb_neq. intros H.
    assert (Ht : Z.testbit (Z.land a (2 ^ k)) k = true).
    { rewrite Z.land_spec, E, Z.pow2_bits_true by lia. reflexivity. }
    rewrite H, Z.bits_0 in Ht. discriminate.
  - apply Z.eqb_eq. apply Z.bits_inj'. intros n Hn.
    rewrite Z.land_spec, Z.bits_0.
    destruct (Z.eq_dec n k) as [->|Hne].
    + now rewrite E.
    + rewrite Z.pow2_bits_false by lia. apply andb_false_r.
Qed.

Lemma field_mask_bit position size k :
  0 <= position -> 0 <= size -> 0 <= k ->
  Z.testbit (field_mask position size) k
  = (position <=? k) && (k <? position + size).
Proof.
  intros Hp Hs Hk. unfold field_mask. rewrite Z.shiftl_spec by lia.
  destruct (position <=? k) eqn:E1; cbn [andb].
  - apply Z.leb_le in E1. destruct (k <? position + size) eqn:E2.
    + apply Z.ltb_lt in E2. apply Z.ones_spec_low. lia.
    + apply Z.ltb_ge in E2. apply Z.ones_spec_high. lia.
  - apply Z.leb_gt in E1. apply Z.testbit_neg_r. lia.
Qed.

Lemma gop_field_position_skips position size : forall fuel p,
  0 <= position -> 1 <= size -> position + size <= 32 ->
  0 <= p <= position -> (Z.to_nat (position - p) < fuel)%nat ->
  gop_field_position fuel (field_mask position size) p = Some position.
Proof.
  induction fuel as [|fuel IH]; intros p Hp Hs Hsum Hpp Hfuel; [lia|].
  cbn [gop_field_position]. unfold mask_bit.
  replace ((0 <=? p) && (p <=? 31)) with true
    by (symmetry; apply andb_true_iff; split; apply Z.leb_le; lia).
  rewrite land_pow2, negb_involutive, field_mask_bit by lia.
  destruct (Z.eq_dec p position) as [->|Hne].
  - replace ((position <=? position) && (position <? position + size)) with true
      by (symmetry; apply andb_true_iff; split; [apply Z.leb_le|apply Z.ltb_lt]; lia).
    reflexivity.
  - replace ((position <=? p) && (p <? position + size)) with false
      by (symmetry; apply andb_false_iff; left; apply Z.leb_gt; lia).
    replace (u8 (p + 1)) with (p + 1) by (unfold u8; rewrite Z.mod_small; lia).
    apply IH; lia.
Qed.

Lemma gop_mask_size_counts position size : forall fuel s,
  0 <= position -> 1 <= size -> position + size <= 31 ->
  0 <= s <= size -> (Z.to_nat (size - s) < fuel)%nat ->
  gop_mask_size fuel (field_mask position size) position s = Some size.
Proof.
  induction fuel as [|fuel IH]; intros s Hp Hs Hsum Hss Hfuel; [lia|].
  cbn [gop_mask_size]. unfold mask_bit.
  replace ((0 <=? position + s) && (position + s <=? 31)) with true
    by (symmetry; apply andb_true_iff; split; apply Z.leb_le; lia).
  rewrite land_pow2, negb_involutive, field_mask_bit by lia.
  destruct (Z.eq_dec s size) as [->|Hne].
  - replace ((position <=? position + size) && (position + size <? position + size))
      with false by (symmetry; apply andb_false_iff; right; apply Z.ltb_ge; lia).
    reflexivity.
  - replace ((position <=? position + s) && (position + s <? position + size)) with true
      by (symmetry; apply andb_true_iff; split; [apply Z.leb_le|apply Z.ltb_lt]; lia).
    replace (u8 (s + 1)) with (s + 1) by (unfold u8; rewrite Z.mod_small; lia).
    apply IH; lia.
Qed.

Lemma gop_depth_top m : forall fuel b h,
  0 <= h -> 2 ^ h <= m < 2 ^ (h + 1) -> h < b -> (Z.to_nat (b - h) <= fuel)%nat ->
  gop_depth fuel m b = h + 1.
Proof.
  induction fuel as [|fuel IH]; intros b h Hh Hm Hb Hfuel; [lia|].
  cbn [gop_depth].
  replace (0 <? b) with true by (symmetry; apply Z.ltb_lt; lia). cbn [andb].
  rewrite land_pow2 by lia.
  destruct (Z.eq_dec b (h + 1)) as [->|Hne].
  - replace (h + 1 - 1) with h by lia.
    assert (Ht : Z.testbit m h = true).
    { apply Z.testbit_true; [lia|].
      assert (Hq : m / 2 ^ h = 1).
      { symmetry. apply (Z.div_unique_pos m (2 ^ h) 1 (m - 2 ^ h)); [|lia].
        rewrite Z.pow_add_r, Z.pow_1_r in Hm by lia. lia. }
      rewrite Hq. reflexivity. }
    rewrite Ht. reflexivity.
  - assert (Ht : Z.testbit m (b - 1) = false).
    { apply Z.bits_above_log2; [lia|].
      apply Z.log2_lt_pow2; [lia|].
      eapply Z.lt_le_trans; [apply Hm|]. apply Z.pow_le_mono_r; lia. }
    rewrite Ht. cbn [negb]. apply IH with (h := h); lia.
Qed.

(** X11.  What [efi_gop] reads off the pixel masks of a bit-mask format.
    For a colour field of [size] bits at bit [position] that ends below
    bit 31, the two counting loops find exactly [position] and [size]
    again; and the depth is one more than the highest bit set in the three
    colour masks taken together. *)
Theorem efi_gop_mask_fields position size m h :
  0 <= position -> 1 <= size -> position + size <= 31 ->
  0 <= h < 32 -> 2 ^ h <= m < 2 ^ (h + 1) ->
  gop_field_position 256 (field_mask position size) 0 = Some position /\
  gop_mask_size 256 (field_mask position size) position 0 = Some size /\
  gop_depth 32 m 32 = h + 1.
Proof.
  intros Hp Hs Hsum Hh Hm. split; [|split].
  - apply gop_field_position_skips; lia.
  - apply gop_mask_size_counts; lia.
  - apply gop_depth_top with (h := h); lia.
Qed.

Lemma efi_gop_mask_fields_witness :
  gop_field_position 256 (field_mask 16 8) 0 = Some 16 /\
  gop_mask_size 256 (field_mask 16 8) 16 0 = Some 8 /\
  gop_depth 32 16777215 32 = 23 + 1.
Proof. apply (efi_gop_mask_fields 16 8 16777215 23); cbn; lia. Defined.

(** ** [fw_open] reads the names the image builder writes *)

Lemma all_below_spec (P : Z -> bool) : forall k base,
  all_below k base P = true ->
  forall u, base * 2 ^ Z.of_nat k <= u < (base + 1) * 2 ^ Z.of_nat k -> P u = true.
Proof.
  induction k as [|k IH]; intros base H u Hu.
  - cbn in H, Hu. replace u with base by lia. exact H.
  - cbn [all_below] in H. apply andb_true_iff in H. destruct H as [H0 H1].
    replace (Z.of_nat (S k)) with (Z.of_nat k + 1) in Hu by lia.
    rewrite Z.pow_add_r, Z.pow_1_r in Hu by lia.
    destruct (Z.lt_ge_cases u ((2 * base + 1) * 2 ^ Z.of_nat k)) as [Hlo|Hhi].
    + apply (IH (2 * base) H0). lia.
    + apply (IH (2 * base + 1) H1). lia.
Qed.

Lemma decodes_back_all u : 0 <= u < 65536 -> plain_wchar u = true -> decodes_back u = true.
Proof.
  intros Hu Hp.
  assert (H : all_below 16 0 (fun u => negb (plain_wchar u) || decodes_back u) = true)
    by (vm_compute; reflexivity).
  pose proof (all_below_spec _ 16 0 H u ltac:(cbn; lia)) as Hb. cbv beta in Hb.
  rewrite Hp in Hb. exact Hb.
Qed.

Lemma at_0 a l : at_ (a :: l) 0 = a.
Proof. reflexivity. Qed.
Lemma at_1 a b l : at_ (a :: b :: l) 1 = b.
Proof. reflexivity. Qed.
Lemma at_2 a b c l : at_ (a :: b :: c :: l) 2 = c.
Proof. reflexivity. Qed.

Lemma upper_not_special u :
  plain_wchar u = true -> 128 <= u -> upper u = u.
Proof.
  intros _ Hu. unfold upper. change (ch "a") with 97. change (ch "z") with 122.
  replace ((97 <=? u) && (u <=? 122)) with false; [reflexivity|].
  symmetry. apply andb_false_iff. right. apply Z.leb_gt. lia.
Qed.

(** One character: the decoder takes exactly the bytes the builder wrote
    for it and stores the character (an ASCII letter in upper case). *)
Lemma fw_open_char_utf8 u t :
  plain_wchar u = true ->
  fw_open_char (utf8_of_wchar u ++ t) = Some (upper u, utf8_of_wchar u, t) /\
  is_word_end (deref (utf8_of_wchar u ++ t)) = false.
Proof.
  intros Hp.
  assert (Hu : 0 <= u < 65536).
  { unfold plain_wchar in Hp. repeat (apply andb_true_iff in Hp; destruct Hp as [Hp ?]).
    apply Z.ltb_lt in Hp, H3. lia. }
  pose proof (decodes_back_all u Hu Hp) as Hd.
  unfold decodes_back in Hd. cbv zeta in Hd.
  apply andb_true_iff in Hd. destruct Hd as [Hw Hd]. apply negb_true_iff in Hw.
  unfold utf8_of_wchar in *.
  destruct (u <? 128) eqn:E1.
  - cbn [app] in *. rewrite ?at_0 in *.
    fold (upper u) in *.
    repeat (apply andb_true_iff in Hd; destruct Hd as [Hd ?]).
    apply negb_true_iff in H0.
    split; [|exact Hw].
    unfold fw_open_char. rewrite ?at_0.
    rewrite Hd. cbn [negb]. cbv iota.
    unfold advance_in. cbn [List.length Nat.leb skipn Nat.sub firstn].
    rewrite H0. cbn [andb]. reflexivity.
  - destruct (u <? 2048) eqn:E2.
    + cbn [app] in *. rewrite ?at_0, ?at_1 in *.
      repeat (apply andb_true_iff in Hd; destruct Hd as [Hd ?]).
      apply Z.eqb_eq in H. split; [|exact Hw].
      unfold fw_open_char. rewrite ?at_0, ?at_1.
      rewrite Hd, H0, H. cbv iota.
      unfold advance_in. cbn [List.length Nat.leb skipn Nat.sub firstn].
      apply Z.ltb_ge in E1.
      replace (u =? ch "\") with false
        by (symmetry; apply Z.eqb_neq; change (ch "\") with 92; lia).
      cbn [andb]. rewrite upper_not_special by (assumption || lia). reflexivity.
    + cbn [app] in *. rewrite ?at_0, ?at_1, ?at_2 in *.
      repeat (apply andb_true_iff in Hd; destruct Hd as [Hd ?]).
      apply Z.eqb_eq in H. apply negb_true_iff in H1. split; [|exact Hw].
      unfold fw_open_char. rewrite ?at_0, ?at_1, ?at_2.
      rewrite Hd, H1, H0, H. cbv iota.
      unfold advance_in. cbn [List.length Nat.leb skipn Nat.sub firstn].
      apply Z.ltb_ge in E2.
      replace (u =? ch "\") with false
        by (symmetry; apply Z.eqb_neq; change (ch "\") with 92; lia).
      cbn [andb]. rewrite upper_not_special by (assumption || lia). reflexivity.
Qed.

(** X12.  [fw_open] undoes the image builder's UTF-8.  For a name of
    16-bit characters without blanks, line ends or backslashes that fits
    [wcname], the bytes the builder writes for it, ended by a blank, a line
    end or the terminator, are turned back into the same characters, ASCII
    letters in upper case as the builder wrote them, and the path buffer
    is left as it was. *)
Theorem fw_open_reads_builder_utf8 (name rest : list Z) :
  Forall (fun u => plain_wchar u = true) name ->
  (List.length name <= PATH_MAX - 2)%nat ->
  is_word_end (deref rest) = true ->
  fw_open_wcname (PATH_MAX - 2) (flat_map utf8_of_wchar name ++ rest)
  = Some (List.map upper name, flat_map utf8_of_wchar name ++ rest).
Proof.
  intros Hname Hlen Hrest.
  generalize dependent (PATH_MAX - 2)%nat.
  induction Hname as [|u name Hu _ IH]; intros n Hlen.
  - cbn [flat_map app List.map]. destruct n; cbn [fw_open_wcname]; [reflexivity|].
    now rewrite Hrest.
  - cbn [List.length] in Hlen. destruct n as [|n]; [lia|].
    cbn [flat_map List.map fw_open_wcname]. rewrite <- app_assoc.
    destruct (fw_open_char_utf8 u (flat_map utf8_of_wchar name ++ rest) Hu) as [Hc Hw].
    rewrite Hw, Hc, IH by lia. reflexivity.
Qed.

Lemma fw_open_reads_builder_utf8_witness :
  fw_open_wcname (PATH_MAX - 2)
    (flat_map utf8_of_wchar [107; 233; 114; 110; 8364; 108] ++ lit " quiet")
  = Some (List.map upper [107; 233; 114; 110; 8364; 108],
          flat_map utf8_of_wchar [107; 233; 114; 110; 8364; 108] ++ lit " quiet").
Proof.
  apply (fw_open_reads_builder_utf8 [107; 233; 114; 110; 8364; 108] (lit " quiet")).
  - repeat constructor.
  - cbn. lia.
  - reflexivity.
Defined.

(** X13.  A four-byte UTF-8 sequence is not taken as a whole.  At a lead
    byte 0xF0..0xF7 the loop stores one character but adds 3 to the lead
    byte in the path buffer instead of to the pointer, so the pointer moves
    on by one byte only and the three continuation bytes are decoded again
    as characters of their own. *)
Theorem fw_open_four_byte_lead (c0 : Z) (rest : list Z) :
  240 <= c0 < 248 -> (3 <= List.length rest)%nat -> deref rest <> SP ->
  exists c, fw_open_char (c0 :: rest) = Some (c, [c0 + 3], rest).
Proof.
  intros Hc Hlen Hsp.
  assert (Hbits : negb (Z.land c0 128 =? 0) && negb (Z.land c0 32 =? 0)
                  && negb (Z.land c0 16 =? 0) && (Z.land c0 8 =? 0) = true).
  { assert (H : c0 = 240 \/ c0 = 241 \/ c0 = 242 \/ c0 = 243 \/ c0 = 244 \/
                c0 = 245 \/ c0 = 246 \/ c0 = 247) by lia.
    repeat (destruct H as [->|H]; [reflexivity|]). subst c0. reflexivity. }
  repeat (apply andb_true_iff in Hbits; destruct Hbits as [Hbits ?]).
  apply negb_true_iff in Hbits, H0, H1.
  unfold fw_open_char. rewrite at_0, Hbits, H1, H0, H. cbn [negb]. cbv iota.
  cbn [List.length].
  replace (3 <=? S (List.length rest))%nat with true
    by (symmetry; apply Nat.leb_le; lia).
  unfold advance_in. cbn [List.length Nat.leb skipn Nat.sub firstn].
  replace (deref rest =? SP) with false by (symmetry; apply Z.eqb_neq; exact Hsp).
  rewrite andb_false_r.
  replace (u8 (c0 + 3)) with (c0 + 3) by (unfold u8; rewrite Z.mod_small; lia).
  eexists. reflexivity.
Qed.

Lemma fw_open_four_byte_lead_witness :
  exists c, fw_open_char (240 :: [159; 152; 128; 46; 98]) = Some (c, [240 + 3], [159; 152; 128; 46; 98]).
Proof.
  apply (fw_open_four_byte_lead 240 [159; 152; 128; 46; 98]).
  - lia.
  - cbn. lia.
  - discriminate.
Defined.

(** ** The sectors of a cluster *)

(** X14.  The volume geometry.  When [bios_init] accepts a volume (boot
    signature, 512-byte sectors, a cluster size, no 16-bit FAT size but a
    32-bit one) whose FATs and reserved sectors together are at least two
    clusters long, the FAT starts after the reserved sectors and cluster
    [clu] is read from sector [(clu - 2) * spc] of the data area that
    follows the FATs, as the FAT32 layout has it. *)
Theorem bios_init_cluster_layout vbr root_dir g clu :
  bios_init_volume vbr root_dir = Some g ->
  0 <= root_dir < 2^32 ->
  0 <= bpb_rsc vbr -> 0 <= bpb_nf vbr -> 0 <= bpb_spf32 vbr -> 0 <= bpb_spc vbr ->
  2 * bpb_spc vbr <= bpb_spf32 vbr * bpb_nf vbr + bpb_rsc vbr < 2^32 ->
  2 <= clu -> clu * bpb_spc vbr < 2^32 ->
  g_spc g = bpb_spc vbr /\ 0 < g_spc g /\
  g_fat_lba g = root_dir + bpb_rsc vbr /\
  cluster_lba (g_spc g) (g_data_lba g) clu
  = g_fat_lba g + bpb_nf vbr * bpb_spf32 vbr + (clu - 2) * g_spc g.
Proof.
  intros Hv Hroot Hrsc Hnf Hspf Hspc Hsum Hclu Hmul. unfold bios_init_volume in Hv.
  destruct (negb (at_ vbr 510 =? 85) || negb (at_ vbr 511 =? 170)
            || negb (bpb_bps vbr =? 512) || (bpb_spc vbr =? 0)
            || negb (bpb_spf16 vbr =? 0) || (bpb_spf32 vbr =? 0)) eqn:E;
    [discriminate|].
  repeat (apply orb_false_elim in E; destruct E as [E ?]).
  apply Z.eqb_neq in H1.
  injection Hv as <-. cbn [g_spc g_fat_lba g_data_lba].
  assert (Hm : bpb_spf32 vbr * bpb_nf vbr >= 0) by nia.
  unfold cluster_lba, u64, u32.
  rewrite (Z.mod_small (bpb_spf32 vbr * bpb_nf vbr)) by lia.
  rewrite (Z.mod_small (bpb_spf32 vbr * bpb_nf vbr + bpb_rsc vbr)) by lia.
  rewrite (Z.mod_small (bpb_spf32 vbr * bpb_nf vbr + bpb_rsc vbr - 2 * bpb_spc vbr))
    by lia.
  rewrite (Z.mod_small (clu * bpb_spc vbr)) by nia.
  rewrite (Z.mod_small (bpb_rsc vbr + root_dir)) by lia.
  rewrite (Z.mod_small (_ + root_dir)) by lia.
  rewrite Z.mod_small by nia.
  repeat split; try lia.
Qed.

Lemma bios_init_cluster_layout_witness :
  g_spc {| g_spc := 8; g_rc := 2; g_fat_lba := 2080; g_data_lba := 4112 |} = bpb_spc vbr0 /\
  0 < g_spc {| g_spc := 8; g_rc := 2; g_fat_lba := 2080; g_data_lba := 4112 |} /\
  g_fat_lba {| g_spc := 8; g_rc := 2; g_fat_lba := 2080; g_data_lba := 4112 |}
  = 2048 + bpb_rsc vbr0 /\
  cluster_lba 8 4112 5 = 2080 + bpb_nf vbr0 * bpb_spf32 vbr0 + (5 - 2) * 8.
Proof.
  apply (bios_init_cluster_layout vbr0 2048
           {| g_spc := 8; g_rc := 2; g_fat_lba := 2080; g_data_lba := 4112 |} 5);
    try (vm_compute; reflexivity); try (vm_compute; intuition discriminate).
Defined.

(** X15.  The boot partition of the MBR scheme is the first of the four
    entries that is marked active and has type 0x0C or 0xEF; its start
    sector becomes [root_dir].  Without the boot signature, or when no
    entry qualifies (a partition that is not active, or a FAT32 partition
    of type 0x0B), no partition is found. *)
Theorem bios_init_mbr_first_bootable vbr :
  (forall k, 0 <= k < 4 ->
     at_ vbr 510 = 85 -> at_ vbr 511 = 170 ->
     mbr_bootable vbr k = true ->
     (forall j, 0 <= j < k -> mbr_bootable vbr j = false) ->
     bios_init_partition vbr = le32 vbr (454 + 16 * k)) /\
  ((at_ vbr 510 <> 85 \/ at_ vbr 511 <> 170 \/
    forall j, 0 <= j < 4 -> mbr_bootable vbr j = false) ->
   bios_init_partition vbr = 0).
Proof.
  assert (Hstep : forall n i, (i - 446) mod 16 = 2 ->
            bios_init_mbr (S n) vbr i
            = if mbr_bootable vbr ((i - 448) / 16) then le32 vbr (i + 6)
              else bios_init_mbr n vbr (i + 16)).
  { intros n i Hi. cbn [bios_init_mbr]. unfold mbr_bootable.
    assert (Hk : 16 * ((i - 448) / 16) = i - 448).
    { pose proof (Z.div_mod (i - 448) 16 ltac:(lia)) as Hd.
      replace ((i - 448) mod 16) with 0 in Hd; [lia|].
      replace (i - 448) with (i - 446 - 2) by lia.
      rewrite Zminus_mod, Hi. reflexivity. }
    rewrite Hk.
    replace (446 + (i - 448)) with (i - 2) by lia.
    replace (450 + (i - 448)) with (i + 2) by lia. reflexivity. }
  split.
  - intros k Hk H510 H511 Hboot Hnone. unfold bios_init_partition.
    rewrite H510, H511. cbn [Z.eqb Pos.eqb andb].
    assert (Hcases : k = 0 \/ k = 1 \/ k = 2 \/ k = 3) by lia.
    rewrite Hstep by reflexivity. change ((448 - 448) / 16) with 0.
    destruct Hcases as [->|Hcases]; [now rewrite Hboot|].
    rewrite (Hnone 0) by lia.
    rewrite Hstep by reflexivity. change ((448 + 16 - 448) / 16) with 1.
    destruct Hcases as [->|Hcases]; [now rewrite Hboot|].
    rewrite (Hnone 1) by lia.
    rewrite Hstep by reflexivity. change ((448 + 16 + 16 - 448) / 16) with 2.
    destruct Hcases as [->|Hcases]; [now rewrite Hboot|].
    rewrite (Hnone 2) by lia.
    rewrite Hstep by reflexivity. change ((448 + 16 + 16 + 16 - 448) / 16) with 3.
    subst k. now rewrite Hboot.
  - intros H. unfold bios_init_partition.
    destruct (at_ vbr 510 =? 85) eqn:E1; [|reflexivity].
    destruct (at_ vbr 511 =? 170) eqn:E2; [|reflexivity].
    apply Z.eqb_eq in E1, E2. cbn [andb].
    destruct H as [H|[H|H]]; [contradiction|contradiction|].
    rewrite Hstep by reflexivity. change ((448 - 448) / 16) with 0.
    rewrite (H 0) by lia.
    rewrite Hstep by reflexivity. change ((448 + 16 - 448) / 16) with 1.
    rewrite (H 1) by lia.
    rewrite Hstep by reflexivity. change ((448 + 16 + 16 - 448) / 16) with 2.
    rewrite (H 2) by lia.
    rewrite Hstep by reflexivity. change ((448 + 16 + 16 + 16 - 448) / 16) with 3.
    rewrite (H 3) by lia. reflexivity.
Qed.

(** ** [fw_map] on a range that is not mapped yet *)

Lemma idx_mod virt shift : 0 <= shift -> idx virt shift = (virt / 2 ^ shift) mod 512.
Proof. apply index_of_shift. Qed.

Lemma idx_bounds virt shift : 0 <= shift -> 0 <= idx virt shift < 512.
Proof. intros H. rewrite idx_mod by exact H. apply Z.mod_pos_bound. lia. Qed.

Lemma key_step virt shift :
  0 <= shift -> shift + 9 <= 48 ->
  key virt shift = key virt (shift + 9) * 512 + idx virt shift.
Proof.
  intros H0 H1. rewrite idx_mod by exact H0. unfold key.
  replace (2 ^ (48 - shift)) with (512 * 2 ^ (48 - (shift + 9))).
  2:{ change 512 with (2 ^ 9). rewrite <- Z.pow_add_r by lia. f_equal. lia. }
  rewrite Z.rem_mul_r by (try apply Z.pow_nonzero; lia).
  replace (2 ^ (shift + 9)) with (2 ^ shift * 512).
  2:{ change 512 with (2 ^ 9). rewrite <- Z.pow_add_r by lia. reflexivity. }
  rewrite <- Z.div_div by (try apply Z.pow_pos_nonneg; lia). lia.
Qed.

Lemma key_top virt : key virt 48 = 0.
Proof. unfold key. change (2 ^ (48 - 48)) with 1. apply Z.mod_1_r. Qed.

Lemma lor_flags page : page mod 4096 = 0 -> Z.lor page 3 = page + 3.
Proof.
  intros Hp.
  assert (H : Z.land page 3 = 0).
  { change 3 with (Z.ones 2). rewrite Z.land_ones by lia.
    change (2 ^ 2) with 4.
    rewrite (Z.div_mod page 4096) by lia. rewrite Hp, Z.add_0_r.
    replace (4096 * (page / 4096)) with ((page / 4096 * 1024) * 4) by lia.
    apply Z.mod_mul. lia. }
  rewrite <- Z.lxor_lor by exact H. symmetry. apply Z.add_nocarry_lxor. exact H.
Qed.

Lemma flags_not_large page : page mod 4096 = 0 -> Z.land (page + 3) 128 = 0.
Proof.
  intros Hp. apply Z.bits_inj'. intros n Hn. rewrite Z.land_spec, Z.bits_0.
  change 128 with (2 ^ 7). destruct (Z.eq_dec n 7) as [->|Hne].
  - rewrite Z.pow2_bits_true, andb_true_r by lia.
    apply Z.testbit_false; [lia|].
    rewrite (Z.div_mod page 4096) by lia. rewrite Hp, Z.add_0_r.
    replace (4096 * (page / 4096) + 3) with (3 + (page / 4096 * 32) * 2 ^ 7) by lia.
    rewrite Z.div_add by lia. change (3 / 2 ^ 7) with 0. rewrite Z.add_0_l.
    replace (page / 4096 * 32) with (page / 4096 * 16 * 2) by lia.
    apply Z.mod_mul. lia.
  - rewrite Z.pow2_bits_false by lia. apply andb_false_r.
Qed.

(** Two entries of page-aligned tables are the same entry only in the same
    table at the same index. *)
Lemma cell_unique t i t' i' :
  t mod 4096 = 0 -> t' mod 4096 = 0 -> 0 <= i < 512 -> 0 <= i' < 512 ->
  t + 8 * i = t' + 8 * i' -> t = t' /\ i = i'.
Proof.
  intros Ht Ht' Hi Hi' He.
  pose proof (Z.div_mod t 4096 ltac:(lia)).
  pose proof (Z.div_mod t' 4096 ltac:(lia)). lia.
Qed.

Lemma entry_addr_idx table virt shift :
  entry_addr table virt shift = table + 8 * idx virt shift.
Proof. reflexivity. Qed.

Lemma cell_spec pt m virt c :
  cell pt m virt = Some c <->
  m (entry_addr pt virt 39) <> 0 /\
  m (entry_addr (tbl3 pt m virt) virt 30) <> 0 /\
  m (entry_addr (tbl2 pt m virt) virt 21) <> 0 /\
  Z.land (m (entry_addr (tbl2 pt m virt) virt 21)) 128 = 0 /\
  c = entry_addr (tbl1 pt m virt) virt 12.
Proof.
  unfold cell, tbl1, tbl2, tbl3.
  set (e4 := m (entry_addr pt virt 39)).
  set (e3 := m (entry_addr (page_down e4) virt 30)).
  set (e2 := m (entry_addr (page_down e3) virt 21)).
  destruct (Z.eqb_spec e4 0) as [H4|H4]; [split; [discriminate|tauto]|].
  destruct (Z.eqb_spec e3 0) as [H3|H3]; [split; [discriminate|tauto]|].
  destruct (Z.eqb_spec e2 0) as [H2|H2]; [split; [discriminate|tauto]|].
  destruct (Z.eqb_spec (Z.land e2 128) 0) as [H7|H7]; cbn [orb negb].
  - split; [intros [= <-]; tauto | intros (_ & _ & _ & _ & ->); reflexivity].
  - split; [discriminate | tauto].
Qed.

(** The walk is the same in two memories that agree on the three entries
    it reads. *)
Lemma cell_agree pt m m' virt :
  m' (entry_addr pt virt 39) = m (entry_addr pt virt 39) ->
  m' (entry_addr (tbl3 pt m virt) virt 30) = m (entry_addr (tbl3 pt m virt) virt 30) ->
  m' (entry_addr (tbl2 pt m virt) virt 21) = m (entry_addr (tbl2 pt m virt) virt 21) ->
  cell pt m' virt = cell pt m virt.
Proof.
  unfold cell, tbl2, tbl3. intros H4. rewrite H4. intros H3. rewrite H3.
  intros H2. rewrite H2. reflexivity.
Qed.

Lemma lookup_4k_cell pt m virt :
  lookup_4k pt m virt =
  match cell pt m virt with
  | Some c => if m c =? 0 then None else Some (m c)
  | None => None
  end.
Proof.
  unfold lookup_4k, cell.
  repeat match goal with
  | |- context [if ?b then None else _] => destruct b; [reflexivity|]
  end.
  reflexivity.
Qed.

(** The index at a level is a part of the key of any level below. *)
Lemma idx_of_key virt b shift :
  0 <= b <= shift -> shift + 9 <= 48 ->
  idx virt shift = (key virt b / 2 ^ (shift - b)) mod 512.
Proof.
  intros Hb Hs. rewrite idx_mod by lia. unfold key.
  set (x := virt / 2 ^ b).
  replace (virt / 2 ^ shift) with (x / 2 ^ (shift - b)).
  2:{ unfold x. rewrite Z.div_div by (try apply Z.pow_pos_nonneg; lia).
      rewrite <- Z.pow_add_r by lia. do 2 f_equal. lia. }
  set (A := 2 ^ (shift - b)).
  assert (HA : 0 < A) by (apply Z.pow_pos_nonneg; lia).
  replace (2 ^ (48 - b)) with (A * (512 * 2 ^ (48 - shift - 9))).
  2:{ unfold A. change 512 with (2 ^ 9). rewrite <- !Z.pow_add_r by lia.
      f_equal. lia. }
  assert (HC : 0 < 2 ^ (48 - shift - 9)) by (apply Z.pow_pos_nonneg; lia).
  rewrite Z.rem_mul_r by lia.
  rewrite (Z.mul_comm A), Z.div_add by lia.
  rewrite (Z.div_small (x mod A)) by (apply Z.mod_pos_bound; lia).
  rewrite Z.add_0_l, Z.rem_mul_r by lia.
  rewrite (Z.mul_comm 512), Z.mod_add by lia. now rewrite Z.mod_mod by lia.
Qed.

Lemma cell_key pt m v w : key v 12 = key w 12 -> cell pt m v = cell pt m w.
Proof.
  intros Hk. unfold cell. rewrite !entry_addr_idx.
  rewrite (idx_of_key v 12 39), (idx_of_key v 12 30), (idx_of_key v 12 21),
          (idx_of_key v 12 12) by lia.
  rewrite (idx_of_key w 12 39), (idx_of_key w 12 30), (idx_of_key w 12 21),
          (idx_of_key w 12 12) by lia.
  rewrite Hk. reflexivity.
Qed.

Lemma lookup_4k_key pt m v w :
  key v 12 = key w 12 -> lookup_4k pt m v = lookup_4k pt m w.
Proof. intros Hk. now rewrite !lookup_4k_cell, (cell_key pt m v w Hk). Qed.

Lemma lookup_2m_agree pt m m' virt :
  m' (entry_addr pt virt 39) = m (entry_addr pt virt 39) ->
  m' (entry_addr (tbl3 pt m virt) virt 30) = m (entry_addr (tbl3 pt m virt) virt 30) ->
  m' (entry_addr (tbl2 pt m virt) virt 21) = m (entry_addr (tbl2 pt m virt) virt 21) ->
  lookup_2m pt m' virt = lookup_2m pt m virt.
Proof.
  unfold lookup_2m, tbl2, tbl3. intros H4. rewrite H4. intros H3. rewrite H3.
  intros H2. rewrite H2. reflexivity.
Qed.

(** Where a walk gets to the last level there is no large page. *)
Lemma cell_not_large pt m virt c :
  cell pt m virt = Some c -> lookup_2m pt m virt = None.
Proof.
  intros Hc. apply cell_spec in Hc. destruct Hc as (_ & _ & _ & H7 & _).
  unfold tbl2, tbl3 in H7. unfold lookup_2m. cbv zeta. rewrite H7.
  change (0 =? 0) with true. cbv iota.
  repeat match goal with
  | |- context [if ?b then None else _] => destruct b; [reflexivity|]
  end.
  reflexivity.
Qed.

Lemma in_pages_down v0 v : forall j,
  In v (pages_down v0 j) -> exists i, 0 <= i < Z.of_nat j /\ v = v0 + 4096 * i.
Proof.
  induction j as [|j IH]; intros Hin; [destruct Hin|].
  destruct Hin as [<-|Hin].
  - exists (Z.of_nat j). split; [lia|reflexivity].
  - destruct (IH Hin) as (i & Hi & ->). exists i. split; [lia|reflexivity].
Qed.

(** The pages of a range of less than 2^48 bytes differ in bits 12 to 47. *)
Lemma key_pages v0 i j :
  0 <= i < j -> j < 2 ^ 36 ->
  key (v0 + 4096 * i) 12 <> key (v0 + 4096 * j) 12.
Proof.
  intros Hi Hj. unfold key. change (2 ^ 12) with 4096. change (48 - 12) with 36.
  rewrite !(Z.mul_comm 4096), !Z.div_add by lia.
  set (a := v0 / 4096). set (M := 2 ^ 36) in *.
  assert (HM : 0 < M) by (unfold M; lia).
  intros He.
  pose proof (Z.div_mod (a + i) M ltac:(lia)).
  pose proof (Z.div_mod (a + j) M ltac:(lia)).
  assert (Hd : j - i = M * ((a + j) / M - (a + i) / M)) by lia.
  assert (0 < (a + j) / M - (a + i) / M) by nia.
  nia.
Qed.

Lemma Forall2_in_l (A B : Type) (R : A -> B -> Prop) l1 l2 a :
  Forall2 R l1 l2 -> In a l1 -> exists b, In b l2 /\ R a b.
Proof.
  induction 1 as [|x y l1 l2 Hxy _ IH]; intros Hin; [destruct Hin|].
  destruct Hin as [<-|Hin].
  - exists y. split; [now left | exact Hxy].
  - destruct (IH Hin) as (b & Hb & Hr). exists b. split; [now right | exact Hr].
Qed.

Section Tree.

Variables (pt : Z) (own : owner) (m : mem) (fb : Z).
Hypothesis Hok : tables_ok pt own m fb.

Lemma owned_page t x :
  own t = Some x -> t mod 4096 = 0 /\ 0 < t /\ t + 4096 <= fb.
Proof.
  destruct x as [s k]. intros H.
  destruct (ok_page _ _ _ _ Hok _ _ _ H) as (? & ? & ? & _). auto.
Qed.

(** Entries of tables of different levels are different entries. *)
Lemma level_apart t s k i t' s' k' i' :
  own t = Some (s, k) -> own t' = Some (s', k') ->
  0 <= i < 512 -> 0 <= i' < 512 ->
  t + 8 * i = t' + 8 * i' -> t = t' /\ i = i' /\ s = s' /\ k = k'.
Proof.
  intros Ht Ht' Hi Hi' He.
  destruct (owned_page _ _ Ht) as (Ha & _).
  destruct (owned_page _ _ Ht') as (Ha' & _).
  destruct (cell_unique _ _ _ _ Ha Ha' Hi Hi' He) as [-> ->].
  rewrite Ht in Ht'. injection Ht' as -> ->. auto.
Qed.

Lemma walk_owned virt c :
  cell pt m virt = Some c ->
  own (tbl3 pt m virt) = Some (30, key virt 39) /\
  own (tbl2 pt m virt) = Some (21, key virt 30) /\
  own (tbl1 pt m virt) = Some (12, key virt 21).
Proof.
  intros Hc. apply cell_spec in Hc. destruct Hc as (H4 & H3 & H2 & H7 & _).
  assert (O3 : own (tbl3 pt m virt) = Some (30, key virt 39)).
  { rewrite (key_step virt 39), key_top by lia.
    apply (ok_entry _ _ _ _ Hok pt 39 0 (idx virt 39) (ok_root _ _ _ _ Hok));
      [lia | apply idx_bounds; lia | exact H4 | lia]. }
  assert (O2 : own (tbl2 pt m virt) = Some (21, key virt 30)).
  { rewrite (key_step virt 30) by lia.
    apply (ok_entry _ _ _ _ Hok _ 30 _ (idx virt 30) O3);
      [lia | apply idx_bounds; lia | exact H3 | lia]. }
  split; [exact O3|]. split; [exact O2|].
  rewrite (key_step virt 21) by lia.
  apply (ok_entry _ _ _ _ Hok _ 21 _ (idx virt 21) O2);
    [lia | apply idx_bounds; lia | exact H2 | intros _; exact H7].
Qed.

Lemma cell_owned virt c :
  cell pt m virt = Some c ->
  own (tbl1 pt m virt) = Some (12, key virt 21) /\
  c = tbl1 pt m virt + 8 * idx virt 12 /\ c <> 0 /\ c < fb.
Proof.
  intros Hc. destruct (walk_owned _ _ Hc) as (_ & _ & O1).
  apply cell_spec in Hc. destruct Hc as (_ & _ & _ & _ & ->).
  destruct (owned_page _ _ O1) as (? & ? & ?).
  pose proof (idx_bounds virt 12 ltac:(lia)).
  rewrite entry_addr_idx. repeat split; auto; lia.
Qed.

(** Two addresses whose walks end at the same entry agree on bits 12 to 47. *)
Lemma cell_inj virt virt' c :
  cell pt m virt = Some c -> cell pt m virt' = Some c ->
  key virt 12 = key virt' 12.
Proof.
  intros H H'.
  destruct (cell_owned _ _ H) as (O & E & _).
  destruct (cell_owned _ _ H') as (O' & E' & _).
  rewrite E in E'.
  destruct (level_apart _ _ _ _ _ _ _ _ O O'
              (idx_bounds virt 12 ltac:(lia)) (idx_bounds virt' 12 ltac:(lia)) E')
    as (_ & Hi & _ & Hk).
  rewrite (key_step virt 12), (key_step virt' 12) by lia.
  change (12 + 9) with 21. rewrite Hk, Hi. reflexivity.
Qed.

End Tree.

Lemma Forall2_in_r (A B : Type) (R : A -> B -> Prop) l1 l2 b :
  Forall2 R l1 l2 -> In b l2 -> exists a, In a l1 /\ R a b.
Proof.
  induction 1 as [|x y l1 l2 Hxy _ IH]; intros Hin; [destruct Hin|].
  destruct Hin as [<-|Hin].
  - exists x. split; [now left | exact Hxy].
  - destruct (IH Hin) as (a & Ha & Hr). exists a. split; [now right | exact Hr].
Qed.

Lemma linked_frame m m' cs : forall head,
  (forall c, In c cs -> m' c = m c) -> linked m cs head -> linked m' cs head.
Proof.
  induction cs as [|c cs IH]; intros head Hsame Hl; [exact Hl|].
  destruct Hl as (Hh & Hc & Hl). cbn [linked]. split; [exact Hh|]. split; [exact Hc|].
  rewrite (Hsame c (or_introl eq_refl)). apply IH; [|exact Hl].
  intros c' Hin. apply Hsame. now right.
Qed.

Lemma fill_entry_mem ptr st :
  0 < file_buf st -> file_buf st + 4096 < 2^64 -> file_buf st mod 4096 = 0 ->
  exists st', fill_entry false ptr st = Go st' /\
    file_buf st' = file_buf st + 4096 /\
    efi_pages st' = efi_pages st /\
    forall a, ptmem st' a =
      if a =? ptr then file_buf st + 3
      else if (file_buf st <=? a) && (a <? file_buf st + 4096) then 0
      else ptmem st a.
Proof.
  intros Hpos Hlt Hal. unfold fill_entry, alloc_page, bios_alloc.
  cbn [poke ptmem file_buf efi_pages].
  destruct (file_buf st =? 0) eqn:E; [apply Z.eqb_eq in E; lia|].
  eexists. split; [reflexivity|]. cbn [poke file_buf ptmem efi_pages]. split.
  - unfold u64. apply Z.mod_small. lia.
  - split; [reflexivity|].
    intros a. unfold store, zero_page. rewrite lor_flags by exact Hal.
    destruct (a =? ptr); reflexivity.
Qed.

Lemma Forall2_nth (A B : Type) (R : A -> B -> Prop) l1 l2 d1 d2 :
  Forall2 R l1 l2 -> forall q, (q < List.length l1)%nat -> R (nth q l1 d1) (nth q l2 d2).
Proof.
  induction 1 as [|x y l1 l2 Hxy _ IH]; intros q Hq; cbn [List.length] in Hq; [lia|].
  destruct q as [|q]; [exact Hxy|]. cbn [nth]. apply IH. lia.
Qed.

(** The second loop: the cells of the chain get the frames from [end_]
    downwards, the head the highest. *)
Lemma resolve_list_spec : forall cs fuel end_ next st,
  linked (ptmem st) cs next -> NoDup cs -> (List.length cs < fuel)%nat ->
  4096 * (Z.of_nat (List.length cs) - 1) <= end_ -> 0 <= end_ < 2^64 ->
  exists st', resolve_list fuel end_ next st = Some st' /\
    file_buf st' = file_buf st /\ efi_pages st' = efi_pages st /\
    (forall a, ~ In a cs -> ptmem st' a = ptmem st a) /\
    (forall q, (q < List.length cs)%nat ->
       ptmem st' (nth q cs 0) = Z.lor (end_ - 4096 * Z.of_nat q) 3).
Proof.
  induction cs as [|c cs IH]; intros fuel end_ next st Hl Hnd Hf Hlo Hhi;
    (destruct fuel as [|fuel]; [cbn [List.length] in Hf; lia|]); cbn [resolve_list].
  - cbn [linked] in Hl. subst next. cbn [Z.eqb].
    exists st. repeat split; auto. intros q Hq. cbn [List.length] in Hq. lia.
  - destruct Hl as (-> & Hc0 & Hl). apply Z.eqb_neq in Hc0 as Hc0'. rewrite Hc0'.
    inversion Hnd as [|? ? Hnin Hnd']; subst.
    cbn [List.length] in Hf, Hlo.
    set (st1 := poke c (Z.lor end_ 3) st).
    assert (Hl1 : linked (ptmem st1) cs (ptmem st c)).
    { apply (linked_frame (ptmem st)); [|exact Hl].
      intros c' Hin. unfold st1. cbn [poke ptmem]. unfold store.
      destruct (Z.eqb_spec c' c) as [->|]; [contradiction|reflexivity]. }
    assert (Hu : 0 <= u64 (end_ - 4096) < 2^64)
      by (unfold u64; apply Z.mod_pos_bound; lia).
    assert (Hu' : (0 < List.length cs)%nat -> u64 (end_ - 4096) = end_ - 4096).
    { intros Hpos. unfold u64. apply Z.mod_small. lia. }
    destruct (IH fuel (u64 (end_ - 4096)) (ptmem st c) st1 Hl1 Hnd' ltac:(lia))
      as (st' & Hrun & Hfb & Hefi & Hframe & Hval).
    { destruct cs as [|c' cs']; [cbn [List.length]; lia|].
      rewrite Hu' by (cbn [List.length]; lia). cbn [List.length] in *. lia. }
    { exact Hu. }
    exists st'. split; [exact Hrun|]. split; [exact Hfb|]. split; [exact Hefi|].
    split.
    + intros a Ha. rewrite Hframe by (intros Hin; apply Ha; now right).
      unfold st1. cbn [poke ptmem]. unfold store.
      destruct (Z.eqb_spec a c) as [->|]; [exfalso; apply Ha; now left | reflexivity].
    + intros q Hq. destruct q as [|q]; cbn [nth].
      * rewrite Hframe by exact Hnin. unfold st1. cbn [poke ptmem]. unfold store.
        rewrite Z.eqb_refl. f_equal. lia.
      * cbn [List.length] in Hq. rewrite Hval by lia. rewrite Hu' by lia.
        f_equal. lia.
Qed.

Lemma pages_down_length v0 j : List.length (pages_down v0 j) = j.
Proof. induction j as [|j IH]; cbn [pages_down List.length]; congruence. Qed.

Lemma page_down_aligned x : page_down x mod 4096 = 0.
Proof.
  unfold page_down. rewrite Zminus_mod, Z.mod_mod, Z.sub_diag by lia. reflexivity.
Qed.

Section MapInv.

Variables (pt : Z) (m0 : mem) (fb0 : Z) (own0 : owner).
Hypothesis H0 : tables_ok pt own0 m0 fb0.

(** A chained cell is an entry of a table of the last level. *)
Lemma chained_cell own st vs cs next c :
  map_inv pt m0 fb0 own0 own st vs cs next -> In c cs ->
  exists v t1 k1 i1, In v vs /\ cell pt (ptmem st) v = Some c /\
    own t1 = Some (12, k1) /\ 0 <= i1 < 512 /\ c = t1 + 8 * i1.
Proof.
  intros [Hok _ _ _ _ _ Hcells _ _] Hin.
  destruct (Forall2_in_r _ _ _ _ _ _ Hcells Hin) as (v & Hv & Hc).
  destruct (cell_owned _ _ _ _ Hok _ _ Hc) as (O & E & _).
  exists v, (tbl1 pt (ptmem st) v), (key v 21), (idx v 12).
  repeat split; auto; apply idx_bounds; lia.
Qed.

(** Giving an empty entry (at the 2 MiB level: or a large page) a fresh
    table keeps everything. *)
Lemma alloc_keeps own st vs cs next t s k i :
  map_inv pt m0 fb0 own0 own st vs cs next ->
  own t = Some (s, k) -> s <> 12 -> 0 <= i < 512 ->
  (ptmem st (t + 8 * i) = 0 \/
   (s = 21 /\ Z.land (ptmem st (t + 8 * i)) 128 <> 0)) ->
  file_buf st + 4096 < 2^64 ->
  exists st' own',
    fill_entry false (t + 8 * i) st = Go st' /\
    map_inv pt m0 fb0 own0 own' st' vs cs next /\
    file_buf st' = file_buf st + 4096 /\
    efi_pages st' = efi_pages st /\
    ptmem st' (t + 8 * i) = file_buf st + 3 /\
    (forall a, a <> t + 8 * i -> a < file_buf st -> ptmem st' a = ptmem st a) /\
    (forall t' x, own t' = Some x -> own' t' = Some x).
Proof.
  intros Hinv Ht Hs Hi Hcond Hlt.
  pose proof Hinv as [Hok (Hfb0 & Hfb & Hal) Hext Hchild Hfresh Hold Hcells Hlinked Hnodup].
  assert (Hown : forall t' x, own t' = Some x ->
                 t' mod 4096 = 0 /\ 0 < t' /\ t' + 4096 <= file_buf st)
    by (intros; eapply owned_page; eauto).
  destruct (Hown _ _ Ht) as (Hta & Htp & Htf).
  destruct (fill_entry_mem (t + 8 * i) st) as (st' & Hrun & Hfb' & Hefi & Hm);
    [lia | lia | exact Hal |].
  set (own' := fun x => if x =? file_buf st then Some (s - 9, k * 512 + i) else own x).
  assert (Hkeep : forall t' x, own t' = Some x -> own' t' = Some x).
  { intros t' x H. unfold own'.
    destruct (Z.eqb_spec t' (file_buf st)) as [->|_]; [|exact H].
    destruct (Hown _ _ H). lia. }
  assert (Hback : forall t' x, own' t' = Some x -> t' <> file_buf st -> own t' = Some x).
  { unfold own'. intros t' x H Hne.
    destruct (Z.eqb_spec t' (file_buf st)); [contradiction|exact H]. }
  assert (Hnew : forall i', 0 <= i' < 512 -> ptmem st' (file_buf st + 8 * i') = 0).
  { intros i' Hi'. rewrite Hm.
    destruct (Z.eqb_spec (file_buf st + 8 * i') (t + 8 * i)); [lia|].
    destruct (Z.leb_spec (file_buf st) (file_buf st + 8 * i')); [|lia].
    destruct (Z.ltb_spec (file_buf st + 8 * i') (file_buf st + 4096));
      [reflexivity|lia]. }
  assert (Hptr : ptmem st' (t + 8 * i) = file_buf st + 3).
  { rewrite Hm, Z.eqb_refl. reflexivity. }
  assert (Hother : forall a, a <> t + 8 * i -> a < file_buf st ->
                   ptmem st' a = ptmem st a).
  { intros a Hne Hlt'. rewrite Hm.
    destruct (Z.eqb_spec a (t + 8 * i)); [contradiction|].
    destruct (Z.leb_spec (file_buf st) a); [lia|reflexivity]. }
  assert (Hcs : forall c, In c cs -> c <> t + 8 * i /\ c < file_buf st).
  { intros c Hin.
    destruct (chained_cell _ _ _ _ _ _ Hinv Hin)
      as (v & t1 & k1 & i1 & _ & _ & O & Hi1 & ->).
    split.
    - intros He.
      destruct (level_apart _ _ _ _ Hok _ _ _ _ _ _ _ _ O Ht Hi1 Hi He)
        as (_ & _ & Hs' & _). congruence.
    - destruct (Hown _ _ O). lia. }
  assert (Hpd : page_down (file_buf st + 3) = file_buf st)
    by (apply page_down_flags; [exact Hal | lia]).
  exists st', own'.
  split; [exact Hrun|]. split; [|repeat split; auto].
  constructor.
  - (* the tree *)
    constructor.
    + apply Hkeep. apply (ok_root _ _ _ _ Hok).
    + intros t' s' k' H. unfold own' in H.
      destruct (Z.eqb_spec t' (file_buf st)) as [->|Hne].
      * injection H as <- <-. rewrite Hfb'.
        destruct (ok_page _ _ _ _ Hok _ _ _ Ht) as (_ & _ & _ & Hlev).
        repeat split; try lia.
      * destruct (ok_page _ _ _ _ Hok _ _ _ H) as (? & ? & ? & ?).
        repeat split; auto; lia.
    + intros t' s' k' i' H Hs' Hi' Hne H7.
      destruct (Z.eq_dec t' (file_buf st)) as [->|Hnp].
      { rewrite Hnew in Hne by exact Hi'. contradiction. }
      apply Hback in H; [|exact Hnp].
      destruct (Hown _ _ H) as (? & ? & ?).
      destruct (Z.eq_dec (t' + 8 * i') (t + 8 * i)) as [He|He].
      * destruct (level_apart _ _ _ _ Hok _ _ _ _ _ _ _ _ H Ht Hi' Hi He)
          as (-> & -> & -> & ->).
        rewrite Hptr, Hpd. unfold own'. rewrite Z.eqb_refl. reflexivity.
      * rewrite Hother in * by (auto; lia).
        apply Hkeep. apply (ok_entry _ _ _ _ Hok _ _ _ _ H Hs' Hi' Hne H7).
  - rewrite Hfb'. repeat split; auto; try lia.
    rewrite <- Z.add_mod_idemp_l, Hal by lia. reflexivity.
  - intros t' x H. apply Hkeep, Hext, H.
  - intros t' s' k' i' H Hs' Hge Hi' Hne.
    destruct (Z.eq_dec t' (file_buf st)) as [->|Hnp].
    { rewrite Hnew in Hne by exact Hi'. contradiction. }
    apply Hback in H; [|exact Hnp].
    destruct (Hown _ _ H) as (? & ? & ?).
    destruct (Z.eq_dec (t' + 8 * i') (t + 8 * i)) as [He|He].
    + rewrite He, Hptr, Hpd. lia.
    + rewrite Hother in * by (auto; lia).
      apply (Hchild _ _ _ _ H Hs' Hge Hi' Hne).
  - intros t' k' i' H Hge Hi' Hne.
    destruct (Z.eq_dec t' (file_buf st)) as [->|Hnp].
    { rewrite Hnew in Hne by exact Hi'. contradiction. }
    apply Hback in H; [|exact Hnp].
    destruct (Hown _ _ H) as (? & ? & ?).
    destruct (Z.eq_dec (t' + 8 * i') (t + 8 * i)) as [He|He].
    + destruct (level_apart _ _ _ _ Hok _ _ _ _ _ _ _ _ H Ht Hi' Hi He)
        as (_ & _ & Hs' & _). congruence.
    + rewrite Hother in Hne by (auto; lia).
      apply (Hfresh _ _ _ H Hge Hi' Hne).
  - intros a Ha.
    destruct (Z.eq_dec a (t + 8 * i)) as [->|Hne].
    + right. right. exists t, s, k, i.
      rewrite Hptr, Hpd.
      split; [apply Hkeep, Ht|]. split; [exact Hs|]. split; [exact Hi|].
      split; [reflexivity|]. split; [lia|]. split; [lia|].
      split; [apply flags_not_large, Hal|].
      destruct (Hold _ Ha) as [Hsame | [Hin | Hex]].
      * rewrite <- Hsame. exact Hcond.
      * destruct (Hcs _ Hin) as (Hc & _). contradiction.
      * destruct Hex as (t' & s' & k' & i' & _ & _ & _ & _ & _ & Hnz & H7 & _).
        destruct Hcond as [Hz | (_ & Hl)]; contradiction.
    + rewrite Hother by (auto; lia).
      destruct (Hold _ Ha) as [Hsame | [Hin | Hex]]; [now left | now right; left |].
      right. right.
      destruct Hex as (t' & s' & k' & i' & H & Hrest).
      exists t', s', k', i'. split; [apply Hkeep, H | exact Hrest].
  - (* the walks of the pages chained so far *)
    revert Hcells. apply Forall2_impl. intros v c Hc.
    rewrite <- Hc. apply cell_agree.
    + (* 512 GiB entry *)
      apply cell_spec in Hc. destruct Hc as (H4 & _).
      pose proof (idx_bounds v 39 ltac:(lia)) as Hb.
      rewrite entry_addr_idx in *.
      destruct (Hown _ _ (ok_root _ _ _ _ Hok)) as (? & ? & ?).
      apply Hother; [|lia]. intros He.
      destruct (level_apart _ _ _ _ Hok _ _ _ _ _ _ _ _ (ok_root _ _ _ _ Hok) Ht Hb Hi He)
        as (_ & _ & <- & _).
      rewrite He in H4. destruct Hcond as [Hz | (Hs21 & _)]; [contradiction|lia].
    + destruct (walk_owned _ _ _ _ Hok _ _ Hc) as (O3 & _).
      apply cell_spec in Hc. destruct Hc as (_ & H3 & _).
      pose proof (idx_bounds v 30 ltac:(lia)) as Hb.
      rewrite entry_addr_idx in *.
      destruct (Hown _ _ O3) as (? & ? & ?).
      apply Hother; [|lia]. intros He.
      destruct (level_apart _ _ _ _ Hok _ _ _ _ _ _ _ _ O3 Ht Hb Hi He)
        as (_ & _ & <- & _).
      rewrite He in H3. destruct Hcond as [Hz | (Hs21 & _)]; [contradiction|lia].
    + destruct (walk_owned _ _ _ _ Hok _ _ Hc) as (_ & O2 & _).
      apply cell_spec in Hc. destruct Hc as (_ & _ & H2 & H7 & _).
      pose proof (idx_bounds v 21 ltac:(lia)) as Hb.
      rewrite entry_addr_idx in *.
      destruct (Hown _ _ O2) as (? & ? & ?).
      apply Hother; [|lia]. intros He.
      rewrite He in H2, H7.
      destruct Hcond as [Hz | (_ & Hl)]; contradiction.
  - apply (linked_frame (ptmem st)); [|exact Hlinked].
    intros c Hin. destruct (Hcs _ Hin). apply Hother; assumption.
  - exact Hnodup.
Qed.

Lemma ensure_keeps own st vs cs next t s k i :
  map_inv pt m0 fb0 own0 own st vs cs next ->
  own t = Some (s, k) -> s = 39 \/ s = 30 -> 0 <= i < 512 ->
  file_buf st + 4096 < 2^64 ->
  exists st' own',
    ensure_table false (t + 8 * i) st = Go st' /\
    map_inv pt m0 fb0 own0 own' st' vs cs next /\
    file_buf st <= file_buf st' <= file_buf st + 4096 /\
    efi_pages st' = efi_pages st /\
    ptmem st' (t + 8 * i) <> 0 /\
    (forall a, a <> t + 8 * i -> a < file_buf st -> ptmem st' a = ptmem st a) /\
    (forall t' x, own t' = Some x -> own' t' = Some x).
Proof.
  intros Hinv Ht Hs Hi Hlt. unfold ensure_table.
  destruct (Z.eqb_spec (ptmem st (t + 8 * i)) 0) as [Hz|Hnz].
  - destruct (alloc_keeps _ _ _ _ _ _ _ _ _ Hinv Ht ltac:(lia) Hi (or_introl Hz) Hlt)
      as (st' & own' & Hrun & Hinv' & Hfb & Hefi & Hptr & Hother & Hkeep).
    exists st', own'. split; [exact Hrun|]. split; [exact Hinv'|].
    split; [lia|]. split; [exact Hefi|]. split; [|split; assumption].
    rewrite Hptr. destruct Hinv as [Hok _ _ _ _ _ _ _ _].
    destruct (owned_page _ _ _ _ Hok _ _ Ht) as (? & ? & ?). lia.
  - exists st, own. split; [reflexivity|]. split; [exact Hinv|].
    split; [lia|]. split; [reflexivity|]. split; [exact Hnz|]. split; auto.
Qed.

Lemma ensure_2m_keeps own st vs cs next t k i :
  map_inv pt m0 fb0 own0 own st vs cs next ->
  own t = Some (21, k) -> 0 <= i < 512 ->
  file_buf st + 4096 < 2^64 ->
  exists st' own',
    ensure_table_2m false (t + 8 * i) st = Go st' /\
    map_inv pt m0 fb0 own0 own' st' vs cs next /\
    file_buf st <= file_buf st' <= file_buf st + 4096 /\
    efi_pages st' = efi_pages st /\
    ptmem st' (t + 8 * i) <> 0 /\
    Z.land (ptmem st' (t + 8 * i)) 128 = 0 /\
    (forall a, a <> t + 8 * i -> a < file_buf st -> ptmem st' a = ptmem st a) /\
    (forall t' x, own t' = Some x -> own' t' = Some x).
Proof.
  intros Hinv Ht Hi Hlt. unfold ensure_table_2m.
  assert (Hcase : (ptmem st (t + 8 * i) = 0 \/
                   (21 = 21 /\ Z.land (ptmem st (t + 8 * i)) 128 <> 0)) \/
                  (ptmem st (t + 8 * i) <> 0 /\
                   Z.land (ptmem st (t + 8 * i)) 128 = 0)).
  { destruct (Z.eq_dec (ptmem st (t + 8 * i)) 0); [now left; left|].
    destruct (Z.eq_dec (Z.land (ptmem st (t + 8 * i)) 128) 0);
      [now right | now left; right]. }
  destruct Hcase as [Hcond | (Hnz & H7)].
  - replace ((ptmem st (t + 8 * i) =? 0)
             || negb (Z.land (ptmem st (t + 8 * i)) 128 =? 0)) with true.
    2:{ symmetry. apply orb_true_iff.
        destruct Hcond as [Hz | (_ & Hl)];
          [left; now apply Z.eqb_eq | right; apply negb_true_iff; now apply Z.eqb_neq]. }
    destruct (alloc_keeps _ _ _ _ _ _ _ _ _ Hinv Ht ltac:(lia) Hi Hcond Hlt)
      as (st' & own' & Hrun & Hinv' & Hfb & Hefi & Hptr & Hother & Hkeep).
    destruct Hinv as [Hok (_ & _ & Hal) _ _ _ _ _ _ _].
    exists st', own'. rewrite Hptr.
    split; [exact Hrun|]. split; [exact Hinv'|].
    split; [lia|]. split; [exact Hefi|].
    split; [destruct (owned_page _ _ _ _ Hok _ _ Ht) as (? & ? & ?); lia|].
    split; [apply flags_not_large, Hal|]. split; assumption.
  - apply Z.eqb_neq in Hnz as Hnz'. apply Z.eqb_eq in H7 as H7'.
    rewrite Hnz', H7'. cbn [orb negb].
    exists st, own. split; [reflexivity|]. split; [exact Hinv|].
    split; [lia|]. split; [reflexivity|]. split; [exact Hnz|].
    split; [exact H7|]. split; auto.
Qed.

(** A write to an entry of the last level leaves every walk as it is. *)
Lemma cell_stable own m fb m' v c :
  tables_ok pt own m fb ->
  (forall t s k i, own t = Some (s, k) -> s <> 12 -> 0 <= i < 512 ->
                   m' (t + 8 * i) = m (t + 8 * i)) ->
  cell pt m v = Some c -> cell pt m' v = Some c.
Proof.
  intros Hok Hsame Hc. rewrite <- Hc.
  destruct (walk_owned _ _ _ _ Hok _ _ Hc) as (O3 & O2 & _).
  apply cell_agree; rewrite entry_addr_idx.
  - apply (Hsame _ _ _ _ (ok_root _ _ _ _ Hok)); [lia | apply idx_bounds; lia].
  - apply (Hsame _ _ _ _ O3); [lia | apply idx_bounds; lia].
  - apply (Hsame _ _ _ _ O2); [lia | apply idx_bounds; lia].
Qed.

(** Chaining the entry of one more page. *)
Lemma chain_keeps own st vs cs next v c :
  map_inv pt m0 fb0 own0 own st vs cs next ->
  cell pt (ptmem st) v = Some c -> ~ In c cs ->
  map_inv pt m0 fb0 own0 own (poke c next st) (v :: vs) (c :: cs) c.
Proof.
  intros Hinv Hc Hnin.
  pose proof Hinv as [Hok Hfb Hext Hchild Hfresh Hold Hcells Hlinked Hnodup].
  destruct (cell_owned _ _ _ _ Hok _ _ Hc) as (O1 & Ec & Hc0 & _).
  pose proof (idx_bounds v 12 ltac:(lia)) as Hb.
  assert (Hup : forall t s k i, own t = Some (s, k) -> s <> 12 -> 0 <= i < 512 ->
                store (ptmem st) c next (t + 8 * i) = ptmem st (t + 8 * i)).
  { intros t s k i Ht Hs Hi. unfold store.
    destruct (Z.eqb_spec (t + 8 * i) c) as [He|]; [|reflexivity].
    rewrite Ec in He.
    destruct (level_apart _ _ _ _ Hok _ _ _ _ _ _ _ _ Ht O1 Hi Hb He)
      as (_ & _ & Hs' & _). contradiction. }
  assert (Hne : forall a, a <> c -> store (ptmem st) c next a = ptmem st a).
  { intros a Ha. unfold store. destruct (Z.eqb_spec a c); [contradiction|reflexivity]. }
  constructor; cbn [poke ptmem file_buf efi_pages].
  - constructor.
    + apply (ok_root _ _ _ _ Hok).
    + apply (ok_page _ _ _ _ Hok).
    + intros t s k i Ht Hs Hi. rewrite (Hup _ _ _ _ Ht Hs Hi).
      apply (ok_entry _ _ _ _ Hok _ _ _ _ Ht Hs Hi).
  - exact Hfb.
  - exact Hext.
  - intros t s k i Ht Hs Hge Hi. rewrite (Hup _ _ _ _ Ht Hs Hi).
    apply (Hchild _ _ _ _ Ht Hs Hge Hi).
  - intros t k i Ht Hge Hi Hnz.
    destruct (Z.eq_dec (t + 8 * i) c) as [He|He]; [now left|].
    right. rewrite Hne in Hnz by exact He. apply (Hfresh _ _ _ Ht Hge Hi Hnz).
  - intros a Ha.
    destruct (Z.eq_dec a c) as [He|He]; [right; left; now left|].
    rewrite Hne by exact He.
    destruct (Hold _ Ha) as [Hsame | [Hin | Hex]];
      [now left | right; left; now right | right; right; exact Hex].
  - constructor.
    + apply (cell_stable _ _ _ _ _ _ Hok Hup Hc).
    + revert Hcells. apply Forall2_impl. intros v' c' Hc'.
      apply (cell_stable _ _ _ _ _ _ Hok Hup Hc').
  - cbn [linked]. split; [reflexivity|]. split; [exact Hc0|].
    unfold store at 2. rewrite Z.eqb_refl.
    apply (linked_frame (ptmem st)); [|exact Hlinked].
    intros c' Hin. apply Hne. intros ->. contradiction.
  - constructor; assumption.
Qed.

(** A walk that ends in a table older than the call is the walk the
    memory had when the call began. *)
Lemma old_walk own st vs cs next v c :
  map_inv pt m0 fb0 own0 own st vs cs next ->
  cell pt (ptmem st) v = Some c ->
  tbl1 pt (ptmem st) v < fb0 ->
  m0 (entry_addr pt v 39) = ptmem st (entry_addr pt v 39) /\
  m0 (entry_addr (tbl3 pt (ptmem st) v) v 30)
    = ptmem st (entry_addr (tbl3 pt (ptmem st) v) v 30) /\
  m0 (entry_addr (tbl2 pt (ptmem st) v) v 21)
    = ptmem st (entry_addr (tbl2 pt (ptmem st) v) v 21).
Proof.
  intros Hinv Hc Hold1.
  pose proof Hinv as [Hok (Hfb0 & Hfb & Hal) Hext Hchild Hfresh Hold Hcells Hlinked Hnodup].
  destruct (walk_owned _ _ _ _ Hok _ _ Hc) as (O3 & O2 & O1).
  pose proof Hc as Hs. apply cell_spec in Hs. destruct Hs as (H4 & H3 & H2 & H7 & _).
  pose proof (idx_bounds v 39 ltac:(lia)) as B4.
  pose proof (idx_bounds v 30 ltac:(lia)) as B3.
  pose proof (idx_bounds v 21 ltac:(lia)) as B2.
  rewrite entry_addr_idx in H4, H3, H2, H7.
  assert (L2 : tbl2 pt (ptmem st) v < fb0).
  { destruct (Z.le_gt_cases fb0 (tbl2 pt (ptmem st) v)) as [Hge|]; [|lia].
    pose proof (Hchild _ _ _ _ O2 ltac:(lia) Hge B2 H2) as Hch.
    unfold tbl1 in Hold1. rewrite entry_addr_idx in Hold1. lia. }
  assert (L3 : tbl3 pt (ptmem st) v < fb0).
  { destruct (Z.le_gt_cases fb0 (tbl3 pt (ptmem st) v)) as [Hge|]; [|lia].
    pose proof (Hchild _ _ _ _ O3 ltac:(lia) Hge B3 H3) as Hch.
    unfold tbl2 in L2. rewrite entry_addr_idx in L2. lia. }
  assert (L4 : pt < fb0).
  { destruct (Z.le_gt_cases fb0 pt) as [Hge|]; [|lia].
    pose proof (Hchild _ _ _ _ (ok_root _ _ _ _ Hok) ltac:(lia) Hge B4 H4) as Hch.
    unfold tbl3 in L3. rewrite entry_addr_idx in L3. lia. }
  assert (Hpage : forall t, t mod 4096 = 0 -> t < fb0 -> t + 4096 <= fb0).
  { intros t Ht Hlt.
    pose proof (Z.div_mod t 4096 ltac:(lia)).
    pose proof (Z.div_mod fb0 4096 ltac:(lia)). lia. }
  assert (Hsame : forall t s k i, own t = Some (s, k) -> s <> 12 -> 0 <= i < 512 ->
            t < fb0 -> ptmem st (t + 8 * i) <> 0 ->
            page_down (ptmem st (t + 8 * i)) < fb0 ->
            m0 (t + 8 * i) = ptmem st (t + 8 * i)).
  { intros t s k i Ht Hs Hi Hlt Hnz Hpd.
    destruct (owned_page _ _ _ _ Hok _ _ Ht) as (At & _).
    destruct (Hold (t + 8 * i)) as [Hsame | [Hin | Hex]].
    - pose proof (Hpage t At Hlt). lia.
    - symmetry. exact Hsame.
    - destruct (chained_cell _ _ _ _ _ _ Hinv Hin)
        as (_ & t1 & k1 & i1 & _ & _ & Ot & Hi1 & He).
      destruct (level_apart _ _ _ _ Hok _ _ _ _ _ _ _ _ Ht Ot Hi Hi1 He)
        as (_ & _ & Hs' & _). contradiction.
    - destruct Hex as (_ & _ & _ & _ & _ & _ & _ & _ & Hge & _). lia. }
  rewrite !entry_addr_idx. split; [|split].
  - apply (Hsame _ _ _ _ (ok_root _ _ _ _ Hok)); auto; try lia;
      try (unfold tbl3 in L3; rewrite entry_addr_idx in L3; exact L3).
  - apply (Hsame _ _ _ _ O3); auto; try lia;
      try (unfold tbl2 in L2; rewrite entry_addr_idx in L2; exact L2).
  - apply (Hsame _ _ _ _ O2); auto; try lia;
      try (unfold tbl1 in Hold1; rewrite entry_addr_idx in Hold1; exact Hold1).
Qed.

(** The entry of a page that was not mapped when the call began, and is
    not one of the pages chained so far, is still empty. *)
Lemma path_ready own st vs cs next v c :
  map_inv pt m0 fb0 own0 own st vs cs next ->
  cell pt (ptmem st) v = Some c ->
  lookup_4k pt m0 v = None ->
  (forall v', In v' vs -> key v' 12 <> key v 12) ->
  ptmem st c = 0 /\ ~ In c cs.
Proof.
  intros Hinv Hc Habs Hkeys.
  pose proof Hinv as [Hok (Hfb0 & Hfb & Hal) Hext Hchild Hfresh Hold Hcells Hlinked Hnodup].
  assert (Hnin : ~ In c cs).
  { intros Hin.
    destruct (chained_cell _ _ _ _ _ _ Hinv Hin) as (v' & _ & _ & _ & Hv' & Hc' & _).
    apply (Hkeys _ Hv'). apply (cell_inj _ _ _ _ Hok _ _ _ Hc' Hc). }
  split; [|exact Hnin].
  destruct (cell_owned _ _ _ _ Hok _ _ Hc) as (O1 & Ec & _ & _).
  pose proof (idx_bounds v 12 ltac:(lia)) as B1.
  destruct (owned_page _ _ _ _ Hok _ _ O1) as (A1 & P1 & _).
  destruct (Z.le_gt_cases fb0 (tbl1 pt (ptmem st) v)) as [Hnew|Hold1].
  - (* a table made during this call *)
    destruct (Z.eq_dec (ptmem st c) 0) as [Hz|Hnz]; [exact Hz|].
    exfalso. apply Hnin. rewrite Ec in *. apply (Hfresh _ _ _ O1 Hnew B1 Hnz).
  - (* a table that was there before: so was the whole walk *)
    destruct (old_walk _ _ _ _ _ _ _ Hinv Hc Hold1) as (E4 & E3 & E2).
    pose proof (cell_agree pt (ptmem st) m0 v E4 E3 E2) as Hc0.
    rewrite Hc in Hc0. rewrite lookup_4k_cell, Hc0 in Habs.
    assert (Hz0 : m0 c = 0).
    { destruct (Z.eqb_spec (m0 c) 0); [assumption|discriminate]. }
    destruct (Hold c) as [Hsame' | [Hin | Hex]].
    + rewrite Ec.
      pose proof (Z.div_mod (tbl1 pt (ptmem st) v) 4096 ltac:(lia)).
      pose proof (Z.div_mod fb0 4096 ltac:(lia)). lia.
    + congruence.
    + contradiction.
    + destruct Hex as (t & s & k & i & Ht & Hs & Hi & He & _).
      rewrite Ec in He.
      destruct (level_apart _ _ _ _ Hok _ _ _ _ _ _ _ _ O1 Ht B1 Hi He)
        as (_ & _ & Hs' & _). congruence.
Qed.

(** A translation the memory had when the call began is still there. *)
Lemma present_kept own st vs cs next w e :
  map_inv pt m0 fb0 own0 own st vs cs next ->
  lookup_4k pt m0 w = Some e ->
  (forall v', In v' vs -> key v' 12 <> key w 12) ->
  exists c, cell pt (ptmem st) w = Some c /\ ptmem st c = e /\ e <> 0 /\
            ~ In c cs.
Proof.
  intros Hinv Hl Hkeys.
  pose proof Hinv as [Hok (Hfb0 & Hfb & Hal) Hext Hchild Hfresh Hold Hcells Hlinked Hnodup].
  rewrite lookup_4k_cell in Hl.
  destruct (cell pt m0 w) as [c|] eqn:Hc; [|discriminate].
  destruct (Z.eqb_spec (m0 c) 0) as [|Hnz]; [discriminate|]. injection Hl as Hev.
  destruct (walk_owned _ _ _ _ H0 _ _ Hc) as (O3 & O2 & O1).
  destruct (cell_owned _ _ _ _ H0 _ _ Hc) as (_ & Ec & _ & Hcf).
  pose proof Hc as Hs. apply cell_spec in Hs. destruct Hs as (H4 & H3 & H2 & H7 & _).
  pose proof (idx_bounds w 39 ltac:(lia)) as B4.
  pose proof (idx_bounds w 30 ltac:(lia)) as B3.
  pose proof (idx_bounds w 21 ltac:(lia)) as B2.
  pose proof (idx_bounds w 12 ltac:(lia)) as B1.
  rewrite entry_addr_idx in H4, H3, H2, H7.
  assert (Hsame : forall t s k i, own0 t = Some (s, k) -> s <> 12 -> 0 <= i < 512 ->
            m0 (t + 8 * i) <> 0 -> (s = 21 -> Z.land (m0 (t + 8 * i)) 128 = 0) ->
            ptmem st (t + 8 * i) = m0 (t + 8 * i)).
  { intros t s k i Ht Hs Hi Hnz0 H70.
    destruct (owned_page _ _ _ _ H0 _ _ Ht) as (_ & _ & Hlt).
    destruct (Hold (t + 8 * i)) as [Hsame | [Hin | Hex]]; [lia | exact Hsame | |].
    - destruct (chained_cell _ _ _ _ _ _ Hinv Hin)
        as (_ & t1 & k1 & i1 & _ & _ & Ot & Hi1 & He).
      destruct (level_apart _ _ _ _ Hok _ _ _ _ _ _ _ _ (Hext _ _ Ht) Ot Hi Hi1 He)
        as (_ & _ & Hs' & _). contradiction.
    - destruct Hex as (t' & s' & k' & i' & Ht' & _ & Hi' & He & _ & _ & _ & Hwas).
      destruct Hwas as [Hz | (Hs21 & Hl)]; [contradiction|].
      destruct (level_apart _ _ _ _ Hok _ _ _ _ _ _ _ _ (Hext _ _ Ht) Ht' Hi Hi' He)
        as (_ & _ & Hs' & _).
      exfalso. apply Hl. apply H70. congruence. }
  assert (E4 : ptmem st (entry_addr pt w 39) = m0 (entry_addr pt w 39)).
  { rewrite entry_addr_idx.
    apply (Hsame _ _ _ _ (ok_root _ _ _ _ H0)); auto; lia. }
  assert (E3 : ptmem st (entry_addr (tbl3 pt m0 w) w 30)
               = m0 (entry_addr (tbl3 pt m0 w) w 30)).
  { rewrite entry_addr_idx. apply (Hsame _ _ _ _ O3); auto; lia. }
  assert (E2 : ptmem st (entry_addr (tbl2 pt m0 w) w 21)
               = m0 (entry_addr (tbl2 pt m0 w) w 21)).
  { rewrite entry_addr_idx. apply (Hsame _ _ _ _ O2); auto; lia. }
  pose proof (cell_agree pt m0 (ptmem st) w E4 E3 E2) as Hc'.
  rewrite Hc in Hc'.
  assert (Hnin : ~ In c cs).
  { intros Hin.
    destruct (chained_cell _ _ _ _ _ _ Hinv Hin) as (v' & _ & _ & _ & Hv' & Hcv & _).
    apply (Hkeys _ Hv'). apply (cell_inj _ _ _ _ Hok _ _ _ Hcv Hc'). }
  exists c. split; [exact Hc'|]. split; [|split; [congruence | exact Hnin]].
  rewrite <- Hev.
  destruct (Hold c) as [Hsame' | [Hin | Hex]]; [lia | exact Hsame' | contradiction |].
  destruct Hex as (t & s & k & i & Ht & Hs & Hi & Hec & _).
  rewrite Ec in Hec.
  destruct (level_apart _ _ _ _ Hok _ _ _ _ _ _ _ _ (Hext _ _ O1) Ht B1 Hi Hec)
    as (_ & _ & Hs' & _). congruence.
Qed.

(** One round of the first loop on a page that is not mapped yet: the
    missing tables are made and the entry of the page is chained. *)
Lemma map_page_fresh own st vs cs next v :
  map_inv pt m0 fb0 own0 own st vs cs next ->
  lookup_4k pt m0 v = None ->
  (forall v', In v' vs -> key v' 12 <> key v 12) ->
  file_buf st + 12288 < 2^64 ->
  exists st' own' c,
    map_page false pt v next st = Go (c, st') /\
    map_inv pt m0 fb0 own0 own' st' (v :: vs) (c :: cs) c /\
    file_buf st <= file_buf st' <= file_buf st + 12288 /\
    efi_pages st' = efi_pages st /\
    (forall t x, own t = Some x -> own' t = Some x).
Proof.
  intros Hinv Habs Hkeys Hlt.
  pose proof (idx_bounds v 39 ltac:(lia)) as B4.
  pose proof (idx_bounds v 30 ltac:(lia)) as B3.
  pose proof (idx_bounds v 21 ltac:(lia)) as B2.
  pose proof (idx_bounds v 12 ltac:(lia)) as B1.
  assert (Hroot : own pt = Some (39, 0)).
  { destruct Hinv as [Hok _ _ _ _ _ _ _ _]. apply (ok_root _ _ _ _ Hok). }
  unfold map_page. cbv zeta. rewrite !entry_addr_idx.
  (* 512 GiB *)
  destruct (ensure_keeps _ _ _ _ _ _ _ _ _ Hinv Hroot (or_introl eq_refl) B4 ltac:(lia))
    as (st1 & own1 & -> & Hinv1 & Hfb1 & Hefi1 & Hnz1 & Hoth1 & Hk1).
  cbv beta iota. rewrite ?entry_addr_idx.
  set (p4 := pt + 8 * idx v 39) in *.
  set (T3 := page_down (ptmem st1 p4)) in *.
  pose proof Hinv1 as [Hok1 _ _ _ _ _ _ _ _].
  assert (O3 : own1 T3 = Some (30, 0 * 512 + idx v 39)).
  { apply (ok_entry _ _ _ _ Hok1 pt 39 0 (idx v 39) (Hk1 _ _ Hroot));
      [lia | exact B4 | exact Hnz1 | lia]. }
  (* 1 GiB *)
  destruct (ensure_keeps _ _ _ _ _ _ _ _ _ Hinv1 O3 (or_intror eq_refl) B3 ltac:(lia))
    as (st2 & own2 & -> & Hinv2 & Hfb2 & Hefi2 & Hnz2 & Hoth2 & Hk2).
  cbv beta iota. rewrite ?entry_addr_idx.
  set (p3 := T3 + 8 * idx v 30) in *.
  set (T2 := page_down (ptmem st2 p3)) in *.
  pose proof Hinv2 as [Hok2 _ _ _ _ _ _ _ _].
  assert (O2 : own2 T2 = Some (30 - 9, (0 * 512 + idx v 39) * 512 + idx v 30)).
  { apply (ok_entry _ _ _ _ Hok2 T3 30 _ (idx v 30) (Hk2 _ _ O3));
      [lia | exact B3 | exact Hnz2 | lia]. }
  change (30 - 9) with 21 in O2.
  (* 2 MiB *)
  destruct (ensure_2m_keeps _ _ _ _ _ _ _ _ Hinv2 O2 B2 ltac:(lia))
    as (st3 & own3 & -> & Hinv3 & Hfb3 & Hefi3 & Hnz3 & H73 & Hoth3 & Hk3).
  cbv beta iota. rewrite ?entry_addr_idx.
  set (p2 := T2 + 8 * idx v 21) in *.
  set (T1 := page_down (ptmem st3 p2)) in *.
  pose proof Hinv3 as [Hok3 _ _ _ _ _ _ _ _].
  (* the walk is complete now *)
  destruct (owned_page _ _ _ _ Hok1 _ _ (Hk1 _ _ Hroot)) as (_ & _ & F4).
  destruct (owned_page _ _ _ _ Hok2 _ _ (Hk2 _ _ O3)) as (_ & _ & F3).
  assert (N43 : p4 <> p3).
  { intros He.
    destruct (level_apart _ _ _ _ Hok1 _ _ _ _ _ _ _ _ (Hk1 _ _ Hroot) O3 B4 B3 He)
      as (_ & _ & Hs & _). discriminate. }
  assert (N42 : p4 <> p2).
  { intros He.
    destruct (level_apart _ _ _ _ Hok2 _ _ _ _ _ _ _ _
                (Hk2 _ _ (Hk1 _ _ Hroot)) O2 B4 B2 He)
      as (_ & _ & Hs & _). discriminate. }
  assert (N32 : p3 <> p2).
  { intros He.
    destruct (level_apart _ _ _ _ Hok2 _ _ _ _ _ _ _ _ (Hk2 _ _ O3) O2 B3 B2 He)
      as (_ & _ & Hs & _). discriminate. }
  assert (E4 : ptmem st3 p4 = ptmem st1 p4).
  { rewrite Hoth3 by (auto; unfold p4; lia). apply Hoth2; [exact N43 | unfold p4; lia]. }
  assert (E3 : ptmem st3 p3 = ptmem st2 p3).
  { apply Hoth3; [exact N32 | unfold p3; lia]. }
  assert (Hc : cell pt (ptmem st3) v = Some (T1 + 8 * idx v 12)).
  { apply cell_spec. unfold tbl1, tbl2, tbl3. rewrite !entry_addr_idx.
    fold p4. rewrite E4. fold T3. fold p3. rewrite E3. fold T2. fold p2.
    repeat split; auto; congruence. }
  destruct (path_ready _ _ _ _ _ _ _ Hinv3 Hc Habs Hkeys) as (Hz & Hnin).
  rewrite Hz. cbn [Z.eqb].
  exists (poke (T1 + 8 * idx v 12) next st3), own3, (T1 + 8 * idx v 12).
  split; [reflexivity|].
  split; [apply chain_keeps; assumption|].
  cbn [poke file_buf efi_pages].
  split; [lia|]. split; [congruence|].
  intros t x H. apply Hk3, Hk2, Hk1, H.
Qed.

(** Where the call replaces a large page by a table, the entries of the
    table other than those of the chained pages are empty. *)
Lemma large_split own st vs cs next w v e :
  map_inv pt m0 fb0 own0 own st vs cs next ->
  In v vs -> key w 21 = key v 21 ->
  (forall v', In v' vs -> key v' 12 <> key w 12) ->
  lookup_2m pt m0 w = Some e ->
  exists c, cell pt (ptmem st) w = Some c /\ ptmem st c = 0 /\ ~ In c cs.
Proof.
  intros Hinv Hv Hk Hkeys Hl.
  pose proof Hinv as [Hok (Hfb0 & Hfb & Hal) Hext Hchild Hfresh Hold Hcells Hlinked Hnodup].
  destruct (Forall2_in_l _ _ _ _ _ _ Hcells Hv) as (cv & _ & Hcv).
  assert (I39 : idx w 39 = idx v 39)
    by (rewrite (idx_of_key w 21 39), (idx_of_key v 21 39), Hk by lia; reflexivity).
  assert (I30 : idx w 30 = idx v 30)
    by (rewrite (idx_of_key w 21 30), (idx_of_key v 21 30), Hk by lia; reflexivity).
  assert (I21 : idx w 21 = idx v 21)
    by (rewrite (idx_of_key w 21 21), (idx_of_key v 21 21), Hk by lia; reflexivity).
  assert (Hcw : exists c, cell pt (ptmem st) w = Some c).
  { exists (entry_addr (tbl1 pt (ptmem st) w) w 12).
    apply cell_spec in Hcv. apply cell_spec.
    unfold tbl1, tbl2, tbl3 in *. rewrite !entry_addr_idx in *.
    rewrite I39, I30, I21. tauto. }
  destruct Hcw as (c & Hc). exists c. split; [exact Hc|].
  assert (Hnin : ~ In c cs).
  { intros Hin.
    destruct (chained_cell _ _ _ _ _ _ Hinv Hin) as (v' & _ & _ & _ & Hv' & Hc' & _).
    apply (Hkeys _ Hv'). apply (cell_inj _ _ _ _ Hok _ _ _ Hc' Hc). }
  split; [|exact Hnin].
  destruct (cell_owned _ _ _ _ Hok _ _ Hc) as (O1 & Ec & _ & _).
  pose proof (idx_bounds w 12 ltac:(lia)) as B1.
  destruct (Z.le_gt_cases fb0 (tbl1 pt (ptmem st) w)) as [Hnew|Hold1].
  - destruct (Z.eq_dec (ptmem st c) 0) as [Hz|Hnz]; [exact Hz|].
    exfalso. apply Hnin. rewrite Ec in *. apply (Hfresh _ _ _ O1 Hnew B1 Hnz).
  - exfalso.
    destruct (old_walk _ _ _ _ _ _ _ Hinv Hc Hold1) as (E4 & E3 & E2).
    rewrite (lookup_2m_agree pt (ptmem st) m0 w E4 E3 E2) in Hl.
    rewrite (cell_not_large _ _ _ _ Hc) in Hl. discriminate.
Qed.

(** One round of the first loop, whatever the page. *)
Lemma map_page_any own st vs cs next v :
  map_inv pt m0 fb0 own0 own st vs cs next ->
  (forall v', In v' vs -> key v' 12 <> key v 12) ->
  file_buf st + 12288 < 2^64 ->
  exists st' own' cs' next',
    map_page false pt v next st = Go (next', st') /\
    map_inv pt m0 fb0 own0 own' st'
            (if unmapped pt m0 v then v :: vs else vs) cs' next' /\
    file_buf st <= file_buf st' <= file_buf st + 12288 /\
    efi_pages st' = efi_pages st /\
    (forall t x, own t = Some x -> own' t = Some x).
Proof.
  intros Hinv Hkeys Hlt. unfold unmapped.
  destruct (lookup_4k pt m0 v) as [e|] eqn:Hl.
  - destruct (present_kept _ _ _ _ _ _ _ Hinv Hl Hkeys) as (c & Hc & Hmc & Hnz & _).
    assert (Hl' : lookup_4k pt (ptmem st) v = Some e).
    { rewrite lookup_4k_cell, Hc, Hmc.
      destruct (Z.eqb_spec e 0); [contradiction|reflexivity]. }
    exists st, own, cs, next.
    split; [exact (map_page_present false pt v next st e Hl')|].
    split; [exact Hinv|]. split; [lia|]. split; auto.
  - destruct (map_page_fresh _ _ _ _ _ _ Hinv Hl Hkeys Hlt)
      as (st' & own' & c & Hrun & Hinv' & Hfb & Hefi & Hk).
    exists st', own', (c :: cs), c. auto.
Qed.

(** The first loop. *)
Lemma map_pages_any v0 end_ n :
  (forall i, 0 <= i < Z.of_nat n -> v0 + 4096 * i < end_) ->
  end_ <= v0 + 4096 * Z.of_nat n ->
  0 <= v0 -> v0 + 4096 * Z.of_nat n < 2^64 -> Z.of_nat n < 2^36 ->
  forall r j own st cs next fuel,
    (j + r = n)%nat -> (r < fuel)%nat ->
    map_inv pt m0 fb0 own0 own st
            (filter (unmapped pt m0) (pages_down v0 j)) cs next ->
    file_buf st + 12288 * Z.of_nat r < 2^64 ->
    exists st' own' cs' next',
      map_pages false pt fuel (v0 + 4096 * Z.of_nat j) end_ next st
        = Some (Go (next', st')) /\
      map_inv pt m0 fb0 own0 own' st'
              (filter (unmapped pt m0) (pages_down v0 n)) cs' next' /\
      file_buf st <= file_buf st' <= file_buf st + 12288 * Z.of_nat r /\
      efi_pages st' = efi_pages st /\
      (forall t x, own t = Some x -> own' t = Some x).
Proof.
  intros Hin Hend Hv0 Hw Hn.
  induction r as [|r IH]; intros j own st cs next fuel Hj Hf Hinv Hlt;
    (destruct fuel as [|fuel]; [lia|]); cbn [map_pages].
  - assert (j = n) by lia. subst j.
    destruct (Z.ltb_spec (v0 + 4096 * Z.of_nat n) end_); [lia|].
    exists st, own, cs, next. split; [reflexivity|]. split; [exact Hinv|].
    split; [lia|]. split; auto.
  - destruct (Z.ltb_spec (v0 + 4096 * Z.of_nat j) end_) as [_|Hge].
    2:{ pose proof (Hin (Z.of_nat j) ltac:(lia)). lia. }
    destruct (map_page_any own st _ cs next (v0 + 4096 * Z.of_nat j) Hinv)
      as (st1 & own1 & cs1 & next1 & -> & Hinv1 & Hfb1 & Hefi1 & Hk1).
    { intros v' Hv'. apply filter_In in Hv'. destruct Hv' as (Hv' & _).
      destruct (in_pages_down _ _ _ Hv') as (i & Hi & ->).
      apply key_pages; lia. }
    { lia. }
    replace (u64 (v0 + 4096 * Z.of_nat j + 4096)) with (v0 + 4096 * Z.of_nat (S j)).
    2:{ unfold u64. rewrite Z.mod_small by lia. lia. }
    destruct (IH (S j) own1 st1 cs1 next1 fuel ltac:(lia) ltac:(lia) Hinv1 ltac:(lia))
      as (st' & own' & cs' & next' & Hrun & Hinv' & Hfb' & Hefi' & Hk').
    exists st', own', cs', next'. split; [exact Hrun|]. split; [exact Hinv'|].
    split; [lia|]. split; [congruence|]. intros t x H. apply Hk', Hk1, H.
Qed.

(** A whole call on BIOS. *)
Lemma fw_map_run st phys virt size :
  ptmem st = m0 -> file_buf st = fb0 ->
  fb0 mod 4096 = 0 -> fb0 < 2^63 -> 8192 <= phys < 2^63 ->
  canonical virt = true -> 0 <= virt -> 0 <= size < 2^32 ->
  virt + size <= 2^64 - 4096 ->
  exists st' own',
    fw_map false pt phys virt size st = Some (1, st') /\
    tables_ok pt own' (ptmem st') (file_buf st') /\
    (forall t x, own0 t = Some x -> own' t = Some x) /\
    fb0 <= file_buf st' <= fb0 + 12288 * Z.of_nat (npages virt size) /\
    file_buf st' mod 4096 = 0 /\
    efi_pages st' = efi_pages st /\
    (forall w e, lookup_4k pt m0 w = Some e ->
                 lookup_4k pt (ptmem st') w = Some e) /\
    (forall q, (q < List.length (fresh_pages pt m0 virt size))%nat ->
       lookup_4k pt (ptmem st') (nth q (fresh_pages pt m0 virt size) 0)
       = Some (page_down ((if page_down phys =? fb0 then file_buf st'
                           else page_down phys) + size - 1)
               - 4096 * Z.of_nat q + 3)) /\
    (forall w v e, In v (fresh_pages pt m0 virt size) -> key w 21 = key v 21 ->
       (forall v', In v' (fresh_pages pt m0 virt size) -> key v' 12 <> key w 12) ->
       lookup_2m pt m0 w = Some e ->
       lookup_4k pt (ptmem st') w = None /\ lookup_2m pt (ptmem st') w = None).
Proof.
  intros Hm Hfb Hal Hlt Hph Hcan Hv Hs Hw.
  destruct (owned_page _ _ _ _ H0 _ _ (ok_root _ _ _ _ H0)) as (Apt & Ppt & Fpt).
  assert (Hpt8 : 4096 <= pt) by (pose proof (Z.div_mod pt 4096 ltac:(lia)); lia).
  pose proof (Z.mod_pos_bound virt 4096 ltac:(lia)) as Ho.
  pose proof (Z.mod_le virt 4096 Hv ltac:(lia)) as Hole.
  pose proof (Z.div_mod (virt mod 4096 + size + 4095) 4096 ltac:(lia)) as Hdm.
  pose proof (Z.mod_pos_bound (virt mod 4096 + size + 4095) 4096 ltac:(lia)) as Hdb.
  unfold fresh_pages. set (n := npages virt size).
  assert (Hn : Z.of_nat n = (virt mod 4096 + size + 4095) / 4096).
  { unfold n, npages. rewrite Z2Nat.id; [reflexivity|]. apply Z.div_pos; lia. }
  set (vs := filter (unmapped pt m0) (pages_down (page_down virt) n)).
  assert (Hinit : map_inv pt m0 fb0 own0 own0 st
            (filter (unmapped pt m0) (pages_down (page_down virt) 0)) [] 0).
  { cbn [pages_down filter]. constructor.
    - rewrite Hm, Hfb. exact H0.
    - rewrite Hfb. repeat split; auto; lia.
    - auto.
    - intros t s k i Ht _ Hge. destruct (owned_page _ _ _ _ H0 _ _ Ht) as (_ & _ & ?). lia.
    - intros t k i Ht Hge. destruct (owned_page _ _ _ _ H0 _ _ Ht) as (_ & _ & ?). lia.
    - intros a _. left. now rewrite Hm.
    - constructor.
    - reflexivity.
    - constructor. }
  assert (Hfuel : (n < map_fuel size)%nat).
  { unfold map_fuel. apply Nat2Z.inj_lt. rewrite Hn, Z2Nat.id.
    2:{ pose proof (Z.div_pos size 4096). lia. }
    pose proof (Z.div_mod size 4096 ltac:(lia)).
    pose proof (Z.mod_pos_bound size 4096 ltac:(lia)). lia. }
  destruct (map_pages_any (page_down virt) (virt + size) n) with
    (r := n) (j := 0%nat) (own := own0) (st := st) (cs := @nil Z) (next := 0)
    (fuel := map_fuel size)
    as (st1 & own1 & cs & next & Hrun1 & Hinv1 & Hfb1 & Hefi1 & Hk1);
    try exact Hinit; try exact Hfuel;
    try (intros; unfold page_down; rewrite ?Hfb; lia).
  replace (page_down virt + 4096 * Z.of_nat 0) with (page_down virt) in Hrun1 by lia.
  pose proof Hinv1 as [Hok1 (_ & Hge1 & Hal1) Hext1 _ _ _ Hcells1 Hlinked1 Hnodup1].
  fold vs in Hinv1, Hcells1.
  assert (Hlen : List.length cs = List.length vs)
    by (symmetry; apply (Forall2_length Hcells1)).
  assert (Hlenn : (List.length vs <= n)%nat).
  { unfold vs. rewrite <- (pages_down_length (page_down virt) n) at 2.
    apply filter_length_le. }
  set (base := if page_down phys =? fb0 then file_buf st1 else page_down phys).
  assert (Hbase : 8192 <= base < 2^63 + 12288 * Z.of_nat n).
  { unfold base. destruct (page_down phys =? fb0); [lia|].
    unfold page_down.
    pose proof (Z.div_mod phys 4096 ltac:(lia)).
    pose proof (Z.mod_pos_bound phys 4096 ltac:(lia)). lia. }
  set (top := page_down (base + size - 1)).
  assert (Htop : base + size - 4096 <= top <= base + size - 1).
  { unfold top, page_down.
    pose proof (Z.mod_pos_bound (base + size - 1) 4096 ltac:(lia)). lia. }
  destruct (resolve_list_spec cs (map_fuel size) top next st1 Hlinked1 Hnodup1)
    as (st2 & Hrun2 & Hfb2 & Hefi2 & Hframe & Hval); [lia | lia | lia |].
  assert (Hup : forall t s k i, own1 t = Some (s, k) -> s <> 12 -> 0 <= i < 512 ->
                ptmem st2 (t + 8 * i) = ptmem st1 (t + 8 * i)).
  { intros t s k i Ht Hne Hi. apply Hframe. intros Hin.
    destruct (chained_cell _ _ _ _ _ _ Hinv1 Hin)
      as (_ & t1 & k1 & i1 & _ & _ & Ot & Hi1 & He).
    destruct (level_apart _ _ _ _ Hok1 _ _ _ _ _ _ _ _ Ht Ot Hi Hi1 He)
      as (_ & _ & Hs' & _). contradiction. }
  assert (Hcell2 : forall v c, cell pt (ptmem st1) v = Some c ->
                               cell pt (ptmem st2) v = Some c).
  { intros v c. apply (cell_stable _ _ _ _ _ _ Hok1 Hup). }
  assert (Hfresh0 : forall v' w e, In v' vs -> lookup_4k pt m0 w = Some e ->
                    key v' 12 <> key w 12).
  { intros v' w e Hin Hl Hk. unfold vs in Hin. apply filter_In in Hin.
    destruct Hin as (_ & Hun). unfold unmapped in Hun.
    rewrite (lookup_4k_key pt m0 v' w Hk), Hl in Hun. discriminate. }
  exists st2, own1.
  split.
  { unfold fw_map. cbv zeta. rewrite Hcan.
    destruct (Z.eqb_spec pt 0); [lia|]. cbn [orb negb].
    replace (u64 (virt + size)) with (virt + size)
      by (unfold u64; rewrite Z.mod_small; lia).
    rewrite Hrun1. rewrite Hfb. fold base.
    replace (u64 (base + size - 1)) with (base + size - 1)
      by (unfold u64; rewrite Z.mod_small; lia).
    fold top. rewrite Hrun2. reflexivity. }
  split.
  { rewrite Hfb2. constructor.
    - apply (ok_root _ _ _ _ Hok1).
    - apply (ok_page _ _ _ _ Hok1).
    - intros t s k i Ht Hne Hi. rewrite (Hup _ _ _ _ Ht Hne Hi).
      apply (ok_entry _ _ _ _ Hok1 _ _ _ _ Ht Hne Hi). }
  split; [exact Hk1|]. rewrite Hfb2, Hefi2. fold base. fold top.
  split; [lia|]. split; [exact Hal1|]. split; [exact Hefi1|].
  split; [|split].
  - intros w e Hl.
    destruct (present_kept _ _ _ _ _ _ _ Hinv1 Hl) as (c & Hc & Hmc & Hnz & Hnin).
    { intros v' Hin. apply (Hfresh0 _ _ _ Hin Hl). }
    rewrite lookup_4k_cell, (Hcell2 _ _ Hc), (Hframe _ Hnin), Hmc.
    destruct (Z.eqb_spec e 0); [contradiction|reflexivity].
  - intros q Hq.
    pose proof (Forall2_nth _ _ _ _ _ 0 0 Hcells1 q Hq) as Hc. cbv beta in Hc.
    rewrite lookup_4k_cell, (Hcell2 _ _ Hc), Hval by lia.
    rewrite lor_flags.
    2:{ replace (top - 4096 * Z.of_nat q) with (top + (- Z.of_nat q) * 4096) by lia.
        rewrite Z.mod_add by lia. apply page_down_aligned. }
    destruct (Z.eqb_spec (top - 4096 * Z.of_nat q + 3) 0); [lia|reflexivity].
  - intros w v e Hin Hk Hkeys Hl.
    destruct (large_split _ _ _ _ _ _ _ _ Hinv1 Hin Hk Hkeys Hl)
      as (c & Hc & Hz & Hnin).
    split.
    + rewrite lookup_4k_cell, (Hcell2 _ _ Hc), (Hframe _ Hnin), Hz. reflexivity.
    + apply (cell_not_large _ _ _ _ (Hcell2 _ _ Hc)).
Qed.

End MapInv.

(** ** The tables of [bios_pagetables] are such a tree *)

Ltac decide_bounds :=
  repeat match goal with
  | |- context [?a <=? ?b] => destruct (Z.leb_spec a b); try lia
  | |- context [?a <? ?b] => destruct (Z.ltb_spec a b); try lia
  | |- context [?a =? ?b] => destruct (Z.eqb_spec a b); try lia
  end.

Lemma bios_pagetables_root pt g m i :
  0 <= i < 512 ->
  bios_pagetables pt g m (pt + 8 * i) = if i =? 0 then pt + 4096 + 3 else 0.
Proof.
  intros Hi. unfold bios_pagetables, fill_table, store, zero_range.
  destruct (Z.eqb_spec i 0) as [->|Hne].
  - replace (pt + 8 * 0) with pt by lia. decide_bounds; reflexivity.
  - decide_bounds; reflexivity.
Qed.

Lemma bios_pagetables_1g pt g m i :
  1 <= g <= 512 -> 0 <= i < 512 ->
  bios_pagetables pt g m (pt + 4096 + 8 * i)
  = if i <? g then pt + (i + 2) * 4096 + 3 else 0.
Proof.
  intros Hg Hi. unfold bios_pagetables, fill_table, store, zero_range.
  replace (pt + 4096 + 8 * i - (pt + 8 * 512)) with (i * 8) by lia.
  rewrite Z.mod_mul, Z.div_mul by lia.
  destruct (Z.ltb_spec i g); decide_bounds; reflexivity.
Qed.

Lemma bios_pagetables_2m pt g m j i :
  1 <= g <= 512 -> 0 <= j < g -> 0 <= i < 512 ->
  bios_pagetables pt g m (pt + (j + 2) * 4096 + 8 * i)
  = (j * 512 + i) * 2 * 1024 * 1024 + 131.
Proof.
  intros Hg Hj Hi. unfold bios_pagetables, fill_table.
  replace (pt + (j + 2) * 4096 + 8 * i - (pt + 8 * 1024))
    with ((j * 512 + i) * 8) by lia.
  rewrite Z.mod_mul, Z.div_mul by lia.
  decide_bounds; reflexivity.
Qed.

Lemma bios_pagetables_tree pt g m fb :
  pt mod 4096 = 0 -> 0 < pt -> 1 <= g <= 512 -> pt + 4096 * (g + 2) <= fb ->
  tables_ok pt (bios_owner pt g) (bios_pagetables pt g m) fb.
Proof.
  intros Hpt Hpos Hg Hfb.
  assert (Hown : forall t s k, bios_owner pt g t = Some (s, k) ->
            (t = pt /\ s = 39 /\ k = 0) \/ (t = pt + 4096 /\ s = 30 /\ k = 0) \/
            (exists j, 0 <= j < g /\ t = pt + (j + 2) * 4096 /\ s = 21 /\ k = j)).
  { intros t s k. unfold bios_owner.
    destruct (Z.eqb_spec t pt) as [->|_]; [intros [= <- <-]; now left|].
    destruct (Z.eqb_spec t (pt + 4096)) as [->|_];
      [intros [= <- <-]; right; now left|].
    destruct (Z.leb_spec (pt + 8192) t); cbn [andb]; [|discriminate].
    destruct (Z.ltb_spec t (pt + 8192 + 4096 * g)); cbn [andb]; [|discriminate].
    destruct (Z.eqb_spec ((t - pt) mod 4096) 0) as [Hm|]; [|discriminate].
    intros [= <- <-]. right. right.
    pose proof (Z.div_mod (t - pt) 4096 ltac:(lia)).
    exists ((t - pt) / 4096 - 2). repeat split; lia. }
  assert (H2m : forall j, 0 <= j < g ->
            bios_owner pt g (pt + (j + 2) * 4096) = Some (21, j)).
  { intros j Hj. unfold bios_owner.
    replace (pt + (j + 2) * 4096 - pt) with ((j + 2) * 4096) by lia.
    rewrite Z.mod_mul, Z.div_mul by lia.
    decide_bounds. cbn [andb]. do 2 f_equal. lia. }
  constructor.
  - unfold bios_owner. now rewrite Z.eqb_refl.
  - intros t s k H.
    destruct (Hown _ _ _ H) as [(-> & -> & _) | [(-> & -> & _) | (j & Hj & -> & -> & _)]].
    + repeat split; auto; lia.
    + repeat split; try lia.
      rewrite <- Z.add_mod_idemp_l, Hpt by lia. reflexivity.
    + repeat split; try lia.
      rewrite <- Z.add_mod_idemp_l, Hpt, Z.add_0_l, Z.mod_mul by lia. reflexivity.
  - intros t s k i H Hs Hi Hnz H7.
    destruct (Hown _ _ _ H) as [(-> & -> & ->) | [(-> & -> & ->) | (j & Hj & -> & -> & ->)]].
    + rewrite bios_pagetables_root in * by exact Hi.
      destruct (Z.eqb_spec i 0) as [->|]; [|contradiction].
      replace (pt + 4096 + 3) with ((pt + 4096) + 3) by lia.
      rewrite page_down_flags
        by (try lia; rewrite <- Z.add_mod_idemp_l, Hpt by lia; reflexivity).
      unfold bios_owner. decide_bounds. reflexivity.
    + rewrite bios_pagetables_1g in * by (auto; lia).
      destruct (Z.ltb_spec i g); [|contradiction].
      rewrite page_down_flags
        by (try lia;
            rewrite <- Z.add_mod_idemp_l, Hpt, Z.add_0_l, Z.mod_mul by lia;
            reflexivity).
      rewrite H2m by lia. reflexivity.
    + exfalso. specialize (H7 eq_refl).
      rewrite bios_pagetables_2m in H7 by (auto; lia).
      rewrite land_bit7 in H7; [discriminate | lia |].
      replace ((j * 512 + i) * 2 * 1024 * 1024 + 131)
        with (3 + (1 + ((j * 512 + i) * 2 ^ 13) * 2) * 128) by lia.
      rewrite Z.div_add by lia. change (3 / 128) with 0. rewrite Z.add_0_l.
      rewrite Z.mod_add by lia. reflexivity.
Qed.

(** ** What a caller of [fw_map] and [fw_loadseg] gets on BIOS *)

Lemma tables_ok_weaken pt own m fb fb' :
  fb <= fb' -> tables_ok pt own m fb -> tables_ok pt own m fb'.
Proof.
  intros Hle [Hr Hp He]. constructor; [exact Hr | | exact He].
  intros t s k H. destruct (Hp t s k H) as (? & ? & ? & ?). repeat split; auto; lia.
Qed.

Lemma filter_all (A : Type) (f : A -> bool) l :
  (forall x, In x l -> f x = true) -> filter f l = l.
Proof.
  induction l as [|x l IH]; intros H; [reflexivity|]. cbn [filter].
  rewrite (H x (or_introl eq_refl)), IH; [reflexivity|].
  intros y Hy. apply H. now right.
Qed.

Lemma nth_pages_down v0 : forall n q,
  (q < n)%nat ->
  nth q (pages_down v0 n) 0 = v0 + 4096 * (Z.of_nat n - 1 - Z.of_nat q).
Proof.
  induction n as [|n IH]; intros q Hq; [lia|]. cbn [pages_down].
  destruct q as [|q]; cbn [nth]; [f_equal; lia|].
  rewrite IH by lia. f_equal. lia.
Qed.

Lemma in_pages_down_iff v0 n i :
  0 <= i < Z.of_nat n -> In (v0 + 4096 * i) (pages_down v0 n).
Proof.
  induction n as [|n IH]; intros Hi; [lia|]. cbn [pages_down].
  destruct (Z.eq_dec i (Z.of_nat n)) as [->|]; [now left|].
  right. apply IH. lia.
Qed.

Lemma lookup_2m_key pt m v w :
  key v 21 = key w 21 -> lookup_2m pt m v = lookup_2m pt m w.
Proof.
  intros Hk. unfold lookup_2m. rewrite !entry_addr_idx.
  rewrite (idx_of_key v 21 39), (idx_of_key v 21 30), (idx_of_key v 21 21) by lia.
  rewrite (idx_of_key w 21 39), (idx_of_key w 21 30), (idx_of_key w 21 21) by lia.
  rewrite Hk. reflexivity.
Qed.

Lemma lookup_2m_not_4k pt m v e :
  lookup_2m pt m v = Some e -> lookup_4k pt m v = None.
Proof.
  unfold lookup_2m, lookup_4k. cbv zeta.
  destruct (m (entry_addr pt v 39) =? 0); [discriminate|].
  destruct (m (entry_addr (page_down (m (entry_addr pt v 39))) v 30) =? 0);
    [discriminate|].
  match goal with
  | |- context [Z.land ?x 128 =? 0] => destruct (Z.land x 128 =? 0)
  end; [discriminate|].
  intros _. cbn [negb]. rewrite orb_true_r. reflexivity.
Qed.

(** A segment above the top of memory on BIOS, at any alignment. *)
Lemma fw_loadseg_bios_higher pt own eap env offs filesz vaddr memsz st :
  tables_ok pt own (ptmem st) (file_buf st) ->
  file_buf st mod 4096 = 0 -> file_buf st < 2^63 ->
  canonical vaddr = true -> ram env < vaddr -> loader_top <= vaddr ->
  0 < memsz -> memsz + 8190 < 2^32 -> file_size env <> 0 ->
  vaddr + memsz <= 2^64 - 16384 ->
  (forall i, 0 <= i < Z.of_nat (npages vaddr (seg_size vaddr memsz)) ->
             lookup_4k pt (ptmem st) (page_down vaddr + 4096 * i) = None) ->
  exists st' own' buf,
    fw_loadseg false pt eap env offs filesz vaddr memsz st
      = Some (1, st', load_content offs filesz memsz buf) /\
    tables_ok pt own' (ptmem st') (file_buf st') /\
    buf mod 4096 = 0 /\ file_buf st <= buf /\
    file_buf st' = buf + seg_size vaddr memsz /\
    forall i, 0 <= i < Z.of_nat (npages vaddr (seg_size vaddr memsz)) ->
      lookup_4k pt (ptmem st') (page_down vaddr + 4096 * i)
      = Some (buf + seg_size vaddr memsz
              - 4096 * (Z.of_nat (npages vaddr (seg_size vaddr memsz)) - i) + 3).
Proof.
  intros Hok Hal Hlt Hcan Hram Htop Hm0 Hm1 Hfs Hw Hfree.
  destruct (owned_page _ _ _ _ Hok _ _ (ok_root _ _ _ _ Hok)) as (Hpa & Hpt0 & Hptf).
  assert (Hge : 8192 <= file_buf st)
    by (pose proof (Z.div_mod pt 4096 ltac:(lia)); lia).
  pose proof (Z.mod_pos_bound vaddr 4096 ltac:(lia)) as Ho.
  assert (Hv : 0 <= vaddr) by (unfold loader_top, TAGS_MAX in Htop; lia).
  set (size := seg_size vaddr memsz) in *.
  pose proof (Z.mod_pos_bound (memsz + vaddr mod 4096 + 4095) 4096 ltac:(lia)) as Hb.
  assert (Hsize : size = page_down (memsz + vaddr mod 4096 + 4095)).
  { unfold size, seg_size, u32, page_down. apply Z.mod_small. lia. }
  assert (Hsz : memsz <= size <= memsz + 8190 /\ size mod 4096 = 0).
  { rewrite Hsize. split; [unfold page_down; lia | apply page_down_aligned]. }
  destruct Hsz as (Hsz & Hsal).
  destruct (fw_map_run pt (ptmem st) (file_buf st) own Hok st (file_buf st) vaddr size
              eq_refl eq_refl Hal Hlt ltac:(lia) Hcan Hv ltac:(lia) ltac:(lia))
    as (st1 & own1 & Hrun & Hok1 & _ & Hfb1 & Hal1 & _ & _ & Hfr & _).
  replace (page_down (file_buf st)) with (file_buf st) in Hfr
    by (unfold page_down; lia).
  rewrite Z.eqb_refl in Hfr.
  set (n := npages vaddr size) in *.
  assert (Hall : fresh_pages pt (ptmem st) vaddr size = pages_down (page_down vaddr) n).
  { unfold fresh_pages. fold n. apply filter_all. intros v Hin.
    destruct (in_pages_down _ _ _ Hin) as (i & Hi & ->).
    unfold unmapped. now rewrite Hfree. }
  rewrite Hall, pages_down_length in Hfr.
  assert (Hnz : Z.of_nat n <= 2^20 + 2).
  { unfold n, npages. rewrite Z2Nat.id by (apply Z.div_pos; lia).
    apply Z.div_le_upper_bound; lia. }
  exists {| ptmem := ptmem st1; file_buf := u64 (file_buf st1 + size);
            efi_pages := efi_pages st1 |}, own1, (file_buf st1).
  assert (Hu : u64 (file_buf st1 + size) = file_buf st1 + size)
    by (unfold u64; apply Z.mod_small; lia).
  split.
  { unfold fw_loadseg. fold size.
    destruct (Z.eqb_spec memsz 0); [lia|].
    destruct (Z.eqb_spec (file_size env) 0); [contradiction|]. cbn [orb].
    destruct (Z.ltb_spec vaddr loader_top); [lia|].
    destruct (Z.ltb_spec (ram env) vaddr); [|lia].
    rewrite Hrun. reflexivity. }
  cbn [ptmem file_buf]. rewrite Hu.
  split; [apply (tables_ok_weaken _ _ _ (file_buf st1)); [lia | exact Hok1]|].
  split; [exact Hal1|]. split; [lia|]. split; [reflexivity|].
  intros i Hi.
  pose proof (Hfr (Z.to_nat (Z.of_nat n - 1 - i)) ltac:(lia)) as H.
  rewrite nth_pages_down in H by lia.
  rewrite Z2Nat.id in H by lia.
  replace (Z.of_nat n - 1 - (Z.of_nat n - 1 - i)) with i in H by lia.
  rewrite H. f_equal.
  replace (page_down (file_buf st1 + size - 1)) with (file_buf st1 + size - 4096).
  2:{ unfold page_down.
      replace (file_buf st1 + size - 1) with (4095 + (file_buf st1 / 4096 + size / 4096 - 1) * 4096).
      2:{ pose proof (Z.div_mod (file_buf st1) 4096 ltac:(lia)).
          pose proof (Z.div_mod size 4096 ltac:(lia)). lia. }
      rewrite Z.mod_add by lia. change (4095 mod 4096) with 4095.
      pose proof (Z.div_mod (file_buf st1) 4096 ltac:(lia)).
      pose proof (Z.div_mod size 4096 ltac:(lia)). lia. }
  lia.
Qed.

(** X16.  On BIOS, [fw_map] called the way [fw_loadseg] calls it (the
    allocation cursor [file_buf], page aligned, as the physical address)
    on page tables that form a tree below the cursor always returns 1,
    whatever is mapped already; every 4 KiB translation there was, inside
    the range or outside, is still there with the same entry; and the
    tables are again a tree below the new, page-aligned cursor, so the same
    holds for the next call. *)
Theorem fw_map_keeps_translations pt own virt size st :
  tables_ok pt own (ptmem st) (file_buf st) ->
  file_buf st mod 4096 = 0 -> file_buf st < 2^63 ->
  canonical virt = true -> 0 <= virt -> 0 <= size < 2^32 ->
  virt + size <= 2^64 - 4096 ->
  exists st' own',
    fw_map false pt (file_buf st) virt size st = Some (1, st') /\
    tables_ok pt own' (ptmem st') (file_buf st') /\
    file_buf st <= file_buf st' /\ file_buf st' mod 4096 = 0 /\
    forall w e, lookup_4k pt (ptmem st) w = Some e ->
                lookup_4k pt (ptmem st') w = Some e.
Proof.
  intros Hok Hal Hlt Hcan Hv Hs Hw.
  destruct (owned_page _ _ _ _ Hok _ _ (ok_root _ _ _ _ Hok)) as (Hpa & Hpt0 & Hptf).
  assert (Hge : 8192 <= file_buf st)
    by (pose proof (Z.div_mod pt 4096 ltac:(lia)); lia).
  destruct (fw_map_run pt (ptmem st) (file_buf st) own Hok st (file_buf st) virt size
              eq_refl eq_refl Hal Hlt ltac:(lia) Hcan Hv Hs Hw)
    as (st' & own' & Hrun & Hok' & _ & Hfb & Hal' & _ & Hkeep & _).
  exists st', own'. split; [exact Hrun|]. split; [exact Hok'|].
  split; [lia|]. split; [exact Hal'|exact Hkeep].
Qed.

Lemma fw_map_keeps_translations_witness :
  exists st' own',
    fw_map false 4096 (file_buf bios_state0) higher_half 8192 bios_state0
      = Some (1, st') /\
    tables_ok 4096 own' (ptmem st') (file_buf st') /\
    file_buf bios_state0 <= file_buf st' /\ file_buf st' mod 4096 = 0 /\
    forall w e, lookup_4k 4096 (ptmem bios_state0) w = Some e ->
                lookup_4k 4096 (ptmem st') w = Some e.
Proof.
  apply (fw_map_keeps_translations 4096 (bios_owner 4096 5) higher_half 8192
           bios_state0).
  - apply (bios_pagetables_tree 4096 5 (fun _ => 0) 1048576); try reflexivity; lia.
  - reflexivity.
  - cbn [file_buf bios_state0]. lia.
  - reflexivity.
  - unfold higher_half. lia.
  - lia.
  - unfold higher_half. lia.
Defined.

(** X17.  A higher-half segment on BIOS: for a page-aligned [vaddr] above
    the top of memory whose pages have no translation yet, [fw_loadseg]
    succeeds, puts the segment (file bytes, then zeroes) at a page-aligned
    buffer [buf] at or above the old cursor, moves the cursor to the page
    after the buffer, and leaves page [i] of the segment mapped to page
    [i] of the buffer, present and writable. *)
Theorem fw_loadseg_higher_half_mapped
        pt own eap env offs filesz vaddr memsz st :
  tables_ok pt own (ptmem st) (file_buf st) ->
  file_buf st mod 4096 = 0 -> file_buf st < 2^63 ->
  canonical vaddr = true -> ram env < vaddr -> loader_top <= vaddr ->
  vaddr mod 4096 = 0 ->
  0 < memsz -> memsz + 8190 < 2^32 -> file_size env <> 0 ->
  vaddr + memsz <= 2^64 - 16384 ->
  (forall i, 0 <= i < (memsz + 4095) / 4096 ->
             lookup_4k pt (ptmem st) (vaddr + 4096 * i) = None) ->
  exists st' own' buf,
    fw_loadseg false pt eap env offs filesz vaddr memsz st
      = Some (1, st', load_content offs filesz memsz buf) /\
    tables_ok pt own' (ptmem st') (file_buf st') /\
    buf mod 4096 = 0 /\ file_buf st <= buf /\
    file_buf st' = buf + 4096 * ((memsz + 4095) / 4096) /\
    forall i, 0 <= i < (memsz + 4095) / 4096 ->
      lookup_4k pt (ptmem st') (vaddr + 4096 * i) = Some (buf + 4096 * i + 3).
Proof.
  intros Hok Hal Hlt Hcan Hram Htop Hva Hm0 Hm1 Hfs Hw Hfree.
  set (k := (memsz + 4095) / 4096) in *.
  assert (Hk : 0 <= k) by (apply Z.div_pos; lia).
  assert (Hsize : seg_size vaddr memsz = 4096 * k).
  { unfold seg_size, u32, page_down. rewrite Hva, Z.add_0_r.
    pose proof (Z.div_mod (memsz + 4095) 4096 ltac:(lia)).
    pose proof (Z.mod_pos_bound (memsz + 4095) 4096 ltac:(lia)).
    fold k in H. rewrite Z.mod_small; lia. }
  assert (Hn : Z.of_nat (npages vaddr (seg_size vaddr memsz)) = k).
  { unfold npages. rewrite Hsize, Hva, Z.add_0_l, Z2Nat.id.
    - replace (4096 * k + 4095) with (4095 + k * 4096) by lia.
      rewrite Z.div_add by lia. reflexivity.
    - apply Z.div_pos; lia. }
  assert (Hpd : page_down vaddr = vaddr) by (unfold page_down; lia).
  destruct (fw_loadseg_bios_higher pt own eap env offs filesz vaddr memsz st
              Hok Hal Hlt Hcan Hram Htop Hm0 Hm1 Hfs Hw)
    as (st' & own' & buf & Hrun & Hok' & Hbal & Hble & Hfb' & Hmap).
  { rewrite Hn, Hpd. exact Hfree. }
  rewrite Hn, Hpd, Hsize in *.
  exists st', own', buf. split; [exact Hrun|]. split; [exact Hok'|].
  split; [exact Hbal|]. split; [exact Hble|]. split; [exact Hfb'|].
  intros i Hi. rewrite (Hmap i Hi). f_equal. lia.
Qed.

Lemma fw_loadseg_higher_half_mapped_witness :
  exists st' own' buf,
    fw_loadseg false 4096 no_allocpages seg_env2 0 5000 higher_half 8192 bios_state0
      = Some (1, st', load_content 0 5000 8192 buf) /\
    tables_ok 4096 own' (ptmem st') (file_buf st') /\
    buf mod 4096 = 0 /\ file_buf bios_state0 <= buf /\
    file_buf st' = buf + 4096 * ((8192 + 4095) / 4096) /\
    forall i, 0 <= i < (8192 + 4095) / 4096 ->
      lookup_4k 4096 (ptmem st') (higher_half + 4096 * i) = Some (buf + 4096 * i + 3).
Proof.
  apply (fw_loadseg_higher_half_mapped 4096 (bios_owner 4096 5) no_allocpages
           seg_env2 0 5000 higher_half 8192 bios_state0).
  - apply (bios_pagetables_tree 4096 5 (fun _ => 0) 1048576); try reflexivity; lia.
  - reflexivity.
  - cbn [file_buf bios_state0]. lia.
  - reflexivity.
  - cbn [ram seg_env2]. unfold higher_half. lia.
  - unfold loader_top, TAGS_MAX, higher_half. lia.
  - reflexivity.
  - lia.
  - lia.
  - cbn [file_size seg_env2]. lia.
  - unfold higher_half. lia.
  - intros i Hi. change ((8192 + 4095) / 4096) with 2 in Hi.
    assert (Hc : i = 0 \/ i = 1) by lia.
    destruct Hc as [-> | ->]; vm_compute; reflexivity.
Defined.

(** X18.  The same with a [vaddr] that is not page aligned: [fw_loadseg]
    still succeeds and puts the segment at the start of the buffer, but
    [fw_map] goes through one page more than the buffer has and hands the
    frames out from the last one down, so page [i] of the segment is mapped
    to the page before page [i] of the buffer: the page that [vaddr] is in
    is mapped to the page below the buffer. *)
Theorem fw_loadseg_unaligned_one_page_low
        pt own eap env offs filesz vaddr memsz st :
  tables_ok pt own (ptmem st) (file_buf st) ->
  file_buf st mod 4096 = 0 -> file_buf st < 2^63 ->
  canonical vaddr = true -> ram env < vaddr -> loader_top <= vaddr ->
  vaddr mod 4096 <> 0 ->
  0 < memsz -> memsz + 8190 < 2^32 -> file_size env <> 0 ->
  vaddr + memsz <= 2^64 - 16384 ->
  (forall i, 0 <= i <= (memsz + vaddr mod 4096 + 4095) / 4096 ->
             lookup_4k pt (ptmem st) (page_down vaddr + 4096 * i) = None) ->
  exists st' own' buf,
    fw_loadseg false pt eap env offs filesz vaddr memsz st
      = Some (1, st', load_content offs filesz memsz buf) /\
    tables_ok pt own' (ptmem st') (file_buf st') /\
    buf mod 4096 = 0 /\ file_buf st <= buf /\
    file_buf st' = buf + 4096 * ((memsz + vaddr mod 4096 + 4095) / 4096) /\
    forall i, 0 <= i <= (memsz + vaddr mod 4096 + 4095) / 4096 ->
      lookup_4k pt (ptmem st') (page_down vaddr + 4096 * i)
      = Some (buf - 4096 + 4096 * i + 3).
Proof.
  intros Hok Hal Hlt Hcan Hram Htop Hva Hm0 Hm1 Hfs Hw Hfree.
  pose proof (Z.mod_pos_bound vaddr 4096 ltac:(lia)) as Ho.
  set (k := (memsz + vaddr mod 4096 + 4095) / 4096) in *.
  assert (Hk : 0 <= k) by (apply Z.div_pos; lia).
  assert (Hsize : seg_size vaddr memsz = 4096 * k).
  { unfold seg_size, u32, page_down.
    pose proof (Z.div_mod (memsz + vaddr mod 4096 + 4095) 4096 ltac:(lia)).
    pose proof (Z.mod_pos_bound (memsz + vaddr mod 4096 + 4095) 4096 ltac:(lia)).
    fold k in H. rewrite Z.mod_small; lia. }
  assert (Hn : Z.of_nat (npages vaddr (seg_size vaddr memsz)) = k + 1).
  { unfold npages. rewrite Hsize, Z2Nat.id.
    - replace (vaddr mod 4096 + 4096 * k + 4095)
        with (vaddr mod 4096 + 4095 + k * 4096) by lia.
      rewrite Z.div_add by lia.
      replace ((vaddr mod 4096 + 4095) / 4096) with 1; [lia|].
      apply Z.div_unique with (r := vaddr mod 4096 - 1); lia.
    - apply Z.div_pos; lia. }
  destruct (fw_loadseg_bios_higher pt own eap env offs filesz vaddr memsz st
              Hok Hal Hlt Hcan Hram Htop Hm0 Hm1 Hfs Hw)
    as (st' & own' & buf & Hrun & Hok' & Hbal & Hble & Hfb' & Hmap).
  { rewrite Hn. intros i Hi. apply Hfree. lia. }
  rewrite Hn, Hsize in *.
  exists st', own', buf. split; [exact Hrun|]. split; [exact Hok'|].
  split; [exact Hbal|]. split; [exact Hble|]. split; [exact Hfb'|].
  intros i Hi. rewrite (Hmap i ltac:(lia)). f_equal. lia.
Qed.

Lemma fw_loadseg_unaligned_one_page_low_witness :
  exists st' own' buf,
    fw_loadseg false 4096 no_allocpages seg_env2 0 4096 (higher_half + 16) 4096
               bios_state0
      = Some (1, st', load_content 0 4096 4096 buf) /\
    tables_ok 4096 own' (ptmem st') (file_buf st') /\
    buf mod 4096 = 0 /\ file_buf bios_state0 <= buf /\
    file_buf st' = buf + 4096 * ((4096 + (higher_half + 16) mod 4096 + 4095) / 4096) /\
    forall i, 0 <= i <= (4096 + (higher_half + 16) mod 4096 + 4095) / 4096 ->
      lookup_4k 4096 (ptmem st') (page_down (higher_half + 16) + 4096 * i)
      = Some (buf - 4096 + 4096 * i + 3).
Proof.
  apply (fw_loadseg_unaligned_one_page_low 4096 (bios_owner 4096 5) no_allocpages
           seg_env2 0 4096 (higher_half + 16) 4096 bios_state0).
  - apply (bios_pagetables_tree 4096 5 (fun _ => 0) 1048576); try reflexivity; lia.
  - reflexivity.
  - cbn [file_buf bios_state0]. lia.
  - reflexivity.
  - cbn [ram seg_env2]. unfold higher_half. lia.
  - unfold loader_top, TAGS_MAX, higher_half. lia.
  - vm_compute. discriminate.
  - lia.
  - lia.
  - cbn [file_size seg_env2]. lia.
  - unfold higher_half. lia.
  - intros i Hi.
    change ((4096 + (higher_half + 16) mod 4096 + 4095) / 4096) with 2 in Hi.
    assert (Hc : i = 0 \/ i = 1 \/ i = 2) by lia.
    destruct Hc as [-> | [-> | ->]]; vm_compute; reflexivity.
Defined.

(** X19.  [fw_map] does not split a large page, it drops it: when the range
    starts inside a 2 MiB page of the identity map, the 2 MiB entry is
    replaced by an empty table in which only the pages of the range are
    filled in, so every other address of that 2 MiB page, which had a
    translation before the call, has none after it. *)
Theorem fw_map_drops_large_page pt own virt size st w e :
  tables_ok pt own (ptmem st) (file_buf st) ->
  file_buf st mod 4096 = 0 -> file_buf st < 2^63 ->
  canonical virt = true -> 0 <= virt -> 0 < size < 2^32 ->
  virt + size <= 2^48 -> 0 <= w < 2^48 ->
  w / 2^21 = virt / 2^21 ->
  w < page_down virt \/ virt + size <= page_down w ->
  lookup_2m pt (ptmem st) w = Some e ->
  exists st',
    fw_map false pt (file_buf st) virt size st = Some (1, st') /\
    lookup_4k pt (ptmem st') w = None /\
    lookup_2m pt (ptmem st') w = None.
Proof.
  intros Hok Hal Hlt Hcan Hv Hs Hw48 Hw Hsame Hout Hl.
  destruct (owned_page _ _ _ _ Hok _ _ (ok_root _ _ _ _ Hok)) as (Hpa & Hpt0 & Hptf).
  assert (Hge : 8192 <= file_buf st)
    by (pose proof (Z.div_mod pt 4096 ltac:(lia)); lia).
  destruct (fw_map_run pt (ptmem st) (file_buf st) own Hok st (file_buf st) virt size
              eq_refl eq_refl Hal Hlt ltac:(lia) Hcan Hv ltac:(lia) ltac:(lia))
    as (st' & own' & Hrun & _ & _ & _ & _ & _ & _ & _ & Hsplit).
  exists st'. split; [exact Hrun|].
  pose proof (Z.mod_pos_bound virt 4096 ltac:(lia)) as Ho.
  pose proof (Z.mod_le virt 4096 Hv ltac:(lia)) as Hole.
  pose proof (Z.mod_pos_bound w 4096 ltac:(lia)) as How.
  set (n := npages virt size).
  assert (Hn : Z.of_nat n = (virt mod 4096 + size + 4095) / 4096).
  { unfold n, npages. rewrite Z2Nat.id; [reflexivity|]. apply Z.div_pos; lia. }
  pose proof (Z.div_mod (virt mod 4096 + size + 4095) 4096 ltac:(lia)) as Hdm.
  pose proof (Z.mod_pos_bound (virt mod 4096 + size + 4095) 4096 ltac:(lia)) as Hdb.
  assert (Hk21 : key w 21 = key (page_down virt) 21).
  { unfold key. f_equal. rewrite Hsame. unfold page_down.
    pose proof (Z.div_mod virt (2^21) ltac:(lia)) as Hd.
    pose proof (Z.mod_pos_bound virt (2^21) ltac:(lia)) as Hb.
    assert (Hmm : virt mod 4096 = (virt mod 2^21) mod 4096).
    { change (2 ^ 21) with (4096 * 512).
      rewrite Z.rem_mul_r by lia. rewrite (Z.mul_comm 4096), Z.mod_add by lia.
      now rewrite Z.mod_mod by lia. }
    pose proof (Z.mod_le (virt mod 2^21) 4096 ltac:(lia) ltac:(lia)).
    apply Z.div_unique with (r := virt mod 2^21 - virt mod 4096); lia. }
  apply (Hsplit w (page_down virt) e).
  - unfold fresh_pages. fold n. apply filter_In. split.
    + pose proof (in_pages_down_iff (page_down virt) n 0 ltac:(lia)) as Hin0.
      rewrite Z.mul_0_r, Z.add_0_r in Hin0. exact Hin0.
    + unfold unmapped.
      rewrite (lookup_2m_not_4k pt (ptmem st) (page_down virt) e); [reflexivity|].
      rewrite <- (lookup_2m_key pt (ptmem st) w (page_down virt) Hk21). exact Hl.
  - exact Hk21.
  - intros v' Hin. unfold fresh_pages in Hin. fold n in Hin.
    apply filter_In in Hin. destruct Hin as (Hin & _).
    destruct (in_pages_down _ _ _ Hin) as (i & Hi & ->).
    unfold key. change (2 ^ 12) with 4096. change (2 ^ (48 - 12)) with (2 ^ 36).
    assert (Hpd : page_down virt = 4096 * (virt / 4096))
      by (unfold page_down; pose proof (Z.div_mod virt 4096 ltac:(lia)); lia).
    assert (Hpw : page_down w = 4096 * (w / 4096))
      by (unfold page_down; pose proof (Z.div_mod w 4096 ltac:(lia)); lia).
    rewrite Hpd in *. rewrite Hpw in Hout.
    replace (4096 * (virt / 4096) + 4096 * i) with ((virt / 4096 + i) * 4096) by lia.
    rewrite Z.div_mul by lia.
    pose proof (Z.div_mod virt 4096 ltac:(lia)) as Hdv.
    assert (0 <= virt / 4096) by (apply Z.div_pos; lia).
    assert (0 <= w / 4096 < 2 ^ 36).
    { split; [apply Z.div_pos; lia | apply Z.div_lt_upper_bound; lia]. }
    pose proof (Z.div_mod w 4096 ltac:(lia)) as Hdw.
    rewrite !Z.mod_small by lia. lia.
  - exact Hl.
Qed.

Lemma fw_map_drops_large_page_witness :
  exists st',
    fw_map false 4096 (file_buf bios_state0) 3221225472 4096 bios_state0
      = Some (1, st') /\
    lookup_4k 4096 (ptmem st') 3221229568 = None /\
    lookup_2m 4096 (ptmem st') 3221229568 = None.
Proof.
  apply (fw_map_drops_large_page 4096 (bios_owner 4096 5) 3221225472 4096
           bios_state0 3221229568 (3221225472 + 131)).
  - apply (bios_pagetables_tree 4096 5 (fun _ => 0) 1048576); try reflexivity; lia.
  - reflexivity.
  - cbn [file_buf bios_state0]. lia.
  - reflexivity.
  - lia.
  - lia.
  - lia.
  - lia.
  - reflexivity.
  - right. vm_compute. discriminate.
  - vm_compute. reflexivity.
Defined.

(** X20.  The call [fw_fini] makes for the frame buffer,
    [fw_map(addr, addr, size)]: on BIOS, for a page-aligned address other
    than the allocation cursor and a size of whole pages, a range without
    4 KiB translations (as under the large pages of the identity map) comes
    out mapped one to one, page by page, present and writable. *)
Theorem fw_map_identity pt own addr size st :
  tables_ok pt own (ptmem st) (file_buf st) ->
  file_buf st mod 4096 = 0 -> file_buf st < 2^63 ->
  canonical addr = true -> addr mod 4096 = 0 -> 8192 <= addr < 2^63 ->
  addr <> file_buf st ->
  size mod 4096 = 0 -> 0 < size < 2^32 ->
  (forall i, 0 <= i < size / 4096 ->
             lookup_4k pt (ptmem st) (addr + 4096 * i) = None) ->
  exists st',
    fw_map false pt addr addr size st = Some (1, st') /\
    forall i, 0 <= i < size / 4096 ->
      lookup_4k pt (ptmem st') (addr + 4096 * i) = Some (addr + 4096 * i + 3).
Proof.
  intros Hok Hal Hlt Hcan Ha Hab Hne Hsal Hs Hfree.
  assert (Hpd : page_down addr = addr) by (unfold page_down; lia).
  pose proof (Z.div_mod size 4096 ltac:(lia)) as Hds.
  destruct (fw_map_run pt (ptmem st) (file_buf st) own Hok st addr addr size
              eq_refl eq_refl Hal Hlt Hab Hcan ltac:(lia) ltac:(lia) ltac:(lia))
    as (st' & own' & Hrun & _ & _ & _ & _ & _ & _ & Hfr & _).
  exists st'. split; [exact Hrun|].
  rewrite Hpd in Hfr.
  destruct (Z.eqb_spec addr (file_buf st)) as [|_]; [contradiction|].
  set (n := npages addr size) in *.
  assert (Hn : Z.of_nat n = size / 4096).
  { unfold n, npages. rewrite Ha, Z.add_0_l, Z2Nat.id.
    - replace (size + 4095) with (4095 + size / 4096 * 4096) by lia.
      rewrite Z.div_add by lia. reflexivity.
    - apply Z.div_pos; lia. }
  assert (Hall : fresh_pages pt (ptmem st) addr size = pages_down addr n).
  { unfold fresh_pages. fold n. rewrite Hpd. apply filter_all. intros v Hin.
    destruct (in_pages_down _ _ _ Hin) as (i & Hi & ->).
    unfold unmapped. rewrite Hfree by lia. reflexivity. }
  rewrite Hall, pages_down_length in Hfr.
  intros i Hi.
  pose proof (Hfr (Z.to_nat (Z.of_nat n - 1 - i)) ltac:(lia)) as H.
  rewrite nth_pages_down in H by lia.
  rewrite Z2Nat.id in H by lia.
  replace (Z.of_nat n - 1 - (Z.of_nat n - 1 - i)) with i in H by lia.
  rewrite H. f_equal.
  replace (page_down (addr + size - 1)) with (addr + size - 4096).
  2:{ unfold page_down.
      replace (addr + size - 1) with (4095 + (addr / 4096 + size / 4096 - 1) * 4096).
      2:{ pose proof (Z.div_mod addr 4096 ltac:(lia)). lia. }
      rewrite Z.mod_add by lia. change (4095 mod 4096) with 4095.
      pose proof (Z.div_mod addr 4096 ltac:(lia)). lia. }
  lia.
Qed.

Lemma fw_map_identity_witness :
  exists st',
    fw_map false 4096 4244635648 4244635648 8192 bios_state0 = Some (1, st') /\
    forall i, 0 <= i < 8192 / 4096 ->
      lookup_4k 4096 (ptmem st') (4244635648 + 4096 * i)
      = Some (4244635648 + 4096 * i + 3).
Proof.
  apply (fw_map_identity 4096 (bios_owner 4096 5) 4244635648 8192 bios_state0).
  - apply (bios_pagetables_tree 4096 5 (fun _ => 0) 1048576); try reflexivity; lia.
  - reflexivity.
  - cbn [file_buf bios_state0]. lia.
  - reflexivity.
  - reflexivity.
  - lia.
  - cbn [file_buf bios_state0]. lia.
  - reflexivity.
  - lia.
  - intros i Hi. change (8192 / 4096) with 2 in Hi.
    assert (Hc : i = 0 \/ i = 1) by lia.
    destruct Hc as [-> | ->]; vm_compute; reflexivity.
Defined.

(** ** The program headers [fw_loadkernel] goes through *)

Section ElfFacts.

Variable ST : bool.
Variable pt : Z.
Variable efi_allocpages : Z -> Z -> Z -> Z.
Variable env : seg_env.
Variable kb : Z.
Variable pressed : list load_op -> bool.

Lemma load_all_rq hs st ops :
  load_all ST pt efi_allocpages env pressed hs true st ops = Some (SegDone true st ops).
Proof. destruct hs as [|[p_type [[[offs filesz] vaddr] memsz]] hs]; reflexivity. Qed.

Lemma elf_segments_spec is64 kernel_buf phentsize :
  0 <= kb -> kb + 4096 + 65536 < 2^64 ->
  phdr_read is64 <= phentsize < 65536 ->
  forall remaining off rq st ops,
    0 <= off <= 4095 ->
    elf_segments ST pt efi_allocpages env kb pressed is64 kernel_buf phentsize
                 remaining (kb + off) rq st ops
    = load_all ST pt efi_allocpages env pressed
        (List.map (fun i => phdr kb is64 kernel_buf (kb + off + phentsize * Z.of_nat i))
                  (seq 0 (Z.to_nat (Z.min (Z.of_nat remaining)
                                          ((4095 - off) / phentsize)))))
        rq st ops.
Proof.
  intros Hkb Hwrap Hsz.
  assert (Hpos : 0 < phentsize) by (destruct is64; cbn [phdr_read] in Hsz; lia).
  induction remaining as [|r IH]; intros off rq st ops Hoff.
  - cbn [elf_segments].
    assert (Hq : 0 <= (4095 - off) / phentsize) by (apply Z.div_pos; lia).
    rewrite Z.min_l by lia. reflexivity.
  - cbn [elf_segments]. destruct rq; cbn [negb andb].
    { now rewrite load_all_rq. }
    replace (u64 (kb + off + phentsize)) with (kb + (off + phentsize))
      by (unfold u64; rewrite Z.mod_small; lia).
    destruct (Z.ltb_spec (kb + (off + phentsize)) (kb + 4096)) as [Hin|Hout].
    + (* the header ends before the end of the buffer *)
      set (q := (4095 - off) / phentsize).
      assert (Hq : (4095 - (off + phentsize)) / phentsize = q - 1).
      { unfold q. replace (4095 - off) with (4095 - (off + phentsize) + 1 * phentsize) by lia.
        rewrite Z.div_add by lia. lia. }
      assert (Hq1 : 0 <= q - 1) by (rewrite <- Hq; apply Z.div_pos; lia).
      replace (Z.to_nat (Z.min (Z.of_nat (S r)) q))
        with (S (Z.to_nat (Z.min (Z.of_nat r) (q - 1)))) by lia.
      cbn [seq List.map]. rewrite <- seq_shift, map_map.
      replace (kb + off + phentsize * Z.of_nat 0) with (kb + off) by lia.
      assert (Hmap : List.map (fun i => phdr kb is64 kernel_buf
                                 (kb + off + phentsize * Z.of_nat (S i)))
                       (seq 0 (Z.to_nat (Z.min (Z.of_nat r) (q - 1))))
                     = List.map (fun i => phdr kb is64 kernel_buf
                                 (kb + (off + phentsize) + phentsize * Z.of_nat i))
                       (seq 0 (Z.to_nat (Z.min (Z.of_nat r) (q - 1))))).
      { apply map_ext. intros i. f_equal. lia. }
      rewrite Hmap, <- Hq.
      assert (H4 : in_kernel_buf kb (kb + off) 4 = true).
      { unfold in_kernel_buf. apply andb_true_iff. split;
          [apply Z.leb_le | apply Z.leb_le]; destruct is64; cbn [phdr_read] in Hsz; lia. }
      assert (Hr : in_kernel_buf kb (kb + off) (phdr_read is64) = true).
      { unfold in_kernel_buf. apply andb_true_iff. split;
          [apply Z.leb_le | apply Z.leb_le]; lia. }
      rewrite H4, Hr.
      destruct (phdr kb is64 kernel_buf (kb + off))
        as [p_type [[[offs filesz] vaddr] memsz]].
      cbn [load_all].
      destruct (p_type =? PT_LOAD).
      * destruct (fw_loadseg ST pt efi_allocpages env offs filesz vaddr memsz st)
          as [[[res st'] ops']|]; [|reflexivity].
        destruct (res =? 0); [reflexivity|]. apply IH. lia.
      * apply IH. lia.
    + (* it does not: the loop is over *)
      assert (Hq : (4095 - off) / phentsize = 0) by (apply Z.div_small; lia).
      rewrite Hq, Z.min_r by lia. reflexivity.
Qed.

End ElfFacts.

(** X21.  The loop of [fw_loadkernel] over the program headers of an ELF
    kernel goes through the headers at [e_phoff + i * e_phentsize] for
    [i] below [e_phnum] and below [(4095 - e_phoff) / e_phentsize] only:
    a header that does not end before byte 4096 of the file, and every
    header after it, is left out without an error.  The [PT_LOAD] headers
    among the others are handed to [fw_loadseg] in the order of the table,
    until a key request is pending or a segment fails. *)
Theorem elf_headers_past_buffer_skipped
        ST pt eap env kb pressed is64 kernel_buf phoff phentsize phnum rq st ops :
  0 <= kb -> kb + 4096 + 65536 < 2^64 ->
  0 <= phoff <= 4095 -> phdr_read is64 <= phentsize < 65536 -> 0 <= phnum ->
  elf_segments ST pt eap env kb pressed is64 kernel_buf phentsize
               (Z.to_nat phnum) (kb + phoff) rq st ops
  = load_all ST pt eap env pressed
             (headers_in_buf kb is64 kernel_buf phoff phentsize phnum) rq st ops.
Proof.
  intros Hkb Hwrap Hoff Hsz Hn. unfold headers_in_buf.
  rewrite (elf_segments_spec ST pt eap env kb pressed is64 kernel_buf phentsize
             Hkb Hwrap Hsz (Z.to_nat phnum) phoff rq st ops Hoff).
  rewrite Z2Nat.id by exact Hn. reflexivity.
Qed.

Lemma elf_headers_past_buffer_skipped_witness :
  elf_segments false 4096 no_allocpages seg_env2 32768 (fun _ => false) true
               elf_file0 56 (Z.to_nat 3) (32768 + 4000) false bios_state0 []
  = load_all false 4096 no_allocpages seg_env2 (fun _ => false)
             (headers_in_buf 32768 true elf_file0 4000 56 3) false bios_state0 [].
Proof.
  apply (elf_headers_past_buffer_skipped false 4096 no_allocpages seg_env2 32768
           (fun _ => false) true elf_file0 4000 56 3 false bios_state0 []);
    cbn [phdr_read]; lia.
Defined.

(** The file [elf_file0] has three program headers; the second does not
    end before byte 4096, so the kernel is taken as loaded with its first
    segment alone in memory. *)
Example fw_loadkernel_elf_file0 :
  option_map (fun o => match o with
                       | KernelLoaded kernel_mode smp kernel_entry rq _ ops =>
                           Some (kernel_mode, smp, kernel_entry, rq, ops)
                       | _ => None
                       end)
    (fw_loadkernel_elf false 4096 no_allocpages seg_env2 32768 (fun _ => false)
                       elf_file0 0 1 false bios_state0)
  = Some (Some (MODE_MB64, 1, 1048576, false, [OpRead 4096 4096 1048576])).
Proof. vm_compute. reflexivity. Qed.
